(* ===== verification/_CoqProject ===== *)
-Q . S2P
Prelude.v
Stdcxx.v
Regex.v
Constants.v
WireProtocol.v
Messages.v
Prog.v
Threads.v
ReadWrite.v
Posix.v
File.v
Backend.v
Recovery.v
BackendInv.v
BackendSteps.v
BackendSpec.v
CommitSpec.v
Service.v
BackendProps.v
Rollback.v
UploadProps.v
LogSpec.v
RestartSpec.v
RecoveryProps.v
Arguments.v
Dispatcher.v
DispatcherSpec.v
Server.v
ServerProps.v
SignalHandler.v
DispatcherProps.v
Session.v
Client.v
SessionProps.v
GoogleTest.v
Scenarios.v
TestSuite.v
TestSuiteProps.v
FloatingPoint.v
LinkedPtr.v
ParamUtil.v
CartesianProduct.v
TypedTests.v
ParamRegistry.v
Printers.v
NativeArrays.v
LockOrder.v
RelyGuarantee.v
Timers.v
Races.v
Sharing.v
Views.v
CriticalSections.v
Interleaving.v
InterleavedRecovery.v
InterleavingProps.v
InterleavedServer.v
UploadProtocol.v
UploadRules.v
UploadMaps.v
UploadThreads.v
UploadReaders.v
ConcurrentUploads.v
