(* ===== verification/Prelude.v ===== *)
(** * A verified model of the client/server transactional file system

    ** The program

    A server keeps files in a directory and lets clients read them and append to them in
    transactions; a client library talks to it over TCP, and a test program drives the
    client.  A client sends requests of a fixed header (command, transaction id, sequence
    number, content length, padded to 64 characters) and a payload, and receives responses
    of a header of 128 characters and a payload.  The server process has one thread that accepts
    connections, one that tells the others which descriptors are readable, one per
    connection and one per open transaction (its timer).  The writes of a transaction are
    buffered by sequence number; COMMIT appends them to the file; four logs record how
    transactions started and ended, and are replayed at the first request after a start.

    ** The files, and the code they model

    Foundations:
    - Prelude: bytes, machine integers, lemmas on lists and maps.
    - Stdcxx: what the program uses of the C++ library: characters, printf of integers,
      [istringstream], [stoi], and the unspecified order in which an [unordered_map] is
      visited (the class [HashOrder], any order).
    - Regex: a parser, a denotation and an executable matcher for the ECMAScript patterns.
    - Prog: programs as trees of atomic actions, locks, waits and ends of the process, with
      exceptions as sums; [run] executes one alone, [wp] and [always] are its program logic
      (results, and every point where the process may crash).
    - Threads: many programs interleaved in any order, schedules, and the argument that
      mutexes taken in the order of a rank do not deadlock, unless a thread waits for
      something else while it holds some.
    - Posix: the files, the clock, [rand] and a schedule that says which of the coming
      system calls fail or fall short (the record [World]); how names resolve to files is a
      parameter ([PathResolution]).

    ClientServerShared:
    - Constants (constants.h, errors.h), WireProtocol (wire-protocol.h), ReadWrite
      (read-write-helper.h), Arguments (argument-helper.h).
    - Messages: the functions that build and take apart messages, getContentLength,
      generateResponse and getClientRequestAsTuple of server-backend.cpp, generateRequest
      and getServerResponseAsTuple of client.cpp.

    Server/Server:
    - File (file.h, file.cpp, exceptions.h).
    - Backend (server-backend.h, .cpp): the state with its heap of shared objects (a
      reference to an erased map entry is undefined in the model too), the five commands,
      the timer, the log.  Recovery: replaying the logs, processRequest.  On top:
      BackendInv (the invariant and the abstract view of a state), BackendSteps and
      BackendSpec and CommitSpec (what each command does, on every branch and at every
      crash point), Service (the abstract service as a relation, and that processCommand
      implements it), BackendProps, Rollback (a COMMIT whose write fails, step by step),
      UploadProps, LogSpec, RestartSpec, RecoveryProps.
    - Dispatcher (server-dispatcher.h), a template over the interface [BackendOps], with an
      arbitrary network; DispatcherSpec and DispatcherProps prove what its threads do
      against the interface alone.  The accept loop waits on its condition variable as the
      code does, without a predicate: the wait ends when the notifier notifies it after it
      has begun, or by itself where [spurious] says so; and [accept] blocks, with the
      mutexes held, while there is nobody to accept.
    - Server (server.h, server.cpp, main.cpp) instantiates it with the backend; ServerProps.
    - SignalHandler (signal-handler.h): the dialogue and what it erases.
    - LockOrder: every thread of the server takes its mutexes in one order, and only the
      accept loop, in [accept], blocks while it holds some.  Races: a schedule in which the
      server comes to rest, and one in which a timer erases a transaction under a WRITE.
    - RelyGuarantee: protocols between threads, what it is for one thread to be [secure]
      under a protocol, and that a pool of secure threads keeps the protocol under every
      schedule.  Timers: the clock and the detached timers as threads, and the class
      [Timely] of protocols beside which they are secure.  Sharing states the protocol
      behind the mutexes of the backend; Views and CriticalSections have a rule for each building block of the commands, from what a
      thread knows before it to what it knows after; Interleaving and InterleavedRecovery go
      through the commands and the recovery with them.  InterleavingProps: connections that
      serve requests side by side.  InterleavedServer: the protocol lifted to the
      dispatcher, and the whole program, from the constructor of [Server] to the threads of
      its connections; and a schedule in which a late notification freezes it.
    - UploadProtocol: a second protocol, of clients that upload to transactions of their
      own: every id belongs to the thread that drew it, and the mutex of a file object
      protects the contents of the file.  UploadRules and UploadMaps have its rules,
      UploadThreads what NEW_TXN, WRITE, COMMIT and ABORT do for such a thread, UploadReaders
      what READ does beside them, ConcurrentUploads the clients, from the bytes of their
      requests to the replies they check.

    ClientServerTest:
    - Client (client.h, client.cpp), over its end of a connection; Session and SessionProps
      join the message codec, the dispatcher, the backend and the client to whole sessions.
    - TestSuite (main.cpp, client-server-test.cpp): every test, over the client and server of
      this development (Scenarios) and the assertions of GoogleTest; TestSuiteProps
      runs it once, as an example.

    GoogleTestFramework (headers; most of the framework is declared there and compiled
    elsewhere): GoogleTest (the assertions the tests use), FloatingPoint (the comparison in
    units in the last place), LinkedPtr (the circular reference-counting pointer), ParamUtil
    (parameter generators and the registration of tests for them), CartesianProduct (the
    product of two generators, over the iterator interface), TypedTests (the registration
    of type-parameterised tests), ParamRegistry (the registry of parameterised test cases
    and the macros that fill it), Printers (how operands of failed comparisons are printed),
    NativeArrays (comparing and copying arrays, and arrays as containers).

    ** What the theorems show

    - Refinement: processCommand and whole sessions implement the abstract service, from
      every state of the invariant and under every schedule of failing and partial system
      calls; with all mutexes released at the end.
    - Function: what COMMIT, NEW_TXN, ABORT, the timer and recovery do; that WRITEs commute
      and transactions do not disturb each other; that what is uploaded in pieces is read
      back; that main starts the server exactly on valid arguments.
    - Crashes: at every crash point of a COMMIT the file is its old contents and a prefix of
      the data, and a restart cuts it back unless something of the commit was logged - when
      the server directory is the working directory (see Findings below), the names in the
      logs are different files and none is a log, and the recorded size is the one the
      file had.  A restart reads the logs, removes them, and logs the open transactions
      anew.
    - Texts: the patterns accept exactly the headers, ports and addresses they are meant to;
      requests, responses and the logs that logTransaction keeps (of file names that are
      one word) survive printing and reading.
    - Threads: notifying and serving make progress, and accepting does when its waits end by
      themselves or the notifier runs beside it.  At rest no mutex is held, unless the accept
      loop is in [accept] with nobody there (or a thread is ending the process, or a loop
      of the model is out of fuel); stale_notification_freezes is a schedule that ends there
      for good.  Under every schedule no thread goes through a reference to what is gone, the state is
      well formed whenever [m_member_mtx] is free, and when nothing moves any more every
      request has been answered.  The clock moves on meanwhile, and every transaction has its
      timer, which wakes, looks at it, and sleeps on or ends.  Hypotheses: the ids [rand]
      gives are all different (and not in the logs found at the start), and no open
      transaction is left alone for [transaction_timeout_seconds] ([in_time] of Timers); the
      theorems reused_id_dangles and timer_races_write show that neither can be left out.
      Uploads side by side: when moreover no system call fails and no name is that of
      another file or of a log, every schedule ends with every client acknowledged and every
      file holding its old contents and the data of the uploads committed to it, each in one
      piece, and nothing of those aborted; on the way, a file is in such a state whenever
      its mutex is free.  What a READ meanwhile returns is a beginning of what the file holds
      from then on, and can be a part of a COMMIT (read_sees_part_of_a_commit).
    - Errors and bounds: content lengths the server hands on, payload arrays that overflow
      the stack, paths that overflow the handler's buffer, the rollback that misses its
      file, the timer that erases an entry in use.
    - The test framework: reference counts, generators, registration, float comparison,
      what printed containers show, who owns a copied array.

    ** Bounds and fuel

    Loops that are not structural take fuel, and a loop that runs out of it [diverge]s: it
    waits for ever, so no theorem that a program returns can be satisfied by it.  The fuel
    is computed where the code bounds the loop: reads and writes of n bytes have n + 1
    turns (each transfers a byte), verifying and writing buffers one more than the buffers
    there are (each turn finds its own), picking an id as many as the coming results of
    [rand], parsing a log as many as its characters.  The threads of the server loop for
    ever; [start], [m_notifier] and [m_txn_timer_function] take the number of turns and the
    theorems hold for any, and [m_processRequest] is proved to return for a bound on its
    turns that the bytes of the connection give.  Integers are [Z] with the widths and the
    undefined overflows of the code written out.

    ** Findings

    What the model showed of the code is stated where it can be proved
    (commits_mix_their_log_lines, read_sees_part_of_a_commit, reused_id_dangles,
    stale_notification_freezes, rollback_misses_the_file, timer_races_write,
    oversized_request_undefined, spaced_name_removes_another_file, ctrlc_overflows,
    eof_confirms).  The logs are written in the server's directory but read
    back, like the sizes of files, relative to the working directory; the theorems on
    recovery say so by the names they use.

    ** Not modelled

    - Debug output (the #ifdef DEBUG parts and messages on standard output other than the
      dialogues), seeding [rand], registering the signal handler.
    - The two [fsync]s of a file's destructor: contents reach the disk with the write.
    - The data of sockets below the order and size of the pieces that arrive and leave; the
      timed wait of a connection on its condition variable is the wait for its descriptor
      to be readable or for the timeout.
    - Memory exhaustion, and the size of the stack but for the arrays of the payload.
    - Interleavings finer than the atomic actions of Prog, weak memory included: a data
      race shows as an interleaving.  The functional theorems on the backend are about one
      request at a time, but for those on uploads; LockOrder, Races and the files from
      RelyGuarantee on are about all interleavings.
    - Of the test framework: tuples, type lists, death tests, platform macros and generators
      of more than two components, which the program does not use, and what the headers
      only declare.
    - What other threads find after a timeout: the theorems on all interleavings follow a
      schedule up to where an open transaction reaches its timeout (what its timer then does
      is timer_expires, and how it can race with a WRITE timer_races_write).  The clock does
      not go back there.
    - Uploads through the threads of the dispatcher: the network of the model fixes what
      arrives on a connection in advance, and an upload sends an id it has to learn first.
      The clients of the concurrent uploads call [processRequest] with the bytes of their
      requests; that a connection of the dispatcher passes its requests on as they arrive
      is server_session and server_never_dangles.
*)
From Stdlib Require Import ZArith Lia List Ascii String Bool.
From stdpp Require Import base gmap strings list fin_maps sorting.

#[global] Set Default Goal Selector "!".
#[global] Unset Mangle Names.

(** ** Bytes

    A [std::string] and a [char] buffer are sequences of 8-bit characters. *)

Abbreviation byte := ascii (only parsing).
Abbreviation bytes := (list ascii).

(** The bytes of a C++ string literal. *)
Definition str (s : string) : bytes := String.list_ascii_of_string s.

Definition NUL : ascii := "000"%char.

(** [length()] of a string, as the (non-negative) integer the code computes with. *)
Abbreviation len s := (Z.of_nat (length s)) (only parsing).

(** ** Fixed-width integers

    [int] is a 32-bit and [long long] a 64-bit two's complement integer. *)

Definition INT32_MAX : Z := 2147483647.
Definition INT32_MIN : Z := -2147483648.
Definition INT64_MAX : Z := 9223372036854775807.
Definition INT64_MIN : Z := -9223372036854775808.

Definition int32 (z : Z) : Prop := (INT32_MIN ≤ z ≤ INT32_MAX)%Z.

(** [static_cast<int>] of a wider integer: the low 32 bits, read as signed. *)
Definition to_int32 (z : Z) : Z :=
  let m := (z mod 2 ^ 32)%Z in if (m <? 2 ^ 31)%Z then m else (m - 2 ^ 32)%Z.

#[global] Instance int32_dec z : Decision (int32 z).
Proof. unfold int32. apply _. Defined.

Lemma to_int32_id z : int32 z → to_int32 z = z.
Proof.
  unfold int32, to_int32, INT32_MIN, INT32_MAX. intros H.
  destruct (Z.ltb_spec (z mod 2 ^ 32) (2 ^ 31)) as [Hm|Hm];
    destruct (decide (0 ≤ z)%Z); Z.to_euclidean_division_equations; lia.
Qed.

Lemma to_int32_range z : int32 (to_int32 z).
Proof.
  unfold int32, to_int32, INT32_MIN, INT32_MAX.
  destruct (Z.ltb_spec (z mod 2 ^ 32) (2 ^ 31)) as [Hm|Hm];
    pose proof (Z.mod_pos_bound z (2 ^ 32) ltac:(lia)); lia.
Qed.

(** ** Automation *)

(** Facts about list segments that the string components share. *)
Create HintDb csfs.

(** Destruct the scrutinee of a [match] or [if] in the goal, keeping its equation. *)
Ltac case_goal :=
  match goal with
  | |- context [match ?x with _ => _ end] =>
      lazymatch x with
      | context [match _ with _ => _ end] => fail
      | _ => let E := fresh "E" in destruct x eqn:E
      end
  end.

(** The same in a hypothesis. *)
Ltac case_hyp H :=
  match type of H with
  | context [match ?x with _ => _ end] =>
      lazymatch x with
      | context [match _ with _ => _ end] => fail
      | _ => let E := fresh "E" in destruct x eqn:E
      end
  end.

(** Read boolean comparisons as propositions. *)
Ltac to_prop :=
  repeat match goal with
    | H : (_ && _)%bool = true |- _ => apply andb_true_iff in H as [? ?]
    | H : (_ || _)%bool = false |- _ => apply orb_false_iff in H as [? ?]
    | H : negb _ = true |- _ => apply negb_true_iff in H
    | H : negb _ = false |- _ => apply negb_false_iff in H
    | H : (_ <? _)%Z = true |- _ => apply Z.ltb_lt in H
    | H : (_ <? _)%Z = false |- _ => apply Z.ltb_ge in H
    | H : (_ <=? _)%Z = true |- _ => apply Z.leb_le in H
    | H : (_ <=? _)%Z = false |- _ => apply Z.leb_gt in H
    | H : (_ =? _)%Z = true |- _ => apply Z.eqb_eq in H
    | H : (_ =? _)%Z = false |- _ => apply Z.eqb_neq in H
    | H : bool_decide _ = true |- _ => apply bool_decide_eq_true in H
    | H : bool_decide _ = false |- _ => apply bool_decide_eq_false in H
    end.

(** ** Lists *)

Section lists.
Context {A : Type}.
Implicit Types (l k : list A) (p : A → bool).

(** The longest prefix whose elements satisfy [p], and what follows it. *)
Fixpoint span p l : list A * list A :=
  match l with
  | [] => ([], [])
  | x :: l' => if p x then let '(u, v) := span p l' in (x :: u, v) else ([], l)
  end.

Lemma span_app p l k :
  forallb p l = true →
  match k with [] => True | x :: _ => p x = false end →
  span p (l ++ k) = (l, k).
Proof.
  induction l as [|x l IH]; simpl; intros Hl Hk.
  - destruct k as [|y k]; simpl; [done|]. by rewrite Hk.
  - apply andb_true_iff in Hl as [-> Hl]. by rewrite IH.
Qed.

Lemma span_eq p l u v : span p l = (u, v) → l = u ++ v.
Proof.
  revert u v; induction l as [|x l IH]; simpl; intros u v H; [by simplify_eq|].
  destruct (p x); [|by simplify_eq].
  destruct (span p l) as [u' v'] eqn:E. simplify_eq. simpl. f_equal. by apply IH.
Qed.

Lemma span_fst_forall p l : forallb p (span p l).1 = true.
Proof.
  induction l as [|x l IH]; simpl; [done|].
  destruct (p x) eqn:E; [|done]. destruct (span p l); simpl in *. by rewrite E, IH.
Qed.

Lemma forallb_app_iff p l k : forallb p (l ++ k) = true ↔ forallb p l = true ∧ forallb p k = true.
Proof. rewrite forallb_app. apply andb_true_iff. Qed.

Lemma forallb_impl p (q : A → bool) l :
  (∀ x, p x = true → q x = true) → forallb p l = true → forallb q l = true.
Proof. rewrite !forallb_forall. intros H Hl x Hx. eauto. Qed.

Lemma forallb_repeat p x n : p x = true → forallb p (repeat x n) = true.
Proof. intros H. induction n; simpl; [done|]. by rewrite H. Qed.

End lists.

#[export] Hint Resolve forallb_repeat span_fst_forall : csfs.
