(* ===== verification/Stdcxx.v ===== *)
(** * The parts of the C++ standard library the program computes with

    [std::to_string] on integers, the C-string view of a buffer, and formatted
    extraction ([operator>>]) from a string stream into [std::string], [int] and
    [long long], with overflow and failure as the standard defines them. *)
From S2P Require Import Prelude.
From Stdlib Require Import ZArith Lia List Ascii String Bool.
From stdpp Require Import base gmap strings list fin_maps sorting.
#[local] Set Default Goal Selector "!".
Local Open Scope Z_scope.

(** ** Hash tables *)

(** The order in which a range-based [for] visits an [unordered_map] is unspecified. *)
Class HashOrder := {
  iterate {K A} `{Countable K} (m : gmap K A) : list (K * A);
  iterate_perm {K A} `{Countable K} (m : gmap K A) : iterate m ≡ₚ map_to_list m
}.

Lemma iterate_fst_NoDup `{HashOrder} {K A} `{Countable K} (m : gmap K A) : NoDup (iterate m).*1.
Proof. rewrite iterate_perm. apply NoDup_fst_map_to_list. Qed.

Lemma elem_of_iterate `{HashOrder} {K A} `{Countable K} (m : gmap K A) k x : (k, x) ∈ iterate m ↔ m !! k = Some x.
Proof. rewrite iterate_perm. apply elem_of_map_to_list. Qed.

(** ** Characters *)

Definition code (c : ascii) : Z := Z.of_N (N_of_ascii c).

(** [isspace] in the "C" locale: tab, line feed, vertical tab, form feed, carriage
    return and space. *)
Definition is_space (c : ascii) : bool :=
  ((code c =? 32) || ((9 <=? code c) && (code c <=? 13))).

Definition is_digit (c : ascii) : bool := (48 <=? code c) && (code c <=? 57).

Definition digit_value (c : ascii) : Z := code c - 48.

Definition digit (d : Z) : ascii := ascii_of_N (Z.to_N (48 + d)).

(** ** C strings *)

(** What [string(p)] and [strlen(p)] see of a buffer: the bytes before the first NUL. *)
Fixpoint c_str (s : bytes) : bytes :=
  match s with
  | [] => []
  | c :: s' => if bool_decide (c = NUL) then [] else c :: c_str s'
  end.

Definition nul_free (s : bytes) : bool := forallb (λ c, negb (bool_decide (c = NUL))) s.

Lemma c_str_nul_free s : nul_free (c_str s) = true.
Proof.
  induction s as [|c s IH]; simpl; [done|].
  case_bool_decide as E; [done|]. simpl. by rewrite bool_decide_eq_false_2, IH.
Qed.

Lemma c_str_id s : nul_free s = true → c_str s = s.
Proof.
  induction s as [|c s IH]; simpl; [done|]. intros [Hc Hs]%andb_true_iff.
  apply negb_true_iff in Hc. rewrite Hc. by rewrite IH.
Qed.

Lemma c_str_length s : (length (c_str s) ≤ length s)%nat.
Proof. induction s as [|c s IH]; simpl; [lia|]. case_bool_decide; simpl; lia. Qed.

Lemma c_str_full s : length (c_str s) = length s → nul_free s = true.
Proof.
  induction s as [|c s IH]; simpl; [done|]. case_bool_decide; [done|]. simpl. intros [= E]. by apply IH.
Qed.

Lemma c_str_app_nul s t : nul_free s = true → c_str (s ++ NUL :: t) = s.
Proof.
  induction s as [|c s IH]; simpl; [done|]. intros [Hc Hs]%andb_true_iff.
  apply negb_true_iff in Hc. rewrite Hc. by rewrite IH.
Qed.

(** ** [std::to_string] *)

(** The decimal digits of [n ≥ 0], in front of [acc]; [fuel] bounds their number. *)
Fixpoint digits_go (fuel : nat) (n : Z) (acc : bytes) : bytes :=
  match fuel with
  | O => acc
  | S fuel =>
      let acc' := digit (n mod 10) :: acc in
      if n <? 10 then acc' else digits_go fuel (n / 10) acc'
  end.

Definition digits (n : Z) : bytes := digits_go (S (Z.to_nat (Z.log2 n))) n [].

Definition to_string (z : Z) : bytes :=
  if z <? 0 then "-"%char :: digits (- z) else digits z.

(** The value of a digit string (the [strtoll] side of the conversion). *)
Fixpoint digits_value (acc : Z) (s : bytes) : Z :=
  match s with
  | [] => acc
  | c :: s' => digits_value (10 * acc + digit_value c) s'
  end.

Lemma code_digit d : 0 ≤ d < 10 → code (digit d) = 48 + d.
Proof.
  intros H. unfold code, digit. rewrite N_ascii_embedding by lia. lia.
Qed.

Lemma digit_is_digit d : 0 ≤ d < 10 → is_digit (digit d) = true.
Proof. intros H. unfold is_digit. rewrite code_digit by done. lia. Qed.

Lemma digit_value_digit d : 0 ≤ d < 10 → digit_value (digit d) = d.
Proof. intros H. unfold digit_value. rewrite code_digit by done. lia. Qed.

Lemma digit_digit_value c : is_digit c = true → digit (digit_value c) = c.
Proof.
  unfold is_digit, digit_value, digit, code. intros H. to_prop.
  rewrite <- (ascii_N_embedding c) at 2. f_equal. lia.
Qed.

Lemma digit_value_range c : is_digit c = true → 0 ≤ digit_value c < 10.
Proof. unfold is_digit, digit_value. intros H. to_prop. lia. Qed.

Lemma digits_value_app acc s t :
  digits_value acc (s ++ t) = digits_value (digits_value acc s) t.
Proof. revert acc; induction s as [|c s IH]; intros acc; simpl; auto. Qed.

Lemma digits_value_ge acc s :
  0 ≤ acc → forallb is_digit s = true → acc ≤ digits_value acc s.
Proof.
  revert acc; induction s as [|c s IH]; simpl; intros acc Ha; [lia|].
  intros [Hc Hs]%andb_true_iff. pose proof (digit_value_range c Hc).
  etrans; [|apply IH; [lia|done]]. lia.
Qed.

Lemma log2_div10 n : 10 ≤ n → Z.log2 (n / 10) < Z.log2 n.
Proof.
  intros H. apply Z.log2_lt_pow2.
  - apply Z.div_str_pos. lia.
  - assert (0 < Z.log2 n) by (apply Z.log2_pos; lia).
    destruct (Z.log2_spec n) as [_ H2]; [lia|].
    replace (Z.succ (Z.log2 n)) with (1 + Z.log2 n) in H2 by lia.
    rewrite Z.pow_add_r in H2 by lia.
    Z.to_euclidean_division_equations; lia.
Qed.

(** A run of [digits_go] with enough fuel produces a digit string [ds] of value [n],
    without a leading zero unless [n] is a single digit. *)
Lemma digits_go_spec fuel n acc :
  0 ≤ n → Z.log2 n < Z.of_nat fuel →
  ∃ ds, digits_go fuel n acc = ds ++ acc ∧ forallb is_digit ds = true ∧
    ds ≠ [] ∧ digits_value 0 ds = n ∧ (∀ k, n < 10 ^ Z.of_nat (S k) → (length ds ≤ S k)%nat) ∧
    (10 <= n → ∃ c ds', ds = c :: ds' ∧ 0 < digit_value c).
Proof.
  revert n acc; induction fuel as [|fuel IH]; intros n acc Hn Hf.
  { pose proof (Z.log2_nonneg n). lia. }
  simpl. pose proof (Z.mod_pos_bound n 10 ltac:(lia)) as Hm.
  destruct (Z.ltb_spec n 10) as [Hlt|Hge].
  - exists [digit (n mod 10)]. rewrite Z.mod_small by lia. simpl.
    rewrite digit_is_digit, digit_value_digit by lia.
    repeat split; try done; try lia.
  - destruct (IH (n / 10) (digit (n mod 10) :: acc)) as (ds & -> & Hd & Hne & Hv & Hl & Hc).
    + apply Z.div_pos; lia.
    + pose proof (log2_div10 n Hge). lia.
    + exists (ds ++ [digit (n mod 10)]). rewrite <- app_assoc. split; [done|].
      rewrite forallb_app, Hd. simpl. rewrite digit_is_digit by lia.
      split; [done|]. split; [by destruct ds|].
      rewrite digits_value_app, Hv. simpl. rewrite digit_value_digit by lia.
      split; [rewrite (Z.div_mod n 10) at 3; lia|].
      split.
      * intros k Hk. rewrite length_app. simpl.
        destruct k as [|k]; [lia|].
        enough (length ds ≤ S k)%nat by lia. apply Hl.
        rewrite (Nat2Z.inj_succ (S k)), Z.pow_succ_r in Hk by lia.
        apply Z.div_lt_upper_bound; lia.
      * intros _. destruct (decide (10 ≤ n / 10)) as [H10|H10].
        -- destruct (Hc H10) as (c & ds' & -> & Hpos). by exists c, (ds' ++ [digit (n mod 10)]).
        -- assert (1 ≤ n / 10) by (apply Z.div_le_lower_bound; lia).
           assert (length ds ≤ 1)%nat by (apply (Hl 0%nat); lia).
           destruct ds as [|c [|? ?]]; simpl in *; [done| |lia].
           exists c, [digit (n mod 10)]. split; [done|lia].
Qed.

Lemma digits_spec n :
  0 ≤ n → ∃ ds, digits n = ds ∧ forallb is_digit ds = true ∧ ds ≠ [] ∧
    digits_value 0 ds = n ∧ (∀ k, n < 10 ^ Z.of_nat (S k) → (length ds ≤ S k)%nat) ∧
    (10 <= n → ∃ c ds', ds = c :: ds' ∧ 0 < digit_value c).
Proof.
  intros Hn. unfold digits.
  destruct (digits_go_spec (S (Z.to_nat (Z.log2 n))) n []) as (ds & -> & H); [done| |].
  - pose proof (Z.log2_nonneg n). lia.
  - exists ds. by rewrite app_nil_r.
Qed.

Lemma digits_forall n : 0 ≤ n → forallb is_digit (digits n) = true.
Proof. intros H. by destruct (digits_spec n H) as (ds & -> & ? & _). Qed.

Lemma digits_ne n : 0 ≤ n → digits n ≠ [].
Proof. intros H. by destruct (digits_spec n H) as (ds & -> & _ & ? & _). Qed.

Lemma digits_value_digits n : 0 ≤ n → digits_value 0 (digits n) = n.
Proof. intros H. by destruct (digits_spec n H) as (ds & -> & _ & _ & ? & _). Qed.

Lemma digits_length n k : 0 ≤ n < 10 ^ Z.of_nat (S k) → (length (digits n) ≤ S k)%nat.
Proof. intros [H ?]. destruct (digits_spec n H) as (ds & -> & _ & _ & _ & Hl & _). auto. Qed.

(** Printing is canonical: a digit string without a leading zero prints back. *)
Lemma digits_go_acc fuel n acc : digits_go fuel n acc = digits_go fuel n [] ++ acc.
Proof.
  revert n acc; induction fuel as [|fuel IH]; intros n acc; simpl; [done|].
  destruct (n <? 10); [done|].
  rewrite (IH _ (_ :: acc)), (IH _ [_]). by rewrite <- app_assoc.
Qed.

Lemma digits_go_fuel f1 f2 n acc :
  0 ≤ n → Z.log2 n < Z.of_nat f1 → Z.log2 n < Z.of_nat f2 →
  digits_go f1 n acc = digits_go f2 n acc.
Proof.
  revert f2 n acc; induction f1 as [|f1 IH]; intros f2 n acc Hn H1 H2.
  { pose proof (Z.log2_nonneg n). lia. }
  destruct f2 as [|f2]; [pose proof (Z.log2_nonneg n); lia|].
  simpl. destruct (Z.ltb_spec n 10) as [?|Hge]; [done|].
  pose proof (log2_div10 n Hge).
  apply IH; [apply Z.div_pos|..]; lia.
Qed.

Lemma digits_step v c :
  1 ≤ v → is_digit c = true → digits (10 * v + digit_value c) = digits v ++ [c].
Proof.
  intros Hv Hc. pose proof (digit_value_range c Hc) as Hr.
  unfold digits at 1. cbn [digits_go].
  destruct (Z.ltb_spec (10 * v + digit_value c) 10) as [?|_]; [lia|].
  replace ((10 * v + digit_value c) mod 10) with (digit_value c)
    by (Z.to_euclidean_division_equations; lia).
  replace ((10 * v + digit_value c) / 10) with v
    by (Z.to_euclidean_division_equations; lia).
  rewrite digit_digit_value, digits_go_acc by done. f_equal.
  apply digits_go_fuel; [lia| |pose proof (Z.log2_nonneg v); lia].
  assert (Hlt : Z.log2 v < Z.log2 (10 * v + digit_value c)).
  { replace v with ((10 * v + digit_value c) / 10) at 1
      by (Z.to_euclidean_division_equations; lia).
    apply log2_div10. lia. }
  lia.
Qed.

Lemma digits_single c : is_digit c = true → digits (digit_value c) = [c].
Proof.
  intros Hc. pose proof (digit_value_range c Hc). unfold digits. cbn [digits_go].
  destruct (Z.ltb_spec (digit_value c) 10) as [_|?]; [|lia].
  rewrite Z.mod_small by lia. by rewrite digit_digit_value.
Qed.

Lemma digits_digits_value c s :
  is_digit c = true → 0 < digit_value c → forallb is_digit s = true →
  digits (digits_value 0 (c :: s)) = c :: s.
Proof.
  intros Hc Hpos. induction s as [|x s IH] using rev_ind; intros Hs.
  - simpl. by apply digits_single.
  - apply forallb_app_iff in Hs as [Hs Hx]. simpl in Hx. rewrite andb_true_r in Hx.
    specialize (IH Hs). rewrite app_comm_cons, digits_value_app. cbn [digits_value] in *.
    rewrite digits_step; [by rewrite IH| |done].
    etrans; [|apply digits_value_ge]; [lia|lia|done].
Qed.

Lemma to_string_length z k :
  - 10 ^ Z.of_nat k < z < 10 ^ Z.of_nat (S k) → (length (to_string z) ≤ S k)%nat.
Proof.
  intros H. unfold to_string. destruct (Z.ltb_spec z 0) as [Hz|Hz].
  - simpl. destruct k as [|k]; [simpl in H; lia|].
    pose proof (digits_length (- z) k ltac:(lia)). lia.
  - apply digits_length. lia.
Qed.

Lemma to_string_int32_length z : int32 z → (length (to_string z) ≤ 11)%nat.
Proof. intros H. apply to_string_length. unfold int32, INT32_MIN, INT32_MAX in H. lia. Qed.

(** ** Formatted extraction

    An [istringstream]: the characters not yet consumed, and whether the stream is
    still good (no [failbit]; [eofbit] is an empty rest). *)
Record istream := { is_rest : bytes; is_ok : bool }.

Definition istringstream (s : bytes) : istream := {| is_rest := s; is_ok := true |}.

(** The [sentry]: skip white space; reaching the end sets [failbit]. *)
Definition skipws (i : istream) : istream :=
  let r := (span is_space (is_rest i)).2 in
  {| is_rest := r; is_ok := is_ok i && negb (bool_decide (r = [])) |}.

(** [i >> s] for [std::string s]: a maximal run of non-space characters.  A failed
    sentry leaves the old value. *)
Definition extract_string (i : istream) (old : bytes) : bytes * istream :=
  let j := skipws i in
  if is_ok j then
    let '(w, r) := span (λ c, negb (is_space c)) (is_rest j) in
    (w, {| is_rest := r; is_ok := true |})
  else (old, j).

(** [i >> z] for a signed integer of range [[lo, hi]]: an optional sign and the
    longest run of digits.  No digits: 0 and [failbit]; out of range: the nearer bound
    and [failbit]. *)
Definition extract_int (lo hi : Z) (i : istream) (old : Z) : Z * istream :=
  let j := skipws i in
  if is_ok j then
    let '(sign, r) :=
      match is_rest j with
      | c :: r => if bool_decide (c = "-"%char) then (-1, r)
                  else if bool_decide (c = "+"%char) then (1, r) else (1, is_rest j)
      | [] => (1, [])
      end in
    let '(ds, r') := span is_digit r in
    match ds with
    | [] => (0, {| is_rest := r'; is_ok := false |})
    | _ =>
        let v := sign * digits_value 0 ds in
        if v <? lo then (lo, {| is_rest := r'; is_ok := false |})
        else if hi <? v then (hi, {| is_rest := r'; is_ok := false |})
        else (v, {| is_rest := r'; is_ok := true |})
    end
  else (old, j).

(** [operator>>] by the type of its right operand. *)
Class Extract (T : Type) := extract : istream → T → T * istream.

#[export] Instance extract_std_string : Extract bytes := extract_string.
#[export] Instance extract_std_int : Extract Z := extract_int INT32_MIN INT32_MAX.

(** A tuple is extracted field by field, from the first to the last. *)
#[export] Instance extract_pair {A B} `{Extract A} `{Extract B} : Extract (A * B) :=
  λ i '(a, b), let '(a', i1) := extract i a in
               let '(b', i2) := extract i1 b in ((a', b'), i2).

Lemma is_space_digit c : is_digit c = true → is_space c = false.
Proof. unfold is_digit, is_space. intros H. to_prop. lia. Qed.

Lemma skipws_word c s : is_space c = false → skipws (istringstream (c :: s)) = istringstream (c :: s).
Proof. intros H. unfold skipws. simpl. by rewrite H. Qed.

Lemma skipws_spaces sp c s :
  forallb is_space sp = true → is_space c = false →
  skipws (istringstream (sp ++ c :: s)) = istringstream (c :: s).
Proof.
  intros Hsp Hc. unfold skipws, istringstream. simpl. by rewrite span_app.
Qed.

(** What may follow a field: nothing, or a white space character. *)
Definition field_end (r : bytes) : Prop :=
  match r with [] => True | c :: _ => is_space c = true end.

Lemma field_end_not_digit r :
  field_end r → match r with [] => True | c :: _ => is_digit c = false end.
Proof.
  destruct r as [|c r]; simpl; [done|]. intros H.
  destruct (is_digit c) eqn:E; [|done]. by rewrite is_space_digit in H.
Qed.

Lemma extract_string_word sp w r old :
  forallb is_space sp = true → w ≠ [] → forallb (λ c, negb (is_space c)) w = true →
  field_end r →
  extract_string (istringstream (sp ++ w ++ r)) old = (w, istringstream r).
Proof.
  intros Hsp Hne Hw Hr. destruct w as [|c w]; [done|].
  pose proof Hw as [Hc _]%andb_true_iff. apply negb_true_iff in Hc.
  unfold extract_string. cbn [app]. rewrite skipws_spaces by done. cbn [is_ok is_rest istringstream].
  change (c :: w ++ r) with ((c :: w) ++ r).
  rewrite span_app; [done..|]. destruct r; simpl in *; [done|]. by rewrite Hr.
Qed.

(** The two shapes of an integer field. *)
Definition int_field (neg : bool) (ds : bytes) : bytes := if neg then "-"%char :: ds else ds.

Definition int_value (neg : bool) (ds : bytes) : Z :=
  if neg then - digits_value 0 ds else digits_value 0 ds.

(** An out-of-range value is clamped and stops the stream. *)
Definition clamp (lo hi v : Z) : Z := if v <? lo then lo else if hi <? v then hi else v.

Definition in_range (lo hi v : Z) : bool := (lo <=? v) && (v <=? hi).

Lemma extract_int_field lo hi sp neg ds r old :
  lo ≤ hi → forallb is_space sp = true → ds ≠ [] → forallb is_digit ds = true → field_end r →
  extract_int lo hi (istringstream (sp ++ int_field neg ds ++ r)) old =
    (clamp lo hi (int_value neg ds),
     {| is_rest := r; is_ok := in_range lo hi (int_value neg ds) |}).
Proof.
  intros Hle Hsp Hne Hds Hr%field_end_not_digit. destruct ds as [|d ds]; [done|].
  pose proof Hds as [Hd _]%andb_true_iff.
  assert (Hf : extract_int lo hi (istringstream (sp ++ int_field neg (d :: ds) ++ r)) old =
    let v := int_value neg (d :: ds) in
    if v <? lo then (lo, {| is_rest := r; is_ok := false |})
    else if hi <? v then (hi, {| is_rest := r; is_ok := false |})
    else (v, {| is_rest := r; is_ok := true |})).
  { unfold extract_int, int_field, int_value. destruct neg.
    - cbn [app]. rewrite skipws_spaces by done. cbn [is_ok is_rest istringstream].
      rewrite bool_decide_eq_true_2 by done. change (d :: ds ++ r) with ((d :: ds) ++ r).
      rewrite span_app by done.
      by replace (-1 * digits_value 0 (d :: ds)) with (- digits_value 0 (d :: ds)) by lia.
    - cbn [app]. rewrite skipws_spaces by auto using is_space_digit.
      cbn [is_ok is_rest istringstream].
      rewrite !bool_decide_eq_false_2 by (intros ->; done).
      change (d :: ds ++ r) with ((d :: ds) ++ r).
      rewrite span_app by done.
      by replace (1 * digits_value 0 (d :: ds)) with (digits_value 0 (d :: ds)) by lia. }
  rewrite Hf. cbv zeta. unfold clamp, in_range.
  set (v := int_value neg (d :: ds)). clearbody v.
  destruct (Z.ltb_spec v lo); [by rewrite (proj2 (Z.leb_gt lo v)) by lia|].
  rewrite (proj2 (Z.leb_le lo v)) by lia.
  destruct (Z.ltb_spec hi v); [by rewrite (proj2 (Z.leb_gt v hi)) by lia|].
  by rewrite (proj2 (Z.leb_le v hi)) by lia.
Qed.

Lemma to_string_int_field z :
  ∃ neg ds, to_string z = int_field neg ds ∧ ds ≠ [] ∧ forallb is_digit ds = true ∧
    int_value neg ds = z.
Proof.
  unfold to_string. destruct (Z.ltb_spec z 0) as [Hz|Hz].
  - exists true, (digits (- z)). repeat split.
    + apply digits_ne. lia.
    + apply digits_forall. lia.
    + simpl. rewrite digits_value_digits; lia.
  - exists false, (digits z). repeat split; auto using digits_ne, digits_forall.
    simpl. by apply digits_value_digits.
Qed.

(** Round trip of an integer field. *)
Lemma extract_int_to_string lo hi sp z r old :
  lo ≤ z ≤ hi → forallb is_space sp = true → field_end r →
  extract_int lo hi (istringstream (sp ++ to_string z ++ r)) old = (z, istringstream r).
Proof.
  intros Hz Hsp Hr. destruct (to_string_int_field z) as (neg & ds & -> & Hne & Hd & Hv).
  rewrite extract_int_field by (done || lia). rewrite Hv. unfold clamp, in_range, istringstream.
  rewrite (proj2 (Z.ltb_ge z lo)), (proj2 (Z.ltb_ge hi z)) by lia.
  by rewrite (proj2 (Z.leb_le lo z)), (proj2 (Z.leb_le z hi)) by lia.
Qed.

(** The extracted value always fits the type. *)
Lemma extract_int_range lo hi i old :
  lo ≤ 0 ≤ hi → lo ≤ old ≤ hi → lo ≤ (extract_int lo hi i old).1 ≤ hi.
Proof.
  intros Hlo Hold. unfold extract_int. destruct (is_ok (skipws i)); [|done].
  match goal with |- context [let '(_, _) := ?x in _] => destruct x as [sign r] end.
  destruct (span is_digit r) as [[|d ds] r']; [done|]. cbv zeta.
  destruct (Z.ltb_spec (sign * digits_value 0 (d :: ds)) lo); [cbn [fst]; lia|].
  destruct (Z.ltb_spec hi (sign * digits_value 0 (d :: ds))); cbn [fst]; lia.
Qed.

(** ** The types of what is extracted *)

(** A string is a word without NUL, a number is an [int]. *)
Class HasType (T : Type) := has_type : T → Prop.

#[export] Instance word_type : HasType bytes :=
  λ s, nul_free s = true ∧ forallb (λ c, negb (is_space c)) s = true.
#[export] Instance int_type : HasType Z := int32.
#[export] Instance pair_type {A B} `{HasType A} `{HasType B} : HasType (A * B) :=
  λ '(a, b), has_type a ∧ has_type b.

(** Extraction keeps to the type, whatever is in the stream. *)
Class TypedExtract (T : Type) `{HasType T} `{Extract T} :=
  extract_typed i old : nul_free (is_rest i) = true → has_type old →
    has_type (extract i old).1 ∧ nul_free (is_rest (extract i old).2) = true.

Lemma nul_free_span p s : nul_free s = true → nul_free (span p s).1 = true ∧ nul_free (span p s).2 = true.
Proof.
  destruct (span p s) as [u v] eqn:E. apply span_eq in E as ->. unfold nul_free.
  by rewrite forallb_app, andb_true_iff.
Qed.

Lemma skipws_nul_free i : nul_free (is_rest i) = true → nul_free (is_rest (skipws i)) = true.
Proof. intros Hi. by apply nul_free_span. Qed.

#[export] Instance string_typed : TypedExtract bytes.
Proof.
  intros i old Hi%skipws_nul_free Hold. unfold extract, extract_std_string, extract_string.
  destruct (is_ok (skipws i)); [|done]. set (p := λ c, negb (is_space c)).
  pose proof (nul_free_span p _ Hi) as [Hw Hr]. pose proof (span_fst_forall p (is_rest (skipws i))) as Hp.
  destruct (span p _) as [w r]. split; [by split|done].
Qed.

#[export] Instance int_typed : TypedExtract Z.
Proof.
  intros i old Hi%skipws_nul_free Hold. split; [by apply extract_int_range|].
  unfold extract, extract_std_int, extract_int. destruct (is_ok (skipws i)); [|done].
  match goal with |- context [let '(_, _) := ?x in _] => destruct x as [sign r] eqn:E end.
  assert (Hr : nul_free r = true).
  { destruct (is_rest (skipws i)) as [|c rest]; [by simplify_eq|]. simpl in Hi. apply andb_true_iff in Hi as [Hc Hi].
    destruct (bool_decide (c = "-"%char)); [by injection E as _ <-|].
    destruct (bool_decide (c = "+"%char)); injection E as _ <-; [done|]. cbn. by rewrite Hc. }
  pose proof (nul_free_span is_digit r Hr) as [_ Hr']. destruct (span is_digit r) as [[|d ds] r']; [done|].
  cbv zeta. by repeat case_match.
Qed.

#[export] Instance pair_typed {A B} `{TypedExtract A} `{TypedExtract B} : TypedExtract (A * B).
Proof.
  intros i [a b] Hi [Ha Hb]. pose proof (extract_typed i a Hi Ha) as [Ha' Hi']. unfold extract, extract_pair.
  destruct (extract i a) as [a' i1]. pose proof (extract_typed i1 b Hi' Hb) as [Hb' Hi'']. by destruct (extract i1 b).
Qed.

(** ** [std::stoi]

    [strtol] on the string: white space, an optional sign and a run of digits; [None] is
    [std::invalid_argument] (no digits) or [std::out_of_range]. *)
Definition stoi (s : bytes) : option Z :=
  let r := (span is_space s).2 in
  let '(sign, r) :=
    match r with
    | c :: r' => if bool_decide (c = "-"%char) then (-1, r')
                 else if bool_decide (c = "+"%char) then (1, r') else (1, r)
    | [] => (1, [])
    end in
  match (span is_digit r).1 with
  | [] => None
  | ds => let v := sign * digits_value 0 ds in if bool_decide (int32 v) then Some v else None
  end.

Lemma stoi_to_string n : 0 ≤ n ≤ INT32_MAX → stoi (to_string n) = Some n.
Proof.
  intros Hn. unfold to_string. rewrite (proj2 (Z.ltb_ge n 0)) by lia.
  destruct (digits_spec n ltac:(lia)) as (ds & -> & Hd & Hne & Hv & _).
  destruct ds as [|c ds]; [done|]. pose proof Hd as [Hc Hds]%andb_true_iff.
  assert (Hsp : is_space c = false).
  { unfold is_digit in Hc. to_prop. unfold is_space. lia. }
  assert (Hspan : span is_digit (c :: ds) = (c :: ds, [])).
  { rewrite <- (app_nil_r (c :: ds)) at 1. by apply span_app. }
  unfold stoi. cbn [span]. rewrite Hsp. cbn [snd]. rewrite !bool_decide_eq_false_2 by (intros ->; done).
  rewrite Hspan. cbn [fst]. rewrite Hv, Z.mul_1_l, bool_decide_eq_true_2; [done|].
  unfold int32, INT32_MIN, INT32_MAX in *. lia.
Qed.

Lemma digits_value_to_string n : 0 ≤ n → digits_value 0 (to_string n) = n.
Proof.
  intros Hn. unfold to_string. rewrite (proj2 (Z.ltb_ge n 0)) by lia. by apply digits_value_digits.
Qed.

(** A digit string without a leading zero is what printing its value gives. *)
Lemma to_string_canonical c s :
  forallb is_digit (c :: s) = true → (s = [] ∨ 0 < digit_value c) →
  to_string (digits_value 0 (c :: s)) = c :: s.
Proof.
  intros Hd Hz. pose proof (digits_value_ge 0 (c :: s) ltac:(lia) Hd) as Hge.
  unfold to_string. rewrite (proj2 (Z.ltb_ge _ 0)) by done.
  simpl in Hd. apply andb_true_iff in Hd as [Hc Hs].
  destruct Hz as [->|Hz]; [by apply digits_single|by apply digits_digits_value].
Qed.

(** A failed stream extracts nothing more. *)
Lemma extract_int_failed lo hi r old :
  (extract_int lo hi {| is_rest := r; is_ok := false |} old).1 = old ∧
  is_ok (extract_int lo hi {| is_rest := r; is_ok := false |} old).2 = false.
Proof. done. Qed.

#[export] Hint Resolve digits_forall digits_ne : csfs.
