(* ===== verification/Regex.v ===== *)
(** * [std::regex]: the ECMAScript patterns the program uses

    The program builds four patterns (request and response header, IPv4 address, port)
    as strings and gives them to [std::regex].  This file models that piece of the C++
    standard library: a parser from pattern strings to an abstract syntax, the
    declarative meaning of a pattern as a relation between the input left before and
    after a match, and an executable backtracking matcher proved equal to it. *)
From S2P Require Import Prelude Stdcxx.
From Stdlib Require Import ZArith Lia List Ascii String Bool.
From stdpp Require Import base gmap strings list fin_maps sorting relations.
#[local] Set Default Goal Selector "!".

(** ** Abstract syntax *)

Inductive regex :=
| REps                                                (* the empty alternative *)
| RSet (ranges : list (ascii * ascii))                (* [[...]], one character *)
| RAny                                                (* [.] *)
| RSeq (r1 r2 : regex)
| RAlt (r1 r2 : regex)
| RRep (r : regex) (min : nat) (max : option nat)     (* [*], [+], [?], [{n}], [{n,m}] *)
| RLook (r : regex)                                   (* [(?=...)] *)
| RBegin                                              (* [^] *)
| REnd.                                               (* [$] *)

Definition in_pair (c : ascii) (p : ascii * ascii) : bool :=
  (code p.1 <=? code c)%Z && (code c <=? code p.2)%Z.

Definition in_set (ranges : list (ascii * ascii)) (c : ascii) : bool :=
  existsb (in_pair c) ranges.

(** [.] matches anything but a line terminator. *)
Definition not_line_end (c : ascii) : bool := negb ((code c =? 10) || (code c =? 13))%Z.

(** ** Meaning

    [denote whole r s s'] : inside the subject [whole], [r] matches at the point where
    [s] is left and leaves [s']. *)
Fixpoint denote (whole : bytes) (r : regex) (s s' : bytes) : Prop :=
  match r with
  | REps => s' = s
  | RSet rs => ∃ c, s = c :: s' ∧ in_set rs c = true
  | RAny => ∃ c, s = c :: s' ∧ not_line_end c = true
  | RSeq r1 r2 => ∃ t, denote whole r1 s t ∧ denote whole r2 t s'
  | RAlt r1 r2 => denote whole r1 s s' ∨ denote whole r2 s s'
  | RRep r min max =>
      ∃ n, min ≤ n ∧ from_option (λ m, n ≤ m) True max ∧ nsteps (denote whole r) n s s'
  | RLook r => s' = s ∧ ∃ t, denote whole r s t
  | RBegin => s' = s ∧ length s = length whole
  | REnd => s' = s ∧ s = []
  end.

(** ** Matcher *)

(** Exactly [n] iterations of [f]. *)
Fixpoint repeat_exactly (f : bytes → list bytes) (n : nat) (s : bytes) : list bytes :=
  match n with
  | O => [s]
  | S n => flat_map (repeat_exactly f n) (f s)
  end.

(** Up to [n] further iterations; an iteration that consumes nothing is cut. *)
Fixpoint repeat_upto (f : bytes → list bytes) (n : nat) (s : bytes) : list bytes :=
  match n with
  | O => [s]
  | S n => s :: flat_map (repeat_upto f n)
                  (List.filter (λ t, (length t <? length s)%nat) (f s))
  end.

(** All ways to match [r] at [s]: the inputs that can be left. *)
Fixpoint exec (whole : bytes) (r : regex) (s : bytes) : list bytes :=
  match r with
  | REps => [s]
  | RSet rs => match s with c :: s' => if in_set rs c then [s'] else [] | [] => [] end
  | RAny => match s with c :: s' => if not_line_end c then [s'] else [] | [] => [] end
  | RSeq r1 r2 => flat_map (exec whole r2) (exec whole r1 s)
  | RAlt r1 r2 => exec whole r1 s ++ exec whole r2 s
  | RRep r min max =>
      flat_map (λ t, let more := match max with
                                 | Some m => if (m <? min)%nat then None else Some (m - min)
                                 | None => Some (length t)
                                 end in
                     match more with
                     | Some k => repeat_upto (exec whole r) k t
                     | None => []
                     end)
               (repeat_exactly (exec whole r) min s)
  | RLook r => match exec whole r s with [] => [] | _ => [s] end
  | RBegin => if (length s =? length whole)%nat then [s] else []
  | REnd => match s with [] => [[]] | _ => [] end
  end.

(** [std::regex_match]: the pattern matches the whole subject. *)
Definition regex_match (s : bytes) (r : regex) : bool :=
  existsb (λ t, match t with [] => true | _ => false end) (exec s r s).

(** ** The matcher decides the meaning *)

(** A match consumes a prefix of the input. *)
Lemma denote_suffix whole r s s' : denote whole r s s' → ∃ u, s = u ++ s'.
Proof.
  revert s s'; induction r as [|rs| |r1 IH1 r2 IH2|r1 IH1 r2 IH2|r IH mn mx|r IH| |];
    simpl; intros s s' H.
  - exists []. by subst.
  - destruct H as (c & -> & _). by exists [c].
  - destruct H as (c & -> & _). by exists [c].
  - destruct H as (t & H1 & H2). apply IH1 in H1 as [u1 ->]. apply IH2 in H2 as [u2 ->].
    exists (u1 ++ u2). by rewrite <- app_assoc.
  - destruct H; eauto.
  - destruct H as (n & _ & _ & Hn). induction Hn as [s|n x y z Hxy _ [u ->]]; [by exists []|].
    apply IH in Hxy as [v ->]. exists (v ++ u). by rewrite <- app_assoc.
  - exists []. by destruct H as [-> _].
  - exists []. by destruct H as [-> _].
  - exists []. by destruct H as [-> _].
Qed.

Section repeat_exactly.
Context (f : bytes → list bytes) (R : bytes → bytes → Prop).
Context (f_R : ∀ s t, In t (f s) ↔ R s t).
Context (R_suffix : ∀ s t, R s t → ∃ u, s = u ++ t).

Lemma repeat_exactly_spec n s t : In t (repeat_exactly f n s) ↔ nsteps R n s t.
Proof using f_R.
  revert s; induction n as [|n IH]; intros s; simpl.
  - split; [intros [->|[]]; constructor|intros H; inversion H; auto].
  - rewrite in_flat_map. split.
    + intros (u & Hu%f_R & Ht%IH). by econstructor.
    + intros H; inversion H; subst. eexists. by rewrite f_R, IH.
Qed.

Lemma repeat_upto_sound n s t :
  In t (repeat_upto f n s) → ∃ k, k ≤ n ∧ nsteps R k s t.
Proof using f_R.
  revert s; induction n as [|n IH]; intros s; simpl.
  - intros [->|[]]. exists 0. split; [lia|constructor].
  - intros [->|H]; [exists 0; split; [lia|constructor]|].
    apply in_flat_map in H as (u & [Hu%f_R _]%filter_In & (k & Hk & Ht)%IH).
    exists (S k). split; [lia|by econstructor].
Qed.

(** An iteration that consumes nothing can be dropped, so as many iterations as there
    are characters left are enough. *)
Lemma repeat_upto_complete k n s t :
  nsteps R k s t → (k ≤ n ∨ length s ≤ n)%nat → In t (repeat_upto f n s).
Proof using f_R R_suffix.
  intros H; revert n; induction H as [s|k s u t Hsu Hut IH]; intros n Hn.
  - destruct n; simpl; auto.
  - destruct (R_suffix _ _ Hsu) as [v ->]. rewrite length_app in Hn.
    destruct v as [|c v]; simpl in *; [apply IH; lia|].
    destruct n as [|n]; [lia|]. simpl. right. apply in_flat_map. exists u. split.
    + apply filter_In. rewrite f_R. split; [done|]. apply Nat.ltb_lt. simpl.
      rewrite length_app. lia.
    + apply IH. lia.
Qed.

Lemma nsteps_le_length k s t : nsteps R k s t → (length t ≤ length s)%nat.
Proof using R_suffix.
  induction 1 as [|k s u t Hsu _ IH]; [done|].
  destruct (R_suffix _ _ Hsu) as [v ->]. rewrite length_app. lia.
Qed.
End repeat_exactly.

Lemma nsteps_split {A} (R : A → A → Prop) n m x z :
  nsteps R (n + m) x z ↔ ∃ y, nsteps R n x y ∧ nsteps R m y z.
Proof.
  split; [apply nsteps_add_inv|]. intros (y & H1 & H2). by eapply nsteps_trans.
Qed.

(** The repetition count of [RRep r mn mx], split as the matcher runs it. *)
Lemma exec_spec whole r s s' : In s' (exec whole r s) ↔ denote whole r s s'.
Proof.
  revert s s'; induction r as [|rs| |r1 IH1 r2 IH2|r1 IH1 r2 IH2|r IH mn mx|r IH| |];
    intros s s'; cbn [exec denote].
  - simpl. intuition congruence.
  - destruct s as [|c s]; [by split; [|intros (? & ? & _)]|].
    destruct (in_set rs c) eqn:E; simpl; split.
    + intros [->|[]]. eauto.
    + intros (c' & [= -> ->] & _). auto.
    + done.
    + intros (c' & [= -> ->] & ?). congruence.
  - destruct s as [|c s]; [by split; [|intros (? & ? & _)]|].
    destruct (not_line_end c) eqn:E; simpl; split.
    + intros [->|[]]. eauto.
    + intros (c' & [= -> ->] & _). auto.
    + done.
    + intros (c' & [= -> ->] & ?). congruence.
  - rewrite in_flat_map. by setoid_rewrite IH1; setoid_rewrite IH2.
  - by rewrite in_app_iff, IH1, IH2.
  - pose proof (denote_suffix whole r) as Hsuf.
    rewrite in_flat_map. setoid_rewrite (repeat_exactly_spec _ _ IH). split.
    + intros (t & Hmin & Hmore). destruct mx as [m|]; simpl.
      * destruct (Nat.ltb_spec m mn) as [?|Hle]; [done|].
        apply (repeat_upto_sound _ _ IH) in Hmore as (k & Hk & Hst).
        exists (mn + k). split; [lia|]. split; [lia|]. apply nsteps_split. eauto.
      * apply (repeat_upto_sound _ _ IH) in Hmore as (k & _ & Hst).
        exists (mn + k). split; [lia|]. split; [done|]. apply nsteps_split. eauto.
    + intros (n & Hmin & Hmax & Hn).
      replace n with (mn + (n - mn)) in Hn by lia.
      apply nsteps_split in Hn as (t & Hst & Hts'). exists t. split; [done|].
      destruct mx as [m|]; simpl in Hmax |- *.
      * destruct (Nat.ltb_spec m mn) as [?|_]; [lia|].
        eapply repeat_upto_complete; eauto. lia.
      * eapply repeat_upto_complete; eauto.
  - split.
    + destruct (exec whole r s) as [|t l] eqn:E; [done|]. intros [->|[]]. split; [done|].
      exists t. apply IH. rewrite E. by left.
    + intros (-> & t & Ht%IH). destruct (exec whole r s); [done|by left].
  - destruct (Nat.eqb_spec (length s) (length whole)); simpl; intuition congruence.
  - destruct s; simpl; intuition congruence.
Qed.

Lemma regex_match_spec s r : regex_match s r = true ↔ denote s r s [].
Proof.
  unfold regex_match. rewrite existsb_exists. setoid_rewrite exec_spec. split.
  - intros ([|c t] & H & He); [done|discriminate].
  - eauto.
Qed.

(** ** Pattern strings

    A recursive-descent parser for the grammar of the patterns; [None] is
    [std::regex_error].  [fuel] bounds the nesting and is always given as more than
    twice the length of the pattern. *)

Definition parse_number (s : bytes) : option (nat * bytes) :=
  let '(ds, s') := span is_digit s in
  match ds with
  | [] => None
  | _ => Some (Z.to_nat (digits_value 0 ds), s')
  end.

(** The members of a character class, up to the closing bracket. *)
Fixpoint parse_class (s : bytes) : option (list (ascii * ascii) * bytes) :=
  match s with
  | "]"%char :: s' => Some ([], s')
  | a :: "-"%char :: ((b :: s'') as s') =>
      if bool_decide (b = "]"%char) then
        match parse_class s' with
        | Some (rs, r) => Some ((a, a) :: ("-"%char, "-"%char) :: rs, r)
        | None => None
        end
      else
        match parse_class s'' with
        | Some (rs, r) => Some ((a, b) :: rs, r)
        | None => None
        end
  | a :: s' =>
      match parse_class s' with
      | Some (rs, r) => Some ((a, a) :: rs, r)
      | None => None
      end
  | [] => None
  end.

(** The quantifier, if any, that follows the atom [r]. *)
Definition parse_quantifier (r : regex) (s : bytes) : option (regex * bytes) :=
  match s with
  | "*"%char :: s' => Some (RRep r 0 None, s')
  | "+"%char :: s' => Some (RRep r 1 None, s')
  | "?"%char :: s' => Some (RRep r 0 (Some 1), s')
  | "{"%char :: s' =>
      match parse_number s' with
      | Some (n, "}"%char :: s'') => Some (RRep r n (Some n), s'')
      | Some (n, ","%char :: s'') =>
          match parse_number s'' with
          | Some (m, "}"%char :: s3) => Some (RRep r n (Some m), s3)
          | _ => None
          end
      | _ => None
      end
  | _ => Some (r, s)
  end.

Fixpoint parse_disjunction (fuel : nat) (s : bytes) : option (regex * bytes) :=
  match fuel with
  | O => None
  | S fuel =>
      match parse_alternative fuel s with
      | Some (r1, "|"%char :: s') =>
          match parse_disjunction fuel s' with
          | Some (r2, s'') => Some (RAlt r1 r2, s'')
          | None => None
          end
      | o => o
      end
  end
with parse_alternative (fuel : nat) (s : bytes) : option (regex * bytes) :=
  match fuel with
  | O => None
  | S fuel =>
      match s with
      | [] | "|"%char :: _ | ")"%char :: _ => Some (REps, s)
      | _ =>
          match parse_term fuel s with
          | Some (r1, s') =>
              match parse_alternative fuel s' with
              | Some (r2, s'') => Some (RSeq r1 r2, s'')
              | None => None
              end
          | None => None
          end
      end
  end
with parse_term (fuel : nat) (s : bytes) : option (regex * bytes) :=
  match fuel with
  | O => None
  | S fuel =>
      match s with
      | "^"%char :: s' => Some (RBegin, s')
      | "$"%char :: s' => Some (REnd, s')
      | "("%char :: "?"%char :: "="%char :: s' =>
          match parse_disjunction fuel s' with
          | Some (r, ")"%char :: s'') => Some (RLook r, s'')
          | _ => None
          end
      | "("%char :: s' =>
          match parse_disjunction fuel s' with
          | Some (r, ")"%char :: s'') => parse_quantifier r s''
          | _ => None
          end
      | "["%char :: s' =>
          match parse_class s' with
          | Some (rs, s'') => parse_quantifier (RSet rs) s''
          | None => None
          end
      | "."%char :: s' => parse_quantifier RAny s'
      | "\"%char :: c :: s' => parse_quantifier (RSet [(c, c)]) s'
      | c :: s' => parse_quantifier (RSet [(c, c)]) s'
      | [] => None
      end
  end.

Definition compile (pattern : bytes) : option regex :=
  match parse_disjunction (3 * S (length pattern)) pattern with
  | Some (r, []) => Some r
  | _ => None
  end.

(** ** Reading off the meaning of compiled patterns *)

Lemma denote_set_steps whole rs n s s' :
  nsteps (denote whole (RSet rs)) n s s' ↔
  ∃ u, s = u ++ s' ∧ length u = n ∧ forallb (in_set rs) u = true.
Proof.
  revert s; induction n as [|n IH]; intros s.
  - split.
    + intros H; inversion H; subst. by exists [].
    + intros (u & -> & Hl & _). destruct u; [constructor|done].
  - split.
    + intros H; inversion H as [|? ? y ? (c & -> & Hc) Hy]; subst.
      apply IH in Hy as (u & -> & <- & Hu). exists (c :: u). simpl. by rewrite Hc.
    + intros ([|c u] & -> & Hl & Hu); [done|]. simpl in Hu.
      apply andb_true_iff in Hu as [Hc Hu]. econstructor.
      * exists c. by split.
      * apply IH. exists u. simpl in Hl. by split; [|split; [lia|]].
Qed.

Lemma denote_any_steps whole n s s' :
  nsteps (denote whole RAny) n s s' ↔
  ∃ u, s = u ++ s' ∧ length u = n ∧ forallb not_line_end u = true.
Proof.
  revert s; induction n as [|n IH]; intros s.
  - split.
    + intros H; inversion H; subst. by exists [].
    + intros (u & -> & Hl & _). destruct u; [constructor|done].
  - split.
    + intros H; inversion H as [|? ? y ? (c & -> & Hc) Hy]; subst.
      apply IH in Hy as (u & -> & <- & Hu). exists (c :: u). simpl. by rewrite Hc.
    + intros ([|c u] & -> & Hl & Hu); [done|]. simpl in Hu.
      apply andb_true_iff in Hu as [Hc Hu]. econstructor.
      * exists c. by split.
      * apply IH. exists u. simpl in Hl. by split; [|split; [lia|]].
Qed.

(** [[set]{mn,mx}], [+], [*]: a run of class members. *)
Lemma denote_set_rep whole rs mn mx s s' :
  denote whole (RRep (RSet rs) mn mx) s s' ↔
  ∃ u, s = u ++ s' ∧ mn ≤ length u ∧ from_option (λ m, length u ≤ m) True mx ∧
       forallb (in_set rs) u = true.
Proof.
  cbn [denote]. change (λ s0 s'0 : bytes, ∃ c, s0 = c :: s'0 ∧ in_set rs c = true)
    with (denote whole (RSet rs)). setoid_rewrite denote_set_steps. split.
  - intros (n & Hmn & Hmx & u & -> & <- & Hu). eauto 10.
  - intros (u & -> & Hmn & Hmx & Hu). exists (length u). eauto 10.
Qed.

(** [(?=.{n}$)] : exactly [n] characters, none of them a line end, are left. *)
Lemma denote_look_length whole n s s' :
  denote whole (RLook (RSeq (RRep RAny n (Some n)) (RSeq REnd REps))) s s' ↔
  s' = s ∧ length s = n ∧ forallb not_line_end s = true.
Proof.
  cbn [denote]. split.
  - intros (-> & t & t1 & (k & Hk & Hk' & Hn) & t2 & [-> ->] & ->).
    simpl in Hk'. assert (k = n) as -> by lia.
    change (λ s0 s'0 : bytes, ∃ c, s0 = c :: s'0 ∧ not_line_end c = true)
      with (denote whole RAny) in Hn.
    apply denote_any_steps in Hn as (u & -> & Hl & Hu). by rewrite app_nil_r.
  - intros (-> & Hl & Hu). split; [done|]. exists [], []. split; [|by exists []].
    exists n. simpl. split; [lia|]. split; [lia|].
    apply (denote_any_steps whole). exists s. by rewrite app_nil_r.
Qed.

(** ** Patterns of bounded length

    A pattern without [*], [+], anchors and lookahead stands for finitely many sequences
    of character classes. *)
Definition product {A} (l k : list (list A)) : list (list A) :=
  l ≫= λ x, (λ y, x ++ y) <$> k.

Fixpoint power {A} (l : list (list A)) (n : nat) : list (list A) :=
  match n with O => [[]] | S n => product l (power l n) end.

Fixpoint words (r : regex) : option (list (list (list (ascii * ascii)))) :=
  match r with
  | REps => Some [[]]
  | RSet rs => Some [[rs]]
  | RSeq r1 r2 => l ← words r1; k ← words r2; Some (product l k)
  | RAlt r1 r2 => l ← words r1; k ← words r2; Some (l ++ k)
  | RRep r n (Some m) => (λ l, seq n (S m - n) ≫= power l) <$> words r
  | _ => None
  end.

(** Character by character. *)
Fixpoint matches_word (w : list (list (ascii * ascii))) (s : bytes) : bool :=
  match w, s with
  | [], [] => true
  | rs :: w, c :: s => in_set rs c && matches_word w s
  | _, _ => false
  end.

Definition matches_words (l : list (list (list (ascii * ascii)))) (s : bytes) : bool :=
  existsb (λ w, matches_word w s) l.

Lemma matches_word_app w1 w2 s :
  matches_word (w1 ++ w2) s = true ↔
  ∃ u v, s = u ++ v ∧ matches_word w1 u = true ∧ matches_word w2 v = true.
Proof.
  revert s; induction w1 as [|rs w1 IH]; intros s; simpl.
  - split; [by exists [], s|]. by intros ([|? ?] & v & -> & ? & ?).
  - destruct s as [|c s].
    { split; [done|]. by intros ([|? ?] & v & E & ? & ?). }
    rewrite andb_true_iff, IH. split.
    + intros (Hc & u & v & -> & Hu & Hv). exists (c :: u), v. by rewrite Hc.
    + intros ([|c' u] & v & E & Hu & Hv); [done|]. simplify_eq/=.
      apply andb_true_iff in Hu as [Hc Hu]. eauto 10.
Qed.

Lemma matches_words_iff l s : matches_words l s = true ↔ ∃ w, w ∈ l ∧ matches_word w s = true.
Proof.
  unfold matches_words. rewrite existsb_exists. by setoid_rewrite <- list_elem_of_In.
Qed.

Lemma matches_words_product l k s :
  matches_words (product l k) s = true ↔
  ∃ u v, s = u ++ v ∧ matches_words l u = true ∧ matches_words k v = true.
Proof.
  rewrite matches_words_iff. setoid_rewrite matches_words_iff. unfold product. split.
  - intros (w & Hw & Hs). apply list_elem_of_bind in Hw as (x & Hw & Hx).
    apply list_elem_of_fmap in Hw as (y & -> & Hy).
    apply matches_word_app in Hs as (u & v & -> & ? & ?). eauto 10.
  - intros (u & v & -> & (x & Hx & Hu) & y & Hy & Hv). exists (x ++ y). split.
    + apply list_elem_of_bind. exists x. split; [|done]. by apply list_elem_of_fmap_2.
    + apply matches_word_app. eauto.
Qed.

Lemma nsteps_power whole r l :
  (∀ s s', denote whole r s s' ↔ ∃ u, s = u ++ s' ∧ matches_words l u = true) →
  ∀ n s s', nsteps (denote whole r) n s s' ↔ ∃ u, s = u ++ s' ∧ matches_words (power l n) u = true.
Proof.
  intros Hr n. induction n as [|n IH]; intros s s'; simpl.
  - split.
    + intros H; inversion H; subst. by exists [].
    + intros (u & -> & H). destruct u; [constructor|done].
  - split.
    + intros H; inversion H as [|? ? y ? Hxy Hy]; subst.
      apply Hr in Hxy as (u & -> & Hu). apply IH in Hy as (v & -> & Hv).
      exists (u ++ v). rewrite <- app_assoc. split; [done|]. apply matches_words_product. eauto.
    + intros (x & -> & Hx). apply matches_words_product in Hx as (u & v & -> & Hu & Hv).
      rewrite <- app_assoc. eapply nsteps_l; [apply Hr; by exists u|apply IH; by exists v].
Qed.

Lemma words_spec whole r l s s' :
  words r = Some l → denote whole r s s' ↔ ∃ u, s = u ++ s' ∧ matches_words l u = true.
Proof.
  revert l s s'; induction r as [|rs| |r1 IH1 r2 IH2|r1 IH1 r2 IH2|r IH mn mx|r IH| |];
    intros l s s' Hl; cbn [words] in Hl; try done.
  - simplify_eq. simpl. split; [by intros ->; exists []|]. by intros ([|? ?] & -> & ?).
  - simplify_eq. simpl. split.
    + intros (c & -> & Hc). exists [c]. simpl. by rewrite Hc.
    + intros ([|c [|? ?]] & -> & H); simpl in H; try done; [|by rewrite andb_false_r in H].
      exists c. split; [done|]. by rewrite !andb_true_r, orb_false_r in H.
  - destruct (words r1) as [l1|] eqn:E1; [|done]. destruct (words r2) as [l2|] eqn:E2; [|done].
    simplify_eq/=. setoid_rewrite IH1; [|done]. setoid_rewrite IH2; [|done].
    setoid_rewrite matches_words_product. split.
    + intros (t & (u & -> & Hu) & v & -> & Hv). exists (u ++ v). rewrite <- app_assoc. eauto 10.
    + intros (x & -> & u & v & -> & Hu & Hv). exists (v ++ s'). rewrite <- app_assoc. eauto 10.
  - destruct (words r1) as [l1|] eqn:E1; [|done]. destruct (words r2) as [l2|] eqn:E2; [|done].
    simplify_eq/=. rewrite IH1, IH2; [|done..]. unfold matches_words. setoid_rewrite existsb_app.
    setoid_rewrite orb_true_iff. split.
    + intros [(u & -> & Hu)|(u & -> & Hu)]; eauto.
    + intros (u & -> & [Hu|Hu]); eauto.
  - destruct mx as [m|]; [|done]. destruct (words r) as [l'|] eqn:E; [|done]. simplify_eq/=.
    assert (Hn : ∀ n, nsteps (denote whole r) n s s' ↔
      ∃ u, s = u ++ s' ∧ matches_words (power l' n) u = true)
      by (intros n; apply nsteps_power; intros; by apply IH).
    setoid_rewrite Hn. setoid_rewrite matches_words_iff. setoid_rewrite list_elem_of_bind.
    setoid_rewrite elem_of_seq. split.
    + intros (n & H1 & H2 & u & -> & w & Hw & Hu). exists u. split; [done|]. exists w.
      split; [|done]. exists n. split; [done|]. simpl in H2. lia.
    + intros (u & -> & w & (n & Hw & Hl) & Hu). exists n. split; [lia|]. split; [simpl; lia|]. eauto.
Qed.
