(* ===== verification/Constants.v ===== *)
(** * Shared constants and error codes

    [constants.h] and [errors.h] of ClientServerShared: the configuration, the message
    format with its two patterns built as strings, the command words and the error map. *)
From S2P Require Import Prelude Stdcxx.
From Stdlib Require Import ZArith Lia List Ascii String Bool.
From stdpp Require Import base gmap strings list fin_maps sorting.
#[local] Set Default Goal Selector "!".
Local Open Scope Z_scope.

Module Constants.
(** ** Server configuration *)
Definition server_backlog : Z := 1000.
Definition max_sockfd : Z := 255.
Definition connection_timeout_seconds : Z := 10.
Definition transaction_timeout_seconds : Z := 15.

(** ** Message format *)
Definition default_txn_id : Z := -1.
Definition delimiting_character : ascii := " ".
Definition error_seq_num : Z := -1.
Definition initial_seq_num : Z := 0.
Definition padding_character : ascii := "0".
Definition request_header_len : Z := 64.
Definition response_header_len : Z := 128.

(** Request Format: COMMAND TXN_ID SEQ_NUM CONTENT_LEN DATA *)
Definition request_format : bytes :=
  str "^(?=.{" ++ to_string request_header_len ++ str "}$)[A-Z_]+[" ++
  [delimiting_character] ++ str "][-]?[0-9]+[" ++ [delimiting_character] ++
  str "][-]?[0-9]+[" ++ [delimiting_character] ++ str "][0-9]+([" ++
  [delimiting_character] ++ str "]" ++ [padding_character] ++ str "*)?".

(** Response Format: COMMAND TXN_ID SEQ_NUM ERROR_CODE CONTENT_LEN DATA *)
Definition response_format : bytes :=
  str "^(?=.{" ++ to_string response_header_len ++ str "}$)[A-Z_]+[" ++
  [delimiting_character] ++ str "][-]?[0-9]+[" ++ [delimiting_character] ++
  str "][-]?[0-9]+[" ++ [delimiting_character] ++ str "][0-9]+[" ++
  [delimiting_character] ++ str "][0-9]+([" ++
  [delimiting_character] ++ str "]" ++ [padding_character] ++ str "*)?".

(** ** Client commands *)
Definition abort_cmd : bytes := str "ABORT".
Definition commit_cmd : bytes := str "COMMIT".
Definition new_txn_cmd : bytes := str "NEW_TXN".
Definition read_cmd : bytes := str "READ".
Definition write_cmd : bytes := str "WRITE".

(** ** Server commands *)
Definition ack_cmd : bytes := str "ACK".
Definition ask_resend_cmd : bytes := str "ASK_RESEND".
Definition error_cmd : bytes := str "ERROR".
End Constants.

Module Errors.
(** An iterator into the error map: [nil], or the code of an entry. *)
Definition ErrorMapIterator : Type := option Z.
Definition nil : ErrorMapIterator := None.

Definition InvalidMessageFormat : ErrorMapIterator := Some 199.
Definition InvalidCommand : ErrorMapIterator := Some 200.
Definition InvalidTransactionId : ErrorMapIterator := Some 201.
Definition InvalidOperation : ErrorMapIterator := Some 202.
Definition TransactionIdInUse : ErrorMapIterator := Some 203.
Definition InvalidSequenceNumber : ErrorMapIterator := Some 204.
Definition RepeatedSequenceNumber : ErrorMapIterator := Some 205.
Definition ErrorOpeningFile : ErrorMapIterator := Some 206.
Definition ErrorReadingFile : ErrorMapIterator := Some 207.
Definition ErrorWritingFile : ErrorMapIterator := Some 208.
Definition ErrorCreatingTransaction : ErrorMapIterator := Some 209.
Definition CommitWithInvalidSequenceNumber : ErrorMapIterator := Some 210.
Definition TransactionAlreadyCommitted : ErrorMapIterator := Some 211.
Definition TransactionAborted : ErrorMapIterator := Some 212.

Definition messages : gmap Z bytes :=
  list_to_map
    [(199, str "InvalidMessageFormat"); (200, str "InvalidCommand");
     (201, str "InvalidTransactionId"); (202, str "InvalidOperation");
     (203, str "TransactionIDInUseByAnotherClient");
     (204, str "New transactions must start with sequence number 0");
     (205, str "RepeatedSequenceNumber"); (206, str "ErrorOpeningFile");
     (207, str "Error reading file"); (208, str "Error writing file");
     (209, str "Error creating transaction");
     (210, str "Requested commit with sequence number less than maximum sequence number received");
     (211, str "TransactionAlreadyCommitted"); (212, str "TransactionAborted")].

Definition getErrorCode (it : ErrorMapIterator) : Z :=
  match it with None => 0 | Some c => c end.

Definition getErrorMessage (it : ErrorMapIterator) : bytes :=
  match it with None => [] | Some c => default [] (messages !! c) end.
End Errors.
