(* ===== verification/WireProtocol.v ===== *)
(** * Wire protocol: header validation and field extraction

    [WireProtocol] (wire-protocol.h): both header patterns compiled once, validation of a
    header against them, and extraction of the header fields into a tuple.  The theorems
    say exactly which headers are valid and what is extracted from them. *)
From S2P Require Import Prelude Stdcxx Regex Constants.
From Stdlib Require Import ZArith Lia List Ascii String Bool.
From stdpp Require Import base gmap strings list fin_maps sorting.
#[local] Set Default Goal Selector "!".
#[local] Set Warnings "-clear-no-such-hyp".
Local Open Scope Z_scope.

(** ** Messages *)

(** [RequestTuple] : COMMAND TXN_ID SEQ_NUM CONTENT_LEN DATA. *)
Record RequestTuple := {
  rq_command : bytes; rq_txn_id : Z; rq_seq_num : Z; rq_content_len : Z; rq_data : bytes }.

(** [ResponseTuple] : COMMAND TXN_ID SEQ_NUM ERROR_CODE CONTENT_LEN DATA. *)
Record ResponseTuple := {
  rs_command : bytes; rs_txn_id : Z; rs_seq_num : Z; rs_error_code : Z;
  rs_content_len : Z; rs_data : bytes }.

(** ** The class *)

(** The constructor compiles both patterns; [None] is a [regex_error]. *)
Definition m_request_regex : option regex := compile Constants.request_format.
Definition m_response_regex : option regex := compile Constants.response_format.

Definition matches_header (r : option regex) (in_header : bytes) : bool :=
  match r with Some r => regex_match (c_str in_header) r | None => false end.

Definition isValidRequestFormat (in_header : bytes) : bool :=
  matches_header m_request_regex in_header.

Definition isValidResponseFormat (in_header : bytes) : bool :=
  matches_header m_response_regex in_header.

(** [extractHeaderFields]: every field but the last (DATA), from a value-initialised tuple. *)
Definition extractHeaderFields {T} `{Extract T} (in_header : bytes) (out_message : T) : T :=
  (extract (istringstream (c_str in_header)) out_message).1.

(** The header part of the two tuples, as the loop over the indices fills it. *)
Definition request_fields (h : bytes) : bytes * Z * Z * Z :=
  extractHeaderFields h ([], 0, 0, 0).

Definition response_fields (h : bytes) : bytes * Z * Z * Z * Z :=
  extractHeaderFields h ([], 0, 0, 0, 0).

(** Whatever a header holds, the fields read from it have their types. *)
Lemma extractHeaderFields_typed {T} `{TypedExtract T} h (t : T) : has_type t → has_type (extractHeaderFields h t).
Proof. intros Ht. by apply extract_typed; [apply c_str_nul_free|]. Qed.

(** ** Which headers are valid *)

Definition is_command_char (c : ascii) : bool :=
  ((code "A" <=? code c) && (code c <=? code "Z")) || (code c =? code "_").

(** The padding after the last field: nothing, or a space and zeros. *)
Definition is_padding (p : bytes) : bool :=
  match p with
  | [] => true
  | c :: z => bool_decide (c = Constants.delimiting_character) &&
              forallb (λ d, bool_decide (d = Constants.padding_character)) z
  end.

Definition digit_string (ds : bytes) : Prop := ds ≠ [] ∧ forallb is_digit ds = true.

(** A request header, written out from its fields. *)
Definition request_layout (cmd : bytes) (n1 : bool) (d1 : bytes) (n2 : bool) (d2 d3 pad : bytes) : bytes :=
  cmd ++ [Constants.delimiting_character] ++ int_field n1 d1 ++
  [Constants.delimiting_character] ++ int_field n2 d2 ++
  [Constants.delimiting_character] ++ d3 ++ pad.

(** A response header, written out from its fields. *)
Definition response_layout (cmd : bytes) (n1 : bool) (d1 : bytes) (n2 : bool) (d2 d3 d4 pad : bytes) : bytes :=
  cmd ++ [Constants.delimiting_character] ++ int_field n1 d1 ++
  [Constants.delimiting_character] ++ int_field n2 d2 ++
  [Constants.delimiting_character] ++ d3 ++
  [Constants.delimiting_character] ++ d4 ++ pad.

(** The compiled patterns, piece by piece. *)
Definition re_command : regex := RRep (RSet [("A", "Z"); ("_", "_")]%char) 1 None.
Definition re_space : regex := RSet [(" ", " ")]%char.
Definition re_sign : regex := RRep (RSet [("-", "-")]%char) 0 (Some 1%nat).
Definition re_digits : regex := RRep (RSet [("0", "9")]%char) 1 None.
Definition re_padding : regex :=
  RRep (RSeq re_space (RSeq (RRep (RSet [("0", "0")]%char) 0 None) REps)) 0 (Some 1%nat).
Definition re_length (n : nat) : regex := RLook (RSeq (RRep RAny n (Some n)) (RSeq REnd REps)).

Lemma m_request_regex_eq :
  m_request_regex =
    Some (RSeq RBegin (RSeq (re_length 64) (RSeq re_command
      (RSeq re_space (RSeq re_sign (RSeq re_digits
      (RSeq re_space (RSeq re_sign (RSeq re_digits
      (RSeq re_space (RSeq re_digits (RSeq re_padding REps)))))))))))).
Proof. vm_compute. reflexivity. Qed.

Lemma m_response_regex_eq :
  m_response_regex =
    Some (RSeq RBegin (RSeq (re_length 128) (RSeq re_command
      (RSeq re_space (RSeq re_sign (RSeq re_digits
      (RSeq re_space (RSeq re_sign (RSeq re_digits
      (RSeq re_space (RSeq re_digits
      (RSeq re_space (RSeq re_digits (RSeq re_padding REps)))))))))))))).
Proof. vm_compute. reflexivity. Qed.

Lemma in_set_single a c : in_set [(a, a)] c = true ↔ c = a.
Proof.
  unfold in_set, in_pair. cbn [existsb fst snd]. rewrite orb_false_r.
  split; [|intros ->; rewrite !Z.leb_refl; done].
  intros H. to_prop. assert (He : code c = code a) by lia. unfold code in He.
  rewrite <- (ascii_N_embedding c), <- (ascii_N_embedding a). f_equal. lia.
Qed.

Lemma in_set_digit c : in_set [("0", "9")]%char c = is_digit c.
Proof. unfold in_set, in_pair, is_digit. cbn [existsb fst snd]. by rewrite orb_false_r. Qed.

Lemma in_set_command c : in_set [("A", "Z"); ("_", "_")]%char c = is_command_char c.
Proof.
  unfold in_set, in_pair, is_command_char. cbn [existsb fst snd]. rewrite orb_false_r.
  f_equal. destruct (Z.eqb_spec (code c) (code "_")); lia.
Qed.

Lemma forallb_ext_eq {A} (p q : A → bool) l : (∀ x, p x = q x) → forallb p l = forallb q l.
Proof. intros H. induction l; simpl; congruence. Qed.

Lemma denote_command w s s' :
  denote w re_command s s' ↔
  ∃ cmd, s = cmd ++ s' ∧ cmd ≠ [] ∧ forallb is_command_char cmd = true.
Proof.
  unfold re_command. rewrite denote_set_rep. setoid_rewrite (forallb_ext_eq _ _ _ in_set_command).
  split; intros (u & -> & H).
  - destruct H as (Hl & _ & Hu). exists u. by destruct u; simpl in Hl; [lia|].
  - destruct H as [Hne Hu]. exists u. destruct u; [done|]. simpl. by split; [|split; [lia|]].
Qed.

Lemma denote_digits w s s' :
  denote w re_digits s s' ↔ ∃ ds, s = ds ++ s' ∧ digit_string ds.
Proof.
  unfold re_digits, digit_string. rewrite denote_set_rep.
  setoid_rewrite (forallb_ext_eq _ _ _ in_set_digit).
  split; intros (u & -> & H).
  - destruct H as (Hl & _ & Hu). exists u. by destruct u; simpl in Hl; [lia|].
  - destruct H as [Hne Hu]. exists u. destruct u; [done|]. simpl. by split; [|split; [lia|]].
Qed.

Lemma denote_space w s s' :
  denote w re_space s s' ↔ s = [Constants.delimiting_character] ++ s'.
Proof.
  cbn [denote re_space app]. setoid_rewrite in_set_single.
  split; [by intros (c & -> & ->)|intros ->; by eexists].
Qed.

Lemma denote_int w s s' :
  (∃ t, denote w re_sign s t ∧ denote w re_digits t s') ↔
  ∃ neg ds, s = int_field neg ds ++ s' ∧ digit_string ds.
Proof.
  setoid_rewrite denote_digits. unfold re_sign. setoid_rewrite denote_set_rep. split.
  - intros (t & (u & -> & _ & Hl & Hu) & ds & -> & Hds). simpl in Hl.
    destruct u as [|c [|? ?]]; simpl in *; [exists false|exists true|lia].
    + by exists ds.
    + exists ds. rewrite andb_true_r in Hu. apply in_set_single in Hu as ->. by split.
  - intros (neg & ds & -> & Hds). exists (ds ++ s'). split; [|by exists ds].
    exists (if neg then ["-"%char] else []). by destruct neg; repeat split; simpl; try lia.
Qed.

Lemma denote_padding w s s' :
  denote w re_padding s s' ↔ ∃ pad, s = pad ++ s' ∧ is_padding pad = true.
Proof.
  assert (Hbody : ∀ t t', denote w (RSeq re_space (RSeq (RRep (RSet [("0", "0")]%char) 0 None) REps)) t t' ↔
    ∃ z, t = (Constants.delimiting_character :: z) ++ t' ∧
         forallb (λ d, bool_decide (d = Constants.padding_character)) z = true).
  { intros t t'. cbn [denote]. setoid_rewrite denote_space. split.
    - intros (t1 & -> & t2 & (n & _ & _ & Hn) & ->).
      change (nsteps (denote w (RSet [("0", "0")%char])) n t1 t2) in Hn.
      apply denote_set_steps in Hn as (u & -> & _ & Hu). exists u. split; [done|].
      revert Hu. apply forallb_impl. intros x Hx. apply bool_decide_eq_true_2. by apply in_set_single.
    - intros (z & -> & Hz). exists (z ++ t'). split; [done|]. exists t'. split; [|done].
      exists (length z). split; [lia|]. split; [done|].
      apply (denote_set_steps w). exists z. split; [done|]. split; [done|].
      revert Hz. apply forallb_impl. intros x Hx%bool_decide_eq_true. by apply in_set_single. }
  unfold re_padding. remember (RSeq re_space (RSeq _ _)) as body eqn:Eb. cbn [denote].
  split.
  - intros (n & _ & Hn & Hs). simpl in Hn. destruct n as [|[|n]]; [| |lia].
    + inversion Hs; subst. by exists [].
    + apply nsteps_once_inv in Hs. apply Hbody in Hs as (z & -> & Hz).
      by exists (Constants.delimiting_character :: z).
  - intros (pad & -> & Hp). destruct pad as [|c z].
    + exists 0%nat. split; [lia|]. split; [simpl; lia|constructor].
    + simpl in Hp. apply andb_true_iff in Hp as [->%bool_decide_eq_true Hz].
      exists 1%nat. split; [lia|]. split; [simpl; lia|]. apply nsteps_once. apply Hbody. by exists z.
Qed.

(** A header field separator or digit is never a line end, so the length lookahead only
    constrains the length. *)
Definition header_char (c : ascii) : bool :=
  is_command_char c || is_digit c || bool_decide (c = Constants.delimiting_character) ||
  bool_decide (c = "-"%char).

Lemma header_char_not_line_end c : header_char c = true → not_line_end c = true.
Proof.
  intros H. destruct (not_line_end c) eqn:E; [done|].
  unfold not_line_end in E. apply negb_false_iff in E.
  unfold header_char, is_command_char, is_digit in H.
  assert (Hc : c ≠ Constants.delimiting_character ∧ c ≠ "-"%char) by (split; intros ->; done).
  rewrite !(bool_decide_eq_false_2 (c = _)) in H by tauto.
  change (code "A") with 65 in H. change (code "Z") with 90 in H. change (code "_") with 95 in H.
  lia.
Qed.

Lemma command_header_char s : forallb is_command_char s = true → forallb header_char s = true.
Proof. apply forallb_impl. intros x H. unfold header_char. by rewrite H. Qed.

Lemma digits_header_char s : digit_string s → forallb header_char s = true.
Proof.
  intros [_ H]. revert H. apply forallb_impl. intros x H. unfold header_char.
  by rewrite H, orb_true_r.
Qed.

Lemma int_field_header_char n s : digit_string s → forallb header_char (int_field n s) = true.
Proof. intros H%digits_header_char. by destruct n. Qed.

Lemma padding_header_char s : is_padding s = true → forallb header_char s = true.
Proof.
  destruct s as [|c z]; [done|]. cbn [is_padding]. intros [->%bool_decide_eq_true Hz]%andb_true_iff.
  cbn [forallb]. apply andb_true_iff. split; [done|]. revert Hz. apply forallb_impl.
  by intros x ->%bool_decide_eq_true.
Qed.

Create HintDb header.
#[export] Hint Resolve command_header_char digits_header_char int_field_header_char
  padding_header_char : header.

(** Split [forallb header_char] of a layout into its fields. *)
Ltac header_chars :=
  repeat (rewrite forallb_app; apply andb_true_iff; split); auto with header.

Lemma header_chars_not_line_end s : forallb header_char s = true → forallb not_line_end s = true.
Proof. apply forallb_impl, header_char_not_line_end. Qed.

(** The fields of a well-formed request and response header. *)
Definition request_wf (h cmd : bytes) (n1 : bool) (d1 : bytes) (n2 : bool) (d2 d3 pad : bytes) : Prop :=
  h = request_layout cmd n1 d1 n2 d2 d3 pad ∧ cmd ≠ [] ∧ forallb is_command_char cmd = true ∧
  digit_string d1 ∧ digit_string d2 ∧ digit_string d3 ∧ is_padding pad = true.

Definition response_wf (h cmd : bytes) (n1 : bool) (d1 : bytes) (n2 : bool) (d2 d3 d4 pad : bytes) : Prop :=
  h = response_layout cmd n1 d1 n2 d2 d3 d4 pad ∧ cmd ≠ [] ∧ forallb is_command_char cmd = true ∧
  digit_string d1 ∧ digit_string d2 ∧ digit_string d3 ∧ digit_string d4 ∧ is_padding pad = true.

Lemma denote_seq w r1 r2 s s' :
  denote w (RSeq r1 r2) s s' ↔ ∃ t, denote w r1 s t ∧ denote w r2 t s'.
Proof. done. Qed.

Lemma denote_int_seq w r s s' :
  denote w (RSeq re_sign (RSeq re_digits r)) s s' ↔
  ∃ neg ds t, s = int_field neg ds ++ t ∧ digit_string ds ∧ denote w r t s'.
Proof.
  rewrite denote_seq. setoid_rewrite denote_seq. split.
  - intros (t & Ht & t' & Ht' & Hr).
    destruct (proj1 (denote_int w s t')) as (neg & ds & -> & Hds); [by exists t|].
    by exists neg, ds, t'.
  - intros (neg & ds & t & -> & Hds & Hr).
    destruct (proj2 (denote_int w (int_field neg ds ++ t) t)) as (u & Hu & Hu'); [by exists neg, ds|].
    eauto.
Qed.

Lemma denote_space_seq w r s s' :
  denote w (RSeq re_space r) s s' ↔ ∃ t, s = [Constants.delimiting_character] ++ t ∧ denote w r t s'.
Proof. rewrite denote_seq. by setoid_rewrite denote_space. Qed.

Lemma denote_command_seq w r s s' :
  denote w (RSeq re_command r) s s' ↔
  ∃ cmd t, s = cmd ++ t ∧ cmd ≠ [] ∧ forallb is_command_char cmd = true ∧ denote w r t s'.
Proof. rewrite denote_seq. setoid_rewrite denote_command. naive_solver. Qed.

Lemma denote_digits_seq w r s s' :
  denote w (RSeq re_digits r) s s' ↔ ∃ ds t, s = ds ++ t ∧ digit_string ds ∧ denote w r t s'.
Proof. rewrite denote_seq. setoid_rewrite denote_digits. naive_solver. Qed.

Lemma denote_padding_end w s s' :
  denote w (RSeq re_padding REps) s s' ↔ ∃ pad, s = pad ++ s' ∧ is_padding pad = true.
Proof. rewrite denote_seq. setoid_rewrite denote_padding. cbn [denote]. naive_solver. Qed.

Lemma denote_start w n r s' :
  denote w (RSeq RBegin (RSeq (re_length n) r)) w s' ↔
  length w = n ∧ forallb not_line_end w = true ∧ denote w r w s'.
Proof.
  rewrite denote_seq. setoid_rewrite denote_seq. unfold re_length.
  setoid_rewrite denote_look_length. cbn [denote]. naive_solver.
Qed.

Lemma request_match_spec h :
  matches_header m_request_regex h = true ↔
  Z.of_nat (length (c_str h)) = Constants.request_header_len ∧
  ∃ cmd n1 d1 n2 d2 d3 pad, request_wf (c_str h) cmd n1 d1 n2 d2 d3 pad.
Proof.
  rewrite m_request_regex_eq. unfold matches_header. rewrite regex_match_spec.
  generalize (c_str h). intros s. rewrite denote_start, denote_command_seq.
  unfold Constants.request_header_len.
  setoid_rewrite denote_space_seq. setoid_rewrite denote_int_seq.
  setoid_rewrite denote_space_seq. setoid_rewrite denote_int_seq.
  setoid_rewrite denote_space_seq. setoid_rewrite denote_digits_seq.
  setoid_rewrite denote_padding_end. split.
  - intros (Hl & _ & cmd & ? & -> & Hne & Hc & ? & -> & n1 & d1 & ? & -> & Hd1 & ? & -> &
      n2 & d2 & ? & -> & Hd2 & ? & -> & d3 & ? & -> & Hd3 & pad & -> & Hp).
    split; [lia|]. exists cmd, n1, d1, n2, d2, d3, pad. unfold request_wf, request_layout.
    by rewrite app_nil_r.
  - intros (Hl & cmd & n1 & d1 & n2 & d2 & d3 & pad & -> & Hne & Hc & Hd1 & Hd2 & Hd3 & Hp).
    split; [lia|]. split; [apply header_chars_not_line_end; unfold request_layout; header_chars|].
    exists cmd. eexists. split; [done|]. split; [done|]. split; [done|].
    eexists. split; [done|]. exists n1, d1. eexists. split; [done|]. split; [done|].
    eexists. split; [done|]. exists n2, d2. eexists. split; [done|]. split; [done|].
    eexists. split; [done|]. exists d3. eexists. split; [done|]. split; [done|].
    exists pad. by rewrite app_nil_r.
Qed.

Lemma response_match_spec h :
  matches_header m_response_regex h = true ↔
  Z.of_nat (length (c_str h)) = Constants.response_header_len ∧
  ∃ cmd n1 d1 n2 d2 d3 d4 pad, response_wf (c_str h) cmd n1 d1 n2 d2 d3 d4 pad.
Proof.
  rewrite m_response_regex_eq. unfold matches_header. rewrite regex_match_spec.
  generalize (c_str h). intros s. rewrite denote_start, denote_command_seq.
  unfold Constants.response_header_len.
  setoid_rewrite denote_space_seq. setoid_rewrite denote_int_seq.
  setoid_rewrite denote_space_seq. setoid_rewrite denote_int_seq.
  setoid_rewrite denote_space_seq. setoid_rewrite denote_digits_seq.
  setoid_rewrite denote_space_seq. setoid_rewrite denote_digits_seq.
  setoid_rewrite denote_padding_end. split.
  - intros (Hl & _ & cmd & ? & -> & Hne & Hc & ? & -> & n1 & d1 & ? & -> & Hd1 & ? & -> &
      n2 & d2 & ? & -> & Hd2 & ? & -> & d3 & ? & -> & Hd3 & ? & -> & d4 & ? & -> & Hd4 &
      pad & -> & Hp).
    split; [lia|]. exists cmd, n1, d1, n2, d2, d3, d4, pad. unfold response_wf, response_layout.
    by rewrite app_nil_r.
  - intros (Hl & cmd & n1 & d1 & n2 & d2 & d3 & d4 & pad & -> & Hne & Hc & Hd1 & Hd2 & Hd3 & Hd4 & Hp).
    split; [lia|]. split; [apply header_chars_not_line_end; unfold response_layout; header_chars|].
    exists cmd. eexists. split; [done|]. split; [done|]. split; [done|].
    eexists. split; [done|]. exists n1, d1. eexists. split; [done|]. split; [done|].
    eexists. split; [done|]. exists n2, d2. eexists. split; [done|]. split; [done|].
    eexists. split; [done|]. exists d3. eexists. split; [done|]. split; [done|].
    eexists. split; [done|]. exists d4. eexists. split; [done|]. split; [done|].
    exists pad. by rewrite app_nil_r.
Qed.

(** ** What is extracted *)

(** The value of an [int] field with digits [ds], when no earlier field has failed. *)
Definition int_result (neg : bool) (ds : bytes) : Z := clamp INT32_MIN INT32_MAX (int_value neg ds).
Definition int_fits (neg : bool) (ds : bytes) : bool := in_range INT32_MIN INT32_MAX (int_value neg ds).

(** A stream whose [failbit] is set leaves every later [int] field at its initial 0. *)
Lemma extract_int_stopped r :
  extract_int INT32_MIN INT32_MAX {| is_rest := r; is_ok := false |} 0 =
    (0, {| is_rest := (span is_space r).2; is_ok := false |}).
Proof. done. Qed.

Lemma extract_field neg ds r :
  digit_string ds → field_end r →
  extract_int INT32_MIN INT32_MAX
    (istringstream ([Constants.delimiting_character] ++ int_field neg ds ++ r)) 0 =
    (int_result neg ds, {| is_rest := r; is_ok := int_fits neg ds |}).
Proof. intros [Hne Hd] Hr. by apply extract_int_field. Qed.

Lemma is_command_char_not_space c : is_command_char c = true → is_space c = false.
Proof.
  unfold is_command_char, is_space.
  change (code "A") with 65. change (code "Z") with 90. change (code "_") with 95. lia.
Qed.

Lemma extract_command cmd r :
  cmd ≠ [] → forallb is_command_char cmd = true → field_end r →
  extract_string (istringstream (cmd ++ r)) [] = (cmd, istringstream r).
Proof.
  intros Hne Hc Hr. apply (extract_string_word []); [done|done| |done].
  revert Hc. apply forallb_impl. intros x Hx. by rewrite is_command_char_not_space.
Qed.

Lemma field_end_delim r : field_end ([Constants.delimiting_character] ++ r).
Proof. done. Qed.

Lemma field_end_padding pad : is_padding pad = true → field_end pad.
Proof.
  destruct pad as [|c z]; [done|]. cbn [is_padding field_end].
  by intros [->%bool_decide_eq_true _]%andb_true_iff.
Qed.

#[export] Hint Resolve field_end_delim field_end_padding : header.

(** The fields a well-formed request header yields: a field that overflows [int] is
    clamped, and every later one reads as 0. *)
Definition request_values (n1 : bool) (d1 : bytes) (n2 : bool) (d2 d3 : bytes) : Z * Z * Z :=
  (int_result n1 d1,
   if int_fits n1 d1 then int_result n2 d2 else 0,
   if int_fits n1 d1 && int_fits n2 d2 then int_result false d3 else 0).

Lemma request_fields_wf h cmd n1 d1 n2 d2 d3 pad :
  request_wf (c_str h) cmd n1 d1 n2 d2 d3 pad →
  request_fields h =
    let '(v1, v2, v3) := request_values n1 d1 n2 d2 d3 in (cmd, v1, v2, v3).
Proof.
  intros (Hh & Hne & Hc & Hd1 & Hd2 & Hd3 & Hp).
  unfold request_fields, extractHeaderFields, request_values.
  rewrite Hh. unfold request_layout, extract, extract_pair, extract, extract_pair.
  unfold extract, extract_std_string, extract_std_int.
  rewrite extract_command by auto with header.
  rewrite extract_field by auto with header.
  destruct (int_fits n1 d1); cbn [andb]; [|by rewrite !extract_int_stopped].
  fold (istringstream ([Constants.delimiting_character] ++ int_field n2 d2 ++
    [Constants.delimiting_character] ++ d3 ++ pad)).
  rewrite extract_field by auto with header.
  destruct (int_fits n2 d2); cbn [andb]; [|by rewrite !extract_int_stopped].
  pose proof (extract_field false d3 pad Hd3 (field_end_padding _ Hp)) as E.
  cbn [int_field] in E.
  fold (istringstream ([Constants.delimiting_character] ++ d3 ++ pad)). by rewrite E.
Qed.

(** The same for a response header all of whose fields fit [int]. *)
Lemma response_fields_wf h cmd n1 d1 n2 d2 d3 d4 pad :
  response_wf (c_str h) cmd n1 d1 n2 d2 d3 d4 pad →
  int_fits n1 d1 = true → int_fits n2 d2 = true → int_fits false d3 = true →
  response_fields h =
    (cmd, int_result n1 d1, int_result n2 d2, int_result false d3, int_result false d4).
Proof.
  intros (Hh & Hne & Hc & Hd1 & Hd2 & Hd3 & Hd4 & Hp) F1 F2 F3.
  unfold response_fields, extractHeaderFields.
  rewrite Hh. unfold response_layout.
  unfold extract, extract_pair, extract, extract_pair, extract, extract_pair, extract, extract_pair.
  unfold extract, extract_std_string, extract_std_int.
  rewrite extract_command, extract_field by auto with header. rewrite F1.
  fold (istringstream ([Constants.delimiting_character] ++ int_field n2 d2 ++
    [Constants.delimiting_character] ++ d3 ++ [Constants.delimiting_character] ++ d4 ++ pad)).
  rewrite extract_field by auto with header. rewrite F2.
  pose proof (extract_field false d3 ([Constants.delimiting_character] ++ d4 ++ pad) Hd3 (field_end_delim _)) as E3.
  pose proof (extract_field false d4 pad Hd4 (field_end_padding _ Hp)) as E4.
  cbn [int_field] in E3, E4.
  fold (istringstream ([Constants.delimiting_character] ++ d3 ++ [Constants.delimiting_character] ++ d4 ++ pad)).
  rewrite E3, F3.
  fold (istringstream ([Constants.delimiting_character] ++ d4 ++ pad)). by rewrite E4.
Qed.

(** A printed integer is a field with its own value. *)
Lemma to_string_field z :
  int32 z → ∃ neg ds, to_string z = int_field neg ds ∧ digit_string ds ∧
    int_result neg ds = z ∧ int_fits neg ds = true.
Proof.
  intros Hz. destruct (to_string_int_field z) as (neg & ds & E & Hne & Hd & Hv).
  exists neg, ds. unfold int32, digit_string, int_result, int_fits, clamp, in_range in *.
  rewrite Hv. repeat split; [done..| |].
  - rewrite (proj2 (Z.ltb_ge z INT32_MIN)), (proj2 (Z.ltb_ge INT32_MAX z)) by lia. done.
  - rewrite (proj2 (Z.leb_le INT32_MIN z)), (proj2 (Z.leb_le z INT32_MAX)) by lia. done.
Qed.

Lemma to_string_nat_field z :
  0 ≤ z ≤ INT32_MAX → ∃ ds, to_string z = ds ∧ digit_string ds ∧
    int_result false ds = z ∧ int_fits false ds = true.
Proof.
  intros Hz. exists (digits z). unfold to_string. rewrite (proj2 (Z.ltb_ge z 0)) by lia.
  unfold digit_string, int_result, int_fits, int_value, clamp, in_range.
  rewrite digits_value_digits by lia.
  repeat split; [by apply digits_ne; lia|by apply digits_forall; lia|..]; unfold INT32_MIN in *.
  - rewrite (proj2 (Z.ltb_ge z _)), (proj2 (Z.ltb_ge INT32_MAX z)) by lia. done.
  - rewrite (proj2 (Z.leb_le _ z)), (proj2 (Z.leb_le z INT32_MAX)) by lia. done.
Qed.

(** ** Properties *)

(** C31. A request header is accepted exactly when, up to its first NUL, it is
    [request_header_len] characters long and laid out as COMMAND TXN_ID SEQ_NUM
    CONTENT_LEN, single spaces between them, upper-case command, optional minus signs on
    the two ids and an optional tail of one space and padding zeros. *)
Theorem request_format_exact h :
  isValidRequestFormat h = true ↔
  Z.of_nat (length (c_str h)) = Constants.request_header_len ∧
  ∃ cmd n1 d1 n2 d2 d3 pad, request_wf (c_str h) cmd n1 d1 n2 d2 d3 pad.
Proof. apply request_match_spec. Qed.

(** C32. The extraction of a valid request header is total and given by its layout: the
    command and the three numbers, a number outside [int] clamped to the nearer bound and
    every number after it read as 0 (the stream has failed). *)
Theorem request_extraction h :
  isValidRequestFormat h = true →
  ∃ cmd n1 d1 n2 d2 d3 pad, request_wf (c_str h) cmd n1 d1 n2 d2 d3 pad ∧
    request_fields h =
      let '(v1, v2, v3) := request_values n1 d1 n2 d2 d3 in (cmd, v1, v2, v3).
Proof.
  intros (_ & cmd & n1 & d1 & n2 & d2 & d3 & pad & H)%request_match_spec.
  exists cmd, n1, d1, n2, d2, d3, pad. split; [done|]. by eapply request_fields_wf.
Qed.

Definition sample_request_header : bytes :=
  str "WRITE 12345 1 56 00000000000000000000000000000000000000000000000".

(** A header whose TXN_ID overflows: the id is clamped and the rest reads as 0. *)
Definition overflow_request_header : bytes :=
  str "COMMIT 99999999999 7 3 00000000000000000000000000000000000000000".

Lemma request_extraction_witness :
  isValidRequestFormat overflow_request_header = true ∧
  (request_fields overflow_request_header = (str "COMMIT", 2147483647, 0, 0)) ∧
  ∃ cmd n1 d1 n2 d2 d3 pad,
    request_wf (c_str overflow_request_header) cmd n1 d1 n2 d2 d3 pad ∧
    request_fields overflow_request_header =
      let '(v1, v2, v3) := request_values n1 d1 n2 d2 d3 in (cmd, v1, v2, v3).
Proof.
  split; [vm_compute; reflexivity|]. split; [vm_compute; reflexivity|].
  apply request_extraction. vm_compute. reflexivity.
Defined.
