(* ===== verification/Messages.v ===== *)
(** * Messages: building and reading requests and responses

    The server side ([ServerBackend::generateResponse], [getClientRequestAsTuple],
    [getContentLength], server-backend.cpp) and the client side ([Client::sendRequest],
    [Client::getResponse], client.cpp) of the codec, and the theorems that the two sides
    agree. *)
From S2P Require Import Prelude Stdcxx Regex Constants WireProtocol.
From Stdlib Require Import ZArith Lia List Ascii String Bool.
From stdpp Require Import base gmap strings list fin_maps sorting.
#[local] Set Default Goal Selector "!".
Local Open Scope Z_scope.

(** ** Headers *)

(** Both sides complete a header the same way: a delimiter if there is room for one, then
    [append(header_len - length(), padding)].  On a header that is already too long the
    count wraps around as a [size_t] and [append] throws [std::length_error]: [None]. *)
Definition pad_header (header_len : Z) (header : bytes) : option bytes :=
  let header := if len header <? header_len
                then header ++ [Constants.delimiting_character] else header in
  if header_len <? len header then None
  else Some (header ++ repeat Constants.padding_character (Z.to_nat (header_len - len header))).

Definition sp : bytes := [Constants.delimiting_character].

(** [ServerBackend::generateResponse] *)
Definition generateResponse (in_command : bytes) (in_txn_id in_seq_num : Z)
    (in_error : Errors.ErrorMapIterator) (in_data : bytes) : option bytes :=
  let err_code := match in_error with
                  | None => 0
                  | _ => Errors.getErrorCode in_error
                  end in
  let response_header :=
    in_command ++ sp ++ to_string in_txn_id ++ sp ++ to_string in_seq_num ++ sp ++
    to_string err_code ++ sp ++ to_string (len in_data) in
  match pad_header Constants.response_header_len response_header with
  | Some h => Some (h ++ in_data)
  | None => None
  end.

(** The request [Client::sendRequest] writes to its socket. *)
Definition generateRequest (in_command : bytes) (in_txn_id in_seq_num : Z)
    (in_data : bytes) : option bytes :=
  let request_header :=
    in_command ++ sp ++ to_string in_txn_id ++ sp ++ to_string in_seq_num ++ sp ++
    to_string (len in_data) in
  match pad_header Constants.request_header_len request_header with
  | Some h => Some (h ++ in_data)
  | None => None
  end.

(** [ServerBackend::getClientRequestAsTuple]; a null payload leaves DATA empty. *)
Definition getClientRequestAsTuple (in_request_header : bytes)
    (in_request_payload : option bytes) : RequestTuple :=
  let '(command, txn_id, seq_num, content_len) := request_fields in_request_header in
  {| rq_command := command; rq_txn_id := txn_id; rq_seq_num := seq_num;
     rq_content_len := content_len;
     rq_data := match in_request_payload with Some p => c_str p | None => [] end |}.

(** The tuple [Client::getResponse] builds from a header and a payload. *)
Definition getServerResponseAsTuple (response_header response_payload : bytes) : ResponseTuple :=
  let '(command, txn_id, seq_num, error_code, content_len) := response_fields response_header in
  {| rs_command := command; rs_txn_id := txn_id; rs_seq_num := seq_num;
     rs_error_code := error_code; rs_content_len := content_len;
     rs_data := c_str response_payload |}.

(** [ServerBackend::getRequestHeaderLength] *)
Definition getRequestHeaderLength : Z := Constants.request_header_len.

(** The response of [SET_FORMATTING_ERROR]. *)
Definition formatting_error : option bytes :=
  generateResponse Constants.error_cmd Constants.default_txn_id Constants.error_seq_num
    Errors.InvalidMessageFormat (Errors.getErrorMessage Errors.InvalidMessageFormat).

(** [ServerBackend::getContentLength] : the content length, or -1 with the response set
    and the progress flag cleared; [None] when building the response throws. *)
Record ContentLength := {
  cl_result : Z; cl_server_response : bytes; cl_transaction_in_progress : bool }.

Definition getContentLength (in_request_header : bytes) (server_response_str : bytes)
    (transaction_in_progress : bool) : option ContentLength :=
  if isValidRequestFormat in_request_header then
    Some {| cl_result := rq_content_len (getClientRequestAsTuple in_request_header None);
            cl_server_response := server_response_str;
            cl_transaction_in_progress := transaction_in_progress |}
  else
    match formatting_error with
    | Some response =>
        Some {| cl_result := -1; cl_server_response := response;
                cl_transaction_in_progress := false |}
    | None => None
    end.

(** ** Header lemmas *)

Lemma header_char_not_nul c : header_char c = true → negb (bool_decide (c = NUL)) = true.
Proof. intros H. apply negb_true_iff, bool_decide_eq_false_2. by intros ->. Qed.

Lemma header_chars_nul_free s : forallb header_char s = true → nul_free s = true.
Proof. apply forallb_impl, header_char_not_nul. Qed.

Lemma pad_header_fits header_len h :
  len h ≤ header_len →
  ∃ pad, pad_header header_len h = Some (h ++ pad) ∧ is_padding pad = true ∧
    Z.of_nat (length (h ++ pad)) = header_len.
Proof.
  intros Hl. unfold pad_header. destruct (Z.ltb_spec (len h) header_len) as [Hlt|Hge].
  - assert (E : len (h ++ [Constants.delimiting_character]) = len h + 1)
      by (rewrite length_app; simpl; lia).
    rewrite (proj2 (Z.ltb_ge header_len _)) by lia. rewrite E, <- app_assoc.
    eexists. split; [done|]. split.
    + cbn [app is_padding]. apply andb_true_iff. split; [done|by apply forallb_repeat].
    + rewrite !length_app, repeat_length. simpl. lia.
  - rewrite (proj2 (Z.ltb_ge header_len (len h))) by lia.
    exists []. replace (Z.to_nat (header_len - len h)) with 0%nat by lia.
    cbn [repeat]. rewrite !app_nil_r. split; [done|]. split; [done|lia].
Qed.

Lemma pad_header_overflow header_len h : header_len < len h → pad_header header_len h = None.
Proof.
  intros H. unfold pad_header. rewrite (proj2 (Z.ltb_ge (len h) header_len)) by lia.
  by rewrite (proj2 (Z.ltb_lt header_len (len h))) by lia.
Qed.

Definition command_word (cmd : bytes) : Prop := cmd ≠ [] ∧ forallb is_command_char cmd = true.

(** Both generators print a layout; its c-string view is the layout itself. *)
Lemma request_wf_intro cmd n1 d1 n2 d2 d3 pad :
  command_word cmd → digit_string d1 → digit_string d2 → digit_string d3 →
  is_padding pad = true →
  request_wf (c_str (request_layout cmd n1 d1 n2 d2 d3 pad)) cmd n1 d1 n2 d2 d3 pad.
Proof.
  intros [Hne Hc] ????. rewrite c_str_id; [by unfold request_wf; tauto|].
  apply header_chars_nul_free. unfold request_layout. header_chars.
Qed.

Lemma response_wf_intro cmd n1 d1 n2 d2 d3 d4 pad :
  command_word cmd → digit_string d1 → digit_string d2 → digit_string d3 → digit_string d4 →
  is_padding pad = true →
  response_wf (c_str (response_layout cmd n1 d1 n2 d2 d3 d4 pad)) cmd n1 d1 n2 d2 d3 d4 pad.
Proof.
  intros [Hne Hc] ?????. rewrite c_str_id; [by unfold response_wf; tauto|].
  apply header_chars_nul_free. unfold response_layout. header_chars.
Qed.

Lemma valid_request_nul_free h :
  isValidRequestFormat h = true → Z.of_nat (length h) = Constants.request_header_len → nul_free h = true.
Proof. intros [Hl _]%request_match_spec Hh. apply c_str_full. lia. Qed.

Lemma valid_response_nul_free h :
  isValidResponseFormat h = true → Z.of_nat (length h) = Constants.response_header_len → nul_free h = true.
Proof. intros [Hl _]%response_match_spec Hh. apply c_str_full. lia. Qed.

(** What a client sends and the server reads. *)
Lemma generateRequest_spec cmd txn seq data :
  command_word cmd → (length cmd ≤ 29)%nat → int32 txn → int32 seq → len data ≤ INT32_MAX →
  ∃ h, generateRequest cmd txn seq data = Some (h ++ data) ∧
    Z.of_nat (length h) = Constants.request_header_len ∧ isValidRequestFormat h = true ∧
    request_fields h = (cmd, txn, seq, len data).
Proof.
  intros Hcmd Hlen Htxn Hseq Hdata. pose proof (Nat2Z.is_nonneg (length data)) as Hd0.
  pose proof (to_string_int32_length _ Htxn) as L1. pose proof (to_string_int32_length _ Hseq) as L2.
  assert (L3 : (length (to_string (len data)) ≤ 10)%nat).
  { apply to_string_length. unfold INT32_MAX in *. lia. }
  destruct (to_string_field _ Htxn) as (n1 & d1 & E1 & Hd1 & V1 & F1).
  destruct (to_string_field _ Hseq) as (n2 & d2 & E2 & Hd2 & V2 & F2).
  destruct (to_string_nat_field (len data)) as (d3 & E3 & Hd3 & V3 & F3); [lia|].
  unfold generateRequest. cbv zeta.
  destruct (pad_header_fits Constants.request_header_len
    (cmd ++ sp ++ to_string txn ++ sp ++ to_string seq ++ sp ++ to_string (len data)))
    as (pad & -> & Hpad & Hl).
  { rewrite !length_app. unfold sp, Constants.request_header_len. simpl. lia. }
  rewrite E1, E2, E3 in *. eexists. split; [done|]. split; [done|].
  assert (Hlay : (cmd ++ sp ++ int_field n1 d1 ++ sp ++ int_field n2 d2 ++ sp ++ d3) ++ pad =
    request_layout cmd n1 d1 n2 d2 d3 pad).
  { unfold request_layout, sp. by rewrite <- !app_assoc. }
  rewrite Hlay in *. pose proof (request_wf_intro cmd n1 d1 n2 d2 d3 pad Hcmd Hd1 Hd2 Hd3 Hpad) as Hwf.
  split.
  - apply request_match_spec. pose proof Hwf as [Hs _]. rewrite Hs. split; [done|].
    rewrite <- Hs. eauto 10.
  - rewrite (request_fields_wf _ _ _ _ _ _ _ _ Hwf). unfold request_values.
    by rewrite V1, V2, V3, F1, F2.
Qed.

(** What the server sends and a client reads. *)
Lemma generateResponse_spec cmd txn seq err data :
  command_word cmd → (length cmd ≤ 60)%nat → int32 txn → int32 seq →
  0 ≤ Errors.getErrorCode err ≤ INT32_MAX → len data ≤ INT32_MAX →
  ∃ h, generateResponse cmd txn seq err data = Some (h ++ data) ∧
    Z.of_nat (length h) = Constants.response_header_len ∧ isValidResponseFormat h = true ∧
    response_fields h = (cmd, txn, seq, Errors.getErrorCode err, len data).
Proof.
  intros Hcmd Hlen Htxn Hseq Herr Hdata. pose proof (Nat2Z.is_nonneg (length data)) as Hd0.
  pose proof (to_string_int32_length _ Htxn) as L1. pose proof (to_string_int32_length _ Hseq) as L2.
  assert (L3 : (length (to_string (Errors.getErrorCode err)) ≤ 10)%nat).
  { apply to_string_length. unfold INT32_MAX in *. lia. }
  assert (L4 : (length (to_string (len data)) ≤ 10)%nat).
  { apply to_string_length. unfold INT32_MAX in *. lia. }
  destruct (to_string_field _ Htxn) as (n1 & d1 & E1 & Hd1 & V1 & F1).
  destruct (to_string_field _ Hseq) as (n2 & d2 & E2 & Hd2 & V2 & F2).
  destruct (to_string_nat_field _ Herr) as (d3 & E3 & Hd3 & V3 & F3).
  destruct (to_string_nat_field (len data)) as (d4 & E4 & Hd4 & V4 & F4); [lia|].
  unfold generateResponse.
  replace (match err with None => 0 | _ => Errors.getErrorCode err end)
    with (Errors.getErrorCode err) by (by destruct err). cbv zeta.
  destruct (pad_header_fits Constants.response_header_len
    (cmd ++ sp ++ to_string txn ++ sp ++ to_string seq ++ sp ++
     to_string (Errors.getErrorCode err) ++ sp ++ to_string (len data)))
    as (pad & -> & Hpad & Hl).
  { rewrite !length_app. unfold sp, Constants.response_header_len. simpl. lia. }
  rewrite E1, E2, E3, E4 in *. eexists. split; [done|]. split; [done|].
  assert (Hlay : (cmd ++ sp ++ int_field n1 d1 ++ sp ++ int_field n2 d2 ++ sp ++ d3 ++ sp ++ d4) ++ pad =
    response_layout cmd n1 d1 n2 d2 d3 d4 pad).
  { unfold response_layout, sp. by rewrite <- !app_assoc. }
  rewrite Hlay in *.
  pose proof (response_wf_intro cmd n1 d1 n2 d2 d3 d4 pad Hcmd Hd1 Hd2 Hd3 Hd4 Hpad) as Hwf.
  split.
  - apply response_match_spec. pose proof Hwf as [Hs _]. rewrite Hs. split; [done|].
    rewrite <- Hs. eauto 12.
  - rewrite (response_fields_wf _ _ _ _ _ _ _ _ _ Hwf) by done. by rewrite V1, V2, V3, V4.
Qed.

(** ** Properties *)

(** C33. Round trip of a request: for every command word of at most 29 letters (all five
    commands), ids that are [int]s and any data an [int] can measure, the client's header
    building does not throw, the server accepts the header, reads back the length of the
    data as the content length, and gets the tuple the client sent (the data up to its
    first NUL, which is all [string(in_request_payload)] keeps). *)
Theorem request_roundtrip cmd txn_id seq_num data response in_progress :
  command_word cmd → (length cmd ≤ 29)%nat → int32 txn_id → int32 seq_num →
  len data ≤ INT32_MAX →
  ∃ header, generateRequest cmd txn_id seq_num data = Some (header ++ data) ∧
    len header = Constants.request_header_len ∧
    getContentLength header response in_progress =
      Some {| cl_result := len data; cl_server_response := response;
              cl_transaction_in_progress := in_progress |} ∧
    getClientRequestAsTuple header (Some data) =
      {| rq_command := cmd; rq_txn_id := txn_id; rq_seq_num := seq_num;
         rq_content_len := len data; rq_data := c_str data |}.
Proof.
  intros Hc Hl Ht Hs Hd.
  destruct (generateRequest_spec cmd txn_id seq_num data) as (h & Hg & Hh & Hv & Hf); [done..|].
  exists h. split; [done|]. split; [done|].
  unfold getContentLength, getClientRequestAsTuple. by rewrite Hv, Hf.
Qed.

(** C34. Round trip of a response: whatever command, ids, error of the map and data the
    server answers with, building the response does not throw, its header is
    [response_header_len] bytes long and valid for the client, and the client reads back
    the same fields and the data up to its first NUL. *)
Theorem response_roundtrip cmd txn_id seq_num err data :
  command_word cmd → (length cmd ≤ 60)%nat → int32 txn_id → int32 seq_num →
  0 ≤ Errors.getErrorCode err ≤ INT32_MAX → len data ≤ INT32_MAX →
  ∃ header, generateResponse cmd txn_id seq_num err data = Some (header ++ data) ∧
    len header = Constants.response_header_len ∧ isValidResponseFormat header = true ∧
    getServerResponseAsTuple header data =
      {| rs_command := cmd; rs_txn_id := txn_id; rs_seq_num := seq_num;
         rs_error_code := Errors.getErrorCode err; rs_content_len := len data;
         rs_data := c_str data |}.
Proof.
  intros Hc Hl Ht Hs He Hd.
  destruct (generateResponse_spec cmd txn_id seq_num err data) as (h & Hg & Hh & Hv & Hf); [done..|].
  exists h. split; [done|]. split; [done|]. split; [done|].
  unfold getServerResponseAsTuple. by rewrite Hf.
Qed.

(** The content length the dispatcher sizes its payload buffer with: on a header that
    does not match the protocol it is -1, the InvalidMessageFormat response is set and the
    progress flag cleared; otherwise it is between 0 and INT_MAX and nothing else
    changes. *)
Theorem content_length_bounds header response in_progress :
  ∃ cl, getContentLength header response in_progress = Some cl ∧
    if isValidRequestFormat header then
      0 ≤ cl_result cl ≤ INT32_MAX ∧ cl_server_response cl = response ∧
      cl_transaction_in_progress cl = in_progress
    else
      cl_result cl = -1 ∧ Some (cl_server_response cl) = formatting_error ∧
      cl_transaction_in_progress cl = false.
Proof.
  unfold getContentLength. destruct (isValidRequestFormat header) eqn:Hv.
  - eexists. split; [done|]. cbn. split; [|done].
    apply request_match_spec in Hv as (_ & cmd & n1 & d1 & n2 & d2 & d3 & pad & Hwf).
    pose proof Hwf as (_ & _ & _ & _ & _ & Hd3 & _).
    unfold getClientRequestAsTuple. rewrite (request_fields_wf _ _ _ _ _ _ _ _ Hwf). cbn.
    destruct (int_fits n1 d1 && int_fits n2 d2); [|unfold INT32_MAX; lia].
    destruct Hd3 as [_ Hd3]. pose proof (digits_value_ge 0 d3 ltac:(lia) Hd3) as Hge.
    unfold int_result, clamp, int_value, INT32_MIN, INT32_MAX.
    destruct (Z.ltb_spec (digits_value 0 d3) (-2147483648)); [lia|].
    destruct (Z.ltb_spec 2147483647 (digits_value 0 d3)); lia.
  - destruct formatting_error as [r|] eqn:Hf; [|by vm_compute in Hf].
    eexists. split; [done|]. done.
Qed.

(** ** Types *)

Record request_typed (req : RequestTuple) : Prop := {
  rqt_command : has_type (rq_command req);
  rqt_txn_id : int32 (rq_txn_id req);
  rqt_seq_num : int32 (rq_seq_num req);
  rqt_content_len : int32 (rq_content_len req);
  rqt_data : nul_free (rq_data req) = true
}.

Record response_typed (res : ResponseTuple) : Prop := {
  rst_command : has_type (rs_command res);
  rst_txn_id : int32 (rs_txn_id res);
  rst_seq_num : int32 (rs_seq_num res);
  rst_error_code : int32 (rs_error_code res);
  rst_content_len : int32 (rs_content_len res);
  rst_data : nul_free (rs_data res) = true
}.

Lemma request_tuple_typed header payload : request_typed (getClientRequestAsTuple header payload).
Proof.
  unfold getClientRequestAsTuple. assert (Ht : has_type (request_fields header)) by by apply extractHeaderFields_typed.
  destruct (request_fields header) as [[[cmd txn] seq] n]. destruct Ht as [[[? ?] ?] ?].
  split; try done. destruct payload; [apply c_str_nul_free|done].
Qed.

Lemma response_tuple_typed header payload : response_typed (getServerResponseAsTuple header payload).
Proof.
  unfold getServerResponseAsTuple. assert (Ht : has_type (response_fields header)) by by apply extractHeaderFields_typed.
  destruct (response_fields header) as [[[[cmd txn] seq] err] n]. destruct Ht as [[[[? ?] ?] ?] ?].
  split; try done. apply c_str_nul_free.
Qed.

(** C35. Types of the messages: whatever bytes arrive, also in headers nothing has validated,
    the tuples the server and the client read from them are well typed: the command is a
    word without white space or NUL, every number is an [int] and the data is a C string. *)
Theorem messages_typed header payload :
  request_typed (getClientRequestAsTuple header payload) ∧
  response_typed (getServerResponseAsTuple header (default [] payload)).
Proof. split; [apply request_tuple_typed|apply response_tuple_typed]. Qed.

(** The words the protocol uses are command words, short enough for both headers. *)
Definition protocol_commands : list bytes :=
  [Constants.abort_cmd; Constants.commit_cmd; Constants.new_txn_cmd; Constants.read_cmd;
   Constants.write_cmd; Constants.ack_cmd; Constants.ask_resend_cmd; Constants.error_cmd].

Lemma protocol_command_word cmd :
  cmd ∈ protocol_commands → command_word cmd ∧ (length cmd ≤ 10)%nat.
Proof.
  unfold protocol_commands, command_word. rewrite !elem_of_cons, elem_of_nil.
  intros H. destruct_or!; subst; repeat split; try done; vm_compute; lia.
Qed.

Lemma request_roundtrip_witness :
  command_word Constants.write_cmd ∧ int32 12345 ∧
  ∃ header, generateRequest Constants.write_cmd 12345 1 (str "abc") = Some (header ++ str "abc") ∧
    len header = Constants.request_header_len ∧
    getContentLength header [] true =
      Some {| cl_result := len (str "abc"); cl_server_response := [];
              cl_transaction_in_progress := true |} ∧
    getClientRequestAsTuple header (Some (str "abc")) =
      {| rq_command := Constants.write_cmd; rq_txn_id := 12345; rq_seq_num := 1;
         rq_content_len := len (str "abc"); rq_data := c_str (str "abc") |}.
Proof.
  split; [by split|]. split; [by vm_compute|].
  apply request_roundtrip; [by split|vm_compute; lia|by vm_compute..].
Defined.

Lemma response_roundtrip_witness :
  ∃ header, generateResponse Constants.error_cmd (-1) (-1) Errors.InvalidMessageFormat (str "bad")
      = Some (header ++ str "bad") ∧
    len header = Constants.response_header_len ∧ isValidResponseFormat header = true ∧
    getServerResponseAsTuple header (str "bad") =
      {| rs_command := Constants.error_cmd; rs_txn_id := -1; rs_seq_num := -1;
         rs_error_code := Errors.getErrorCode Errors.InvalidMessageFormat;
         rs_content_len := len (str "bad"); rs_data := c_str (str "bad") |}.
Proof.
  apply response_roundtrip; [by split|vm_compute; lia|by vm_compute..].
Defined.
