(* ===== verification/Prog.v ===== *)
(** * Programs: atomic actions, mutexes and exceptions

    The C++ functions of the server are translated to values of [prog S A]: a tree of
    atomic actions on the shared state [S], mutex operations, waits and abnormal ends.
    One translation serves three readings: [run] executes a program alone (an executable
    big-step semantics), [always] says what holds at every point where the process could
    crash, and the interleaving semantics of Threads.v runs many programs against each
    other. *)
From S2P Require Import Prelude.
From Stdlib Require Import ZArith Lia List Ascii String Bool.
From stdpp Require Import base gmap strings list fin_maps sorting.
#[local] Set Default Goal Selector "!".

(** ** Mutexes

    The mutexes of the server: the global [g_mtx], [ServerBackend::m_member_mtx], the
    mutex of a transaction and the mutex of a [FileAttributes] object (both named by the
    address of the object that owns them) and the mutex of a file descriptor. *)
Inductive mutex :=
| g_mtx
| m_member_mtx
| txn_mtx (addr : positive)
| m_file_mtx (addr : positive)
| m_fd_mtx (fd : Z).

#[export] Instance mutex_eq_dec : EqDecision mutex.
Proof. solve_decision. Defined.

#[export] Instance mutex_countable : Countable mutex.
Proof.
  refine (inj_countable'
    (λ m, match m with
          | g_mtx => inl (inl tt) | m_member_mtx => inl (inr tt)
          | txn_mtx a => inr (inl (inl a)) | m_file_mtx a => inr (inl (inr a))
          | m_fd_mtx fd => inr (inr fd)
          end)
    (λ x, match x with
          | inl (inl _) => g_mtx | inl (inr _) => m_member_mtx
          | inr (inl (inl a)) => txn_mtx a | inr (inl (inr a)) => m_file_mtx a
          | inr (inr fd) => m_fd_mtx fd
          end) _).
  by intros [].
Defined.

(** Who holds which mutex. *)
Abbreviation locks := (gmap mutex nat).

(** ** Programs *)

(** Ways the process ends other than by returning: [exit(EXIT_FAILURE)], a failed
    [assert], an uncaught exception, a signal that ends the process, undefined
    behaviour. *)
Inductive halt := ExitFailure | AssertFailed | Uncaught | Killed | Undefined.

Inductive prog (S A : Type) : Type :=
| Ret (a : A)
| Act {X : Type} (f : S → option (X * S)) (k : X → prog S A)
    (* one atomic action on the shared state; [None] is undefined behaviour *)
| Lock (m : mutex) (k : prog S A)
| Unlock (m : mutex) (k : prog S A)
| Wait (g : S → bool) (k : prog S A)      (* block until the state satisfies [g] *)
| Halt (h : halt).

Arguments Ret {S A} a.
Arguments Act {S A X} f k.
Arguments Lock {S A} m k.
Arguments Unlock {S A} m k.
Arguments Wait {S A} g k.
Arguments Halt {S A} h.

Fixpoint bind {S A B} (p : prog S A) (q : A → prog S B) : prog S B :=
  match p with
  | Ret a => q a
  | Act f k => Act f (λ x, bind (k x) q)
  | Lock m k => Lock m (bind k q)
  | Unlock m k => Unlock m (bind k q)
  | Wait g k => Wait g (bind k q)
  | Halt h => Halt h
  end.

Declare Scope prog_scope.
Delimit Scope prog_scope with prog.
Open Scope prog_scope.

Notation "'let!' x ':=' p 'in' q" := (bind p (λ x, q))
  (at level 10, x pattern, p at level 100, q at level 200,
   format "'[v' 'let!'  x  ':='  p  'in' '/' q ']'") : prog_scope.
Notation "p ;;; q" := (bind p (λ _, q))
  (at level 199, right associativity, format "'[v' p ;;; '/' q ']'") : prog_scope.

(** Atomic actions: reading, modifying, and an action that is undefined where it returns
    [None]. *)
Definition act {S A} (f : S → A * S) : prog S A := Act (λ s, Some (f s)) Ret.
Definition act_partial {S A} (f : S → option (A * S)) : prog S A := Act f Ret.
Definition reads {S A} (f : S → A) : prog S A := act (λ s, (f s, s)).
Definition modify {S} (f : S → S) : prog S unit := act (λ s, (tt, f s)).
Definition deref {S A} (f : S → option A) : prog S A :=
  act_partial (λ s, match f s with Some a => Some (a, s) | None => None end).
Definition lock {S} (m : mutex) : prog S unit := Lock m (Ret tt).
Definition unlock {S} (m : mutex) : prog S unit := Unlock m (Ret tt).
Definition wait_until {S} (g : S → bool) : prog S unit := Wait g (Ret tt).

(** [assert(b)] *)
Definition assert_that {S} (b : bool) : prog S unit := if b then Ret tt else Halt AssertFailed.

(** ** Exceptions

    A function that may throw returns a sum; [try_catch] is [try { p } catch (E) { h }]
    with the handler selecting the exceptions it handles. *)
Inductive exn :=
  ErrorOpeningFile | ErrorWritingToFile | ErrorReadingFromFile | ErrorAddingFileAttributes.

#[export] Instance exn_eq_dec : EqDecision exn.
Proof. solve_decision. Defined.

Abbreviation eprog S A := (prog S (exn + A)).

Definition throw {S A} (e : exn) : eprog S A := Ret (inl e).
Definition eret {S A} (a : A) : eprog S A := Ret (inr a).

Definition ebind {S A B} (p : eprog S A) (q : A → eprog S B) : eprog S B :=
  bind p (λ r, match r with inl e => throw e | inr a => q a end).

(** A call that does not throw, inside a [try] block. *)
Definition lift {S A} (p : prog S A) : eprog S A := bind p eret.

Notation "'let?' x ':=' p 'in' q" := (ebind p (λ x, q))
  (at level 10, x pattern, p at level 100, q at level 200,
   format "'[v' 'let?'  x  ':='  p  'in' '/' q ']'") : prog_scope.

(** An exception no handler takes ends the process. *)
Definition try_catch {S A} (p : eprog S A) (h : exn → option (prog S A)) : prog S A :=
  bind p (λ r, match r with
               | inr a => Ret a
               | inl e => match h e with Some q => q | None => Halt Uncaught end
               end).

(** A loop over the elements of a list. *)
Fixpoint for_each {S A} (body : A → eprog S unit) (l : list A) : eprog S unit :=
  match l with
  | [] => eret tt
  | x :: l => let? _ := body x in for_each body l
  end.

(** ** Running a program alone *)

Inductive outcome (S A : Type) : Type :=
| Done (a : A) (ls : locks) (s : S)
| Stopped (h : halt) (s : S)       (* the process ended *)
| Blocked (s : S).                 (* waits for a mutex or a condition nobody will provide *)

Arguments Done {S A} a ls s.
Arguments Stopped {S A} h s.
Arguments Blocked {S A} s.

Section run.
Context {S : Type} (tid : nat).

Fixpoint run {A} (p : prog S A) (ls : locks) (s : S) : outcome S A :=
  match p with
  | Ret a => Done a ls s
  | Act f k =>
      match f s with
      | Some (x, s') => run (k x) ls s'
      | None => Stopped Undefined s
      end
  | Lock m k => match ls !! m with None => run k (<[m := tid]> ls) s | Some _ => Blocked s end
  | Unlock m k =>
      if decide (ls !! m = Some tid) then run k (delete m ls) s else Stopped Undefined s
  | Wait g k => if g s then run k ls s else Blocked s
  | Halt h => Stopped h s
  end.

Definition andthen {A B} (o : outcome S A) (q : A → locks → S → outcome S B) : outcome S B :=
  match o with
  | Done a ls s => q a ls s
  | Stopped h s => Stopped h s
  | Blocked s => Blocked s
  end.

Lemma run_bind {A B} (p : prog S A) (q : A → prog S B) ls s :
  run (bind p q) ls s = andthen (run p ls s) (λ a ls' s', run (q a) ls' s').
Proof.
  revert ls s; induction p as [a|X f k IH|m k IH|m k IH|g k IH|h]; intros ls s; simpl.
  - done.
  - destruct (f s) as [[x s']|]; [apply IH|done].
  - destruct (ls !! m); [done|apply IH].
  - case_decide; [apply IH|done].
  - destruct (g s); [apply IH|done].
  - done.
Qed.

Lemma run_ebind {A B} (p : eprog S A) (q : A → eprog S B) ls s :
  run (ebind p q) ls s =
    andthen (run p ls s) (λ r ls' s', match r with
                                      | inl e => Done (inl e) ls' s'
                                      | inr a => run (q a) ls' s'
                                      end).
Proof. unfold ebind. rewrite run_bind. by destruct (run p ls s) as [[]| |]. Qed.

Lemma run_lift {A} (p : prog S A) ls s :
  run (lift p) ls s = andthen (run p ls s) (λ a ls' s', Done (inr a) ls' s').
Proof. unfold lift. by rewrite run_bind. Qed.

Lemma run_try_catch {A} (p : eprog S A) h ls s :
  run (try_catch p h) ls s =
    andthen (run p ls s) (λ r ls' s', match r with
                                      | inr a => Done a ls' s'
                                      | inl e => match h e with
                                                 | Some q => run q ls' s'
                                                 | None => Stopped Uncaught s'
                                                 end
                                      end).
Proof.
  unfold try_catch. rewrite run_bind.
  destruct (run p ls s) as [[e|a] ls' s'| |]; simpl; [|done..]. by destruct (h e).
Qed.

(** ** Crash points

    [always C p ls s] : running [p] alone, [C] holds of the state before the first
    action, between any two and after the last. *)
Fixpoint always {A} (C : S → Prop) (p : prog S A) (ls : locks) (s : S) : Prop :=
  C s ∧
  match p with
  | Ret _ | Halt _ => True
  | Act f k => match f s with Some (x, s') => always C (k x) ls s' | None => True end
  | Lock m k => match ls !! m with None => always C k (<[m := tid]> ls) s | Some _ => True end
  | Unlock m k => if decide (ls !! m = Some tid) then always C k (delete m ls) s else True
  | Wait g k => if g s then always C k ls s else True
  end.

Lemma always_now {A} C (p : prog S A) ls s : always C p ls s → C s.
Proof. by destruct p as [| | | | |]; simpl; intros [? _]. Qed.

Lemma always_bind {A B} C (p : prog S A) (q : A → prog S B) ls s :
  always C (bind p q) ls s ↔
  always C p ls s ∧
  match run p ls s with Done a ls' s' => always C (q a) ls' s' | _ => True end.
Proof.
  revert ls s; induction p as [a|X f k IH|m k IH|m k IH|g k IH|h]; intros ls s; simpl.
  - split; [|tauto]. intros H. split; [|done]. split; [by eapply always_now|done].
  - destruct (f s) as [[x s']|]; [rewrite IH|]; tauto.
  - destruct (ls !! m); [|rewrite IH]; tauto.
  - case_decide; [rewrite IH|]; tauto.
  - destruct (g s); [rewrite IH|]; tauto.
  - tauto.
Qed.

Lemma always_impl {A} (C C' : S → Prop) (p : prog S A) ls s :
  (∀ s, C s → C' s) → always C p ls s → always C' p ls s.
Proof.
  intros HC. revert ls s; induction p as [a|X f k IH|m k IH|m k IH|g k IH|h];
    intros ls s; simpl; intros [H H']; (split; [by apply HC|]); try done.
  - destruct (f s) as [[x s']|]; auto.
  - destruct (ls !! m); auto.
  - case_decide; auto.
  - destruct (g s); auto.
Qed.

(** The state in which a program returns is one of its crash points. *)
Lemma always_done {A} C (p : prog S A) ls s a ls' s' :
  always C p ls s → run p ls s = Done a ls' s' → C s'.
Proof.
  revert ls s; induction p as [b|X f k IH|m k IH|m k IH|g k IH|h];
    intros ls s; simpl; intros [H H'] Hr.
  - by simplify_eq.
  - destruct (f s) as [[x s1]|]; [by eapply IH|done].
  - destruct (ls !! m); [done|by eapply IH].
  - case_decide; [by eapply IH|done].
  - destruct (g s); [by eapply IH|done].
  - done.
Qed.
End run.

(** Symbolic execution: push [run] through sequencing and the basic actions. *)
Create Rewrite HintDb run.
#[export] Hint Rewrite @run_bind @run_ebind @run_lift @run_try_catch : run.

Ltac run_step :=
  progress (autorewrite with run;
            cbn [run andthen act act_partial reads modify deref lock unlock wait_until
                 assert_that throw eret fst snd]).

(** Taking and releasing a mutex that nobody holds. *)
Lemma run_lock {S} tid m (ls : locks) (s : S) :
  ls !! m = None → run tid (lock m) ls s = Done tt (<[m := tid]> ls) s.
Proof. intros H. simpl. by rewrite H. Qed.

Lemma run_unlock {S} tid m (ls : locks) (s : S) :
  run tid (unlock m) (<[m := tid]> ls) s = Done tt (delete m ls) s.
Proof. simpl. rewrite decide_True by apply lookup_insert_eq. by rewrite delete_insert_eq. Qed.

(** A critical section run alone: the mutex is free again at the end. *)
Lemma run_critical {S A} tid m (p : prog S A) (ls : locks) (s : S) :
  ls !! m = None →
  (∀ a ls' s', run tid p (<[m := tid]> ls) s = Done a ls' s' → ls' = <[m := tid]> ls) →
  run tid (let! _ := lock m in let! a := p in unlock m ;;; Ret a) ls s =
    andthen (run tid p (<[m := tid]> ls) s) (λ a _ s', Done a ls s').
Proof.
  intros Hm Hp. rewrite run_bind, run_lock by done. simpl. rewrite run_bind.
  destruct (run tid p (<[m:=tid]> ls) s) as [a ls' s'| |] eqn:E; simpl; [|done..].
  rewrite (Hp _ _ _ eq_refl). rewrite lookup_insert_eq, decide_True by done.
  by rewrite delete_insert_id.
Qed.

(** ** A program logic with crash conditions

    [wp C p ls s Q] : run alone from [ls], [s], the program [p] returns (no deadlock, no
    undefined behaviour, no failed assertion, no uncaught exception), [Q] holds of the
    result, and [C] holds at every crash point on the way. *)
Section wp.
Context {S : Type} (tid : nat).

Fixpoint wp {A} (C : S → Prop) (p : prog S A) (ls : locks) (s : S)
    (Q : A → locks → S → Prop) : Prop :=
  C s ∧
  match p with
  | Ret a => Q a ls s
  | Act f k => match f s with Some (x, s') => wp C (k x) ls s' Q | None => False end
  | Lock m k => ls !! m = None ∧ wp C k (<[m := tid]> ls) s Q
  | Unlock m k => ls !! m = Some tid ∧ wp C k (delete m ls) s Q
  | Wait g k => g s = true ∧ wp C k ls s Q
  | Halt _ => False
  end.

Lemma wp_now {A} C (p : prog S A) ls s Q : wp C p ls s Q → C s.
Proof. by destruct p as [| | | | |]; simpl; intros [? _]. Qed.

Lemma wp_sound {A} C (p : prog S A) ls s Q :
  wp C p ls s Q →
  always tid C p ls s ∧ ∃ a ls' s', run tid p ls s = Done a ls' s' ∧ Q a ls' s'.
Proof.
  revert ls s; induction p as [a|X f k IH|m k IH|m k IH|g k IH|h];
    intros ls s; simpl; intros [HC H].
  - eauto 10.
  - destruct (f s) as [[x s']|]; [|done]. apply IH in H as [? ?]. auto.
  - destruct H as [-> H]. apply IH in H as [? ?]. auto.
  - destruct H as [E H]. rewrite !decide_True by done. apply IH in H as [? ?]. auto.
  - destruct H as [-> H]. apply IH in H as [? ?]. auto.
  - done.
Qed.

Lemma wp_run {A} C (p : prog S A) ls s Q :
  wp C p ls s Q → ∃ a ls' s', run tid p ls s = Done a ls' s' ∧ Q a ls' s'.
Proof. by intros [_ H]%wp_sound. Qed.

Lemma wp_mono {A} (C C' : S → Prop) (p : prog S A) ls s (Q Q' : A → locks → S → Prop) :
  wp C p ls s Q → (∀ s, C s → C' s) → (∀ a ls' s', C s' → Q a ls' s' → Q' a ls' s') →
  wp C' p ls s Q'.
Proof.
  intros H HC HQ. revert ls s H; induction p as [a|X f k IH|m k IH|m k IH|g k IH|h];
    intros ls s; simpl; intros [Hs H]; (split; [by apply HC|]).
  - auto.
  - destruct (f s) as [[x s']|]; auto.
  - destruct H; auto.
  - destruct H; auto.
  - destruct H; auto.
  - done.
Qed.

Lemma wp_bind {A B} C (p : prog S A) (q : A → prog S B) ls s Q :
  wp C p ls s (λ a ls' s', wp C (q a) ls' s' Q) → wp C (bind p q) ls s Q.
Proof.
  revert ls s; induction p as [a|X f k IH|m k IH|m k IH|g k IH|h];
    intros ls s; simpl; intros [Hs H].
  - done.
  - split; [done|]. destruct (f s) as [[x s']|]; auto.
  - destruct H; auto.
  - destruct H; auto.
  - destruct H; auto.
  - done.
Qed.

(** Sequencing after a program whose specification is known. *)
Lemma wp_seq {A B} C (p : prog S A) (q : A → prog S B) ls s R Q :
  wp C p ls s R → (∀ a ls' s', C s' → R a ls' s' → wp C (q a) ls' s' Q) →
  wp C (bind p q) ls s Q.
Proof. intros H HQ. apply wp_bind. by eapply wp_mono. Qed.

Lemma wp_eseq {A B} C (p : eprog S A) (q : A → eprog S B) ls s R Q :
  wp C p ls s R →
  (∀ e ls' s', C s' → R (inl e) ls' s' → Q (inl e) ls' s') →
  (∀ a ls' s', C s' → R (inr a) ls' s' → wp C (q a) ls' s' Q) →
  wp C (ebind p q) ls s Q.
Proof.
  intros H He Ha. eapply wp_seq; [exact H|]. intros [e|a] ls' s' HC HR; simpl; auto.
Qed.

Lemma wp_lift {A} C (p : prog S A) ls s (Q : exn + A → locks → S → Prop) :
  wp C p ls s (λ a ls' s', Q (inr a) ls' s') → wp C (lift p) ls s Q.
Proof.
  intros H. eapply wp_seq; [exact H|]. intros a ls' s' HC HQ. by split.
Qed.

Lemma wp_ret {A} (C : S → Prop) (a : A) ls s (Q : A → locks → S → Prop) :
  C s → Q a ls s → wp C (Ret a) ls s Q.
Proof. by split. Qed.

Lemma wp_act {A} (C : S → Prop) (f : S → A * S) ls s (Q : A → locks → S → Prop) :
  C s → C (f s).2 → Q (f s).1 ls (f s).2 → wp C (act f) ls s Q.
Proof. intros ???. simpl. split; [done|]. by destruct (f s). Qed.

Lemma wp_reads {A} (C : S → Prop) (f : S → A) ls s (Q : A → locks → S → Prop) :
  C s → Q (f s) ls s → wp C (reads f) ls s Q.
Proof. intros ??. by apply wp_act. Qed.

Lemma wp_deref {A} (C : S → Prop) (f : S → option A) a ls s (Q : A → locks → S → Prop) :
  f s = Some a → C s → Q a ls s → wp C (deref f) ls s Q.
Proof. intros E ??. simpl. by rewrite E. Qed.

Lemma wp_act_partial {A} (C : S → Prop) (f : S → option (A * S)) a s' ls s (Q : A → locks → S → Prop) :
  f s = Some (a, s') → C s → C s' → Q a ls s' → wp C (act_partial f) ls s Q.
Proof. intros E ???. simpl. by rewrite E. Qed.

Lemma wp_modify (C : S → Prop) (f : S → S) ls s (Q : unit → locks → S → Prop) :
  C s → C (f s) → Q tt ls (f s) → wp C (modify f) ls s Q.
Proof. intros ???. by apply wp_act. Qed.

Lemma wp_lock (C : S → Prop) m ls s (Q : unit → locks → S → Prop) :
  C s → ls !! m = None → Q tt (<[m := tid]> ls) s → wp C (lock m) ls s Q.
Proof. intros. simpl. auto. Qed.

Lemma wp_unlock (C : S → Prop) m ls s (Q : unit → locks → S → Prop) :
  C s → ls !! m = Some tid → Q tt (delete m ls) s → wp C (unlock m) ls s Q.
Proof. intros. simpl. auto. Qed.

Lemma wp_wait (C : S → Prop) g ls s (Q : unit → locks → S → Prop) :
  C s → g s = true → Q tt ls s → wp C (wait_until g) ls s Q.
Proof. intros. simpl. auto. Qed.

Lemma wp_assert (C : S → Prop) b ls s (Q : unit → locks → S → Prop) :
  C s → b = true → Q tt ls s → wp C (assert_that b) ls s Q.
Proof. intros ? ->. by split. Qed.
End wp.

(** What is known from running a program is a specification of it. *)
Lemma wp_of_run {S A} tid (p : prog S A) ls s a ls' s' :
  run tid p ls s = Done a ls' s' →
  wp tid (λ _, True) p ls s (λ a1 ls1 s1, a1 = a ∧ ls1 = ls' ∧ s1 = s').
Proof.
  revert ls s; induction p as [b|X f k IH|m k IH|m k IH|g k IH|h];
    intros ls s; simpl; intros Hr; (split; [done|]).
  - by simplify_eq.
  - destruct (f s) as [[x s1]|]; [by apply IH|done].
  - destruct (ls !! m); [done|by split; [|apply IH]].
  - case_decide; [by split; [|apply IH]|done].
  - destruct (g s); [by split; [|apply IH]|done].
  - done.
Qed.

(** ** A program on a part of the state *)

Section zoom.
Context {S B : Type} (get : S → B) (put : B → S → S).

Fixpoint zoom {A} (p : prog B A) : prog S A :=
  match p with
  | Ret a => Ret a
  | Act f k =>
      Act (λ s, match f (get s) with Some (x, b) => Some (x, put b s) | None => None end)
          (λ x, zoom (k x))
  | Lock m k => Lock m (zoom k)
  | Unlock m k => Unlock m (zoom k)
  | Wait g k => Wait (λ s, g (get s)) (zoom k)
  | Halt h => Halt h
  end.

Context (get_put : ∀ b s, get (put b s) = b) (put_get : ∀ s, put (get s) s = s).
Context (put_put : ∀ b b' s, put b (put b' s) = put b s).

Lemma run_zoom {A} tid (p : prog B A) ls s :
  run tid (zoom p) ls s =
    match run tid p ls (get s) with
    | Done a ls' b => Done a ls' (put b s)
    | Stopped h b => Stopped h (put b s)
    | Blocked b => Blocked (put b s)
    end.
Proof using get_put put_get put_put.
  revert ls s; induction p as [b|X f k IH|m k IH|m k IH|g k IH|h]; intros ls s; simpl.
  - by rewrite put_get.
  - destruct (f (get s)) as [[x b]|]; [|by rewrite put_get].
    rewrite IH, get_put. destruct (run tid (k x) ls b); by rewrite put_put.
  - destruct (ls !! m); [by rewrite put_get|apply IH].
  - case_decide; [apply IH|by rewrite put_get].
  - destruct (g (get s)); [apply IH|by rewrite put_get].
  - by rewrite put_get.
Qed.
End zoom.

(** One step of symbolic execution at the head of a sequence. *)
Ltac wp_step :=
  cbv beta iota;
  lazymatch goal with
  | |- wp _ _ (bind _ _) _ _ _ => apply wp_bind; cbv beta
  | |- wp _ _ (ebind _ _) _ _ _ => unfold ebind; apply wp_bind; cbv beta
  | |- wp _ _ (reads _) _ _ _ => apply wp_reads; [try done|cbv beta]
  | |- wp _ _ (modify _) _ _ _ => apply wp_modify; [try done|try done|cbv beta]
  | |- wp _ _ (lock _) _ _ _ => apply wp_lock; [try done|try done|cbv beta]
  | |- wp _ _ (unlock _) _ _ _ => apply wp_unlock; [try done|try done|cbv beta]
  | |- wp _ _ (Ret _) _ _ _ => apply wp_ret; [try done|cbv beta]
  | |- wp _ _ (eret _) _ _ _ => unfold eret; apply wp_ret; [try done|cbv beta]
  | |- wp _ _ (throw _) _ _ _ => unfold throw; apply wp_ret; [try done|cbv beta]
  | |- wp _ _ (lift _) _ _ _ => apply wp_lift; cbv beta
  end.

#[global] Arguments wp : simpl never.
#[global] Arguments run : simpl never.
#[global] Arguments zoom : simpl never.
#[global] Arguments always : simpl never.
#[global] Arguments bind : simpl never.
#[global] Arguments ebind : simpl never.
#[global] Arguments lift : simpl never.
