(* ===== verification/Threads.v ===== *)
(** * Threads

    Many programs on one state: the interleaving semantics of [prog].  Each thread is what
    is left of its program, each step is one atomic action, lock, unlock or wait of one of
    them, and the threads are scheduled in any order.  On top of it: running a program
    alone is one of the schedules, every schedule is finite, and a pool whose threads take
    their mutexes in the order of a rank comes to rest with none held, unless a thread
    waits for something else where it may do so with mutexes held. *)
From S2P Require Import Prelude Prog.
From Stdlib Require Import ZArith Lia List Bool FunctionalExtensionality.
From stdpp Require Import base gmap list fin_maps sets relations.
#[local] Set Default Goal Selector "!".

(** ** Steps *)

Section threads.
Context {S : Type}.

Abbreviation thread := (prog S unit).

(** Parts in a row, however they are grouped. *)
Lemma bind_assoc {A B C} (p : prog S A) (q : A → prog S B) (r : B → prog S C) :
  bind (bind p q) r = let! a := p in bind (q a) r.
Proof.
  induction p as [a|X f k IH|m k IH|m k IH|g k IH|h]; [done|..|done].
  - apply (f_equal (Act f)). extensionality x. apply IH.
  - exact (f_equal (Lock m) IH).
  - exact (f_equal (Unlock m) IH).
  - exact (f_equal (Wait g) IH).
Qed.

Lemma bind_ret {A} (p : prog S A) : bind p Ret = p.
Proof.
  induction p as [a|X f k IH|m k IH|m k IH|g k IH|h]; [done|..|done].
  - apply (f_equal (Act f)). extensionality x. apply IH.
  - exact (f_equal (Lock m) IH).
  - exact (f_equal (Unlock m) IH).
  - exact (f_equal (Wait g) IH).
Qed.

(** The process: the threads (a thread's number is its place), who holds which mutex, the
    shared state. *)
Record process := { pool : list thread; held : locks; shared : S }.

(** One step of thread [tid], when it can take one. *)
Definition thread_step (tid : nat) {A} (p : prog S A) (ls : locks) (s : S) : option (prog S A * locks * S) :=
  match p with
  | Ret _ => None
  | Act f k => match f s with Some (x, s') => Some (k x, ls, s') | None => None end
  | Lock m k => match ls !! m with None => Some (k, <[m := tid]> ls, s) | Some _ => None end
  | Unlock m k => if decide (ls !! m = Some tid) then Some (k, delete m ls, s) else None
  | Wait g k => if g s then Some (k, ls, s) else None
  | Halt _ => None
  end.

(** A thread whose next step ends the process: undefined behaviour, [exit], a failed
    assertion, an uncaught exception or a signal. *)
Definition faulty (tid : nat) {A} (p : prog S A) (ls : locks) (s : S) : Prop :=
  match p with
  | Act f _ => f s = None
  | Unlock m _ => ls !! m ≠ Some tid
  | Halt _ => True
  | _ => False
  end.

Definition finished {A} (p : prog S A) : Prop := match p with Ret _ => True | _ => False end.

(** A thread that waits for a condition which does not hold. *)
Definition waiting {A} (p : prog S A) (s : S) : Prop := match p with Wait g _ => g s = false | _ => False end.

(** A thread that waits for a mutex somebody holds. *)
Definition locked_out {A} (p : prog S A) (ls : locks) : Prop :=
  match p with Lock m _ => is_Some (ls !! m) | _ => False end.

Inductive step (c : process) : process → Prop :=
| step_thread tid p p' ls' s' :
    pool c !! tid = Some p → thread_step tid p (held c) (shared c) = Some (p', ls', s') →
    step c {| pool := <[tid := p']> (pool c); held := ls'; shared := s' |}.

(** The process in which thread after thread of a schedule takes a step. *)
Fixpoint play (schedule : list nat) (c : process) : option process :=
  match schedule with
  | [] => Some c
  | tid :: schedule =>
      p ← pool c !! tid;
      '(p', ls', s') ← thread_step tid p (held c) (shared c);
      play schedule {| pool := <[tid := p']> (pool c); held := ls'; shared := s' |}
  end.

Lemma play_steps schedule c c' : play schedule c = Some c' → rtc step c c'.
Proof.
  revert c. induction schedule as [|tid schedule IH]; intros c; simpl; [by intros [= ->]|].
  destruct (pool c !! tid) as [p|] eqn:Ep; [|done]. simpl.
  destruct (thread_step tid p (held c) (shared c)) as [[[p' ls'] s']|] eqn:Es; [|done]. simpl. intros Hp.
  eapply rtc_l; [by eapply step_thread|by apply IH].
Qed.

(** Where a schedule leads, as long as its threads can take their steps. *)
Definition playable (schedule : list nat) (c : process) : bool :=
  match play schedule c with Some _ => true | None => false end.

Definition after (schedule : list nat) (c : process) : process := default c (play schedule c).

Lemma after_steps schedule c : playable schedule c = true → rtc step c (after schedule c).
Proof.
  unfold playable, after. destruct (play schedule c) as [c'|] eqn:E; [|done]. intros _. by apply play_steps in E.
Qed.

(** A step to a state that satisfies [φ]. *)
Definition step_within (φ : S → Prop) (c c' : process) : Prop := step c c' ∧ φ (shared c').

Lemma steps_within φ c c' : rtc (step_within φ) c c' → rtc step c c'.
Proof. apply rtc_subrel. by intros ? ? []. Qed.

(** Threads take steps in the given order; one that cannot, or that would leave [φ], is
    passed over. *)
Definition turns (φ : S → Prop) `{∀ s, Decision (φ s)} (l : list nat) (c : process) : process :=
  foldl (λ c tid, match play [tid] c with
                  | Some c' => if decide (φ (shared c')) then c' else c
                  | None => c
                  end) c l.

Lemma turns_within φ `{∀ s, Decision (φ s)} l c : rtc (step_within φ) c (turns φ l c).
Proof.
  revert c. induction l as [|tid l IH]; intros c; [done|]. cbn [turns foldl].
  match goal with |- rtc _ c (foldl _ ?c1 l) => change (foldl _ c1 l) with (turns φ l c1) end.
  etrans; [|apply IH]. destruct (play [tid] c) as [c'|] eqn:E; [|done]. case_decide; [|done]. apply rtc_once. split; [|done].
  simpl in E. destruct (pool c !! tid) as [p|] eqn:Ep; [|done]. simpl in E.
  destruct (thread_step tid p (held c) (shared c)) as [[[p' ls'] s']|] eqn:Es; [|done]. injection E as <-. by econstructor.
Qed.

(** Whether no thread can take a step. *)
Definition idle (c : process) : bool :=
  forallb (λ tid, match pool c !! tid with
                  | Some p => match thread_step tid p (held c) (shared c) with Some _ => false | None => true end
                  | None => true
                  end) (seq 0 (length (pool c))).

(** What a thread that cannot take a step is. *)
Lemma no_thread_step tid {A} (p : prog S A) ls s :
  thread_step tid p ls s = None → finished p ∨ faulty tid p ls s ∨ waiting p s ∨ locked_out p ls.
Proof.
  destruct p as [a|X f k|m k|m k|g k|h]; simpl; auto.
  - destruct (f s) as [[x s']|]; [done|auto].
  - destruct (ls !! m) eqn:E; [|done]. eauto.
  - case_decide; [done|auto].
  - destruct (g s) eqn:E; [done|auto].
Qed.

(** ** A thread alone *)

Section alone.
Context (l : list thread) (tid : nat) (Htid : tid < length l).

Definition with_thread (p : thread) (ls : locks) (s : S) : process :=
  {| pool := <[tid := p]> l; held := ls; shared := s |}.

Lemma with_thread_step p ls s p' ls' s' :
  thread_step tid p ls s = Some (p', ls', s') → step (with_thread p ls s) (with_thread p' ls' s').
Proof using Htid.
  intros Hs. unfold with_thread.
  replace (<[tid := p']> l) with (<[tid := p']> (<[tid := p]> l)) by apply list_insert_insert_eq.
  apply (step_thread (with_thread p ls s) tid p); [by apply list_lookup_insert_eq|done].
Qed.

(** Running one program alone is a schedule in which only its thread moves; [q] is what
    the thread does next. *)
Lemma bind_steps {A} (p : prog S A) (q : A → thread) ls s a ls' s' :
  run tid p ls s = Done a ls' s' → rtc step (with_thread (bind p q) ls s) (with_thread (q a) ls' s').
Proof using Htid.
  revert ls s. induction p as [x|X f k IH|m k IH|m k IH|g k IH|h]; intros ls s Hrun; unfold run in Hrun; simpl in Hrun.
  - injection Hrun as -> -> ->. apply rtc_refl.
  - destruct (f s) as [[x s1]|] eqn:E; [|done]. eapply rtc_l; [|by apply IH].
    apply with_thread_step. simpl. by rewrite E.
  - destruct (ls !! m) eqn:E; [done|]. eapply rtc_l; [|by apply IH]. apply with_thread_step. simpl. by rewrite E.
  - case_decide as E; [|done]. eapply rtc_l; [|by apply IH]. apply with_thread_step. simpl. by rewrite decide_True.
  - destruct (g s) eqn:E; [|done]. eapply rtc_l; [|by apply IH]. apply with_thread_step. simpl. by rewrite E.
  - done.
Qed.
End alone.

(** ** Every schedule is finite

    A step replaces a program by a part of it, so the threads get used up. *)

Definition part {A} (q p : prog S A) : Prop :=
  match p with
  | Act _ k => ∃ x, q = k x
  | Lock _ k | Unlock _ k | Wait _ k => q = k
  | Ret _ | Halt _ => False
  end.

Lemma part_wf {A} : well_founded (@part A).
Proof.
  intros p. induction p as [a|X f k IH|m k IH|m k IH|g k IH|h]; constructor; intros q Hq; simpl in Hq; try contradiction.
  - destruct Hq as [x ->]. apply IH.
  - subst q. exact IH.
  - subst q. exact IH.
  - subst q. exact IH.
Qed.

Lemma thread_step_part {A} tid (p : prog S A) ls s p' ls' s' :
  thread_step tid p ls s = Some (p', ls', s') → part p' p.
Proof.
  destruct p as [a|X f k|m k|m k|g k|h]; simpl; try done.
  - destruct (f s) as [[x s1]|]; [|done]. intros [= <- _ _]. by exists x.
  - destruct (ls !! m); [done|]. by intros [= -> _ _].
  - case_decide; [|done]. by intros [= -> _ _].
  - destruct (g s); [|done]. by intros [= -> _ _].
Qed.

(** One thread of the list becomes a part of itself. *)
Definition parts (l' l : list thread) : Prop :=
  ∃ tid p p', l !! tid = Some p ∧ part p' p ∧ l' = <[tid := p']> l.

Lemma parts_wf : well_founded parts.
Proof.
  intros l. induction l as [|p l IH].
  - constructor. intros l' (tid & p & p' & Hp & _). by rewrite lookup_nil in Hp.
  - revert l IH. induction (part_wf p) as [p _ IHp]. intros l IHl. induction IHl as [l Hl IHl].
    constructor. intros l' (tid & q & q' & Hq & Hpart & ->). destruct tid as [|tid]; simpl in *.
    + injection Hq as ->. apply IHp; [done|by constructor].
    + apply IHl. exists tid, q, q'. done.
Qed.

(** Every schedule ends: no process, however many threads it has and whatever they
    share, can take steps for ever, since every loop of a program has its fuel. *)
Theorem schedules_are_finite (c : process) : sn step c.
Proof.
  remember (pool c) as l eqn:E. revert c E. induction (parts_wf l) as [l _ IH]. intros c ->.
  constructor. intros c' [tid p p' ls' s' Hp Hs]. eapply IH; [|done].
  exists tid, p, p'. split; [done|]. split; [by eapply thread_step_part|done].
Qed.

(** ** Mutexes taken in order *)

Context (rank : mutex → nat) (may_block : gset mutex → (S → bool) → Prop).

(** Holding the mutexes [h], the program takes further ones only above all of them in
    rank, releases only what it holds, waits while it holds some only where it [may_block]
    (or for something that never happens) and ends with mutexes that satisfy [Q]. *)
Fixpoint ordered {A} (h : gset mutex) (p : prog S A) (Q : A → gset mutex → Prop) : Prop :=
  match p with
  | Ret a => Q a h
  | Act f k => ∀ x, ordered h (k x) Q
  | Lock m k => (∀ m', m' ∈ h → rank m' < rank m) ∧ ordered ({[m]} ∪ h) k Q
  | Unlock m k => m ∈ h ∧ ordered (h ∖ {[m]}) k Q
  | Wait g k => (h = ∅ ∨ (∀ s, g s = false) ∨ may_block h g) ∧ ordered h k Q
  | Halt _ => True
  end.

Lemma ordered_mono {A} h (p : prog S A) (Q Q' : A → gset mutex → Prop) :
  ordered h p Q → (∀ a h', Q a h' → Q' a h') → ordered h p Q'.
Proof.
  intros Hp HQ. revert h Hp. induction p as [a|X f k IH|m k IH|m k IH|g k IH|h0]; intros h; simpl; try done.
  - by apply HQ.
  - intros Hk x. by apply IH.
  - intros [Hr Hk]. split; [done|by apply IH].
  - intros [Hr Hk]. split; [done|by apply IH].
  - intros [Hw Hk]. split; [done|by apply IH].
Qed.

Lemma ordered_bind {A B} h (p : prog S A) (q : A → prog S B) Q :
  ordered h p (λ a h', ordered h' (q a) Q) → ordered h (bind p q) Q.
Proof.
  revert h. induction p as [a|X f k IH|m k IH|m k IH|g k IH|h0]; intros h; simpl; try done.
  - intros Hk x. by apply IH.
  - intros [Hr Hk]. split; [done|by apply IH].
  - intros [Hr Hk]. split; [done|by apply IH].
  - intros [Hw Hk]. split; [done|by apply IH].
Qed.

(** What a thread holds. *)
Definition holds (ls : locks) (tid : nat) : gset mutex := dom (filter (λ kv, kv.2 = tid) ls).

Lemma elem_of_holds ls tid m : m ∈ holds ls tid ↔ ls !! m = Some tid.
Proof.
  unfold holds. rewrite elem_of_dom. split.
  - by intros [i [Hi Hn]%map_lookup_filter_Some]; simpl in *; subst.
  - intros Hm. exists tid. by apply map_lookup_filter_Some.
Qed.

Lemma holds_lock ls tid m : ls !! m = None → holds (<[m := tid]> ls) tid = {[m]} ∪ holds ls tid.
Proof.
  intros Hm. apply set_eq. intros m'. rewrite elem_of_union, elem_of_singleton, !elem_of_holds.
  rewrite lookup_insert_Some. naive_solver.
Qed.

Lemma holds_lock_other ls tid tid' m : ls !! m = None → tid' ≠ tid → holds (<[m := tid]> ls) tid' = holds ls tid'.
Proof.
  intros Hm Hne. apply set_eq. intros m'. rewrite !elem_of_holds, lookup_insert_Some. naive_solver.
Qed.

Lemma holds_unlock ls tid m : holds (delete m ls) tid = holds ls tid ∖ {[m]}.
Proof.
  apply set_eq. intros m'. rewrite elem_of_difference, elem_of_singleton, !elem_of_holds, lookup_delete_Some. naive_solver.
Qed.

Lemma holds_unlock_other ls tid tid' m : ls !! m = Some tid → tid' ≠ tid → holds (delete m ls) tid' = holds ls tid'.
Proof.
  intros Hm Hne. apply set_eq. intros m'. rewrite !elem_of_holds, lookup_delete_Some. naive_solver.
Qed.

(** The invariant of a process: every thread goes on in order from what it holds, ending
    with nothing held, and every mutex that is held belongs to one of the threads. *)
Definition in_order (c : process) : Prop :=
  (∀ tid p, pool c !! tid = Some p → ordered (holds (held c) tid) p (λ _ h, h = ∅)) ∧
  ∀ m tid, held c !! m = Some tid → tid < length (pool c).

Lemma thread_step_ordered {A} tid (p : prog S A) ls s p' ls' s' Q :
  thread_step tid p ls s = Some (p', ls', s') → ordered (holds ls tid) p Q →
  ordered (holds ls' tid) p' Q ∧ (∀ tid', tid' ≠ tid → holds ls' tid' = holds ls tid') ∧
  ∀ m tid', ls' !! m = Some tid' → tid' = tid ∨ ls !! m = Some tid'.
Proof.
  destruct p as [a|X f k|m k|m k|g k|h]; simpl; try done.
  - destruct (f s) as [[x s1]|]; [|done]. intros [= <- <- _] Ho. auto.
  - destruct (ls !! m) eqn:E; [done|]. intros [= <- <- _] [_ Ho]. rewrite holds_lock by done.
    split; [done|]. split; [by intros tid' ?; apply (holds_lock_other ls tid tid')|].
    intros m' tid'. rewrite lookup_insert_Some. naive_solver.
  - case_decide as E; [|done]. intros [= <- <- _] [_ Ho]. rewrite holds_unlock.
    split; [done|]. split; [by intros tid' ?; apply (holds_unlock_other ls tid tid')|].
    intros m' tid'. rewrite lookup_delete_Some. naive_solver.
  - destruct (g s); [|done]. intros [= <- <- _] [_ Ho]. auto.
Qed.

Lemma step_in_order c c' : step c c' → in_order c → in_order c'.
Proof.
  intros [tid p p' ls' s' Hp Hs] [Hord Hown]. pose proof (lookup_lt_Some _ _ _ Hp) as Hlt.
  destruct (thread_step_ordered _ _ _ _ _ _ _ _ Hs (Hord tid p Hp)) as (Ho & Hh & Hl). split; simpl.
  - intros tid' q. destruct (decide (tid' = tid)) as [->|Hne].
    + rewrite list_lookup_insert_eq by done. by intros [= <-].
    + rewrite list_lookup_insert_ne by done. intros Hq. rewrite Hh by done. by apply Hord.
  - intros m tid' Hm. rewrite length_insert. destruct (Hl m tid' Hm) as [->|?]; [done|]. by eapply Hown.
Qed.

(** No thread can take a step. *)
Definition stuck (c : process) : Prop := ∀ c', ¬ step c c'.

Lemma idle_stuck c : idle c = true → stuck c.
Proof.
  unfold idle. rewrite forallb_forall. intros Hidle c' [tid p p' ls' s' Hp Hs].
  specialize (Hidle tid). rewrite Hp, Hs in Hidle. apply diff_false_true, Hidle, in_seq.
  apply lookup_lt_Some in Hp. lia.
Qed.

(** Some thread is about to end the process, or waits for what never happens. *)
Definition at_fault (c : process) : Prop := ∃ tid p, pool c !! tid = Some p ∧ faulty tid p (held c) (shared c).

Definition diverging {A} (p : prog S A) : Prop := match p with Wait g _ => ∀ s, g s = false | _ => False end.

Definition at_divergence (c : process) : Prop := ∃ tid p, pool c !! tid = Some p ∧ diverging p.

(** Some thread waits while it holds mutexes, as it may. *)
Definition at_block (c : process) : Prop :=
  ∃ tid g k, pool c !! tid = Some (Wait g k) ∧ g (shared c) = false ∧ may_block (holds (held c) tid) g.

(** Some thread is to blame for a stuck process. *)
Definition at_end (c : process) : Prop := at_divergence c ∨ at_fault c ∨ at_block c.

(** A thread of a stuck process that holds a mutex is one that stops it, or is locked out
    of a higher one. *)
Lemma stuck_holder c m tid :
  in_order c → stuck c → held c !! m = Some tid →
  at_end c ∨ ∃ m' k, pool c !! tid = Some (Lock m' k) ∧ is_Some (held c !! m') ∧ rank m < rank m'.
Proof.
  intros [Hord Hown] Hstuck Hm.
  destruct (lookup_lt_is_Some_2 (pool c) tid) as [q Hq]; [by eapply Hown|].
  pose proof (Hord tid q Hq) as Ho. apply elem_of_holds in Hm.
  destruct (thread_step tid q (held c) (shared c)) as [[[q' ls'] s']|] eqn:Es.
  { destruct (Hstuck _ (step_thread c tid q q' ls' s' Hq Es)). }
  destruct (no_thread_step _ _ _ _ Es) as [Hf|[Hf|[Hf|Hf]]].
  - destruct q; try done. simpl in Ho. rewrite Ho in Hm. set_solver.
  - left; right; left. by exists tid, q.
  - left. destruct q as [| | | |g k|]; try done. destruct Ho as [[Hempty|[Hg|Hg]] _].
    + rewrite Hempty in Hm. set_solver.
    + left. by exists tid, (Wait g k).
    + right; right. by exists tid, g, k.
  - right. destruct q as [| |m' k| | |]; try done. destruct Ho as [Hr _]. exists m', k. auto.
Qed.

(** The ranks of the mutexes held are bounded, so somebody holding one is to blame. *)
Lemma stuck_held c m tid :
  in_order c → stuck c → held c !! m = Some tid → at_end c.
Proof.
  intros Hc Hstuck.
  assert (Hbound : ∀ m, is_Some (held c !! m) → rank m ≤ max_list (rank <$> elements (dom (held c)))).
  { intros m' Hm. apply max_list_elem_of_le, list_elem_of_fmap. exists m'. split; [done|].
    by apply elem_of_elements, elem_of_dom. }
  set (B := max_list _) in Hbound.
  assert (Hchain : ∀ n m tid, held c !! m = Some tid → B - rank m < n → at_end c).
  { induction n as [|n IH]; intros m' i Hm Hlt; [lia|].
    destruct (stuck_holder c m' i Hc Hstuck Hm) as [?|(m'' & k & _ & [i' Hm'] & Hr)]; [done|].
    apply (IH m'' i'); [done|]. pose proof (Hbound m' (ex_intro _ _ Hm)). pose proof (Hbound m'' (ex_intro _ _ Hm')). lia. }
  intros Hm. by apply (Hchain (Datatypes.S (B - rank m)) m tid); [|lia].
Qed.

(** The first [n] threads of a process that cannot go on. *)
Lemma stuck_threads c n :
  in_order c → stuck c → at_end c ∨
    ∀ tid p, tid < n → pool c !! tid = Some p → finished p ∨ waiting p (shared c).
Proof.
  intros Hc Hstuck. induction n as [|n [IH|IH]]; [right; intros; lia|by left|].
  destruct (pool c !! n) as [p|] eqn:Hp.
  - destruct (thread_step n p (held c) (shared c)) as [[[q' ls'] s']|] eqn:Es.
    { destruct (Hstuck _ (step_thread c n p q' ls' s' Hp Es)). }
    assert (Hn : finished p ∨ waiting p (shared c) →
      ∀ tid q, tid < Datatypes.S n → pool c !! tid = Some q → finished q ∨ waiting q (shared c)).
    { intros Hf tid q Hlt Hq. destruct (decide (tid = n)) as [->|Hne]; [by simplify_eq|]. apply (IH tid); [lia|done]. }
    destruct (no_thread_step _ _ _ _ Es) as [Hf|[Hf|[Hf|Hf]]]; [by eauto|left; right; left; by exists n, p|by eauto|].
    destruct p as [| |m k| | |]; try done. destruct Hf as [i Hm]. left. by eapply stuck_held.
  - right. intros tid q Hlt Hq. destruct (decide (tid = n)) as [->|Hne]; [by simplify_eq|]. apply (IH tid); [lia|done].
Qed.

(** Nobody is locked out, and no mutex is held. *)
Lemma stuck_in_order c :
  in_order c → stuck c → at_end c ∨
    (held c = ∅ ∧ ∀ tid p, pool c !! tid = Some p → finished p ∨ waiting p (shared c)).
Proof.
  intros Hc Hstuck. destruct (stuck_threads c (length (pool c)) Hc Hstuck) as [?|Hall]; [by left|].
  destruct (decide (held c = ∅)) as [Hempty|Hne].
  - right. split; [done|]. intros tid p Hp. by apply (Hall tid p (lookup_lt_Some _ _ _ Hp)).
  - apply map_choose in Hne as (m & tid & Hm). left. by eapply stuck_held.
Qed.

(** A process that starts with nothing locked. *)
Lemma start_in_order l s :
  Forall (λ p, ordered ∅ p (λ _ h, h = ∅)) l → in_order {| pool := l; held := ∅; shared := s |}.
Proof.
  intros Hl. split; simpl; [|done]. intros tid p Hp. rewrite Forall_lookup in Hl.
  replace (holds ∅ tid) with (∅ : gset mutex); [by eapply Hl|]. apply set_eq. intros m. rewrite elem_of_holds. set_solver.
Qed.

Lemma steps_in_order c c' : rtc step c c' → in_order c → in_order c'.
Proof. induction 1; eauto using step_in_order. Qed.
End threads.

Arguments process S : clear implicits.
