(* ===== verification/ReadWrite.v ===== *)
(** * ReadWriteHelper: reads and writes that transfer everything or fail

    [readFileDescriptor] and [writeFileDescriptor] (read-write-helper.h), over arbitrary
    [read], [write] and wait operations of the state: a file of the world (File.v) or a
    socket (Dispatcher.v) instantiates them. *)
From S2P Require Import Prelude Stdcxx Prog.
From Stdlib Require Import ZArith Lia List Ascii String Bool.
From stdpp Require Import base gmap strings list fin_maps sorting.
#[local] Set Default Goal Selector "!".

(** A loop that has not ended after the iterations the model allows it: it never returns.
    [Done] results therefore come from loops that do end. *)
Definition diverge {S A} : prog S A := Wait (λ _, false) (Halt Undefined).

(** The result of a transfer of [n] bytes that moved [k]. *)
Definition transfer_result (ret : Z) (k n : nat) : Prop :=
  (ret = Z.of_nat n ∧ k = n) ∨ (ret = (-1)%Z ∧ k < n).

Lemma transfer_finish k n :
  k ≤ n → transfer_result (if decide (k = n) then Z.of_nat k else (-1)%Z) k n.
Proof. intros H. unfold transfer_result. case_decide; [left; by subst|right; lia]. Qed.

Section reading.
Context {S : Type}.

(** [sys_read off n] is [read(fd, buffer + off, n)] : [None] for -1, an empty chunk at end
    of file.  [wait_ready] is the timed wait on the descriptor's condition variable, [false]
    on timeout; without a timeout it is [Ret true]. *)
Context (sys_read : nat → nat → prog S (option bytes)) (wait_ready : prog S bool).

Fixpoint read_loop (fuel : nat) (out_buffer : bytes) (in_buffer_len : nat) : prog S (Z * bytes) :=
  let finish := Ret (if decide (length out_buffer = in_buffer_len)
                     then Z.of_nat (length out_buffer) else (-1)%Z, out_buffer) in
  match fuel with
  | O => diverge
  | Datatypes.S fuel =>
      if decide (length out_buffer < in_buffer_len) then
        let! ready := wait_ready in
        if ready : bool then
          let! bytes_read := sys_read (length out_buffer) (in_buffer_len - length out_buffer) in
          match bytes_read with
          | None | Some [] => finish
          | Some chunk => read_loop fuel (out_buffer ++ chunk) in_buffer_len
          end
        else finish
      else finish
  end.

(** Every iteration that goes on has read a byte. *)
Definition readFileDescriptor (in_buffer_len : nat) : prog S (Z * bytes) :=
  read_loop (Datatypes.S in_buffer_len) [] in_buffer_len.

(** ** What the read loop does *)
Section spec.
Context (tid : nat) (ls : locks) (C : S → Prop).

(** [I k] holds of the states in which [k] bytes have been read, [W k] also says that the
    wait for the next ones has succeeded, and [source] is the bytes
    the reads deliver: a chunk is the next bytes of the source, at most as many as asked
    for.  [F] is what a failed read, an empty chunk or a timeout implies. *)
Context (I W : nat → S → Prop) (source : bytes) (total : nat) (F : Prop).
Context (I_C : ∀ k s, I k s → C s).
Context (read_spec : ∀ off n s, W off s → off + n = total → 0 < n →
  wp tid C (sys_read off n) ls s (λ r ls' s', ls' = ls ∧
    match r with
    | Some c => I (off + length c) s' ∧ c `prefix_of` drop off source ∧ length c ≤ n ∧ (c = [] → F)
    | None => I off s' ∧ F
    end)).
Context (wait_spec : ∀ k s, I k s → k < total →
  wp tid C wait_ready ls s (λ b ls' s', ls' = ls ∧ if b then W k s' else I k s' ∧ F)).

Definition read_post (r : Z * bytes) (ls' : locks) (s' : S) : Prop :=
  ls' = ls ∧ I (length r.2) s' ∧ r.2 `prefix_of` source ∧ transfer_result r.1 (length r.2) total ∧
  (length r.2 < total → F).

Lemma read_finish out s :
  I (length out) s → out `prefix_of` source → length out ≤ total → (length out < total → F) →
  wp tid C (Ret (if decide (length out = total) then Z.of_nat (length out) else (-1)%Z, out))
    ls s read_post.
Proof using I_C.
  intros HI Hp Hl HF. apply wp_ret; [by eapply I_C|]. unfold read_post. simpl.
  split; [done|]. split; [done|]. split; [done|]. split; [by apply transfer_finish|done].
Qed.

Lemma read_loop_spec fuel out s :
  I (length out) s → out `prefix_of` source → length out ≤ total → total - length out < fuel →
  wp tid C (read_loop fuel out total) ls s read_post.
Proof using I_C read_spec wait_spec.
  revert out s; induction fuel as [|fuel IH]; intros out s HI Hp Hle Hf; [lia|].
  cbn [read_loop]. destruct (decide (length out < total)) as [Hlt|Hge];
    [|apply read_finish; auto; lia].
  eapply wp_seq; [by apply wait_spec|]. intros b ls1 s1 _ [-> HI1].
  destruct b; [|by destruct HI1; apply read_finish; auto].
  eapply wp_seq; [apply read_spec; [done|lia..]|]. intros r ls2 s2 _ (-> & Hr).
  destruct r as [[|c chunk]|].
  { destruct Hr as (HI2 & _ & _ & HF). rewrite Nat.add_0_r in HI2. apply read_finish; auto. }
  2: { destruct Hr as [HI2 HF]. by apply read_finish. }
  destruct Hr as (HI2 & Hpre & Hlen & _), Hp as [rest Hsrc].
  apply IH; [by rewrite length_app| |rewrite length_app; lia|].
  - rewrite Hsrc, drop_app_length in Hpre. rewrite Hsrc. by apply prefix_app.
  - rewrite length_app. simpl in *. lia.
Qed.

Lemma readFileDescriptor_spec s :
  I 0 s → wp tid C (readFileDescriptor total) ls s read_post.
Proof using I_C read_spec wait_spec.
  intros HI. apply read_loop_spec; [done|by apply prefix_nil|simpl; lia..].
Qed.
End spec.
End reading.

Section writing.
Context {S : Type}.

(** [sys_write b] is [write(fd, b, length)] : [None] for -1, else the bytes written. *)
Context (sys_write : bytes → prog S (option nat)).

Fixpoint write_loop (fuel : nat) (total_bytes_written : nat) (in_buffer : bytes) : prog S Z :=
  let finish := Ret (if decide (total_bytes_written = length in_buffer)
                     then Z.of_nat total_bytes_written else (-1)%Z) in
  match fuel with
  | O => diverge
  | Datatypes.S fuel =>
      if decide (total_bytes_written < length in_buffer) then
        let! bytes_written := sys_write (drop total_bytes_written in_buffer) in
        match bytes_written with
        | None => finish
        | Some n => write_loop fuel (total_bytes_written + n) in_buffer
        end
      else finish
  end.

(** A [write] of at least one byte may not return 0 for ever: with one byte per call,
    [length in_buffer] calls are enough (see [write_all]). *)
Definition writeFileDescriptor (in_buffer : bytes) : prog S Z :=
  assert_that (nul_free in_buffer) ;;;
  write_loop (Datatypes.S (length in_buffer)) 0 in_buffer.

(** ** What the write loop does *)
Section spec.
Context (tid : nat) (ls : locks) (C : S → Prop).

(** [J k s] : [s] is a state in which the first [k] bytes of the buffer have been written.
    A write that does not fail takes at least one byte; a failed one implies [F]. *)
Context (in_buffer : bytes) (J : nat → S → Prop) (F : Prop).
Context (J_C : ∀ k s, J k s → C s).
Context (write_spec : ∀ k s, J k s → k < length in_buffer →
  wp tid C (sys_write (drop k in_buffer)) ls s (λ r ls' s', ls' = ls ∧
    match r with
    | Some n => 1 ≤ n ∧ n ≤ length in_buffer - k ∧ J (k + n) s'
    | None => J k s' ∧ F
    end)).

Definition write_post (ret : Z) (ls' : locks) (s' : S) : Prop :=
  ls' = ls ∧ ∃ k, J k s' ∧ transfer_result ret k (length in_buffer) ∧
    (k < length in_buffer → F).

Lemma write_finish k s :
  J k s → k ≤ length in_buffer → (k < length in_buffer → F) →
  wp tid C (Ret (if decide (k = length in_buffer) then Z.of_nat k else (-1)%Z)) ls s write_post.
Proof using J_C.
  intros HJ Hle HF. apply wp_ret; [by eapply J_C|]. split; [done|].
  exists k. split; [done|]. split; [by apply transfer_finish|done].
Qed.

Lemma write_loop_spec fuel k s :
  J k s → k ≤ length in_buffer → length in_buffer - k < fuel →
  wp tid C (write_loop fuel k in_buffer) ls s write_post.
Proof using J_C write_spec.
  revert k s; induction fuel as [|fuel IH]; intros k s HJ Hle Hf; [lia|].
  cbn [write_loop]. destruct (decide (k < length in_buffer)) as [Hlt|Hge];
    [|apply write_finish; auto; lia].
  eapply wp_seq; [by apply write_spec|]. intros r ls1 s1 _ [-> Hr].
  destruct r as [n|]; [|by destruct Hr; apply write_finish]. destruct Hr as (H1 & Hn & HJ').
  apply IH; [done|lia..].
Qed.

Lemma writeFileDescriptor_spec s :
  nul_free in_buffer = true → J 0 s →
  wp tid C (writeFileDescriptor in_buffer) ls s write_post.
Proof using J_C write_spec.
  intros Hn HJ. unfold writeFileDescriptor. apply wp_bind, wp_assert; [by eapply J_C|done|].
  apply write_loop_spec; [done|lia..].
Qed.
End spec.

(** A [write] that returns 0 for ever keeps [writeFileDescriptor] in its loop: only a
    negative result ends it. *)
Lemma write_loop_zero tid ls s fuel k buf :
  k < length buf → run tid (sys_write (drop k buf)) ls s = Done (Some 0) ls s →
  run tid (write_loop fuel k buf) ls s = Blocked s.
Proof.
  intros Hk Hz. induction fuel as [|fuel IH]; [done|].
  cbn [write_loop]. rewrite decide_True by done. rewrite run_bind, Hz. cbn [andthen].
  by rewrite Nat.add_0_r.
Qed.
End writing.
