(* ===== verification/Posix.v ===== *)
(** * The operating system the server runs on

    The POSIX calls the server makes on files, as functions on a [World]: the contents of
    the regular files, the clock, the future results of [rand()] and a schedule that says
    how each call fares (it may fail, or transfer only part of what was asked).  Every
    theorem quantifies over the schedule.  Completed writes are taken to be durable, so
    [fsync] changes nothing.

    How the kernel resolves a path name (working directory, [.], [..], links) is not part
    of the program: [resolve] is a parameter, and a theorem that needs the working
    directory to be the server directory says so with a hypothesis about it. *)
From S2P Require Import Prelude Stdcxx Prog.
From Stdlib Require Import ZArith Lia List Ascii String Bool.
From stdpp Require Import base gmap strings list fin_maps sorting.
#[local] Set Default Goal Selector "!".
Local Open Scope Z_scope.

(** Two path names denote the same file exactly when they resolve to the same bytes. *)
Class PathResolution := resolve : bytes → bytes.

(** How one system call fares. *)
Inductive sysret :=
| SysOk                (* completes *)
| SysShort (n : nat)   (* transfers at most [n] bytes (at least one) *)
| SysErr.              (* returns -1 *)

Record World := {
  w_fs : gmap bytes bytes;      (* contents of the regular files, by resolved path *)
  w_now : Z;                    (* high_resolution_clock::now(), in ticks (nanoseconds) *)
  w_rand : list Z;              (* future results of rand() *)
  w_sched : list sysret         (* how the next system calls fare; past its end, well *)
}.

Definition ticks_per_second : Z := 1000000000.

(** [std::chrono::seconds(n)] in clock ticks. *)
Definition seconds (n : Z) : Z := n * ticks_per_second.

Definition set_fs (fs : gmap bytes bytes) (w : World) : World :=
  {| w_fs := fs; w_now := w_now w; w_rand := w_rand w; w_sched := w_sched w |}.

Definition set_now (now : Z) (w : World) : World :=
  {| w_fs := w_fs w; w_now := now; w_rand := w_rand w; w_sched := w_sched w |}.

Definition set_sched (l : list sysret) (w : World) : World :=
  {| w_fs := w_fs w; w_now := w_now w; w_rand := w_rand w; w_sched := l |}.

(** The outcome of the next call. *)
Definition next_call (w : World) : sysret * World :=
  match w_sched w with
  | [] => (SysOk, w)
  | r :: l => (r, set_sched l w)
  end.

(** ** open flags (<fcntl.h> of the platform the project builds on) *)
Definition O_RDONLY : Z := 0.
Definition O_WRONLY : Z := 1.
Definition O_RDWR : Z := 2.
Definition O_APPEND : Z := 8.
Definition O_CREAT : Z := 512.

Definition has_flag (f flags : Z) : bool := f =? Z.land f flags.
#[global] Arguments has_flag : simpl never.

Section posix.
Context `{PathResolution}.

(** An open descriptor: the file it refers to. *)
Abbreviation fd := bytes (only parsing).

(** [open(path, flags, 0777)] : [None] for -1. *)
Definition w_open (path : bytes) (flags : Z) (w : World) : option fd * World :=
  let '(r, w) := next_call w in
  match r with
  | SysErr => (None, w)
  | _ =>
      match w_fs w !! resolve path with
      | Some _ => (Some (resolve path), w)
      | None =>
          if has_flag O_CREAT flags
          then (Some (resolve path), set_fs (<[resolve path := []]> (w_fs w)) w)
          else (None, w)
      end
  end.

(** The number of bytes a transfer of [n] moves. *)
Definition transferred (r : sysret) (n : nat) : nat :=
  match r with SysShort k => Nat.min n (Nat.max 1 k) | _ => n end.

(** [write(fd, buf, n)] on a descriptor opened with [O_APPEND]. *)
Definition w_write (d : fd) (buf : bytes) (w : World) : option nat * World :=
  let '(r, w) := next_call w in
  match r with
  | SysErr => (None, w)
  | _ =>
      let k := transferred r (length buf) in
      (Some k, set_fs (alter (λ c, c ++ take k buf) d (w_fs w)) w)
  end.

(** [read(fd, buf, n)] at offset [off] : the empty chunk at end of file. *)
Definition w_read (d : fd) (off n : nat) (w : World) : option bytes * World :=
  let '(r, w) := next_call w in
  match r with
  | SysErr => (None, w)
  | _ =>
      let rest := drop off (default [] (w_fs w !! d)) in
      (Some (take (transferred r (Nat.min n (length rest))) rest), w)
  end.

(** [stat] and [fstat] : the size, [None] for -1. *)
Definition w_stat (path : bytes) (w : World) : option Z :=
  (λ c, Z.of_nat (length c)) <$> w_fs w !! resolve path.

Definition w_fstat (d : fd) (w : World) : option Z :=
  (λ c, Z.of_nat (length c)) <$> w_fs w !! d.

(** A file cut or extended (with NULs) to a size. *)
Definition resized (size : Z) (c : bytes) : bytes :=
  take (Z.to_nat size) c ++ repeat NUL (Z.to_nat size - length c).

(** [truncate(path, size)] : [false] for -1. *)
Definition w_truncate (path : bytes) (size : Z) (w : World) : bool * World :=
  let '(r, w) := next_call w in
  match r, w_fs w !! resolve path with
  | SysErr, _ | _, None => (false, w)
  | _, Some c => (true, set_fs (<[resolve path := resized size c]> (w_fs w)) w)
  end.

(** [remove(path)] : [false] for -1. *)
Definition w_remove (path : bytes) (w : World) : bool * World :=
  let '(r, w) := next_call w in
  match r, w_fs w !! resolve path with
  | SysErr, _ | _, None => (false, w)
  | _, Some _ => (true, set_fs (delete (resolve path) (w_fs w)) w)
  end.

(** [rand()] *)
Definition w_next_rand (w : World) : option Z * World :=
  match w_rand w with
  | [] => (None, w)
  | r :: l =>
      (Some r, {| w_fs := w_fs w; w_now := w_now w; w_rand := l; w_sched := w_sched w |})
  end.
End posix.

(** ** Programs that use the operating system

    The state of any component that makes system calls contains a world. *)
Class HasWorld (S : Type) := {
  the_world : S → World;
  set_world : World → S → S;
  the_set_world : ∀ w s, the_world (set_world w s) = w;
  set_the_world : ∀ s, set_world (the_world s) s = s;
  set_set_world : ∀ w w' s, set_world w (set_world w' s) = set_world w s
}.

#[export] Instance world_has_world : HasWorld World.
Proof. by refine {| the_world w := w; set_world w _ := w |}. Defined.

Section calls.
Context {S : Type} `{HasWorld S}.

(** A system call: one atomic action on the world. *)
Definition syscall {A} (f : World → A * World) : prog S A :=
  act (λ s, ((f (the_world s)).1, set_world (f (the_world s)).2 s)).

Definition syscall_reads {A} (f : World → A) : prog S A := reads (λ s, f (the_world s)).

Lemma wp_syscall {A} tid (C : S → Prop) (f : World → A * World) ls s (Q : A → locks → S → Prop) :
  C s → C (set_world (f (the_world s)).2 s) →
  Q (f (the_world s)).1 ls (set_world (f (the_world s)).2 s) →
  wp tid C (syscall f) ls s Q.
Proof. intros. by apply wp_act. Qed.
End calls.

(** What the calls do to the files. *)
Section facts.
Context `{PathResolution}.
Implicit Types (w : World) (d path : bytes).

Lemma next_call_fs w : w_fs (next_call w).2 = w_fs w.
Proof. unfold next_call. by destruct (w_sched w). Qed.

Lemma next_call_now w : w_now (next_call w).2 = w_now w.
Proof. unfold next_call. by destruct (w_sched w). Qed.

Lemma transferred_le r n : (transferred r n ≤ n)%nat.
Proof. destruct r; simpl; lia. Qed.

Lemma transferred_pos r n : (1 ≤ n)%nat → (1 ≤ transferred r n)%nat.
Proof. destruct r; simpl; lia. Qed.

(** [open] without [O_CREAT] changes no file; with it, it can only create an empty one. *)
Lemma w_open_spec path flags w :
  match w_open path flags w with
  | (None, w') => w_fs w' = w_fs w
  | (Some d, w') => d = resolve path ∧
      match w_fs w !! d with
      | Some _ => w_fs w' = w_fs w
      | None => has_flag O_CREAT flags = true ∧ w_fs w' = <[d := []]> (w_fs w)
      end
  end.
Proof.
  unfold w_open. pose proof (next_call_fs w) as E.
  destruct (next_call w) as [r w1]. simpl in E.
  assert (Hok : match w_fs w1 !! resolve path with
    | Some _ => True | None => True end) by by destruct (w_fs w1 !! resolve path).
  destruct r; [| |done];
    (destruct (w_fs w1 !! resolve path) eqn:El;
     [split; [done|]; rewrite E in El; by rewrite El|];
     destruct (has_flag O_CREAT flags) eqn:Ef; [|done];
     split; [done|]; rewrite E in El; rewrite El; by rewrite <- E).
Qed.

(** [write] appends what it reports to have written. *)
Lemma w_write_spec d buf w c :
  w_fs w !! d = Some c → buf ≠ [] →
  match w_write d buf w with
  | (None, w') => w_fs w' = w_fs w
  | (Some k, w') => (1 ≤ k ≤ length buf)%nat ∧ w_fs w' = <[d := c ++ take k buf]> (w_fs w)
  end.
Proof.
  intros Hd Hne. unfold w_write. pose proof (next_call_fs w) as E.
  destruct (next_call w) as [r w1]. simpl in E.
  assert (Hk : ∀ k, alter (λ c, c ++ take k buf) d (w_fs w1) = <[d := c ++ take k buf]> (w_fs w)).
  { intros k. rewrite E. apply map_eq. intros i. destruct (decide (i = d)) as [->|Hi].
    - by rewrite lookup_alter_eq, Hd, lookup_insert_eq.
    - by rewrite lookup_alter_ne, lookup_insert_ne. }
  assert (1 ≤ length buf)%nat by (destruct buf; simpl in *; [done|lia]).
  destruct r; [| |done]; (split; [|apply Hk]);
    (split; [by apply transferred_pos|apply transferred_le]).
Qed.

(** [read] delivers the next bytes of the file and changes nothing. *)
Lemma w_read_spec d off n w c :
  w_fs w !! d = Some c →
  w_fs (w_read d off n w).2 = w_fs w ∧
  match (w_read d off n w).1 with
  | None => True
  | Some chunk => chunk `prefix_of` drop off c ∧ (length chunk ≤ n)%nat
  end.
Proof.
  intros Hd. unfold w_read. pose proof (next_call_fs w) as E.
  destruct (next_call w) as [r w1]. simpl in E. rewrite <- E in Hd.
  destruct r as [|k|]; simpl; [| |done]; (split; [done|]); rewrite Hd; simpl;
    (split; [apply prefix_take|rewrite length_take; lia]).
Qed.

(** Cutting an extended file back to its old size gives the old contents. *)
Lemma resized_app (c d : bytes) : resized (Z.of_nat (length c)) (c ++ d) = c.
Proof.
  unfold resized. rewrite Nat2Z.id, length_app, take_app_length.
  replace (length c - (length c + length d))%nat with 0%nat by lia. apply app_nil_r.
Qed.

(** [truncate] either leaves the files alone or resizes the one it names. *)
Lemma w_truncate_fs path size w :
  w_fs (w_truncate path size w).2 = w_fs w ∨
  ∃ c, w_fs w !! resolve path = Some c ∧
       w_fs (w_truncate path size w).2 = <[resolve path := resized size c]> (w_fs w).
Proof.
  unfold w_truncate. pose proof (next_call_fs w) as E. destruct (next_call w) as [r w1].
  simpl in E. rewrite E.
  destruct r; [| |by left];
    (destruct (w_fs w !! resolve path) as [c|] eqn:Ec; [right; exists c; by split|by left]).
Qed.
End facts.
