(* ===== verification/File.v ===== *)
(** * Files: the [File] class

    [File] (file.h, file.cpp): a descriptor opened by the constructor and closed by the
    destructor, both under [g_mtx], with reads and writes that transfer everything or
    throw, and the static size and existence queries. *)
From S2P Require Import Prelude Stdcxx Prog ReadWrite Posix.
From Stdlib Require Import ZArith Lia List Ascii String Bool.
From stdpp Require Import base gmap strings list fin_maps sorting.
#[local] Set Default Goal Selector "!".
Local Open Scope Z_scope.

Record File := { m_fd : bytes; m_flags : Z }.

Section file.
Context `{PathResolution} {S : Type} `{HasWorld S}.

(** [File::File] *)
Definition File_ctor (in_file_path : bytes) (in_flags : Z) : eprog S File :=
  let! _ := lock g_mtx in
  let! fd := syscall (w_open in_file_path in_flags) in
  let! _ := unlock g_mtx in
  match fd with
  | None => throw ErrorOpeningFile
  | Some fd => eret {| m_fd := fd; m_flags := in_flags |}
  end.

(** [File::~File] : the two [fsync]s change nothing here; a failed [close] is ignored. *)
Definition File_dtor (f : File) : prog S unit :=
  let! _ := lock g_mtx in
  unlock g_mtx.

(** [File::fileExists] *)
Definition fileExists (in_file_path : bytes) : prog S bool :=
  syscall_reads (λ w, bool_decide (is_Some (w_stat in_file_path w))).

(** [File::getFileSize(in_file_path)] *)
Definition getFileSize (in_file_path : bytes) : prog S Z :=
  syscall_reads (λ w, default 0 (w_stat in_file_path w)).

(** [File::getFileSize()] : a failed [fstat] exits. *)
Definition File_getFileSize (f : File) : prog S Z :=
  let! size := syscall_reads (w_fstat (m_fd f)) in
  match size with
  | None => Halt ExitFailure
  | Some size => Ret size
  end.

Definition writable (flags : Z) : bool := has_flag O_WRONLY flags || has_flag O_RDWR flags.
Definition readable (flags : Z) : bool := has_flag O_RDONLY flags || has_flag O_RDWR flags.

(** [File::read] : the size of the buffer is an [int]; a negative or overflowing array
    bound is undefined; the result is the C string in the buffer. *)
Definition File_read (f : File) : eprog S bytes :=
  if readable (m_flags f) then
    let? size := lift (File_getFileSize f) in
    let buffer_len := to_int32 size in
    if (buffer_len <? 0) || (INT32_MAX <? buffer_len + 1) then Halt Undefined
    else
      let? r := lift (readFileDescriptor
        (λ off n, syscall (w_read (m_fd f) off n)) (Ret true) (Z.to_nat buffer_len)) in
      let '(ret, buffer) := r in
      if ret <? 0 then throw ErrorReadingFromFile else eret (c_str buffer)
  else Halt ExitFailure.

(** [File::write] *)
Definition File_write (f : File) (in_buffer_str : bytes) : eprog S unit :=
  if writable (m_flags f) then
    let? ret := lift (writeFileDescriptor
      (λ b, syscall (w_write (m_fd f) b)) in_buffer_str) in
    if ret <? 0 then throw ErrorWritingToFile else eret tt
  else Halt ExitFailure.

(** A local [File] in a block: constructed, used, and destroyed on every way out of the
    block, an exception included. *)
Definition with_File {A} (in_file_path : bytes) (in_flags : Z) (body : File → eprog S A) : eprog S A :=
  let? f := File_ctor in_file_path in_flags in
  let! r := body f in
  let! _ := File_dtor f in
  Ret r.

(** ** Specifications

    [files s] are the files of a state; [same_but_files s s'] : [s'] differs from [s] in
    its files and in its schedule only; [calm s] : no call will fail or fall short. *)
Definition files (s : S) : gmap bytes bytes := w_fs (the_world s).

Definition calm (s : S) : Prop := w_sched (the_world s) = [].

Definition same_but_files (s s' : S) : Prop :=
  (∃ w, s' = set_world w s) ∧ w_now (the_world s') = w_now (the_world s) ∧
  w_rand (the_world s') = w_rand (the_world s) ∧ (calm s → calm s').

#[export] Instance same_but_files_preorder : PreOrder same_but_files.
Proof.
  split.
  - intros s. split; [exists (the_world s); by rewrite set_the_world|done].
  - intros s1 s2 s3 ([w1 ->] & Hn1 & Hr1 & Hc1) ([w2 ->] & Hn2 & Hr2 & Hc2).
    split; [exists w2; apply set_set_world|].
    split; [by rewrite Hn2|]. split; [by rewrite Hr2|auto].
Qed.

(** The world [w'] a call leaves behind, put back into the state. *)
Definition world_step (w w' : World) : Prop :=
  w_now w' = w_now w ∧ w_rand w' = w_rand w ∧ (w_sched w = [] → w_sched w' = []).

Lemma same_but_files_set w s :
  world_step (the_world s) w → same_but_files s (set_world w s).
Proof.
  intros (Hn & Hr & Hc). split; [by exists w|]. unfold calm. by rewrite the_set_world.
Qed.

Lemma files_set w s : files (set_world w s) = w_fs w.
Proof. unfold files. by rewrite the_set_world. Qed.

Lemma calm_set w s : calm (set_world w s) ↔ w_sched w = [].
Proof. unfold calm. by rewrite the_set_world. Qed.
End file.

Section world_steps.
Context `{PathResolution}.
Implicit Types w : World.

Lemma next_call_step w : world_step w (next_call w).2.
Proof. unfold next_call, world_step. destruct (w_sched w) eqn:E; simpl; by rewrite ?E. Qed.

Lemma w_open_step path flags w : world_step w (w_open path flags w).2.
Proof.
  unfold w_open. pose proof (next_call_step w) as Hs. destruct (next_call w) as [r w1].
  simpl in Hs. by destruct (has_flag O_CREAT flags), r, (w_fs w1 !! resolve path).
Qed.

Lemma w_write_step d buf w : world_step w (w_write d buf w).2.
Proof.
  unfold w_write. pose proof (next_call_step w) as Hs. destruct (next_call w) as [r w1].
  destruct r; exact Hs.
Qed.

Lemma w_read_step d off n w : world_step w (w_read d off n w).2.
Proof.
  unfold w_read. pose proof (next_call_step w) as Hs. destruct (next_call w) as [r w1].
  destruct r; exact Hs.
Qed.

Lemma w_truncate_step path size w : world_step w (w_truncate path size w).2.
Proof.
  unfold w_truncate. pose proof (next_call_step w) as Hs. destruct (next_call w) as [r w1].
  simpl in *. destruct r; destruct (w_fs w1 !! resolve path); exact Hs.
Qed.

Lemma w_remove_step path w : world_step w (w_remove path w).2.
Proof.
  unfold w_remove. pose proof (next_call_step w) as Hs. destruct (next_call w) as [r w1].
  simpl in *. destruct r; destruct (w_fs w1 !! resolve path); exact Hs.
Qed.

Lemma next_call_calm w : w_sched w = [] → next_call w = (SysOk, w).
Proof. unfold next_call. by intros ->. Qed.

(** The files after a successful [open]. *)
Definition opened (path : bytes) (fs : gmap bytes bytes) : gmap bytes bytes :=
  match fs !! resolve path with Some _ => fs | None => <[resolve path := []]> fs end.

Lemma opened_lookup path fs :
  opened path fs !! resolve path = Some (default [] (fs !! resolve path)).
Proof. unfold opened. destruct (fs !! resolve path) eqn:E; [done|apply lookup_insert_eq]. Qed.

Lemma opened_ne path fs p : p ≠ resolve path → opened path fs !! p = fs !! p.
Proof.
  intros Hp. unfold opened. destruct (fs !! resolve path); [done|].
  by rewrite lookup_insert_ne.
Qed.

Lemma opened_insert path fs c : <[resolve path := c]> (opened path fs) = <[resolve path := c]> fs.
Proof. unfold opened. destruct (fs !! resolve path); [done|]. apply insert_insert_eq. Qed.

Lemma w_open_calm path flags w :
  w_sched w = [] → is_Some (w_fs w !! resolve path) ∨ has_flag O_CREAT flags = true →
  is_Some (w_open path flags w).1.
Proof.
  intros Hc Hex. unfold w_open. rewrite next_call_calm by done.
  destruct (w_fs w !! resolve path); [done|]. by destruct Hex as [[? [=]]| -> ].
Qed.
End world_steps.

Section specs.
Context `{PathResolution} {S : Type} `{HasWorld S} (tid : nat).
Implicit Types (s : S) (C : S → Prop).

(** A system call keeps everything but the files and the schedule. *)
Lemma syscall_same {A} (f : World → A * World) s :
  world_step (the_world s) (f (the_world s)).2 →
  same_but_files s (set_world (f (the_world s)).2 s).
Proof. apply same_but_files_set. Qed.

(** The constructor: opens (and with [O_CREAT] creates) the file, or throws leaving the
    files alone; [g_mtx] is free again either way. *)
Lemma File_ctor_spec C path flags ls s :
  ls !! g_mtx = None →
  (∀ s', same_but_files s s' → files s' = files s ∨
     files s' = opened path (files s) ∧
     (is_Some (files s !! resolve path) ∨ has_flag O_CREAT flags = true) → C s') →
  wp tid C (File_ctor path flags) ls s (λ r ls' s', ls' = ls ∧ same_but_files s s' ∧
    match r with
    | inl e => e = ErrorOpeningFile ∧ files s' = files s ∧
               (calm s → files s !! resolve path = None ∧ has_flag O_CREAT flags = false)
    | inr f => f = {| m_fd := resolve path; m_flags := flags |} ∧
               files s' = opened path (files s) ∧
               (is_Some (files s !! resolve path) ∨ has_flag O_CREAT flags = true)
    end).
Proof.
  intros Hg HC. unfold File_ctor.
  pose proof (w_open_spec path flags (the_world s)) as Ho.
  pose proof (w_open_step path flags (the_world s)) as Hst.
  pose proof (w_open_calm path flags (the_world s)) as Hcalm.
  pose proof (syscall_same _ s Hst) as Hsame.
  destruct (w_open path flags (the_world s)) as [fd w] eqn:Ew. cbn [fst snd] in *.
  assert (Hfiles : files (set_world w s) = files s ∨
    files (set_world w s) = opened path (files s) ∧
    (is_Some (files s !! resolve path) ∨ has_flag O_CREAT flags = true)).
  { rewrite files_set. unfold opened, files. destruct fd as [d|]; [|auto].
    destruct Ho as [-> Ho]. destruct (w_fs (the_world s) !! resolve path); [auto|].
    right. destruct Ho. auto. }
  assert (HC0 : C s) by by apply HC; [|left].
  assert (HC1 : C (set_world w s)) by by apply HC.
  wp_step. wp_step. wp_step.
  apply wp_syscall; rewrite ?Ew; [done..|]. simpl fst; simpl snd.
  wp_step. wp_step; [by apply lookup_insert_eq|].
  rewrite delete_insert_id by done.
  destruct fd as [d|]; wp_step; (split; [done|]; split; [done|]).
  - destruct Ho as [-> Ho]. rewrite files_set. unfold opened, files in *.
    destruct (w_fs (the_world s) !! resolve path); [|by destruct Ho as [? ->]; auto]. eauto.
  - rewrite files_set. split; [done|]. split; [done|]. intros Hc.
    destruct (decide (is_Some (files s !! resolve path) ∨ has_flag O_CREAT flags = true)) as [Hd|Hd].
    + by destruct (Hcalm Hc Hd).
    + apply Decidable.not_or in Hd as [Hd1 Hd2]. split; [by apply eq_None_not_Some|].
      by destruct (has_flag O_CREAT flags).
Qed.

Lemma File_dtor_spec C f ls s (Q : unit → locks → S → Prop) :
  ls !! g_mtx = None → C s → Q tt ls s → wp tid C (File_dtor f) ls s Q.
Proof.
  intros Hg HC HQ. unfold File_dtor. wp_step. wp_step.
  wp_step; [by apply lookup_insert_eq|]. by rewrite delete_insert_id.
Qed.

(** A write appends a prefix of the buffer, all of it unless it throws. *)
Lemma File_write_spec C f buf c ls s :
  writable (m_flags f) = true → nul_free buf = true → files s !! m_fd f = Some c →
  (∀ s' k, same_but_files s s' → files s' = <[m_fd f := c ++ take k buf]> (files s) → C s') →
  wp tid C (File_write f buf) ls s (λ r ls' s', ls' = ls ∧ same_but_files s s' ∧
    ∃ k, files s' = <[m_fd f := c ++ take k buf]> (files s) ∧
      match r with
      | inl e => e = ErrorWritingToFile ∧ (k < length buf)%nat ∧ ¬ calm s
      | inr tt => k = length buf
      end).
Proof.
  intros Hw Hn Hc HC. unfold File_write. rewrite Hw.
  set (J := λ k s', same_but_files s s' ∧ files s' = <[m_fd f := c ++ take k buf]> (files s)).
  wp_step. apply wp_lift.
  eapply wp_mono; [eapply (writeFileDescriptor_spec _ tid ls C buf J (¬ calm s))|done|].
  - intros k s' [Hs Hf]. by eapply HC.
  - intros k s1 [Hs Hf] Hk.
    assert (Hd : w_fs (the_world s1) !! m_fd f = Some (c ++ take k buf)).
    { change (files s1 !! m_fd f = Some (c ++ take k buf)). by rewrite Hf, lookup_insert_eq. }
    pose proof (w_write_spec _ (drop k buf) _ _ Hd) as Hspec.
    pose proof (w_write_step (m_fd f) (drop k buf) (the_world s1)) as Hst.
    pose proof (syscall_same _ _ Hst) as Hsame.
    assert (Hcalm : calm s1 → (w_write (m_fd f) (drop k buf) (the_world s1)).1 ≠ None).
    { unfold w_write. intros Hcs. by rewrite next_call_calm. }
    destruct (w_write (m_fd f) (drop k buf) (the_world s1)) as [r w1] eqn:Ew. cbn [fst snd] in *.
    assert (Hne : drop k buf ≠ []).
    { intros E. apply (f_equal length) in E. rewrite length_drop in E. simpl in E. lia. }
    specialize (Hspec Hne).
    assert (HC1 : C (set_world w1 s1)).
    { destruct r as [n|].
      - apply (HC _ (k + n)%nat); [by etrans|]. rewrite files_set. destruct Hspec as [_ ->].
        change (w_fs (the_world s1)) with (files s1). rewrite Hf, insert_insert_eq, <- app_assoc.
        do 2 f_equal. by rewrite take_take_drop.
      - apply (HC _ k); [by etrans|]. by rewrite files_set, Hspec. }
    apply wp_syscall; rewrite ?Ew; [by eapply HC|done|]. simpl. split; [done|].
    destruct r as [n|].
    + destruct Hspec as [[H1 H2] Hfs]. rewrite length_drop in H2. split; [lia|]. split; [lia|].
      split; [by etrans|]. rewrite files_set, Hfs.
      change (w_fs (the_world s1)) with (files s1). rewrite Hf, insert_insert_eq, <- app_assoc.
      do 2 f_equal. by rewrite take_take_drop.
    + split.
      * split; [by etrans|]. by rewrite files_set, Hspec.
      * intros Hcs. apply Hcalm; [|done]. by apply Hs.
  - done.
  - split; [done|]. simpl. rewrite app_nil_r. by rewrite insert_id.
  - intros ret ls' s' HC' (-> & k & [Hs Hf] & Hret & HF). simpl.
    destruct Hret as [[-> ->]|[-> Hk]].
    + rewrite (proj2 (Z.ltb_ge _ 0)) by lia. wp_step. split; [done|]. split; [done|]. eauto.
    + change (-1 <? 0) with true. wp_step. split; [done|]. split; [done|]. exists k. auto.
Qed.

(** A read delivers the file up to its first NUL, or throws; no file changes.  It is only
    meaningful for a file whose size fits the [int] the code keeps it in. *)
Lemma File_read_spec C f c ls s :
  readable (m_flags f) = true → files s !! m_fd f = Some c → len c < INT32_MAX →
  (∀ s', same_but_files s s' → files s' = files s → C s') →
  wp tid C (File_read f) ls s (λ r ls' s', ls' = ls ∧ same_but_files s s' ∧
    files s' = files s ∧
    match r with
    | inl e => e = ErrorReadingFromFile ∧ ¬ calm s
    | inr d => d = c_str c
    end).
Proof.
  intros Hr Hc Hlen HC. unfold File_read. rewrite Hr.
  assert (HC0 : C s) by by apply HC.
  wp_step. wp_step. unfold File_getFileSize. wp_step. unfold syscall_reads. wp_step.
  unfold w_fstat. change (w_fs (the_world s)) with (files s). rewrite Hc. cbn [fmap option_fmap option_map].
  wp_step. rewrite to_int32_id by (unfold int32, INT32_MIN; lia).
  rewrite (proj2 (Z.ltb_ge (len c) 0)), (proj2 (Z.ltb_ge INT32_MAX _)) by lia. cbn [orb].
  rewrite Nat2Z.id. wp_step. apply wp_lift.
  set (I := λ (_ : nat) s', same_but_files s s' ∧ files s' = files s).
  eapply wp_mono;
    [eapply (readFileDescriptor_spec _ _ tid ls C I I c (length c) (¬ calm s))|done|].
  - intros k s' []. auto.
  - intros off n s1 [Hs Hf] Hoff Hn.
    assert (Hd : w_fs (the_world s1) !! m_fd f = Some c).
    { change (files s1 !! m_fd f = Some c). by rewrite Hf. }
    destruct (w_read_spec _ off n _ _ Hd) as [Hfs Hspec].
    pose proof (syscall_same _ _ (w_read_step (m_fd f) off n (the_world s1))) as Hsame.
    assert (Hcalm : calm s1 → ∃ x chunk, (w_read (m_fd f) off n (the_world s1)).1 = Some (x :: chunk)).
    { intros Hcs. unfold w_read. rewrite next_call_calm by done. rewrite Hd. change (default [] (Some c)) with c. cbn [fst transferred].
      destruct (drop off c) as [|x r] eqn:E.
      - apply (f_equal length) in E. rewrite length_drop in E. simpl in E. lia.
      - destruct n as [|n]; [lia|]. by do 2 eexists. }
    destruct (w_read (m_fd f) off n (the_world s1)) as [r w1] eqn:Ew. cbn [fst snd] in *.
    assert (HI : ∀ k, I k (set_world w1 s1)).
    { intros k. split; [by etrans|]. by rewrite files_set, Hfs. }
    apply wp_syscall; rewrite ?Ew; [by apply HC|by apply HC; apply (HI 0%nat)|]. cbn [fst snd].
    split; [done|].
    assert (Hnc : (∀ x chunk, r ≠ Some (x :: chunk)) → ¬ calm s).
    { intros Hne Hcs. destruct Hcalm as (x & chunk & E); [by apply Hs|]. by eapply Hne. }
    destruct r as [chunk|]; [|split; [apply (HI off)|by apply Hnc]]. destruct Hspec as [Hp Hl].
    split; [apply (HI 0%nat)|]. split; [done|]. split; [done|]. intros ->. by apply Hnc.
  - intros k s' HI _. apply wp_ret; [by apply HC; apply HI|]. done.
  - done.
  - intros [ret buf] ls' s' HC' (-> & [Hs Hf] & Hp & Hret & HF). cbn [fst snd] in *.
    destruct Hret as [[-> Hb]|[-> Hb]].
    + rewrite (proj2 (Z.ltb_ge _ 0)) by lia. wp_step. split; [done|]. split; [done|].
      split; [done|]. destruct Hp as [rest ->]. rewrite length_app in Hb.
      destruct rest; [by rewrite app_nil_r|simpl in Hb; lia].
    + change (-1 <? 0) with true. wp_step. do 4 (split; [done|]). by apply HF.
Qed.

(** A block with a local [File]: what the body needs and leaves, with the constructor and
    the destructor around it. *)
Lemma with_File_spec {A} C path flags (body : File → eprog S A) ls s
    (R : exn + A → S → Prop) :
  ls !! g_mtx = None →
  (∀ s', same_but_files s s' → files s' = files s ∨
     files s' = opened path (files s) ∧
     (is_Some (files s !! resolve path) ∨ has_flag O_CREAT flags = true) → C s') →
  (∀ s', same_but_files s s' → files s' = opened path (files s) →
    (is_Some (files s !! resolve path) ∨ has_flag O_CREAT flags = true) →
    wp tid C (body {| m_fd := resolve path; m_flags := flags |}) ls s'
      (λ r ls' s'', ls' = ls ∧ R r s'')) →
  (∀ s', same_but_files s s' → files s' = files s →
    (calm s → files s !! resolve path = None ∧ has_flag O_CREAT flags = false) →
    R (inl ErrorOpeningFile) s') →
  wp tid C (with_File path flags body) ls s (λ r ls' s', ls' = ls ∧ R r s').
Proof.
  intros Hg HC Hbody Hfail. unfold with_File.
  eapply wp_eseq; [by apply File_ctor_spec|..].
  - intros e ls' s' _ (-> & Hs & -> & Hf & Hcalm). split; [done|]. by apply Hfail.
  - intros f ls' s' _ (-> & Hs & -> & Hf & Hex).
    eapply wp_seq; [by apply Hbody|]. intros r ls' s'' HC'' [-> HR].
    apply wp_bind. apply File_dtor_spec; [done..|]. by apply wp_ret.
Qed.
End specs.
