(* ===== verification/Backend.v ===== *)
(** * The transactional backend: [ServerBackend]

    server-backend.h and server-backend.cpp: the state of the server (transactions, file
    attributes, committed ids, timers), the five command functions, the transaction timer,
    the transaction log and the recovery that replays it.  Objects that the code reaches
    through references and shared pointers live at addresses, so that a reference that
    outlives its object is undefined behaviour in the model too.  Every critical section
    is spelled out, so the same definitions are run alone (Backend proofs) and interleaved
    (Threads.v). *)
From S2P Require Import Prelude Stdcxx Regex Constants WireProtocol Messages Prog ReadWrite Posix File.
From Stdlib Require Import ZArith Lia List Ascii String Bool.
From stdpp Require Import base gmap strings list fin_maps sorting.
#[local] Set Default Goal Selector "!".
Local Open Scope Z_scope.

(** ** State *)

(** [FileAttributes], owned by [shared_ptr]s: [use_count] of them. *)
Record FileAttributes := {
  m_file_name : bytes;
  m_file_size : Z;
  use_count : nat
}.

(** [TransactionAttributesTuple] without its mutex, which is [txn_mtx] of its address. *)
Record TransactionAttributes := {
  sp_file_attributes : positive;      (* address of the FileAttributes *)
  buffers : gmap Z bytes;             (* BufferMap *)
  max_seq_num : Z;
  curr_timestamp : Z
}.

(** A detached thread running [m_txn_timer_function], asleep. *)
Record Timer := {
  tm_txn_id : Z;
  tm_latest_timestamp : Z;
  tm_file_name : bytes
}.

Record ServerBackend := mkServerBackend {
  m_txn_id_to_transaction_attributes : gmap Z positive;
  txn_nodes : gmap positive TransactionAttributes;      (* the map's nodes, by address *)
  m_file_name_to_ptr_to_file_attributes : gmap bytes positive;
  file_nodes : gmap positive FileAttributes;            (* the objects the pointers point to *)
  m_commits : gset Z;
  m_initialize : bool;
  timers : list Timer;
  next_address : positive;
  backend_world : World
}.

(** ServerBackend's constructor state, in a given world. *)
Definition new_backend (w : World) : ServerBackend :=
  {| m_txn_id_to_transaction_attributes := ∅; txn_nodes := ∅;
     m_file_name_to_ptr_to_file_attributes := ∅; file_nodes := ∅; m_commits := ∅;
     m_initialize := true; timers := []; next_address := 1; backend_world := w |}.

Section setters.
Implicit Types s : ServerBackend.

Definition set_backend_world (w : World) s : ServerBackend :=
  mkServerBackend (m_txn_id_to_transaction_attributes s) (txn_nodes s)
    (m_file_name_to_ptr_to_file_attributes s) (file_nodes s) (m_commits s) (m_initialize s)
    (timers s) (next_address s) w.

Definition set_txns (t : gmap Z positive) s : ServerBackend :=
  mkServerBackend t (txn_nodes s) (m_file_name_to_ptr_to_file_attributes s) (file_nodes s)
    (m_commits s) (m_initialize s) (timers s) (next_address s) (backend_world s).

Definition set_txn_nodes (tn : gmap positive TransactionAttributes) s : ServerBackend :=
  mkServerBackend (m_txn_id_to_transaction_attributes s) tn
    (m_file_name_to_ptr_to_file_attributes s) (file_nodes s) (m_commits s) (m_initialize s)
    (timers s) (next_address s) (backend_world s).

Definition set_file_ptrs (f : gmap bytes positive) s : ServerBackend :=
  mkServerBackend (m_txn_id_to_transaction_attributes s) (txn_nodes s) f (file_nodes s)
    (m_commits s) (m_initialize s) (timers s) (next_address s) (backend_world s).

Definition set_file_nodes (fn : gmap positive FileAttributes) s : ServerBackend :=
  mkServerBackend (m_txn_id_to_transaction_attributes s) (txn_nodes s)
    (m_file_name_to_ptr_to_file_attributes s) fn (m_commits s) (m_initialize s) (timers s)
    (next_address s) (backend_world s).

Definition set_commits (c : gset Z) s : ServerBackend :=
  mkServerBackend (m_txn_id_to_transaction_attributes s) (txn_nodes s)
    (m_file_name_to_ptr_to_file_attributes s) (file_nodes s) c (m_initialize s) (timers s)
    (next_address s) (backend_world s).

Definition set_initialize (i : bool) s : ServerBackend :=
  mkServerBackend (m_txn_id_to_transaction_attributes s) (txn_nodes s)
    (m_file_name_to_ptr_to_file_attributes s) (file_nodes s) (m_commits s) i (timers s)
    (next_address s) (backend_world s).

Definition set_timers (ti : list Timer) s : ServerBackend :=
  mkServerBackend (m_txn_id_to_transaction_attributes s) (txn_nodes s)
    (m_file_name_to_ptr_to_file_attributes s) (file_nodes s) (m_commits s) (m_initialize s)
    ti (next_address s) (backend_world s).

Definition set_next_address (a : positive) s : ServerBackend :=
  mkServerBackend (m_txn_id_to_transaction_attributes s) (txn_nodes s)
    (m_file_name_to_ptr_to_file_attributes s) (file_nodes s) (m_commits s) (m_initialize s)
    (timers s) a (backend_world s).

End setters.

#[export] Instance backend_has_world : HasWorld ServerBackend.
Proof.
  refine {| the_world := backend_world; set_world := set_backend_world |};
    [done|by intros []|done].
Defined.

(** ** Log names *)
Definition m_transaction_log : bytes := str ".transactionlog.txt".
Definition m_timeout_log : bytes := str ".timeoutlog.txt".
Definition m_commit_log : bytes := str ".commitlog.txt".
Definition m_abort_log : bytes := str ".abortlog.txt".

(** What a command function hands back through its reference parameters. *)
Record Reply := { server_response : bytes; transaction_in_progress : bool }.

(** The constructor's normalisation of the directory name. *)
Definition directory_name (in_directory : bytes) : bytes :=
  match last in_directory with
  | Some c => if bool_decide (c = "/"%char) then in_directory else in_directory ++ str "/"
  | None => in_directory
  end.

Section backend.
Context `{PathResolution}.
Context (m_directory : bytes).

Abbreviation P A := (prog ServerBackend A) (only parsing).
Abbreviation EP A := (eprog ServerBackend A) (only parsing).

(** [high_resolution_clock::now()] *)
Definition NOW : P Z := syscall_reads w_now.

(** ** Responses: the SET_... macros *)

Definition SET_RESPONSE (in_command : bytes) (txn_id seq_num : Z)
    (error : Errors.ErrorMapIterator) (data : bytes) (in_progress : bool) : P Reply :=
  match generateResponse in_command txn_id seq_num error data with
  | Some r => Ret {| server_response := r; transaction_in_progress := in_progress |}
  | None => Halt Uncaught
  end.

Definition SET_ERROR (req : RequestTuple) (error : Errors.ErrorMapIterator) : P Reply :=
  SET_RESPONSE Constants.error_cmd (rq_txn_id req) (rq_seq_num req) error
    (Errors.getErrorMessage error) false.

Definition SET_ACK (req : RequestTuple) (in_progress : bool) : P Reply :=
  SET_RESPONSE Constants.ack_cmd (rq_txn_id req) (rq_seq_num req) Errors.nil [] in_progress.

Definition SET_NEW_TXN (txn_id : Z) (in_progress : bool) : P Reply :=
  SET_RESPONSE Constants.ack_cmd txn_id Constants.initial_seq_num Errors.nil [] in_progress.

Definition SET_READ (req : RequestTuple) (buffer : bytes) (in_progress : bool) : P Reply :=
  SET_RESPONSE Constants.ack_cmd (rq_txn_id req) (rq_seq_num req) Errors.nil buffer in_progress.

Definition SET_ASK_RESEND (req : RequestTuple) (seq_num : Z) (in_progress : bool) : P Reply :=
  SET_RESPONSE Constants.ask_resend_cmd (rq_txn_id req) seq_num Errors.nil [] in_progress.

(** ** Checks: the RETURN_... macros, as the error to return, if any *)

Definition is_committed (txn_id : Z) : P bool := reads (λ s, bool_decide (txn_id ∈ m_commits s)).

Definition is_active (txn_id : Z) : P bool :=
  reads (λ s, bool_decide (is_Some (m_txn_id_to_transaction_attributes s !! txn_id))).

Definition RETURN_ERROR_IF_COMMITTED_OR_INVALID_ID (txn_id : Z) : P (option Errors.ErrorMapIterator) :=
  let! committed := is_committed txn_id in
  if committed : bool then Ret (Some Errors.InvalidOperation)
  else
    let! active := is_active txn_id in
    Ret (if active : bool then None else Some Errors.InvalidTransactionId).

Definition RETURN_ERROR_IF_COMMITTED_OR_ABORTED (txn_id : Z) : P (option Errors.ErrorMapIterator) :=
  let! committed := is_committed txn_id in
  if committed : bool then Ret (Some Errors.TransactionAlreadyCommitted)
  else
    let! active := is_active txn_id in
    Ret (if active : bool then None else Some Errors.TransactionAborted).

(** ** Objects behind references *)

(** [auto& txn_tuple = m_txn_id_to_transaction_attributes[txn_id]] *)
Definition find_txn (txn_id : Z) : P positive :=
  deref (λ s, m_txn_id_to_transaction_attributes s !! txn_id).

(** Reading and writing a field of the tuple at address [a]; undefined once it is erased. *)
Definition txn_get {A} (a : positive) (f : TransactionAttributes → A) : P A :=
  deref (λ s, f <$> txn_nodes s !! a).

Definition txn_set (a : positive) (f : TransactionAttributes → TransactionAttributes) : P unit :=
  act_partial (λ s, match txn_nodes s !! a with
                    | Some t => Some (tt, set_txn_nodes (<[a := f t]> (txn_nodes s)) s)
                    | None => None
                    end).

Definition file_get {A} (a : positive) (f : FileAttributes → A) : P A :=
  deref (λ s, f <$> file_nodes s !! a).

Definition file_set (a : positive) (f : FileAttributes → FileAttributes) : P unit :=
  act_partial (λ s, match file_nodes s !! a with
                    | Some t => Some (tt, set_file_nodes (<[a := f t]> (file_nodes s)) s)
                    | None => None
                    end).

Definition with_timestamp (ts : Z) (t : TransactionAttributes) : TransactionAttributes :=
  {| sp_file_attributes := sp_file_attributes t; buffers := buffers t;
     max_seq_num := max_seq_num t; curr_timestamp := ts |}.

Definition with_max_seq_num (m : Z) (t : TransactionAttributes) : TransactionAttributes :=
  {| sp_file_attributes := sp_file_attributes t; buffers := buffers t;
     max_seq_num := m; curr_timestamp := curr_timestamp t |}.

Definition with_buffer (seq_num : Z) (data : bytes) (t : TransactionAttributes) : TransactionAttributes :=
  {| sp_file_attributes := sp_file_attributes t; buffers := <[seq_num := data]> (buffers t);
     max_seq_num := max_seq_num t; curr_timestamp := curr_timestamp t |}.

Definition with_use_count (n : nat) (f : FileAttributes) : FileAttributes :=
  {| m_file_name := m_file_name f; m_file_size := m_file_size f; use_count := n |}.

Definition with_file_size (n : Z) (f : FileAttributes) : FileAttributes :=
  {| m_file_name := m_file_name f; m_file_size := n; use_count := use_count f |}.

(** ** Shared pointers to file attributes *)

(** Copying a [shared_ptr], as [shared_from_this()] does. *)
Definition share_file_attributes (a : positive) : P unit :=
  file_set a (λ f, with_use_count (S (use_count f)) f).

(** Destroying one: the last deletes the object and erases it from the name map. *)
Definition release_file_attributes (a : positive) : P unit :=
  act_partial (λ s,
    match file_nodes s !! a with
    | None => None
    | Some f =>
        if decide (use_count f ≤ 1)%nat then
          Some (tt, set_file_ptrs (delete (m_file_name f) (m_file_name_to_ptr_to_file_attributes s))
                      (set_file_nodes (delete a (file_nodes s)) s))
        else
          Some (tt, set_file_nodes (<[a := with_use_count (use_count f - 1) f]> (file_nodes s)) s)
    end).

(** [getNewFileAttributes] *)
Definition getNewFileAttributes (in_file_name : bytes) : EP positive :=
  let! found := reads (λ s, m_file_name_to_ptr_to_file_attributes s !! in_file_name) in
  match found with
  | None =>
      let? size := lift (getFileSize in_file_name) in
      act (λ s, (inr (next_address s),
        set_next_address (Pos.succ (next_address s))
          (set_file_ptrs (<[in_file_name := next_address s]> (m_file_name_to_ptr_to_file_attributes s))
            (set_file_nodes
              (<[next_address s := {| m_file_name := in_file_name; m_file_size := size; use_count := 1 |}]>
                (file_nodes s)) s))))
  | Some _ => throw ErrorAddingFileAttributes
  end.

(** [getNewTransactionAttributes] *)
Definition getNewTransactionAttributes (in_sp_file_attributes : positive) (in_timestamp : Z)
    : TransactionAttributes :=
  {| sp_file_attributes := in_sp_file_attributes; buffers := ∅;
     max_seq_num := Constants.initial_seq_num + 1; curr_timestamp := in_timestamp |}.

(** [m_txn_id_to_transaction_attributes.emplace(id, tuple)] : a new node, unless the id has
    one already, in which case the tuple and the pointer in it are destroyed. *)
Definition emplace_transaction (in_txn_id : Z) (t : TransactionAttributes) : P unit :=
  let! found := reads (λ s, m_txn_id_to_transaction_attributes s !! in_txn_id) in
  match found with
  | None =>
      modify (λ s,
        set_next_address (Pos.succ (next_address s))
          (set_txns (<[in_txn_id := next_address s]> (m_txn_id_to_transaction_attributes s))
            (set_txn_nodes (<[next_address s := t]> (txn_nodes s)) s)))
  | Some _ => release_file_attributes (sp_file_attributes t)
  end.

(** ** Logging *)

Definition log_flags : Z := Z.lor O_CREAT (Z.lor O_WRONLY O_APPEND).

(** [logTransaction] : both exceptions are swallowed. *)
Definition logTransaction (in_log_name : bytes) (in_txn_id : Z) (in_file_name : bytes) : P unit :=
  try_catch
    (with_File (m_directory ++ in_log_name) log_flags (λ log,
       let? _ := File_write log (to_string in_txn_id) in
       let? _ := File_write log (str " ") in
       let? _ := File_write log in_file_name in
       let? _ := File_write log (str " ") in
       let? size := lift (getFileSize in_file_name) in
       let? _ := File_write log (to_string size) in
       File_write log (str "
")))
    (λ e, match e with
          | ErrorOpeningFile | ErrorWritingToFile => Some (Ret tt)
          | _ => None
          end).

(** ** Creating and removing transactions *)

(** [START_TRANSACTION_TIMER] *)
Definition START_TRANSACTION_TIMER (in_txn_id curr_timestamp : Z) (in_file_name : bytes) : P unit :=
  modify (λ s, set_timers (timers s ++
    [{| tm_txn_id := in_txn_id; tm_latest_timestamp := curr_timestamp; tm_file_name := in_file_name |}]) s).

(** [addNewTransaction] *)
Definition addNewTransaction (in_txn_id : Z) (in_file_name : bytes) : EP unit :=
  let! fntptfa_it := reads (λ s, m_file_name_to_ptr_to_file_attributes s !! in_file_name) in
  let! curr_timestamp := NOW in
  let? sp_file_attributes :=
    match fntptfa_it with
    | None => getNewFileAttributes in_file_name
    | Some p => let? _ := lift (share_file_attributes p) in eret p
    end in
  lift (
    emplace_transaction in_txn_id (getNewTransactionAttributes sp_file_attributes curr_timestamp) ;;;
    logTransaction m_transaction_log in_txn_id in_file_name ;;;
    START_TRANSACTION_TIMER in_txn_id curr_timestamp in_file_name).

(** [removeTransaction(m_txn_id_to_transaction_attributes.find(id))] : erasing a node destroys
    the tuple in it. *)
Definition removeTransaction (in_txn_id : Z) : P unit :=
  let! txn_it := reads (λ s, m_txn_id_to_transaction_attributes s !! in_txn_id) in
  match txn_it with
  | None => Ret tt
  | Some a =>
      let! sp := txn_get a sp_file_attributes in
      modify (λ s, set_txns (delete in_txn_id (m_txn_id_to_transaction_attributes s))
                     (set_txn_nodes (delete a (txn_nodes s)) s)) ;;;
      release_file_attributes sp
  end.

(** [updateTransactionTimestamp] through the reference to the tuple. *)
Definition updateTransactionTimestamp (a : positive) : P unit :=
  let! now := NOW in
  txn_set a (with_timestamp now).

(** ** The transaction timer

    One turn of the loop of [m_txn_timer_function], from the sleep to the next sleep:
    [Some] of the timestamp to sleep from, or [None] when the function returns. *)
Definition txn_timer_turn (tm : Timer) : P (option Z) :=
  let timeout := seconds Constants.transaction_timeout_seconds in
  wait_until (λ s, tm_latest_timestamp tm + timeout <=? w_now (backend_world s)) ;;;
  lock m_member_mtx ;;;
  let! txn_it := reads (λ s, m_txn_id_to_transaction_attributes s !! tm_txn_id tm) in
  match txn_it with
  | Some a =>
      let! now := NOW in
      let! curr_timestamp := txn_get a curr_timestamp in
      if curr_timestamp + timeout <=? now then
        removeTransaction (tm_txn_id tm) ;;;
        logTransaction m_timeout_log (tm_txn_id tm) (tm_file_name tm) ;;;
        unlock m_member_mtx ;;;
        Ret None
      else unlock m_member_mtx ;;; Ret (Some curr_timestamp)
  | None => unlock m_member_mtx ;;; Ret None
  end.

(** ** Command functions

    A request and the caller's progress flag to a response and the new flag. *)

Definition READ (req : RequestTuple) (in_progress : bool) : P Reply :=
  try_catch
    (with_File (m_directory ++ rq_data req) O_RDONLY (λ file,
       let? buffer := File_read file in
       lift (SET_READ req buffer in_progress)))
    (λ e, match e with
          | ErrorOpeningFile => Some (SET_ERROR req Errors.ErrorOpeningFile)
          | ErrorReadingFromFile => Some (SET_ERROR req Errors.ErrorReadingFile)
          | _ => None
          end).

(** [while (count(candidate_id = rand() % INT32_MAX));] over the results of [rand()] the
    world will produce; running out of them is a loop that has not ended. *)
Fixpoint candidate_loop (fuel : nat) : P Z :=
  match fuel with
  | O => diverge
  | S fuel =>
      let! r := syscall w_next_rand in
      match r with
      | None => diverge
      | Some r =>
          let candidate_id := Z.rem r INT32_MAX in
          let! taken := is_active candidate_id in
          if taken : bool then candidate_loop fuel else Ret candidate_id
      end
  end.

Definition pick_candidate : P Z :=
  let! fuel := reads (λ s, length (w_rand (backend_world s))) in
  candidate_loop (S fuel).

Definition NEW_TXN (req : RequestTuple) (in_progress : bool) : P Reply :=
  if rq_seq_num req =? 0 then
    lock m_member_mtx ;;;
    let! candidate_id := pick_candidate in
    let! failed := try_catch
      (let? _ := addNewTransaction candidate_id (rq_data req) in eret None)
      (λ e, match e with
            | ErrorAddingFileAttributes =>
                Some (let! r := SET_ERROR req Errors.ErrorCreatingTransaction in Ret (Some r))
            | _ => None
            end) in
    let! reply := match failed with
                  | Some r => Ret r
                  | None => SET_NEW_TXN candidate_id in_progress
                  end in
    unlock m_member_mtx ;;;
    Ret reply
  else SET_ERROR req Errors.InvalidSequenceNumber.

Definition WRITE (req : RequestTuple) (in_progress : bool) : P Reply :=
  let txn_id := rq_txn_id req in
  let seq_num := rq_seq_num req in
  lock m_member_mtx ;;;
  let! error := RETURN_ERROR_IF_COMMITTED_OR_INVALID_ID txn_id in
  match error with
  | Some e => let! r := SET_ERROR req e in unlock m_member_mtx ;;; Ret r
  | None =>
      let! txn := find_txn txn_id in
      unlock m_member_mtx ;;;
      lock (txn_mtx txn) ;;;
      lock m_member_mtx ;;;
      let! error := RETURN_ERROR_IF_COMMITTED_OR_ABORTED txn_id in
      match error with
      | Some e =>
          let! r := SET_ERROR req e in
          unlock (txn_mtx txn) ;;; unlock m_member_mtx ;;; Ret r
      | None =>
          unlock m_member_mtx ;;;
          updateTransactionTimestamp txn ;;;
          let! repeated := txn_get txn (λ t, bool_decide (is_Some (buffers t !! seq_num))) in
          let! r :=
            if repeated : bool then SET_ERROR req Errors.RepeatedSequenceNumber
            else
              let! max := txn_get txn max_seq_num in
              (if max <? seq_num then txn_set txn (with_max_seq_num seq_num) else Ret tt) ;;;
              txn_set txn (with_buffer seq_num (rq_data req)) ;;;
              SET_ACK req in_progress in
          unlock (txn_mtx txn) ;;;
          Ret r
      end
  end.


(** The loop that verifies every sequence number was received: the first one missing.
    [fuel] is the number of buffers and one more, enough because every turn but the last
    finds a buffer of its own; incrementing INT32_MAX is undefined. *)
Fixpoint verify_loop (fuel : nat) (txn : positive) (seq_num : Z) : P (option Z) :=
  match fuel with
  | O => diverge
  | S fuel =>
      let! max := txn_get txn max_seq_num in
      if seq_num <=? max then
        let! received := txn_get txn (λ t, bool_decide (is_Some (buffers t !! seq_num))) in
        if received : bool then
          if seq_num =? INT32_MAX then Halt Undefined else verify_loop fuel txn (seq_num + 1)
        else Ret (Some seq_num)
      else Ret None
  end.

(** The loop that writes them: a missing key of [buffers.at] is an uncaught exception. *)
Fixpoint write_buffers (fuel : nat) (file : File) (txn : positive) (seq_num : Z) : EP unit :=
  match fuel with
  | O => diverge
  | S fuel =>
      let? max := lift (txn_get txn max_seq_num) in
      if seq_num <=? max then
        let? data := lift (txn_get txn (λ t, buffers t !! seq_num)) in
        match data with
        | None => Halt Uncaught
        | Some data =>
            let? _ := File_write file data in
            if seq_num =? INT32_MAX then Halt Undefined
            else write_buffers fuel file txn (seq_num + 1)
        end
      else eret tt
  end.

Definition loop_fuel (txn : positive) : P nat := txn_get txn (λ t, S (size (buffers t))).

(** COMMIT's [try] block, the file mutex held. *)
Definition commit_to_file (txn_id : Z) (txn sp : positive) : EP unit :=
  let! _ := lock (m_file_mtx sp) in
  let! file_name := file_get sp m_file_name in
  let! r :=
    with_File (m_directory ++ file_name) (Z.lor O_CREAT (Z.lor O_WRONLY O_APPEND)) (λ file,
      let? fuel := lift (loop_fuel txn) in
      let? _ := write_buffers fuel file txn (Constants.initial_seq_num + 1) in
      lift (
        modify (λ s, set_commits ({[ txn_id ]} ∪ m_commits s) s) ;;;
        logTransaction m_commit_log txn_id file_name ;;;
        let! size := File_getFileSize file in
        file_set sp (with_file_size size))) in
  let! _ := unlock (m_file_mtx sp) in
  Ret r.

Definition COMMIT (req : RequestTuple) (in_progress : bool) : P Reply :=
  let txn_id := rq_txn_id req in
  let seq_num := rq_seq_num req in
  lock m_member_mtx ;;;
  let! committed := is_committed txn_id in
  if committed : bool then
    let! r := SET_ACK req in_progress in unlock m_member_mtx ;;; Ret r
  else
    let! active := is_active txn_id in
    if negb active then
      let! r := SET_ERROR req Errors.InvalidTransactionId in unlock m_member_mtx ;;; Ret r
    else
      let! txn := find_txn txn_id in
      unlock m_member_mtx ;;;
      lock (txn_mtx txn) ;;;
      lock m_member_mtx ;;;
      let! error := RETURN_ERROR_IF_COMMITTED_OR_ABORTED txn_id in
      match error with
      | Some e =>
          let! r := SET_ERROR req e in
          unlock (txn_mtx txn) ;;; unlock m_member_mtx ;;; Ret r
      | None =>
          unlock m_member_mtx ;;;
          updateTransactionTimestamp txn ;;;
          let! max := txn_get txn max_seq_num in
          if seq_num <? max then
            let! r := SET_ERROR req Errors.CommitWithInvalidSequenceNumber in
            unlock (txn_mtx txn) ;;; Ret r
          else
            txn_set txn (with_max_seq_num seq_num) ;;;
            let! sp := txn_get txn sp_file_attributes in
            let! fuel := loop_fuel txn in
            let! missing := verify_loop fuel txn (Constants.initial_seq_num + 1) in
            match missing with
            | Some seq_num =>
                let! r := SET_ASK_RESEND req seq_num in_progress in
                unlock (txn_mtx txn) ;;; Ret r
            | None =>
                let! failed := try_catch
                  (let? _ := commit_to_file txn_id txn sp in eret None)
                  (λ e, match e with
                        | ErrorOpeningFile =>
                            Some (let! r := SET_ERROR req Errors.ErrorOpeningFile in Ret (Some r))
                        | ErrorWritingToFile =>
                            Some (
                              let! file_name := file_get sp m_file_name in
                              let! file_size := file_get sp m_file_size in
                              let! _ := syscall (w_truncate file_name file_size) in
                              let! r := SET_ERROR req Errors.ErrorWritingFile in Ret (Some r))
                        | _ => None
                        end) in
                match failed with
                | Some r => unlock (txn_mtx txn) ;;; Ret r
                | None =>
                    lock m_member_mtx ;;;
                    removeTransaction txn_id ;;;
                    let! r := SET_ACK req in_progress in
                    unlock (txn_mtx txn) ;;; unlock m_member_mtx ;;; Ret r
                end
            end
      end.

Definition ABORT (req : RequestTuple) (in_progress : bool) : P Reply :=
  let txn_id := rq_txn_id req in
  lock m_member_mtx ;;;
  let! error := RETURN_ERROR_IF_COMMITTED_OR_INVALID_ID txn_id in
  match error with
  | Some e => let! r := SET_ERROR req e in unlock m_member_mtx ;;; Ret r
  | None =>
      let! txn := find_txn txn_id in
      unlock m_member_mtx ;;;
      lock (txn_mtx txn) ;;;
      lock m_member_mtx ;;;
      let! error := RETURN_ERROR_IF_COMMITTED_OR_ABORTED txn_id in
      match error with
      | Some e =>
          let! r := SET_ERROR req e in
          unlock (txn_mtx txn) ;;; unlock m_member_mtx ;;; Ret r
      | None =>
          unlock (txn_mtx txn) ;;;
          let! sp := txn_get txn sp_file_attributes in
          let! file_name := file_get sp m_file_name in
          logTransaction m_abort_log txn_id file_name ;;;
          removeTransaction txn_id ;;;
          let! r := SET_ACK req false in
          unlock m_member_mtx ;;;
          Ret r
      end
  end.

(** [m_command_to_function] *)
Definition m_command_to_function (command : bytes) : option (RequestTuple → bool → P Reply) :=
  if decide (command = Constants.read_cmd) then Some READ
  else if decide (command = Constants.new_txn_cmd) then Some NEW_TXN
  else if decide (command = Constants.write_cmd) then Some WRITE
  else if decide (command = Constants.commit_cmd) then Some COMMIT
  else if decide (command = Constants.abort_cmd) then Some ABORT
  else None.

Definition processCommand (req : RequestTuple) (in_progress : bool) : P Reply :=
  match m_command_to_function (rq_command req) with
  | Some f => f req in_progress
  | None => SET_ERROR req Errors.InvalidCommand
  end.
End backend.
