(* ===== verification/Recovery.v ===== *)
(** * Starting up: replaying the logs, and serving a request

    [loadFilesAndTransactions], [truncateFiles], [initializeTransactions],
    [initializeFunctionsAndTransactions] and [processRequest] of server-backend.cpp. *)
From S2P Require Import Prelude Stdcxx Constants WireProtocol Messages Prog ReadWrite Posix File Backend.
From Stdlib Require Import ZArith Lia List Ascii String Bool.
From stdpp Require Import base gmap strings list fin_maps sorting.
#[local] Set Default Goal Selector "!".
Local Open Scope Z_scope.

(** An entry of a log: transaction id, file name and file size. *)
Record LogEntry := { le_txn_id : Z; le_file_name : bytes; le_file_size : Z }.

(** The maps [loadFilesAndTransactions] fills. *)
Record Loaded := {
  file_names_to_file_sizes : gmap bytes Z;
  txn_ids_to_file_names : gmap Z bytes
}.

(** [while (ss >> txn_id && ss >> file_name && ss >> file_size)] : the entries the loop
    body sees.  [fuel] is more than the length of the stream: a turn that succeeds
    consumes some of it. *)
Fixpoint log_entries (fuel : nat) (ss : istream) : list LogEntry :=
  match fuel with
  | O => []
  | S fuel =>
      let '(txn_id, ss) := extract_int INT32_MIN INT32_MAX ss 0 in
      if is_ok ss then
        let '(file_name, ss) := extract_string ss [] in
        if is_ok ss then
          let '(file_size, ss) := extract_int INT64_MIN INT64_MAX ss 0 in
          if is_ok ss then
            {| le_txn_id := txn_id; le_file_name := file_name; le_file_size := file_size |}
              :: log_entries fuel ss
          else []
        else []
      else []
  end.

Definition parse_log (contents : bytes) : list LogEntry :=
  log_entries (S (length contents)) (istringstream contents).

(** The loop body: the largest size of each file; a transaction id seen for the second
    time is a transaction that ended. *)
Definition load_entry (l : Loaded) (e : LogEntry) : Loaded :=
  {| file_names_to_file_sizes :=
       match file_names_to_file_sizes l !! le_file_name e with
       | None => <[le_file_name e := le_file_size e]> (file_names_to_file_sizes l)
       | Some size =>
           if size <? le_file_size e
           then <[le_file_name e := le_file_size e]> (file_names_to_file_sizes l)
           else file_names_to_file_sizes l
       end;
     txn_ids_to_file_names :=
       match txn_ids_to_file_names l !! le_txn_id e with
       | None => <[le_txn_id e := le_file_name e]> (txn_ids_to_file_names l)
       | Some _ => delete (le_txn_id e) (txn_ids_to_file_names l)
       end |}.

Definition load_log (l : Loaded) (contents : bytes) : Loaded :=
  foldl load_entry l (parse_log contents).

Definition nothing_loaded : Loaded :=
  {| file_names_to_file_sizes := ∅; txn_ids_to_file_names := ∅ |}.

Section recovery.
Context `{PathResolution} `{HashOrder}.
Context (m_directory : bytes).

Abbreviation P A := (prog ServerBackend A) (only parsing).
Abbreviation EP A := (eprog ServerBackend A) (only parsing).

(** [ss << log.rdbuf()] : the file read in chunks, up to its end or the first failure. *)
Fixpoint rdbuf (fuel : nat) (d : bytes) (contents : bytes) : P bytes :=
  match fuel with
  | O => Ret contents
  | S fuel =>
      let! chunk := syscall (w_read d (length contents) fuel) in
      match chunk with
      | Some (c :: chunk) => rdbuf fuel d (contents ++ c :: chunk)
      | _ => Ret contents
      end
  end.

(** One turn of the loop over the logs.  The log is named relative to the working
    directory.  A log that does not open is skipped; one that cannot be removed exits. *)
Definition load_log_file (l : Loaded) (log_file : bytes) : P Loaded :=
  let! log := syscall (w_open log_file O_RDONLY) in
  match log with
  | None => Ret l
  | Some d =>
      let! size := syscall_reads (λ w, length (default [] (w_fs w !! d))) in
      let! contents := rdbuf (S size) d [] in
      let! removed := syscall (w_remove log_file) in
      if removed : bool then Ret (load_log l contents) else Halt ExitFailure
  end.

Fixpoint load_logs (l : Loaded) (logs : list bytes) : P Loaded :=
  match logs with
  | [] => Ret l
  | log_file :: logs => let! l := load_log_file l log_file in load_logs l logs
  end.

Definition m_logs : list bytes := [m_transaction_log; m_timeout_log; m_commit_log; m_abort_log].

(** [loadFilesAndTransactions] *)
Definition loadFilesAndTransactions : P Loaded := load_logs nothing_loaded m_logs.

(** [truncateFiles], over the files in the order they are visited. *)
Fixpoint truncateFiles (in_file_names_to_file_sizes : list (bytes * Z)) : P unit :=
  match in_file_names_to_file_sizes with
  | [] => Ret tt
  | (file_name, file_size) :: rest =>
      let! exists_ := fileExists file_name in
      (if exists_ : bool then
         if 0 <? file_size then
           let! ok := syscall (w_truncate file_name file_size) in
           if ok : bool then Ret tt else Halt ExitFailure
         else
           let! ok := syscall (w_remove file_name) in
           if ok : bool then Ret tt else Halt ExitFailure
       else Ret tt) ;;;
      truncateFiles rest
  end.

(** [initializeTransactions] *)
Definition initializeTransactions : EP unit :=
  let? l := lift loadFilesAndTransactions in
  let? _ := lift (truncateFiles (iterate (file_names_to_file_sizes l))) in
  for_each (λ '(txn_id, file_name), addNewTransaction m_directory txn_id file_name)
    (iterate (txn_ids_to_file_names l)).

(** [initializeFunctionsAndTransactions] : double-checked under the member mutex. *)
Definition initializeFunctionsAndTransactions : P unit :=
  let! initialize := reads m_initialize in
  if initialize : bool then
    lock m_member_mtx ;;;
    let! initialize := reads m_initialize in
    (if initialize : bool then
       try_catch initializeTransactions (λ _, None) ;;;
       modify (set_initialize false)
     else Ret tt) ;;;
    unlock m_member_mtx
  else Ret tt.

(** [processRequest] *)
Definition processRequest (in_request_header in_request_payload : bytes) (in_progress : bool)
    : P Reply :=
  initializeFunctionsAndTransactions ;;;
  processCommand m_directory
    (getClientRequestAsTuple in_request_header (Some in_request_payload)) in_progress.
End recovery.
