(* ===== verification/BackendInv.v ===== *)
(** * The state invariant of the backend and its abstract view

    The server keeps its transactions as nodes behind references and its file attributes
    behind reference-counted pointers.  [backend_ok] is what ties these together: every id
    has its own live node, every node a live file object, every live file object is the one
    its name maps to, and its use count is the number of transactions that hold it.  Under
    it the whole heap denotes a finite map from transaction ids to transactions ([abs]),
    and every change the commands make to the heap is a change of that map. *)
From S2P Require Import Prelude Stdcxx Constants Messages Prog Posix File Backend.
From Stdlib Require Import ZArith Lia List Ascii String Bool.
From stdpp Require Import base gmap strings list fin_maps sorting.
#[local] Set Default Goal Selector "!".
Local Open Scope Z_scope.

(** ** The abstract view *)

Record Txn := { t_file : bytes; t_buffers : gmap Z bytes; t_max_seq_num : Z; t_timestamp : Z }.

Record Spec := {
  active : gmap Z Txn;             (* the transactions in progress *)
  committed : gset Z;              (* the ids committed since the server started *)
  sizes : gmap bytes Z             (* the recorded size of each file with a transaction *)
}.

Definition txn_of (t : TransactionAttributes) (f : FileAttributes) : Txn :=
  {| t_file := m_file_name f; t_buffers := buffers t;
     t_max_seq_num := max_seq_num t; t_timestamp := curr_timestamp t |}.

Definition abs_txn (s : ServerBackend) (a : positive) : option Txn :=
  t ← txn_nodes s !! a; f ← file_nodes s !! sp_file_attributes t; Some (txn_of t f).

Definition abs (s : ServerBackend) : Spec :=
  {| active := omap (abs_txn s) (m_txn_id_to_transaction_attributes s);
     committed := m_commits s;
     sizes := omap (λ p, m_file_size <$> file_nodes s !! p)
                (m_file_name_to_ptr_to_file_attributes s) |}.

(** ** The invariant *)

(** The transactions that hold the file object at [p]. *)
Definition holders (nodes : gmap positive TransactionAttributes) (p : positive) : nat :=
  size (filter (λ kv, sp_file_attributes kv.2 = p) nodes).

(** What holds of the data of a transaction: buffers are C strings, and the largest
    sequence number received bounds their keys. *)
Record txn_ok (t : TransactionAttributes) : Prop := {
  txn_max : 1 ≤ max_seq_num t ≤ INT32_MAX;
  txn_buffer k d : buffers t !! k = Some d → k ≤ max_seq_num t ∧ nul_free d = true
}.

(** Inside a critical section a shared pointer may be on its way into a transaction or out
    of it: [extra] is the object it points to. *)
Definition pending (extra : option positive) (p : positive) : nat :=
  if decide (extra = Some p) then 1 else 0.

Record ok_but (extra : option positive) (s : ServerBackend) : Prop := {
  ok_txn id a : m_txn_id_to_transaction_attributes s !! id = Some a → is_Some (txn_nodes s !! a);
  ok_node a t : txn_nodes s !! a = Some t →
    ∃ id, m_txn_id_to_transaction_attributes s !! id = Some a;
  ok_inj id id' a : m_txn_id_to_transaction_attributes s !! id = Some a →
    m_txn_id_to_transaction_attributes s !! id' = Some a → id = id';
  ok_txn_addr a : is_Some (txn_nodes s !! a) → (a < next_address s)%positive;
  ok_file_addr p : is_Some (file_nodes s !! p) → (p < next_address s)%positive;
  ok_sp a t : txn_nodes s !! a = Some t → is_Some (file_nodes s !! sp_file_attributes t);
  ok_ptr name p : m_file_name_to_ptr_to_file_attributes s !! name = Some p ↔
    ∃ f, file_nodes s !! p = Some f ∧ m_file_name f = name;
  ok_count_but p f : file_nodes s !! p = Some f →
    use_count f = (pending extra p + holders (txn_nodes s) p)%nat ∧ (0 < use_count f)%nat;
  ok_name p f : file_nodes s !! p = Some f → nul_free (m_file_name f) = true;
  ok_data a t : txn_nodes s !! a = Some t → txn_ok t
}.

Arguments ok_txn {extra} s.
Arguments ok_node {extra} s.
Arguments ok_inj {extra} s.
Arguments ok_txn_addr {extra} s.
Arguments ok_file_addr {extra} s.
Arguments ok_sp {extra} s.
Arguments ok_ptr {extra} s.
Arguments ok_count_but {extra} s.
Arguments ok_name {extra} s.
Arguments ok_data {extra} s.

(** Outside the critical sections no pointer is on its way. *)
Abbreviation backend_ok := (ok_but None).

Lemma ok_count s (Hok : backend_ok s) p f :
  file_nodes s !! p = Some f → use_count f = holders (txn_nodes s) p ∧ (0 < use_count f)%nat.
Proof. exact (ok_count_but s Hok p f). Qed.

(** ** Counting holders *)

Section holders.
Implicit Types nodes : gmap positive TransactionAttributes.

Lemma holders_insert nodes a t p :
  nodes !! a = None →
  holders (<[a := t]> nodes) p =
    ((if decide (sp_file_attributes t = p) then 1 else 0) + holders nodes p)%nat.
Proof.
  intros Ha. unfold holders. case_decide as E.
  - rewrite map_filter_insert_True by done. rewrite map_size_insert_None; [done|].
    apply map_lookup_filter_None_2. by left.
  - rewrite map_filter_insert_not' by (try done; intros y Hy; congruence). done.
Qed.

Lemma holders_delete nodes a t p :
  nodes !! a = Some t →
  holders nodes p =
    ((if decide (sp_file_attributes t = p) then 1 else 0) + holders (delete a nodes) p)%nat.
Proof.
  intros Ha. rewrite <- (insert_delete_id nodes a t) at 1 by done.
  by rewrite holders_insert by apply lookup_delete_eq.
Qed.

Lemma holders_update nodes a t t' p :
  nodes !! a = Some t → sp_file_attributes t' = sp_file_attributes t →
  holders (<[a := t']> nodes) p = holders nodes p.
Proof.
  intros Ha E. rewrite (holders_delete nodes a t) by done.
  rewrite <- insert_delete_eq, holders_insert, E by apply lookup_delete_eq. done.
Qed.

Lemma holders_none nodes p :
  holders nodes p = 0%nat ↔ ∀ a t, nodes !! a = Some t → sp_file_attributes t ≠ p.
Proof.
  unfold holders. rewrite map_size_empty_iff, map_empty_filter. split; intros Hn a t Ha.
  - by apply (Hn a t).
  - simpl. by apply (Hn a t).
Qed.

End holders.

(** ** The changes commands make *)

Section changes.
Implicit Types s : ServerBackend.

Definition put_txn (a : positive) (t : TransactionAttributes) s : ServerBackend :=
  set_txn_nodes (<[a := t]> (txn_nodes s)) s.

Definition put_file (p : positive) (f : FileAttributes) s : ServerBackend :=
  set_file_nodes (<[p := f]> (file_nodes s)) s.

(** [release_file_attributes] on an object that is alive. *)
Definition released (p : positive) (f : FileAttributes) s : ServerBackend :=
  if decide (use_count f ≤ 1)%nat then
    set_file_ptrs (delete (m_file_name f) (m_file_name_to_ptr_to_file_attributes s))
      (set_file_nodes (delete p (file_nodes s)) s)
  else put_file p (with_use_count (use_count f - 1) f) s.

(** Erasing the node of an id. *)
Definition unlinked (id : Z) (a : positive) s : ServerBackend :=
  set_txns (delete id (m_txn_id_to_transaction_attributes s))
    (set_txn_nodes (delete a (txn_nodes s)) s).

(** [removeTransaction] on an id that has a node. *)
Definition removed (id : Z) (a : positive) (t : TransactionAttributes) (f : FileAttributes) s :=
  released (sp_file_attributes t) f (unlinked id a s).

(** A new node for an id that has none. *)
Definition emplaced (id : Z) (t : TransactionAttributes) s : ServerBackend :=
  set_next_address (Pos.succ (next_address s))
    (set_txns (<[id := next_address s]> (m_txn_id_to_transaction_attributes s))
      (set_txn_nodes (<[next_address s := t]> (txn_nodes s)) s)).

(** A new file object for a name that has none. *)
Definition new_file (name : bytes) (size : Z) s : ServerBackend :=
  set_next_address (Pos.succ (next_address s))
    (set_file_ptrs (<[name := next_address s]> (m_file_name_to_ptr_to_file_attributes s))
      (put_file (next_address s) {| m_file_name := name; m_file_size := size; use_count := 1 |} s)).

(** The state of a new server. *)
Lemma new_backend_ok w : backend_ok (new_backend w).
Proof.
  split; simpl; try (intros *; rewrite lookup_empty; by intros []); try by intros *; rewrite lookup_empty.
  intros name p. rewrite !lookup_empty. split; [done|]. by intros (f & [=] & _).
Qed.

(** A transaction the invariant holds of, and everything it reaches. *)
Lemma ok_lookup s id a :
  backend_ok s → m_txn_id_to_transaction_attributes s !! id = Some a →
  ∃ t f, txn_nodes s !! a = Some t ∧ file_nodes s !! sp_file_attributes t = Some f ∧
    active (abs s) !! id = Some (txn_of t f) ∧ txn_ok t ∧ nul_free (m_file_name f) = true.
Proof.
  intros Hok Hid. destruct (ok_txn _ Hok _ _ Hid) as [t Ht].
  destruct (ok_sp _ Hok _ _ Ht) as [f Hf]. exists t, f. repeat split; [done|done|..].
  - simpl. rewrite lookup_omap, Hid. simpl. unfold abs_txn. by rewrite Ht; simpl; rewrite Hf.
  - by apply (txn_max t), (ok_data _ Hok a).
  - by apply (txn_max t), (ok_data _ Hok a).
  - by apply (txn_buffer t (ok_data _ Hok a t Ht) k d).
  - by apply (txn_buffer t (ok_data _ Hok a t Ht) k d).
  - by apply (ok_name _ Hok (sp_file_attributes t)).
Qed.

Lemma ok_active s id :
  backend_ok s →
  is_Some (m_txn_id_to_transaction_attributes s !! id) ↔ is_Some (active (abs s) !! id).
Proof.
  intros Hok. split.
  - intros [a Ha]. by destruct (ok_lookup _ _ _ Hok Ha) as (t & f & _ & _ & -> & _).
  - simpl. rewrite lookup_omap. destruct (m_txn_id_to_transaction_attributes s !! id); [by eexists|].
    by intros [].
Qed.

(** What holds of the transactions of the abstract view. *)
Lemma active_txn_ok s id t :
  backend_ok s → active (abs s) !! id = Some t →
  1 ≤ t_max_seq_num t ≤ INT32_MAX ∧
  ∀ k d, t_buffers t !! k = Some d → k ≤ t_max_seq_num t ∧ nul_free d = true.
Proof.
  intros Hok Hact. simpl in Hact. rewrite lookup_omap in Hact.
  destruct (m_txn_id_to_transaction_attributes s !! id) as [a|] eqn:Hid; [|done]. simpl in Hact.
  destruct (ok_lookup _ _ _ Hok Hid) as (t0 & f & Ht & Hf & Hact' & [Hm Hb] & _).
  simpl in Hact'. rewrite lookup_omap, Hid in Hact'. simpl in Hact'. by simplify_eq.
Qed.

(** The parts of the state the invariant does not speak of. *)
Lemma ok_frame {extra} s s' :
  m_txn_id_to_transaction_attributes s' = m_txn_id_to_transaction_attributes s →
  txn_nodes s' = txn_nodes s →
  m_file_name_to_ptr_to_file_attributes s' = m_file_name_to_ptr_to_file_attributes s →
  file_nodes s' = file_nodes s → next_address s' = next_address s →
  ok_but extra s → ok_but extra s'.
Proof.
  intros E1 E2 E3 E4 E5 []. split; by rewrite ?E1, ?E2, ?E3, ?E4, ?E5.
Qed.

Lemma ok_same_but_files s s' : same_but_files s s' → backend_ok s → backend_ok s'.
Proof. intros ([w ->] & _). by apply ok_frame. Qed.

Lemma abs_same_but_files s s' : same_but_files s s' → abs s' = abs s.
Proof. by intros ([w ->] & _). Qed.
End changes.

Section preservation.
Implicit Types s : ServerBackend.

Lemma pending_eq p : pending (Some p) p = 1%nat.
Proof. unfold pending. by rewrite decide_True. Qed.

Lemma pending_ne p q : p ≠ q → pending (Some p) q = 0%nat.
Proof. intros Hne. unfold pending. by rewrite decide_False by congruence. Qed.

Lemma pending_if p q : pending (Some p) q = if decide (p = q) then 1%nat else 0%nat.
Proof. case_decide as E; [by rewrite E, pending_eq|by apply pending_ne]. Qed.

(** The addresses to come are free. *)
Lemma ok_fresh {extra} s a :
  ok_but extra s → (next_address s ≤ a)%positive → txn_nodes s !! a = None ∧ file_nodes s !! a = None.
Proof.
  intros Hok Ha. split; apply eq_None_not_Some.
  - intros Hs%(ok_txn_addr _ Hok). lia.
  - intros Hs%(ok_file_addr _ Hok). lia.
Qed.

(** The name of a live object leads to it. *)
Lemma ok_named {extra} s p f :
  ok_but extra s → file_nodes s !! p = Some f →
  m_file_name_to_ptr_to_file_attributes s !! m_file_name f = Some p.
Proof. intros Hok Hf. apply (ok_ptr _ Hok). by exists f. Qed.

Lemma ok_put_txn {extra} s a t t' :
  ok_but extra s → txn_nodes s !! a = Some t →
  sp_file_attributes t' = sp_file_attributes t → txn_ok t' →
  ok_but extra (put_txn a t' s).
Proof.
  intros Hok Ha Hsp Ht'. pose proof Hok as [H1 H2 H3 H4 H5 H6 H7 H8 H9 H10].
  split; simpl; try done.
  - intros id b Hb. apply lookup_insert_is_Some'. right. by eapply H1.
  - intros b t0 [[<- <-]|[Hne Hb]]%lookup_insert_Some; eauto.
  - intros b [<-|Hb]%lookup_insert_is_Some'; eauto.
  - intros b t0 [[<- <-]|[Hne Hb]]%lookup_insert_Some; [|eauto]. rewrite Hsp. eauto.
  - intros p f Hp. rewrite (holders_update _ _ t) by done. eauto.
  - intros b t0 [[<- <-]|[Hne Hb]]%lookup_insert_Some; eauto.
Qed.

(** A change of a file object: the count goes with the pointer on its way. *)
Lemma ok_put_counted extra extra' s p f f' :
  ok_but extra s → file_nodes s !! p = Some f → m_file_name f' = m_file_name f →
  use_count f' = (pending extra' p + holders (txn_nodes s) p)%nat → (0 < use_count f')%nat →
  (∀ q, q ≠ p → pending extra' q = pending extra q) →
  ok_but extra' (put_file p f' s).
Proof.
  intros Hok Hp Hn Hc Hpos He. pose proof Hok as [H1 H2 H3 H4 H5 H6 H7 H8 H9 H10].
  split; simpl; try done.
  - intros q [<-|Hq]%lookup_insert_is_Some'; eauto.
  - intros a t Ht. apply lookup_insert_is_Some'. eauto.
  - intros name q. rewrite H7. split; intros (f0 & Hq & <-).
    + destruct (decide (p = q)) as [<-|Hne].
      * exists f'. rewrite lookup_insert_eq. split; [done|]. by simplify_eq.
      * exists f0. by rewrite lookup_insert_ne.
    + apply lookup_insert_Some in Hq as [[<- <-]|[Hne Hq]]; eauto.
  - intros q f0 [[<- <-]|[Hne Hq]]%lookup_insert_Some; [done|]. rewrite He by done. eauto.
  - intros q f0 [[<- <-]|[Hne Hq]]%lookup_insert_Some; [|eauto]. rewrite Hn. eauto.
Qed.

Lemma ok_put_file {extra} s p f f' :
  ok_but extra s → file_nodes s !! p = Some f → m_file_name f' = m_file_name f →
  use_count f' = use_count f → ok_but extra (put_file p f' s).
Proof.
  intros Hok Hp Hn Hc. destruct (ok_count_but _ Hok _ _ Hp).
  apply (ok_put_counted extra extra s p f); rewrite ?Hc; done.
Qed.

(** A copy of a pointer to a live object. *)
Lemma ok_shared s p f :
  backend_ok s → file_nodes s !! p = Some f →
  ok_but (Some p) (put_file p (with_use_count (S (use_count f)) f) s).
Proof.
  intros Hok Hp. destruct (ok_count _ Hok _ _ Hp) as [Hc _].
  apply (ok_put_counted None (Some p) s p f); [done..| |simpl; lia|].
  - rewrite pending_eq. simpl. by rewrite Hc.
  - intros q Hne. by apply pending_ne.
Qed.

(** A new object, on its way into the first transaction on its name. *)
Lemma ok_new_file s name size :
  backend_ok s → m_file_name_to_ptr_to_file_attributes s !! name = None → nul_free name = true →
  ok_but (Some (next_address s)) (new_file name size s).
Proof.
  intros Hok Hname Hnul. destruct (ok_fresh _ (next_address s) Hok) as [_ Hffresh]; [lia|].
  pose proof Hok as [H1 H2 H3 H4 H5 H6 H7 _ H9 H10]. pose proof (ok_count _ Hok) as H8.
  split; simpl; try done.
  - intros a Ha. apply H4 in Ha. lia.
  - intros p [<-|Hp]%lookup_insert_is_Some'; [lia|]. apply H5 in Hp. lia.
  - intros a t0 Ha. apply lookup_insert_is_Some'. eauto.
  - intros n p. split.
    + intros [[<- <-]|[Hne Hp]]%lookup_insert_Some; [eexists; by rewrite lookup_insert_eq|].
      apply H7 in Hp as (f & Hp & <-). exists f. rewrite lookup_insert_ne; [done|congruence].
    + intros (f & [[<- <-]|[Hne Hp]]%lookup_insert_Some & <-); simpl; [apply lookup_insert_eq|].
      pose proof (ok_named _ _ _ Hok Hp). rewrite lookup_insert_ne; [done|congruence].
  - intros p f [[<- <-]|[Hne Hp]]%lookup_insert_Some.
    + rewrite pending_eq, (proj2 (holders_none _ _)); [simpl; lia|].
      intros a t0 Ha E. apply H6 in Ha as [? Hx]. congruence.
    + rewrite pending_ne by done. eauto.
  - intros p f [[<- <-]|[Hne Hp]]%lookup_insert_Some; eauto.
Qed.

(** The pointer arrives in a new transaction. *)
Lemma ok_emplaced s id p t :
  ok_but (Some p) s → m_txn_id_to_transaction_attributes s !! id = None →
  is_Some (file_nodes s !! p) → sp_file_attributes t = p → txn_ok t →
  backend_ok (emplaced id t s).
Proof.
  intros Hok Hid Hp Hsp Ht. destruct (ok_fresh _ (next_address s) Hok) as [Hfresh _]; [lia|].
  pose proof Hok as [H1 H2 H3 H4 H5 H6 H7 H8 H9 H10].
  split; simpl; try done.
  - intros i a [[<- <-]|[Hne Ha]]%lookup_insert_Some; apply lookup_insert_is_Some'; eauto.
  - intros a t0 [[<- <-]|[Hne Ha]]%lookup_insert_Some; [exists id; apply lookup_insert_eq|].
    destruct (H2 _ _ Ha) as [i Hi]. exists i. rewrite lookup_insert_ne; [done|congruence].
  - intros i i' a [[<- <-]|[Hne Ha]]%lookup_insert_Some [[<- Ea]|[Hne' Ha']]%lookup_insert_Some;
      [done|..|eauto]; exfalso.
    + apply H1 in Ha' as [? Hx]. congruence.
    + apply H1 in Ha as [? Hx]. congruence.
  - intros a [<-|Ha]%lookup_insert_is_Some'; [lia|]. apply H4 in Ha. lia.
  - intros q Hq%H5. lia.
  - intros a t0 [[<- <-]|[Hne Ha]]%lookup_insert_Some; [by rewrite Hsp|eauto].
  - intros q f Hq. rewrite holders_insert by done. destruct (H8 _ _ Hq) as [-> Hpos].
    split; [|done]. rewrite pending_if, Hsp. done.
  - intros a t0 [[<- <-]|[Hne Ha]]%lookup_insert_Some; eauto.
Qed.

(** The pointer leaves with the node that is erased. *)
Lemma ok_unlinked s id a t :
  backend_ok s → m_txn_id_to_transaction_attributes s !! id = Some a → txn_nodes s !! a = Some t →
  ok_but (Some (sp_file_attributes t)) (unlinked id a s).
Proof.
  intros Hok Hid Ha. pose proof Hok as [H1 H2 H3 H4 H5 H6 H7 _ H9 H10].
  split; simpl; try done.
  - intros i b [Hne Hb]%lookup_delete_Some. apply lookup_delete_is_Some.
    split; [|by eapply H1]. intros ->. apply Hne. by eapply H3.
  - intros b t0 [Hne Hb]%lookup_delete_Some. destruct (H2 _ _ Hb) as [i Hi]. exists i.
    rewrite lookup_delete_ne; [done|]. intros ->. simplify_eq.
  - intros i i' b [_ ?]%lookup_delete_Some [_ ?]%lookup_delete_Some. by eapply H3.
  - intros b [_ Hb]%lookup_delete_is_Some. eauto.
  - intros b t0 [_ Hb]%lookup_delete_Some. eauto.
  - intros p f Hp. destruct (ok_count _ Hok _ _ Hp) as [-> ?]. split; [|done].
    by rewrite (holders_delete _ a t), pending_if.
  - intros b t0 [_ Hb]%lookup_delete_Some. eauto.
Qed.

(** The pointer is destroyed: the object goes with its last one. *)
Lemma ok_released s p f :
  ok_but (Some p) s → file_nodes s !! p = Some f → backend_ok (released p f s).
Proof.
  intros Hok Hp. destruct (ok_count_but _ Hok _ _ Hp) as [Hc Hpos]. rewrite pending_eq in Hc.
  unfold released. case_decide as Hu.
  - pose proof Hok as [H1 H2 H3 H4 H5 H6 H7 H8 H9 H10]. split; simpl; try done.
    + intros q [_ Hq]%lookup_delete_is_Some. eauto.
    + intros b t0 Hb. apply lookup_delete_is_Some. split; [|by eapply H6]. intros E.
      assert (E0 : holders (txn_nodes s) p = 0%nat) by lia.
      by apply (proj1 (holders_none _ _) E0 b t0 Hb).
    + intros n q. rewrite lookup_delete_Some, H7. split.
      * intros (Hne & f0 & Hq & <-). exists f0. rewrite lookup_delete_ne; [done|]. intros <-. simplify_eq.
      * intros (f0 & [Hne Hq]%lookup_delete_Some & <-). split; [|eauto]. intros E.
        pose proof (ok_named _ _ _ Hok Hp) as Hx. pose proof (ok_named _ _ _ Hok Hq). congruence.
    + intros q f0 [Hne Hq]%lookup_delete_Some. destruct (H8 _ _ Hq) as [Hc' ?].
      rewrite pending_ne in Hc' by done. done.
    + intros q f0 [_ Hq]%lookup_delete_Some. eauto.
  - apply (ok_put_counted (Some p) None s p f); [done..|simpl; rewrite Hc; simpl; lia|simpl; lia|].
    intros q Hne. by rewrite pending_ne.
Qed.

(** A transaction on a file nobody works on yet. *)
Lemma ok_add_new s id name size t :
  backend_ok s → m_txn_id_to_transaction_attributes s !! id = None →
  m_file_name_to_ptr_to_file_attributes s !! name = None → nul_free name = true →
  sp_file_attributes t = next_address s → txn_ok t →
  backend_ok (emplaced id t (new_file name size s)).
Proof.
  intros Hok Hid Hname Hnul Hsp Ht. apply ok_emplaced with (next_address s); [by apply ok_new_file|done| |done..].
  simpl. rewrite lookup_insert_eq. by eexists.
Qed.

(** A transaction on a file that has an object, whose count has been incremented. *)
Lemma ok_add_shared s id p f t :
  backend_ok s → m_txn_id_to_transaction_attributes s !! id = None →
  file_nodes s !! p = Some f → sp_file_attributes t = p → txn_ok t →
  backend_ok (emplaced id t (put_file p (with_use_count (S (use_count f)) f) s)).
Proof.
  intros Hok Hid Hp Hsp Ht. apply ok_emplaced with p; [by apply ok_shared|done| |done..].
  simpl. rewrite lookup_insert_eq. by eexists.
Qed.

(** Removing a transaction. *)
Lemma ok_removed s id a t f :
  backend_ok s → m_txn_id_to_transaction_attributes s !! id = Some a →
  txn_nodes s !! a = Some t → file_nodes s !! sp_file_attributes t = Some f →
  backend_ok (removed id a t f s).
Proof. intros Hok Hid Ha Hf. apply ok_released; [by apply ok_unlinked|done]. Qed.
End preservation.

(** ** What the changes mean *)

Definition set_active (m : gmap Z Txn) (sp : Spec) : Spec :=
  {| active := m; committed := committed sp; sizes := sizes sp |}.

(** Adding a transaction: its file keeps its recorded size if it has one. *)
Definition spec_add (id : Z) (name : bytes) (size now : Z) (sp : Spec) : Spec :=
  {| active := <[id := {| t_file := name; t_buffers := ∅;
                          t_max_seq_num := Constants.initial_seq_num + 1;
                          t_timestamp := now |}]> (active sp);
     committed := committed sp;
     sizes := match sizes sp !! name with
              | Some _ => sizes sp
              | None => <[name := size]> (sizes sp)
              end |}.

(** Removing one: a file no other transaction works on is forgotten. *)
Definition spec_remove (id : Z) (sp : Spec) : Spec :=
  {| active := delete id (active sp);
     committed := committed sp;
     sizes := match active sp !! id with
              | Some t =>
                  if decide (map_Exists (λ _ t', t_file t' = t_file t) (delete id (active sp)))
                  then sizes sp else delete (t_file t) (sizes sp)
              | None => sizes sp
              end |}.

Lemma spec_eq sp sp' :
  active sp = active sp' → committed sp = committed sp' → sizes sp = sizes sp' → sp = sp'.
Proof. destruct sp, sp'. simpl. by intros -> -> ->. Qed.

Section meaning.
Implicit Types s : ServerBackend.

Lemma abs_txn_eq s a t f :
  txn_nodes s !! a = Some t → file_nodes s !! sp_file_attributes t = Some f →
  abs_txn s a = Some (txn_of t f).
Proof. intros Ha Hf. unfold abs_txn. rewrite Ha. simpl. by rewrite Hf. Qed.

(** A file name has a size exactly when it has an object. *)
Lemma sizes_lookup s name :
  backend_ok s →
  sizes (abs s) !! name =
    (p ← m_file_name_to_ptr_to_file_attributes s !! name; m_file_size <$> file_nodes s !! p).
Proof. intros _. simpl. by rewrite lookup_omap. Qed.

Lemma sizes_file s p f :
  backend_ok s → file_nodes s !! p = Some f → sizes (abs s) !! m_file_name f = Some (m_file_size f).
Proof.
  intros Hok Hp. rewrite sizes_lookup by done.
  rewrite (proj2 (ok_ptr _ Hok (m_file_name f) p)) by eauto. simpl. by rewrite Hp.
Qed.

Lemma sizes_none s name :
  backend_ok s →
  sizes (abs s) !! name = None ↔ m_file_name_to_ptr_to_file_attributes s !! name = None.
Proof.
  intros Hok. rewrite sizes_lookup by done.
  destruct (m_file_name_to_ptr_to_file_attributes s !! name) as [p|] eqn:E; simpl; [|done].
  apply (ok_ptr _ Hok) in E as (f & -> & _). done.
Qed.

Lemma abs_put_txn s id a t t' f :
  backend_ok s → m_txn_id_to_transaction_attributes s !! id = Some a →
  txn_nodes s !! a = Some t → file_nodes s !! sp_file_attributes t = Some f →
  sp_file_attributes t' = sp_file_attributes t →
  abs (put_txn a t' s) = set_active (<[id := txn_of t' f]> (active (abs s))) (abs s).
Proof.
  intros Hok Hid Ha Hf Hsp. apply spec_eq; [|done..]. simpl. apply map_eq. intros i.
  rewrite lookup_omap. destruct (decide (i = id)) as [->|Hne].
  - rewrite lookup_insert_eq, Hid. simpl. apply abs_txn_eq; simpl; [apply lookup_insert_eq|].
    by rewrite Hsp.
  - rewrite lookup_insert_ne, lookup_omap by done.
    destruct (m_txn_id_to_transaction_attributes s !! i) as [b|] eqn:Hi; [|done]. simpl.
    unfold abs_txn. simpl. rewrite lookup_insert_ne; [done|]. intros <-.
    apply Hne. by eapply ok_inj.
Qed.

Lemma abs_put_file s p f f' :
  backend_ok s → file_nodes s !! p = Some f → m_file_name f' = m_file_name f →
  abs (put_file p f' s) =
    {| active := active (abs s); committed := committed (abs s);
       sizes := <[m_file_name f := m_file_size f']> (sizes (abs s)) |}.
Proof.
  intros Hok Hp Hn.
  assert (Hptr : m_file_name_to_ptr_to_file_attributes s !! m_file_name f = Some p)
    by (apply (ok_ptr _ Hok); eauto).
  apply spec_eq; simpl; [|done|].
  - apply map_eq. intros i. rewrite !lookup_omap.
    destruct (m_txn_id_to_transaction_attributes s !! i) as [a|]; [|done]. simpl.
    unfold abs_txn. simpl. destruct (txn_nodes s !! a) as [t|]; [|done]. simpl.
    destruct (decide (sp_file_attributes t = p)) as [->|Hne].
    + rewrite lookup_insert_eq, Hp. simpl. unfold txn_of. by rewrite Hn.
    + by rewrite lookup_insert_ne.
  - apply map_eq. intros n. rewrite lookup_omap.
    destruct (decide (n = m_file_name f)) as [->|Hne].
    + rewrite Hptr. simpl. by rewrite !lookup_insert_eq.
    + rewrite lookup_insert_ne, lookup_omap by done.
      destruct (m_file_name_to_ptr_to_file_attributes s !! n) as [q|] eqn:Hq; [|done]. simpl.
      rewrite lookup_insert_ne; [done|]. intros <-.
      apply (ok_ptr _ Hok) in Hq as (f0 & Hf0 & <-). congruence.
Qed.

Lemma abs_emplaced_active s id t f m :
  (∀ a, is_Some (txn_nodes s !! a) → (a < next_address s)%positive) →
  file_nodes s !! sp_file_attributes t = Some f →
  (∀ i a, m_txn_id_to_transaction_attributes s !! i = Some a → is_Some (txn_nodes s !! a)) →
  m = active (abs s) →
  active (abs (emplaced id t s)) = <[id := txn_of t f]> m.
Proof.
  intros Haddr Hf Hn ->. simpl. apply map_eq. intros i. rewrite lookup_omap.
  destruct (decide (i = id)) as [->|Hne].
  - rewrite !lookup_insert_eq. simpl. apply abs_txn_eq; simpl; [apply lookup_insert_eq|done].
  - rewrite !lookup_insert_ne, lookup_omap by done.
    destruct (m_txn_id_to_transaction_attributes s !! i) as [b|] eqn:Hi; [|done]. simpl.
    unfold abs_txn. simpl. rewrite lookup_insert_ne; [done|]. intros <-.
    apply Hn in Hi. apply Haddr in Hi. lia.
Qed.

Lemma abs_add_new s id name size now :
  backend_ok s → m_file_name_to_ptr_to_file_attributes s !! name = None →
  abs (emplaced id (getNewTransactionAttributes (next_address s) now) (new_file name size s)) =
    spec_add id name size now (abs s).
Proof.
  intros Hok Hname. pose proof (proj2 (sizes_none _ _ Hok) Hname) as Hsize.
  unfold spec_add. rewrite Hsize. apply spec_eq; [|done|].
  - rewrite (abs_emplaced_active _ _ _
      {| m_file_name := name; m_file_size := size; use_count := 1 |} (active (abs s))); [done|..].
    + intros a Ha%(ok_txn_addr _ Hok). simpl. lia.
    + simpl. apply lookup_insert_eq.
    + apply (ok_txn _ Hok).
    + simpl. apply map_eq. intros i. rewrite !lookup_omap.
      destruct (m_txn_id_to_transaction_attributes s !! i) as [a|] eqn:Hi; [|done]. simpl.
      destruct (ok_lookup _ _ _ Hok Hi) as (t & f & Ht & Hf & _).
      rewrite (abs_txn_eq _ _ _ _ Ht Hf). symmetry. apply abs_txn_eq; [done|]. simpl.
      rewrite lookup_insert_ne; [done|]. intros E.
      assert (Hlt : (sp_file_attributes t < next_address s)%positive) by (apply (ok_file_addr _ Hok); eauto). lia.
  - simpl. apply map_eq. intros n. rewrite lookup_omap. destruct (decide (n = name)) as [->|Hne].
    + rewrite !lookup_insert_eq. simpl. by rewrite lookup_insert_eq.
    + rewrite !lookup_insert_ne, lookup_omap by done.
      destruct (m_file_name_to_ptr_to_file_attributes s !! n) as [q|] eqn:Hq; [|done]. simpl.
      rewrite lookup_insert_ne; [done|]. intros <-.
      apply (ok_ptr _ Hok) in Hq as (f0 & Hf0 & _).
      assert (next_address s < next_address s)%positive by (apply (ok_file_addr _ Hok); eauto). lia.
Qed.

Lemma abs_add_shared s id p f size now :
  backend_ok s → file_nodes s !! p = Some f →
  abs (emplaced id (getNewTransactionAttributes p now)
         (put_file p (with_use_count (S (use_count f)) f) s)) =
    spec_add id (m_file_name f) size now (abs s).
Proof.
  intros Hok Hp.
  assert (Hptr : m_file_name_to_ptr_to_file_attributes s !! m_file_name f = Some p)
    by (apply (ok_ptr _ Hok); eauto).
  assert (Hsize : sizes (abs s) !! m_file_name f = Some (m_file_size f)).
  { rewrite sizes_lookup, Hptr by done. simpl. by rewrite Hp. }
  unfold spec_add. rewrite Hsize.
  pose proof (abs_put_file s p f (with_use_count (S (use_count f)) f) Hok Hp eq_refl) as E.
  apply spec_eq; [|done|].
  - rewrite (abs_emplaced_active _ _ _ (with_use_count (S (use_count f)) f) (active (abs s)));
      [done|..].
    + intros a Ha%(ok_txn_addr _ Hok). simpl. lia.
    + simpl. apply lookup_insert_eq.
    + apply (ok_txn _ Hok).
    + by rewrite E.
  - transitivity (sizes (abs (put_file p (with_use_count (S (use_count f)) f) s))); [done|].
    rewrite E. simpl. by apply insert_id.
Qed.

(** Whether another transaction works on the same file is what the use count says. *)
Lemma other_holders s id a t f :
  backend_ok s → m_txn_id_to_transaction_attributes s !! id = Some a →
  txn_nodes s !! a = Some t → file_nodes s !! sp_file_attributes t = Some f →
  map_Exists (λ _ t', t_file t' = m_file_name f) (delete id (active (abs s))) ↔
  (1 < use_count f)%nat.
Proof.
  intros Hok Hid Ha Hf. destruct (ok_count _ Hok _ _ Hf) as [-> _].
  rewrite (holders_delete _ a t), decide_True by done.
  trans (holders (delete a (txn_nodes s)) (sp_file_attributes t) ≠ 0%nat); [|lia].
  rewrite holders_none. split.
  - intros (i & t' & Hi & Hfile) Hno. apply lookup_delete_Some in Hi as [Hne Hi].
    simpl in Hi. rewrite lookup_omap in Hi.
    destruct (m_txn_id_to_transaction_attributes s !! i) as [b|] eqn:Hb; [|done]. simpl in Hi.
    destruct (ok_lookup _ _ _ Hok Hb) as (t0 & f0 & Ht0 & Hf0 & _).
    rewrite (abs_txn_eq _ _ _ _ Ht0 Hf0) in Hi. simplify_eq. simpl in Hfile.
    assert (a ≠ b) by (intros ->; apply Hne; by eapply (ok_inj _ Hok)).
    apply (Hno b t0); [by rewrite lookup_delete_ne|].
    assert (H1 : m_file_name_to_ptr_to_file_attributes s !! m_file_name f0 = Some (sp_file_attributes t0))
      by (apply (ok_ptr _ Hok); eauto).
    assert (H2 : m_file_name_to_ptr_to_file_attributes s !! m_file_name f = Some (sp_file_attributes t))
      by (apply (ok_ptr _ Hok); eauto). congruence.
  - intros Hex. apply dec_stable. intros Hno. apply Hex. intros b t0 Hb E.
    apply lookup_delete_Some in Hb as [Hne Hb]. destruct (ok_node _ Hok _ _ Hb) as [i Hi].
    apply Hno. exists i, (txn_of t0 f). split; [|done].
    rewrite lookup_delete_ne by congruence. simpl. rewrite lookup_omap, Hi. simpl.
    apply abs_txn_eq; [done|by rewrite E].
Qed.

(** Without the entry of [id] the active transactions are the others, whatever became of the
    file objects as long as theirs keep their names. *)
Lemma abs_unlinked s id a nodes :
  backend_ok s → m_txn_id_to_transaction_attributes s !! id = Some a →
  (∀ b t0, txn_nodes (unlinked id a s) !! b = Some t0 →
    m_file_name <$> nodes !! sp_file_attributes t0 = m_file_name <$> file_nodes s !! sp_file_attributes t0) →
  active (abs (set_file_nodes nodes (unlinked id a s))) = delete id (active (abs s)).
Proof.
  intros Hok Hid Hnodes. simpl. apply map_eq. intros i. rewrite lookup_omap.
  destruct (decide (i = id)) as [->|Hne]; [by rewrite !lookup_delete_eq|].
  rewrite !lookup_delete_ne, lookup_omap by done.
  destruct (m_txn_id_to_transaction_attributes s !! i) as [b|] eqn:Hi; [|done]. simpl.
  destruct (ok_lookup _ _ _ Hok Hi) as (t0 & f0 & Ht0 & Hf0 & _).
  rewrite (abs_txn_eq _ _ _ _ Ht0 Hf0). unfold abs_txn. simpl.
  assert (Hb : delete a (txn_nodes s) !! b = Some t0).
  { rewrite lookup_delete_ne; [done|]. intros ->. apply Hne. by eapply (ok_inj _ Hok). }
  rewrite Hb. simpl. specialize (Hnodes b t0 Hb). rewrite Hf0 in Hnodes. simpl in Hnodes.
  destruct (nodes !! sp_file_attributes t0) as [f1|] eqn:E1; [|done].
  simpl in Hnodes |- *. unfold txn_of. congruence.
Qed.

Lemma abs_removed s id a t f :
  backend_ok s → m_txn_id_to_transaction_attributes s !! id = Some a →
  txn_nodes s !! a = Some t → file_nodes s !! sp_file_attributes t = Some f →
  abs (removed id a t f s) = spec_remove id (abs s).
Proof.
  intros Hok Hid Ha Hf. pose proof (other_holders _ _ _ _ _ Hok Hid Ha Hf) as Hoth.
  destruct (ok_lookup _ _ _ Hok Hid) as (t' & f' & Ht' & Hf' & Hact & _). simplify_eq.
  unfold spec_remove. rewrite Hact. simpl t_file.
  assert (Hptr : m_file_name_to_ptr_to_file_attributes s !! m_file_name f = Some (sp_file_attributes t))
    by (apply (ok_ptr _ Hok); eauto).
  set (s1 := unlinked id a s). pose proof (λ nodes, abs_unlinked s id a nodes Hok Hid) as Eact. fold s1 in Eact.
  unfold removed, released. fold s1. case_decide as Hu.
  - rewrite decide_False by (rewrite Hoth; lia). apply spec_eq; [|done|].
    + change (active (abs (set_file_nodes (delete (sp_file_attributes t) (file_nodes s1)) s1)) =
        delete id (active (abs s))).
      apply Eact. intros b t0 Hb. apply (lookup_delete_Some (txn_nodes s)) in Hb as [Hne Hb].
      simpl. rewrite lookup_delete_ne; [done|].
      intros E. apply (proj1 (Nat.le_ngt _ _) Hu), Hoth.
      destruct (ok_node _ Hok _ _ Hb) as [i Hi].
      exists i, (txn_of t0 f). split; [|done]. rewrite lookup_delete_ne by congruence.
      simpl. rewrite lookup_omap, Hi. simpl. apply abs_txn_eq; [done|by rewrite <- E].
    + simpl. apply map_eq. intros n. rewrite lookup_omap.
      destruct (decide (n = m_file_name f)) as [->|Hne]; [by rewrite !lookup_delete_eq|].
      rewrite !lookup_delete_ne, lookup_omap by done.
      destruct (m_file_name_to_ptr_to_file_attributes s !! n) as [q|] eqn:Hq; [|done]. simpl.
      rewrite lookup_delete_ne; [done|]. intros <-.
      apply (ok_ptr _ Hok) in Hq as (f0 & Hf0 & <-). congruence.
  - rewrite decide_True by (rewrite Hoth; lia). apply spec_eq; [|done|].
    + change (active (abs (set_file_nodes
        (<[sp_file_attributes t := with_use_count (use_count f - 1) f]> (file_nodes s1)) s1)) =
        delete id (active (abs s))).
      apply Eact. intros b t0 _. simpl. destruct (decide (sp_file_attributes t = sp_file_attributes t0)) as [<-|Hne].
      * by rewrite lookup_insert_eq, Hf.
      * by rewrite lookup_insert_ne.
    + simpl. apply map_eq. intros n. rewrite !lookup_omap.
      destruct (m_file_name_to_ptr_to_file_attributes s !! n) as [q|] eqn:Hq; [|done]. simpl.
      destruct (decide (sp_file_attributes t = q)) as [<-|Hne].
      * rewrite lookup_insert_eq, Hf. done.
      * by rewrite lookup_insert_ne.
Qed.
End meaning.
