(* ===== verification/BackendSteps.v ===== *)
(** * Symbolic execution of the backend

    What each building block of the command functions does to the state: reads and writes
    through references, responses, appending to files, the transaction log, and creating
    and removing transactions.  The command functions are proved from these. *)
From S2P Require Import Prelude Stdcxx Constants WireProtocol Messages Prog ReadWrite Posix File Backend BackendInv.
From Stdlib Require Import ZArith Lia List Ascii String Bool.
From stdpp Require Import base gmap strings list fin_maps sorting.
#[local] Set Default Goal Selector "!".
Local Open Scope Z_scope.

(** ** Responses *)

(** The reply with these fields. *)
Definition reply (cmd : bytes) (txn_id seq_num : Z) (err : Errors.ErrorMapIterator)
    (data : bytes) (in_progress : bool) : Reply :=
  {| server_response := default [] (generateResponse cmd txn_id seq_num err data);
     transaction_in_progress := in_progress |}.

Definition error_reply (req : RequestTuple) (e : Errors.ErrorMapIterator) : Reply :=
  reply Constants.error_cmd (rq_txn_id req) (rq_seq_num req) e (Errors.getErrorMessage e) false.

Definition ack_reply (req : RequestTuple) (in_progress : bool) : Reply :=
  reply Constants.ack_cmd (rq_txn_id req) (rq_seq_num req) Errors.nil [] in_progress.

Definition new_txn_reply (txn_id : Z) (in_progress : bool) : Reply :=
  reply Constants.ack_cmd txn_id Constants.initial_seq_num Errors.nil [] in_progress.

Definition read_reply (req : RequestTuple) (contents : bytes) (in_progress : bool) : Reply :=
  reply Constants.ack_cmd (rq_txn_id req) (rq_seq_num req) Errors.nil contents in_progress.

Definition ask_resend_reply (req : RequestTuple) (seq_num : Z) (in_progress : bool) : Reply :=
  reply Constants.ask_resend_cmd (rq_txn_id req) seq_num Errors.nil [] in_progress.

(** A request whose numbers are [int]s and whose data is a C string: every request the
    server parses is one. *)
Record request_ok (req : RequestTuple) : Prop := {
  req_txn_id : int32 (rq_txn_id req);
  req_seq_num : int32 (rq_seq_num req);
  req_data : nul_free (rq_data req) = true
}.

(** The errors of the map. *)
Definition known_error (e : Errors.ErrorMapIterator) : bool :=
  match e with Some c => bool_decide (is_Some (Errors.messages !! c)) | None => false end.

Lemma messages_bounded :
  map_Forall (λ c msg, 0 ≤ c ≤ INT32_MAX ∧ len msg ≤ INT32_MAX) Errors.messages.
Proof. apply (bool_decide_unpack _). by vm_compute. Qed.

Lemma known_error_code e :
  known_error e = true →
  0 ≤ Errors.getErrorCode e ≤ INT32_MAX ∧ len (Errors.getErrorMessage e) ≤ INT32_MAX.
Proof.
  destruct e as [c|]; [|done]. unfold known_error, Errors.getErrorCode, Errors.getErrorMessage.
  intros [msg Hm]%bool_decide_eq_true. rewrite Hm.
  by apply (messages_bounded c).
Qed.

Section responses.
Context (tid : nat).
Implicit Types s : ServerBackend.

(** Generating a response to a proper request does not fail. *)
Lemma SET_RESPONSE_reply cmd txn_id seq_num err data ip :
  cmd ∈ [Constants.ack_cmd; Constants.ask_resend_cmd; Constants.error_cmd] →
  int32 txn_id → int32 seq_num → 0 ≤ Errors.getErrorCode err ≤ INT32_MAX → len data ≤ INT32_MAX →
  SET_RESPONSE cmd txn_id seq_num err data ip = Ret (reply cmd txn_id seq_num err data ip).
Proof.
  intros Hcmd Ht Hs He Hd.
  destruct (generateResponse_spec cmd txn_id seq_num err data) as (h & E & _);
    [..|done|done|done|done|by unfold SET_RESPONSE, reply; rewrite E].
  - rewrite !elem_of_cons, elem_of_nil in Hcmd. by destruct Hcmd as [->|[->|[->|[]]]].
  - rewrite !elem_of_cons, elem_of_nil in Hcmd. destruct Hcmd as [->|[->|[->|[]]]]; simpl; lia.
Qed.

Lemma SET_ACK_reply req ip : request_ok req → SET_ACK req ip = Ret (ack_reply req ip).
Proof. intros []. by apply SET_RESPONSE_reply; [rewrite !elem_of_cons; auto|..]. Qed.

Lemma SET_NEW_TXN_reply id ip : int32 id → SET_NEW_TXN id ip = Ret (new_txn_reply id ip).
Proof. intros. by apply SET_RESPONSE_reply; [rewrite !elem_of_cons; auto|..]. Qed.

Lemma SET_READ_reply req data ip :
  request_ok req → len data ≤ INT32_MAX → SET_READ req data ip = Ret (read_reply req data ip).
Proof. intros [] ?. by apply SET_RESPONSE_reply; [rewrite !elem_of_cons; auto|..]. Qed.

Lemma SET_ERROR_reply req e : request_ok req → known_error e = true → SET_ERROR req e = Ret (error_reply req e).
Proof. intros [] [Hc Hm]%known_error_code. by apply SET_RESPONSE_reply; [rewrite !elem_of_cons; auto|..]. Qed.

Lemma wp_set_response C cmd txn_id seq_num err data ip ls s (Q : Reply → locks → ServerBackend → Prop) :
  cmd ∈ [Constants.ack_cmd; Constants.ask_resend_cmd; Constants.error_cmd] →
  int32 txn_id → int32 seq_num → 0 ≤ Errors.getErrorCode err ≤ INT32_MAX →
  len data ≤ INT32_MAX → C s →
  Q (reply cmd txn_id seq_num err data ip) ls s →
  wp tid C (SET_RESPONSE cmd txn_id seq_num err data ip) ls s Q.
Proof. intros. rewrite SET_RESPONSE_reply by done. by apply wp_ret. Qed.

(** The fields a client reads from a reply. *)
Definition reply_fields (r : Reply) : bytes * Z * Z * Z * Z :=
  response_fields (take (Z.to_nat Constants.response_header_len) (server_response r)).

Lemma reply_fields_eq cmd txn_id seq_num err data ip :
  cmd ∈ [Constants.ack_cmd; Constants.ask_resend_cmd; Constants.error_cmd] →
  int32 txn_id → int32 seq_num → 0 ≤ Errors.getErrorCode err ≤ INT32_MAX → len data ≤ INT32_MAX →
  reply_fields (reply cmd txn_id seq_num err data ip) =
    (cmd, txn_id, seq_num, Errors.getErrorCode err, len data).
Proof.
  intros Hcmd Ht Hs He Hd.
  destruct (generateResponse_spec cmd txn_id seq_num err data) as (h & E & Hl & _ & Hf);
    [..|done|done|done|done|].
  - rewrite !elem_of_cons, elem_of_nil in Hcmd. by destruct Hcmd as [->|[->|[->|[]]]].
  - rewrite !elem_of_cons, elem_of_nil in Hcmd. destruct Hcmd as [->|[->|[->|[]]]]; simpl; lia.
  - unfold reply_fields, reply. rewrite E. simpl server_response.
    rewrite take_app_le, take_ge by lia. exact Hf.
Qed.

(** Error replies are told apart from each other and from everything else by their code. *)
Lemma error_reply_code req e :
  request_ok req → known_error e = true →
  reply_fields (error_reply req e) =
    (Constants.error_cmd, rq_txn_id req, rq_seq_num req, Errors.getErrorCode e,
     len (Errors.getErrorMessage e)).
Proof.
  intros [] [Hc Hm]%known_error_code. unfold error_reply. apply reply_fields_eq; [|done..].
  rewrite !elem_of_cons. auto.
Qed.

Lemma ack_reply_code req ip :
  request_ok req →
  reply_fields (ack_reply req ip) = (Constants.ack_cmd, rq_txn_id req, rq_seq_num req, 0, 0).
Proof. intros []. unfold ack_reply. apply (reply_fields_eq _ _ _ Errors.nil []); [rewrite !elem_of_cons; auto|done..]. Qed.

Lemma ask_resend_reply_code req k ip :
  request_ok req → int32 k →
  reply_fields (ask_resend_reply req k ip) = (Constants.ask_resend_cmd, rq_txn_id req, k, 0, 0).
Proof. intros [] ?. unfold ask_resend_reply. apply (reply_fields_eq _ _ _ Errors.nil []); [rewrite !elem_of_cons; auto|done..]. Qed.

Lemma wp_set_error C req e ls s (Q : Reply → locks → ServerBackend → Prop) :
  request_ok req → known_error e = true → C s → Q (error_reply req e) ls s →
  wp tid C (SET_ERROR req e) ls s Q.
Proof.
  intros [] [Hc Hm]%known_error_code ??. unfold SET_ERROR. by apply wp_set_response; [rewrite !elem_of_cons; auto|..].
Qed.

Lemma wp_set_ack C req ip ls s (Q : Reply → locks → ServerBackend → Prop) :
  request_ok req → C s → Q (ack_reply req ip) ls s → wp tid C (SET_ACK req ip) ls s Q.
Proof. intros [] ??. unfold SET_ACK. by apply wp_set_response; [rewrite !elem_of_cons; auto|..]. Qed.

Lemma wp_set_new_txn C id ip ls s (Q : Reply → locks → ServerBackend → Prop) :
  int32 id → C s → Q (new_txn_reply id ip) ls s → wp tid C (SET_NEW_TXN id ip) ls s Q.
Proof. intros ???. unfold SET_NEW_TXN. by apply wp_set_response; [rewrite !elem_of_cons; auto|..]. Qed.

Lemma wp_set_read C req data ip ls s (Q : Reply → locks → ServerBackend → Prop) :
  request_ok req → len data ≤ INT32_MAX → C s → Q (read_reply req data ip) ls s →
  wp tid C (SET_READ req data ip) ls s Q.
Proof. intros [] ???. unfold SET_READ. by apply wp_set_response; [rewrite !elem_of_cons; auto|..]. Qed.

Lemma wp_set_ask_resend C req k ip ls s (Q : Reply → locks → ServerBackend → Prop) :
  request_ok req → int32 k → C s → Q (ask_resend_reply req k ip) ls s →
  wp tid C (SET_ASK_RESEND req k ip) ls s Q.
Proof. intros [] ???. unfold SET_ASK_RESEND. by apply wp_set_response; [rewrite !elem_of_cons; auto|..]. Qed.
End responses.

(** ** References *)
Section references.
Context (tid : nat).
Implicit Types s : ServerBackend.

Lemma wp_txn_get {A} C a (g : TransactionAttributes → A) t ls s (Q : A → locks → ServerBackend → Prop) :
  txn_nodes s !! a = Some t → C s → Q (g t) ls s → wp tid C (txn_get a g) ls s Q.
Proof. intros Ha HC HQ. apply wp_deref with (a := g t); [|done..]. by rewrite Ha. Qed.

Lemma wp_txn_set C a g t ls s (Q : unit → locks → ServerBackend → Prop) :
  txn_nodes s !! a = Some t → C s → C (put_txn a (g t) s) → Q tt ls (put_txn a (g t) s) →
  wp tid C (txn_set a g) ls s Q.
Proof. intros Ha HC HC' HQ. unfold txn_set, wp. simpl. by rewrite Ha. Qed.

Lemma wp_file_get {A} C p (g : FileAttributes → A) f ls s (Q : A → locks → ServerBackend → Prop) :
  file_nodes s !! p = Some f → C s → Q (g f) ls s → wp tid C (file_get p g) ls s Q.
Proof. intros Hp HC HQ. apply wp_deref with (a := g f); [|done..]. by rewrite Hp. Qed.

Lemma wp_file_set C p g f ls s (Q : unit → locks → ServerBackend → Prop) :
  file_nodes s !! p = Some f → C s → C (put_file p (g f) s) → Q tt ls (put_file p (g f) s) →
  wp tid C (file_set p g) ls s Q.
Proof. intros Hp HC HC' HQ. unfold file_set, wp. simpl. by rewrite Hp. Qed.

Lemma wp_release C p f ls s (Q : unit → locks → ServerBackend → Prop) :
  file_nodes s !! p = Some f → C s → C (released p f s) → Q tt ls (released p f s) →
  wp tid C (release_file_attributes p) ls s Q.
Proof.
  intros Hp HC HC' HQ. unfold release_file_attributes, wp. simpl. rewrite Hp.
  unfold released, put_file in *. by case_decide.
Qed.

Lemma wp_find_txn C id a ls s (Q : positive → locks → ServerBackend → Prop) :
  m_txn_id_to_transaction_attributes s !! id = Some a → C s → Q a ls s →
  wp tid C (find_txn id) ls s Q.
Proof. intros Ha ??. by apply wp_deref with (a := a). Qed.

Lemma wp_update_timestamp C a t ls s (Q : unit → locks → ServerBackend → Prop) :
  txn_nodes s !! a = Some t → C s →
  C (put_txn a (with_timestamp (w_now (backend_world s)) t) s) →
  Q tt ls (put_txn a (with_timestamp (w_now (backend_world s)) t) s) →
  wp tid C (updateTransactionTimestamp a) ls s Q.
Proof.
  intros. unfold updateTransactionTimestamp, NOW, syscall_reads. wp_step. wp_step.
  by eapply wp_txn_set.
Qed.

Lemma wp_remove C id a t f ls s (Q : unit → locks → ServerBackend → Prop) :
  m_txn_id_to_transaction_attributes s !! id = Some a →
  txn_nodes s !! a = Some t → file_nodes s !! sp_file_attributes t = Some f →
  (∀ s', backend_world s' = backend_world s → C s') →
  Q tt ls (removed id a t f s) → wp tid C (removeTransaction id) ls s Q.
Proof.
  intros Hid Ha Hf HC HQ. unfold removeTransaction. wp_step. wp_step; [by apply HC|].
  rewrite Hid. wp_step. apply wp_txn_get with t; [done|by apply HC|].
  wp_step. wp_step; [by apply HC..|].
  apply wp_release with f; [done|by apply HC| |done].
  apply HC. unfold released. by case_decide.
Qed.

(** The two checks that follow a lock. *)
Lemma wp_check C id (e1 e2 : Errors.ErrorMapIterator) ls s
    (Q : option Errors.ErrorMapIterator → locks → ServerBackend → Prop) :
  C s →
  Q (if bool_decide (id ∈ m_commits s) then Some e1
     else if bool_decide (is_Some (m_txn_id_to_transaction_attributes s !! id)) then None
     else Some e2) ls s →
  wp tid C (let! c := is_committed id in
            if c : bool then Ret (Some e1)
            else let! act := is_active id in Ret (if act : bool then None else Some e2)) ls s Q.
Proof.
  intros HC HQ. unfold is_committed, is_active. wp_step. wp_step.
  case_bool_decide; [by wp_step|]. wp_step. wp_step. by wp_step.
Qed.
End references.

(** ** Appending to a file *)
Section appending.
Context `{PathResolution} (tid : nat).
Implicit Types s : ServerBackend.

(** One more write of a sequence that builds up [c ++ ...] : [pre] of it is written. *)
Lemma append_spec C f c pre buf fs ls s :
  writable (m_flags f) = true → nul_free buf = true → files s = <[m_fd f := c ++ pre]> fs →
  (∀ s' k, same_but_files s s' → files s' = <[m_fd f := c ++ pre ++ take k buf]> fs → C s') →
  wp tid C (File_write f buf) ls s (λ r ls' s', ls' = ls ∧ same_but_files s s' ∧
    match r with
    | inl e => e = ErrorWritingToFile ∧ ¬ calm s ∧
        ∃ k, (k < length buf)%nat ∧ files s' = <[m_fd f := c ++ pre ++ take k buf]> fs
    | inr _ => files s' = <[m_fd f := c ++ (pre ++ buf)]> fs
    end).
Proof.
  intros Hw Hn Hf HC. eapply wp_mono; [eapply File_write_spec; [done|done|..]|..].
  - rewrite Hf. apply lookup_insert_eq.
  - intros s' k Hs Hfs. rewrite Hf, insert_insert_eq, <- app_assoc in Hfs. by eapply HC.
  - done.
  - intros r ls' s' HC' (-> & Hs & k & Hfs & Hr). split; [done|]. split; [done|].
    rewrite Hf, insert_insert_eq, <- app_assoc in Hfs. destruct r as [e|[]].
    + destruct Hr as (-> & Hk & Hcalm). split; [done|]. split; [done|]. by exists k.
    + subst k. by rewrite take_ge in Hfs by lia.
Qed.

(** ** The log *)

(** The line [logTransaction] writes. *)
Definition log_entry (txn_id : Z) (file_name : bytes) (size : Z) : bytes :=
  to_string txn_id ++ str " " ++ file_name ++ str " " ++ to_string size ++ str "
".

(** [File::getFileSize] on these files. *)
Definition size_of (fs : gmap bytes bytes) (path : bytes) : Z :=
  default 0 ((λ c, len c) <$> fs !! resolve path).

(** The files after an attempt to log: [k] bytes of the entry reached the log at [path]
    (or, with no entry, it could not be opened). *)
Inductive logged (path : bytes) (txn_id : Z) (file_name : bytes) (fs : gmap bytes bytes) :
    bool → gmap bytes bytes → Prop :=
| logged_nothing : logged path txn_id file_name fs false fs
| logged_some complete k size :
    (complete = true → k = length (log_entry txn_id file_name size)) →
    (resolve file_name ≠ resolve path → size = size_of fs file_name) →
    logged path txn_id file_name fs complete
      (<[resolve path := default [] (fs !! resolve path) ++
           take k (log_entry txn_id file_name size)]> fs).

Lemma logged_lookup path id name fs b fs' p :
  logged path id name fs b fs' → p ≠ resolve path → fs' !! p = fs !! p.
Proof. intros [] Hp; [done|]. by apply lookup_insert_ne. Qed.

Lemma logged_true path id name fs fs' :
  logged path id name fs true fs' → resolve name ≠ resolve path →
  fs' = <[resolve path := default [] (fs !! resolve path) ++
            log_entry id name (size_of fs name)]> fs.
Proof.
  intros Hl Hn. inversion Hl as [|? k size Hk Hsize]; subst.
  rewrite <- (Hsize Hn), (Hk eq_refl), take_ge by lia. done.
Qed.

Lemma take_prefix {A} (pre buf post : list A) k :
  pre ++ take k buf = take (length pre + Nat.min k (length buf)) (pre ++ buf ++ post).
Proof.
  rewrite take_app_ge by lia. replace (length pre + Nat.min k (length buf) - length pre)%nat
    with (Nat.min k (length buf)) by lia.
  rewrite take_app_le by lia. f_equal. destruct (Nat.le_ge_cases k (length buf)).
  - by rewrite Nat.min_l.
  - rewrite Nat.min_r by done. by rewrite !take_ge.
Qed.

Lemma nul_free_app u v : nul_free u = true → nul_free v = true → nul_free (u ++ v) = true.
Proof. intros. by apply forallb_app_iff. Qed.

Lemma to_string_nul_free z : nul_free (to_string z) = true.
Proof.
  destruct (to_string_int_field z) as (n & d & E & Hne & Hd & _). rewrite E.
  apply header_chars_nul_free, int_field_header_char. by split.
Qed.

Section logging.
Context (path name : bytes) (id : Z) (s : ServerBackend) (C : ServerBackend → Prop).
Context (HC : ∀ s' b, same_but_files s s' → logged path id name (files s) b (files s') → C s').
Context (Hname : nul_free name = true).

(** [pre] of the entry is in the log. *)
Definition log_has (pre : bytes) (s' : ServerBackend) : Prop :=
  same_but_files s s' ∧
  files s' = <[resolve path := default [] (files s !! resolve path) ++ pre]> (files s).

Lemma log_has_logged size pre buf post k s' :
  log_entry id name size = pre ++ buf ++ post →
  (resolve name ≠ resolve path → size = size_of (files s) name) →
  files s' = <[resolve path := default [] (files s !! resolve path) ++ pre ++ take k buf]> (files s) →
  logged path id name (files s) false (files s').
Proof.
  intros E Hsize ->. rewrite (take_prefix pre buf post k), <- E. by apply logged_some.
Qed.

Lemma log_write size f pre buf post ls s1 :
  m_fd f = resolve path → m_flags f = log_flags → nul_free buf = true →
  log_entry id name size = pre ++ buf ++ post →
  (resolve name ≠ resolve path → size = size_of (files s) name) →
  log_has pre s1 →
  wp tid C (File_write f buf) ls s1 (λ r ls' s', ls' = ls ∧
    match r with
    | inl e => e = ErrorWritingToFile ∧ ¬ calm s ∧ same_but_files s s' ∧
               logged path id name (files s) false (files s')
    | inr _ => log_has (pre ++ buf) s'
    end).
Proof.
  intros Hfd Hfl Hn E Hsize [Hs Hf].
  eapply wp_mono; [eapply (append_spec C f (default [] (files s !! resolve path)) pre buf (files s))|done|].
  - by rewrite Hfl.
  - done.
  - by rewrite Hfd.
  - intros s' k Hs' Hf'. rewrite Hfd in Hf'. apply (HC s' false); [by etrans|].
    by eapply log_has_logged.
  - intros r ls' s' _ (-> & Hs' & Hr). split; [done|]. rewrite Hfd in Hr. destruct r as [e|u].
    + destruct Hr as (-> & Hcalm & k & _ & Hf'). split; [done|].
      split; [by intros Hc; apply Hcalm, Hs|]. split; [by etrans|]. by eapply log_has_logged.
    + split; [by etrans|done].
Qed.

Lemma log_has_C pre buf post size s' :
  log_entry id name size = pre ++ buf ++ post →
  (resolve name ≠ resolve path → size = size_of (files s) name) →
  log_has pre s' → C s'.
Proof.
  intros E Hsize [Hs Hf]. apply (HC s' false); [done|].
  eapply (log_has_logged size pre buf post 0); [done|done|]. simpl. by rewrite app_nil_r.
Qed.

(** How writing an entry ends: all of it is in the log, or an exception and a part of it. *)
Definition log_outcome (r : exn + unit) (s' : ServerBackend) : Prop :=
  match r with
  | inl e => (e = ErrorOpeningFile ∨ e = ErrorWritingToFile) ∧ ¬ calm s ∧
      same_but_files s s' ∧ logged path id name (files s) false (files s')
  | inr _ => same_but_files s s' ∧ logged path id name (files s) true (files s')
  end.

(** A write of the next part, and what follows it. *)
Lemma log_then size f pre buf post ls s1 (q : eprog ServerBackend unit) :
  m_fd f = resolve path → m_flags f = log_flags → nul_free buf = true →
  log_entry id name size = pre ++ buf ++ post →
  (resolve name ≠ resolve path → size = size_of (files s) name) →
  log_has pre s1 →
  (∀ s', log_has (pre ++ buf) s' → wp tid C q ls s' (λ r ls' s', ls' = ls ∧ log_outcome r s')) →
  wp tid C (let? _ := File_write f buf in q) ls s1 (λ r ls' s', ls' = ls ∧ log_outcome r s').
Proof.
  intros Hfd Hfl Hn E Hsize H1 Hq. eapply wp_eseq; [by eapply log_write|..].
  - intros e ls' s' _ (-> & -> & ? & ? & ?). unfold log_outcome. auto 10.
  - intros [] ls' s' _ [-> H2]. by apply Hq.
Qed.

(** The last part. *)
Lemma log_last size f pre buf ls s1 :
  m_fd f = resolve path → m_flags f = log_flags → nul_free buf = true →
  log_entry id name size = pre ++ buf →
  (resolve name ≠ resolve path → size = size_of (files s) name) →
  log_has pre s1 →
  wp tid C (File_write f buf) ls s1 (λ r ls' s', ls' = ls ∧ log_outcome r s').
Proof.
  intros Hfd Hfl Hn E Hsize H1. eapply wp_mono; [eapply (log_write size f pre buf [])|done|]; try done.
  { by rewrite app_nil_r. }
  intros [e|u] ls' s' _ [-> Hr]; (split; [done|]).
  - destruct Hr as (-> & ? & ? & ?). unfold log_outcome. auto 10.
  - destruct Hr as [Hs Hf]. split; [done|]. rewrite Hf, <- E.
    replace (log_entry id name size) with (take (length (log_entry id name size)) (log_entry id name size)) at 1
      by (by apply take_ge). by apply logged_some.
Qed.

(** The body of [logTransaction]. *)
Lemma log_body f ls s1 :
  m_fd f = resolve path → m_flags f = log_flags → log_has [] s1 →
  wp tid C
    (let? _ := File_write f (to_string id) in
     let? _ := File_write f (str " ") in
     let? _ := File_write f name in
     let? _ := File_write f (str " ") in
     let? size := lift (getFileSize name) in
     let? _ := File_write f (to_string size) in
     File_write f (str "
")) ls s1 (λ r ls' s', ls' = ls ∧ log_outcome r s').
Proof.
  intros Hfd Hfl H0. set (size0 := size_of (files s) name).
  assert (Hn := to_string_nul_free).
  eapply (log_then size0 f [] (to_string id)); [done|done|auto|done..|]. intros s2 H1.
  eapply (log_then size0 f (to_string id) (str " ")); [done..|]. intros s3 H2.
  eapply (log_then size0 f (to_string id ++ str " ") name); [done|done|done|by unfold log_entry; rewrite <- (app_assoc _ (str " "))|done|done|].
  intros s4 H3.
  eapply (log_then size0 f ((to_string id ++ str " ") ++ name) (str " ")); [done|done|auto|by unfold log_entry; rewrite <- !app_assoc|done|done|].
  intros s5 H4. apply wp_bind, wp_lift. unfold getFileSize, syscall_reads.
  set (size := default 0 (w_stat name (the_world s5))).
  assert (Hsize : resolve name ≠ resolve path → size = size_of (files s) name).
  { intros Hne. unfold size, w_stat, size_of. change (w_fs (the_world s5)) with (files s5).
    rewrite (proj2 H4). by rewrite lookup_insert_ne. }
  apply wp_reads.
  { eapply (log_has_C _ [] _ size0); [|done|exact H4]. unfold log_entry. by rewrite <- !app_assoc. }
  fold size. cbv beta iota.
  eapply (log_then size f (((to_string id ++ str " ") ++ name) ++ str " ") (to_string size));
    [done|done|auto|by unfold log_entry; rewrite <- !app_assoc|done|done|].
  intros s6 H5. eapply log_last; [done|done|done| |done|exact H5]. unfold log_entry. by rewrite <- !app_assoc.
Qed.
End logging.

(** An exception handler around a block whose outcomes are known. *)
Lemma wp_try_catch {A} C (p : eprog ServerBackend A) h ls s
    (R : exn + A → locks → ServerBackend → Prop) (Q : A → locks → ServerBackend → Prop) :
  wp tid C p ls s R →
  (∀ a ls' s', C s' → R (inr a) ls' s' → Q a ls' s') →
  (∀ e ls' s', C s' → R (inl e) ls' s' →
    match h e with Some q => wp tid C q ls' s' Q | None => False end) →
  wp tid C (try_catch p h) ls s Q.
Proof.
  intros Hp Ha He. eapply wp_seq; [exact Hp|]. intros [e|a] ls' s' HC' HR.
  - specialize (He e ls' s' HC' HR). by destruct (h e).
  - apply wp_ret; auto.
Qed.

(** The log gets a prefix of the entry, all of it when no call fails; nothing else
    changes and no exception escapes. *)
Lemma logTransaction_spec C dir log id name ls s :
  nul_free name = true → ls !! g_mtx = None →
  (∀ s' b, same_but_files s s' → logged (dir ++ log) id name (files s) b (files s') → C s') →
  wp tid C (logTransaction dir log id name) ls s (λ _ ls' s', ls' = ls ∧ same_but_files s s' ∧
    ∃ b, logged (dir ++ log) id name (files s) b (files s') ∧ (calm s → b = true)).
Proof.
  intros Hname Hg HC. unfold logTransaction. set (path := dir ++ log) in *.
  assert (HC0 : ∀ s', same_but_files s s' → files s' = files s → C s').
  { intros s' Hs Hf. apply (HC s' false); [done|]. rewrite Hf. constructor. }
  assert (Hopen : ∀ s', same_but_files s s' → files s' = opened path (files s) → log_has path s [] s').
  { intros s' Hs Hf. split; [done|]. rewrite Hf, app_nil_r. symmetry. unfold opened.
    destruct (files s !! resolve path) eqn:E; [by apply insert_id|done]. }
  eapply wp_try_catch.
  - eapply (with_File_spec tid _ _ _ _ _ _ (log_outcome path name id s)); [done|..].
    + intros s' Hs [Hf|[Hf _]]; [by apply HC0|].
      eapply (log_has_C path name id s C HC [] [] _ (size_of (files s) name)); [done|done|by apply Hopen].
    + intros s1 Hs1 Hf1 _. by apply (log_body path name id s C HC Hname); [..|apply Hopen].
    + intros s' Hs Hf Hno. split; [by left|]. split.
      * intros [_ [=]]%Hno.
      * split; [done|]. rewrite Hf. constructor.
  - intros _ ls' s' _ (-> & Hs & Hl). eauto.
  - intros e ls' s' HC' (-> & He & Hcalm & Hs & Hl).
    assert (Hr : same_but_files s s' ∧ ∃ b, logged path id name (files s) b (files s') ∧ (calm s → b = true)).
    { split; [done|]. by exists false. }
    destruct He as [->| ->]; apply wp_ret; auto.
Qed.
End appending.

(** ** Creating a transaction *)
Section adding.
Context `{PathResolution} (tid : nat) (m_directory : bytes).
Implicit Types s : ServerBackend.

Definition fresh_txn_ok sp now : txn_ok (getNewTransactionAttributes sp now).
Proof. split; simpl; [by unfold INT32_MAX|]. intros k d. by rewrite lookup_empty. Qed.

(** The state with the new transaction in it, before it is logged. *)
Definition with_new_transaction (id : Z) (name : bytes) (size now : Z) s : ServerBackend :=
  match m_file_name_to_ptr_to_file_attributes s !! name with
  | None => emplaced id (getNewTransactionAttributes (next_address s) now) (new_file name size s)
  | Some p =>
      match file_nodes s !! p with
      | Some f => emplaced id (getNewTransactionAttributes p now)
                    (put_file p (with_use_count (S (use_count f)) f) s)
      | None => s
      end
  end.

Lemma with_new_transaction_spec id name size now s :
  backend_ok s → m_txn_id_to_transaction_attributes s !! id = None → nul_free name = true →
  backend_ok (with_new_transaction id name size now s) ∧
  abs (with_new_transaction id name size now s) = spec_add id name size now (abs s) ∧
  backend_world (with_new_transaction id name size now s) = backend_world s ∧
  timers (with_new_transaction id name size now s) = timers s ∧
  m_initialize (with_new_transaction id name size now s) = m_initialize s.
Proof.
  intros Hok Hid Hname. unfold with_new_transaction.
  destruct (m_file_name_to_ptr_to_file_attributes s !! name) as [p|] eqn:E.
  - pose proof E as (f & Hf & <-)%(ok_ptr _ Hok). rewrite Hf. split; [|by rewrite abs_add_shared with (size := size)].
    by apply ok_add_shared; [..|apply fresh_txn_ok].
  - split; [|by rewrite abs_add_new].
    by apply ok_add_new; [..|apply fresh_txn_ok].
Qed.

Lemma wp_emplace C id t ls s (Q : unit → locks → ServerBackend → Prop) :
  m_txn_id_to_transaction_attributes s !! id = None → C s → C (emplaced id t s) →
  Q tt ls (emplaced id t s) → wp tid C (emplace_transaction id t) ls s Q.
Proof.
  intros Hid ???. unfold emplace_transaction. wp_step. wp_step. rewrite Hid. by wp_step.
Qed.

(** The state after [addNewTransaction]: the transaction is there, logged and timed. *)
Definition transaction_added (id : Z) (name : bytes) s s' : Prop :=
  ∃ s1 b, same_but_files (with_new_transaction id name (size_of (files s) name)
                            (w_now (backend_world s)) s) s1 ∧
    s' = set_timers (timers s ++ [{| tm_txn_id := id;
           tm_latest_timestamp := w_now (backend_world s); tm_file_name := name |}]) s1 ∧
    logged (m_directory ++ m_transaction_log) id name (files s) b (files s') ∧
    (calm s → b = true).

(** What follows the choice of the file object: the entry, the log line and the timer. *)
Lemma finish_adding C id name sp now s0 ls s :
  s0 = emplaced id (getNewTransactionAttributes sp now) s →
  m_txn_id_to_transaction_attributes s !! id = None → nul_free name = true → ls !! g_mtx = None →
  (∀ s' b, logged (m_directory ++ m_transaction_log) id name (files s) b (files s') → C s') →
  wp tid C (lift (emplace_transaction id (getNewTransactionAttributes sp now) ;;;
      logTransaction m_directory m_transaction_log id name ;;;
      START_TRANSACTION_TIMER id now name)) ls s
  (λ r ls' s', r = inr tt ∧ ls' = ls ∧ ∃ s1 b, same_but_files s0 s1 ∧
    s' = set_timers (timers s ++ [{| tm_txn_id := id; tm_latest_timestamp := now; tm_file_name := name |}]) s1 ∧
    logged (m_directory ++ m_transaction_log) id name (files s) b (files s') ∧ (calm s → b = true)).
Proof.
  intros -> Hid Hname Hg HC.
  assert (HCf : ∀ s', files s' = files s → C s').
  { intros s' Hf. apply (HC s' false). rewrite Hf. constructor. }
  apply wp_lift. apply wp_bind. apply wp_emplace; [done|by apply HCf..|].
  eapply wp_seq; [eapply logTransaction_spec; [done|done|]|].
  - intros s' b _ Hl. by eapply HC.
  - intros _ ls' s1 HC1 (-> & Hs1 & b & Hl & Hb).
    unfold START_TRANSACTION_TIMER. apply wp_modify; [done|by eapply HC|].
    split; [done|]. split; [done|]. exists s1, b.
    split; [done|]. split; [|by split]. by destruct Hs1 as ([w ->] & _).
Qed.

Lemma addNewTransaction_spec C id name ls s :
  backend_ok s → m_txn_id_to_transaction_attributes s !! id = None → nul_free name = true →
  ls !! g_mtx = None →
  (∀ s' b, logged (m_directory ++ m_transaction_log) id name (files s) b (files s') → C s') →
  wp tid C (addNewTransaction m_directory id name) ls s (λ r ls' s', r = inr tt ∧ ls' = ls ∧
    transaction_added id name s s').
Proof.
  intros Hok Hid Hname Hg HC.
  assert (HCf : ∀ s', files s' = files s → C s').
  { intros s' Hf. apply (HC s' false). rewrite Hf. constructor. }
  set (now := w_now (backend_world s)). set (size := size_of (files s) name).
  unfold addNewTransaction. wp_step. wp_step; [by apply HCf|].
  wp_step. unfold NOW, syscall_reads. wp_step; [by apply HCf|]. change (w_now (the_world s)) with now.
  unfold transaction_added, with_new_transaction. fold now size.
  destruct (m_file_name_to_ptr_to_file_attributes s !! name) as [p|] eqn:E.
  - pose proof E as (f & Hf & En)%(ok_ptr _ Hok). rewrite Hf.
    unfold ebind at 2. wp_step. wp_step. wp_step. unfold share_file_attributes.
    apply wp_file_set with f; [done|by apply HCf..|]. wp_step; [by apply HCf|].
    by apply (finish_adding C id name p now _ ls (put_file p (with_use_count (S (use_count f)) f) s)).
  - unfold getNewFileAttributes. wp_step. wp_step. wp_step; [by apply HCf|]. rewrite E.
    wp_step. wp_step. unfold getFileSize, syscall_reads. wp_step; [by apply HCf|].
    change (default 0 (w_stat name (the_world s))) with size.
    apply wp_act; [by apply HCf..|]. simpl.
    match goal with |- wp _ _ _ _ ?s1 _ => by apply (finish_adding C id name (next_address s) now _ ls s1) end.
Qed.
End adding.
