(* ===== verification/BackendSpec.v ===== *)
(** * What the commands do

    For each command function an executable specification on the abstract state ([Spec]:
    a map of transactions, a set of committed ids, recorded file sizes) and a theorem that
    the function, run from any state of the invariant, returns (no deadlock, no undefined
    behaviour, no uncaught exception), releases its mutexes, keeps the invariant and
    implements the specification, the files included. *)
From S2P Require Import Prelude Stdcxx Constants WireProtocol Messages Prog ReadWrite Posix File Backend BackendInv BackendSteps.
From Stdlib Require Import ZArith Lia List Ascii String Bool.
From stdpp Require Import base gmap strings list fin_maps sorting.
#[local] Set Default Goal Selector "!".
Local Open Scope Z_scope.

(** ** Specifications *)

Definition spec_put (id : Z) (t : Txn) (sp : Spec) : Spec := set_active (<[id := t]> (active sp)) sp.

Definition touched (now : Z) (t : Txn) : Txn :=
  {| t_file := t_file t; t_buffers := t_buffers t; t_max_seq_num := t_max_seq_num t;
     t_timestamp := now |}.

Definition written (now seq_num : Z) (data : bytes) (t : Txn) : Txn :=
  {| t_file := t_file t; t_buffers := <[seq_num := data]> (t_buffers t);
     t_max_seq_num := Z.max (t_max_seq_num t) seq_num; t_timestamp := now |}.

Definition promised (now seq_num : Z) (t : Txn) : Txn :=
  {| t_file := t_file t; t_buffers := t_buffers t; t_max_seq_num := seq_num; t_timestamp := now |}.

(** WRITE: buffer the data, unless its sequence number has some already. *)
Definition spec_WRITE (now : Z) (req : RequestTuple) (ip : bool) (sp : Spec) : Spec * Reply :=
  if bool_decide (rq_txn_id req ∈ committed sp) then (sp, error_reply req Errors.InvalidOperation)
  else match active sp !! rq_txn_id req with
  | None => (sp, error_reply req Errors.InvalidTransactionId)
  | Some t =>
      if bool_decide (is_Some (t_buffers t !! rq_seq_num req))
      then (spec_put (rq_txn_id req) (touched now t) sp,
            error_reply req Errors.RepeatedSequenceNumber)
      else (spec_put (rq_txn_id req) (written now (rq_seq_num req) (rq_data req) t) sp,
            ack_reply req ip)
  end.

(** ABORT: forget the transaction and say it is over. *)
Definition spec_ABORT (req : RequestTuple) (sp : Spec) : Spec * Reply :=
  if bool_decide (rq_txn_id req ∈ committed sp) then (sp, error_reply req Errors.InvalidOperation)
  else match active sp !! rq_txn_id req with
  | None => (sp, error_reply req Errors.InvalidTransactionId)
  | Some _ => (spec_remove (rq_txn_id req) sp, ack_reply req false)
  end.

(** NEW_TXN, for the id the server picks. *)
Definition spec_NEW_TXN (now id size : Z) (req : RequestTuple) (ip : bool) (sp : Spec) : Spec * Reply :=
  if rq_seq_num req =? 0 then (spec_add id (rq_data req) size now sp, new_txn_reply id ip)
  else (sp, error_reply req Errors.InvalidSequenceNumber).

(** The timer: remove a transaction whose last update is a timeout ago. *)
Definition spec_timer (now id : Z) (sp : Spec) : Spec :=
  match active sp !! id with
  | Some t =>
      if t_timestamp t + seconds Constants.transaction_timeout_seconds <=? now
      then spec_remove id sp else sp
  | None => sp
  end.

(** Everything but the files and the pending system calls. *)
Definition same_world (s s' : ServerBackend) : Prop :=
  w_now (backend_world s') = w_now (backend_world s) ∧
  w_rand (backend_world s') = w_rand (backend_world s) ∧ (calm s → calm s').

(** ** Locks *)

(** Simplify a lock table after releases. *)
Ltac clean_locks :=
  repeat first [rewrite delete_insert_eq | rewrite delete_insert_ne by done | rewrite delete_empty].

Ltac bstep :=
  lazymatch goal with
  | |- wp _ _ (SET_ERROR _ _) _ _ _ =>
      eapply wp_set_error; [eassumption|reflexivity|try done|cbv beta]
  | |- wp _ _ (SET_ACK _ _) _ _ _ => eapply wp_set_ack; [eassumption|try done|cbv beta]
  | _ => wp_step
  end;
  clean_locks.

(** Release a mutex that is held. *)
Ltac release :=
  apply wp_unlock;
  [try done|by repeat first [rewrite lookup_insert_eq | rewrite lookup_insert_ne by done]
  |cbv beta]; clean_locks.

Section spec.
Context `{PathResolution} (tid : nat) (m_directory : bytes).
Implicit Types s : ServerBackend.

Lemma put_put a t t' s : put_txn a t' (put_txn a t s) = put_txn a t' s.
Proof. unfold put_txn, set_txn_nodes. simpl. by rewrite insert_insert_eq. Qed.

Lemma lookup_put a t s : txn_nodes (put_txn a t s) !! a = Some t.
Proof. apply lookup_insert_eq. Qed.

Lemma active_none s id :
  backend_ok s → m_txn_id_to_transaction_attributes s !! id = None → active (abs s) !! id = None.
Proof. intros Hok Hid. simpl. by rewrite lookup_omap, Hid. Qed.

(** The maximum becomes that of the old one and the new number. *)
Lemma wp_raise_max {A} C (k : prog ServerBackend A) a t seq ls s Q :
  txn_nodes s !! a = Some t → C s → C (put_txn a (with_max_seq_num (Z.max (max_seq_num t) seq) t) s) →
  wp tid C k ls (put_txn a (with_max_seq_num (Z.max (max_seq_num t) seq) t) s) Q →
  wp tid C ((if max_seq_num t <? seq then txn_set a (with_max_seq_num seq) else Ret tt) ;;; k) ls s Q.
Proof.
  intros Ha HC HC' Hk. wp_step. destruct (Z.ltb_spec (max_seq_num t) seq) as [Hlt|Hge].
  - rewrite Z.max_r in HC', Hk by lia. by eapply wp_txn_set.
  - wp_step. rewrite Z.max_l in Hk by lia. replace (put_txn a _ s) with s in Hk; [done|]. unfold put_txn.
    rewrite insert_id by (rewrite Ha; by destruct t). by destruct s.
Qed.

(** A buffer more, under its number. *)
Lemma txn_ok_buffered t seq data ts :
  txn_ok t → int32 seq → nul_free data = true →
  txn_ok (with_buffer seq data (with_max_seq_num (Z.max (max_seq_num t) seq) (with_timestamp ts t))).
Proof.
  intros [Hm Hb] Hs Hd. split; simpl.
  - unfold int32 in Hs. lia.
  - intros k d [[<- <-]|[Hne Hk]]%lookup_insert_Some; [split; [lia|done]|].
    destruct (Hb _ _ Hk). split; [lia|done].
Qed.

(** [WRITE] implements its specification on every branch, and touches no file. *)
Lemma WRITE_spec C req ip s :
  backend_ok s → request_ok req → (∀ s', backend_world s' = backend_world s → C s') →
  wp tid C (WRITE req ip) ∅ s (λ r ls' s', ls' = ∅ ∧ backend_ok s' ∧
    (abs s', r) = spec_WRITE (w_now (backend_world s)) req ip (abs s) ∧
    backend_world s' = backend_world s ∧ timers s' = timers s ∧ m_initialize s' = m_initialize s).
Proof.
  intros Hok Hreq HC. set (id := rq_txn_id req). set (seq := rq_seq_num req).
  assert (HC0 : C s) by by apply HC.
  unfold WRITE. bstep. bstep. bstep. apply wp_check; [done|]. unfold spec_WRITE. fold id seq.
  change (committed (abs s)) with (m_commits s).
  destruct (bool_decide (id ∈ m_commits s)) eqn:Ec.
  { bstep. bstep. bstep. release. by bstep. }
  destruct (m_txn_id_to_transaction_attributes s !! id) as [a|] eqn:Hid.
  2: { rewrite (bool_decide_eq_false_2 (is_Some None)) by by intros [].
    rewrite (active_none s id) by done. bstep. bstep. bstep. release. by bstep. }
  rewrite (bool_decide_eq_true_2 (is_Some (Some a))) by done.
  destruct (ok_lookup _ _ _ Hok Hid) as (t & f & Ht & Hf & Hact & Htok & _). rewrite Hact.
  wp_step. apply wp_find_txn with a; [done..|]. bstep. release. bstep. bstep. bstep. bstep.
  bstep. apply wp_check; [done|]. fold id. rewrite Ec, Hid, bool_decide_eq_true_2 by done.
  bstep. release. bstep. eapply wp_update_timestamp; [done|done|by apply HC|].
  set (now := w_now (backend_world s)).
  bstep. eapply wp_txn_get; [apply lookup_put|by apply HC|].
  change (buffers (with_timestamp now t)) with (buffers t).
  change (t_buffers (txn_of t f)) with (buffers t).
  destruct (bool_decide (is_Some (buffers t !! seq))) eqn:Eb.
  - wp_step. eapply wp_set_error; [done|done|by apply HC|].
    bstep. release; [by apply HC|]. bstep; [by apply HC|]. split; [done|].
    split; [|split; [|done]].
    + eapply ok_put_txn; [done|done|done|]. destruct Htok. by split.
    + by rewrite (abs_put_txn s id a t _ f).
  - wp_step. bstep. eapply wp_txn_get; [apply lookup_put|by apply HC|].
    change (max_seq_num t) with (max_seq_num (with_timestamp now t)).
    eapply (wp_raise_max C _ a (with_timestamp now t)); [apply lookup_put|by apply HC..|]. rewrite put_put.
    bstep. eapply wp_txn_set; [apply lookup_put|by apply HC..|]. rewrite put_put.
    eapply wp_set_ack; [done|by apply HC|]. bstep. release; [by apply HC|].
    bstep; [by apply HC|]. split; [done|].
    split; [|split; [|done]].
    + eapply ok_put_txn; [done|done|done|]. by apply (txn_ok_buffered t); [|apply Hreq..].
    + by rewrite (abs_put_txn s id a t _ f).
Qed.

Lemma world_files s s' : backend_world s' = backend_world s → files s' = files s.
Proof. unfold files. simpl. by intros ->. Qed.

Lemma removed_world id a t f s : backend_world (removed id a t f s) = backend_world s.
Proof. unfold removed, released. by case_decide. Qed.

Lemma removed_rest id a t f s :
  timers (removed id a t f s) = timers s ∧ m_initialize (removed id a t f s) = m_initialize s.
Proof. unfold removed, released. by case_decide. Qed.

(** The log lines a removal leaves, and nothing else. *)
Definition removal_logged (log : bytes) (id : Z) (name : bytes) s s' : Prop :=
  ∃ b, logged (m_directory ++ log) id name (files s) b (files s') ∧ (calm s → b = true).

(** [ABORT] forgets the transaction and logs it; no file but the log changes. *)
Lemma ABORT_spec C req ip s :
  backend_ok s → request_ok req →
  (∀ s', files s' = files s → C s') →
  (∀ s' b t, active (abs s) !! rq_txn_id req = Some t →
     logged (m_directory ++ m_abort_log) (rq_txn_id req) (t_file t) (files s) b (files s') → C s') →
  wp tid C (ABORT m_directory req ip) ∅ s (λ r ls' s', ls' = ∅ ∧ backend_ok s' ∧
    (abs s', r) = spec_ABORT req (abs s) ∧ same_world s s' ∧ timers s' = timers s ∧
    m_initialize s' = m_initialize s ∧
    if bool_decide (rq_txn_id req ∈ committed (abs s)) then files s' = files s
    else match active (abs s) !! rq_txn_id req with
         | None => files s' = files s
         | Some t => removal_logged m_abort_log (rq_txn_id req) (t_file t) s s'
         end).
Proof.
  intros Hok Hreq HC HClog. set (id := rq_txn_id req) in *.
  assert (HC0 : C s) by by apply HC.
  unfold ABORT. bstep. bstep. bstep. apply wp_check; [done|]. unfold spec_ABORT. fold id.
  change (committed (abs s)) with (m_commits s).
  destruct (bool_decide (id ∈ m_commits s)) eqn:Ec.
  { bstep. bstep. bstep. release. by bstep. }
  destruct (m_txn_id_to_transaction_attributes s !! id) as [a|] eqn:Hid.
  2: { rewrite (bool_decide_eq_false_2 (is_Some None)) by by intros [].
    rewrite (active_none s id) by done. bstep. bstep. bstep. release. by bstep. }
  rewrite (bool_decide_eq_true_2 (is_Some (Some a))) by done.
  destruct (ok_lookup _ _ _ Hok Hid) as (t & f & Ht & Hf & Hact & Htok & Hname).
  rewrite Hact in *.
  wp_step. apply wp_find_txn with a; [done..|]. bstep. release. bstep. bstep. bstep. bstep.
  bstep. apply wp_check; [done|]. fold id. rewrite Ec, Hid, bool_decide_eq_true_2 by done.
  bstep. release. bstep. apply wp_txn_get with t; [done..|].
  bstep. apply wp_file_get with f; [done..|]. wp_step.
  eapply wp_mono; [eapply logTransaction_spec; [done|done|]|done|].
  { intros s' b _ Hl. by eapply HClog. }
  intros _ ls' s1 HC1 (-> & Hs1 & b & Hl & Hb).
  pose proof Hs1 as ([w Ew] & Hw1 & Hw2 & Hw3). set (s2 := removed id a t f s1).
  assert (HC2 : ∀ s', backend_world s' = backend_world s1 → C s').
  { intros s' E. apply (HClog s' b (txn_of t f)); [done|].
    by rewrite (world_files s1 s' E). }
  wp_step. apply wp_remove with a t f; [by subst..|done|]. fold s2.
  assert (E2 : backend_world s2 = backend_world s1) by apply removed_world.
  bstep. eapply wp_set_ack; [done|by apply HC2|]. bstep. release; [by apply HC2|].
  bstep; [by apply HC2|]. split; [done|].
  split; [apply ok_removed; [by eapply ok_same_but_files|by subst..]|].
  split; [|split; [|split; [|split]]].
  - unfold s2. rewrite abs_removed by (subst; try done; by apply (ok_frame s)).
    by rewrite (abs_same_but_files s s1).
  - unfold same_world, calm. simpl. by rewrite E2.
  - unfold s2. rewrite (proj1 (removed_rest _ _ _ _ _)). by subst.
  - unfold s2. rewrite (proj2 (removed_rest _ _ _ _ _)). by subst.
  - exists b. by rewrite (world_files s1 s2).
Qed.

(** [READ] answers with the file up to its first NUL and changes nothing. *)
Lemma READ_spec C req ip s :
  request_ok req →
  (∀ c, files s !! resolve (m_directory ++ rq_data req) = Some c → len c < INT32_MAX) →
  (∀ s', same_but_files s s' → files s' = files s → C s') →
  wp tid C (READ m_directory req ip) ∅ s (λ r ls' s', ls' = ∅ ∧ same_but_files s s' ∧
    files s' = files s ∧
    match files s !! resolve (m_directory ++ rq_data req) with
    | Some c => r = read_reply req (c_str c) ip ∨
        ¬ calm s ∧ (r = error_reply req Errors.ErrorOpeningFile ∨
                    r = error_reply req Errors.ErrorReadingFile)
    | None => r = error_reply req Errors.ErrorOpeningFile
    end).
Proof.
  intros Hreq Hlen HC. set (path := m_directory ++ rq_data req) in *. unfold READ. fold path.
  assert (Hopen : is_Some (files s !! resolve path) → opened path (files s) = files s).
  { intros [c E]. unfold opened. by rewrite E. }
  pose proof (with_File_spec tid C path O_RDONLY
    (λ file, let? buffer := File_read file in lift (SET_READ req buffer ip)) ∅ s
    (λ r s', same_but_files s s' ∧ files s' = files s ∧
      match r with
      | inr r => ∃ c, files s !! resolve path = Some c ∧ r = read_reply req (c_str c) ip
      | inl e => (e = ErrorOpeningFile ∨ e = ErrorReadingFromFile ∧ is_Some (files s !! resolve path)) ∧
                 (is_Some (files s !! resolve path) → ¬ calm s)
      end)) as Hspec.
  assert (HCx : has_flag O_CREAT O_RDONLY = false) by done.
  eapply wp_try_catch; [apply Hspec; clear Hspec|..].
  - done.
  - intros s' Hs [Hf|[Hf [Hx|Hx]]]; [by apply HC|..]; [|by rewrite HCx in Hx].
    apply HC; [done|]. by rewrite Hopen in Hf.
  - intros s1 Hs1 Hf1 [[c Hc]|]; [|by rewrite HCx in *].
    rewrite Hopen in Hf1 by done. specialize (Hlen _ Hc).
    eapply wp_eseq; [eapply File_read_spec; [done|by rewrite Hf1|done|]|..].
    + intros s' Hs' Hf'. apply HC; [by etrans|congruence].
    + intros e ls' s' _ (-> & Hs' & Hf' & -> & Hcalm). split; [done|].
      split; [by etrans|]. split; [congruence|]. rewrite Hc. split; [by right|].
      intros _ Hcs. by apply Hcalm, Hs1.
    + intros d ls' s' HC' (-> & Hs' & Hf' & ->). apply wp_lift.
      apply wp_set_read; [done| |done|].
      * pose proof (c_str_length c). lia.
      * split; [done|]. split; [by etrans|]. split; [congruence|eauto].
  - intros s1 Hs1 Hf1 Hno. split; [done|]. split; [done|]. split; [by left|].
    intros [c Hc] Hcalm. apply Hno in Hcalm as [? _]. congruence.
  - intros r ls' s' _ (-> & Hs & Hf & c & -> & ->). eauto 10.
  - intros e ls' s' HC' (-> & Hs & Hf & He & Hcalm).
    destruct He as [->|[-> Hx]]; (eapply wp_set_error; [done|done|done|]);
      (split; [done|]; split; [done|]; split; [done|]).
    + destruct (files s !! resolve path); [right; split; [apply Hcalm; eauto|by left]|done].
    + specialize (Hcalm Hx). destruct Hx as [c ->]. right. split; [done|by right].
Qed.

(** ** Picking an id *)

(** The id a result of [rand()] proposes. *)
Definition candidate (r : Z) : Z := Z.rem r INT32_MAX.

Definition with_rand (l : list Z) s : ServerBackend :=
  set_backend_world {| w_fs := w_fs (backend_world s); w_now := w_now (backend_world s);
                       w_rand := l; w_sched := w_sched (backend_world s) |} s.

(** The next results of [rand()]: [pre] propose ids in use, [r] a free one. *)
Definition next_free (m : gmap Z Txn) (l pre : list Z) (r : Z) (post : list Z) : Prop :=
  l = pre ++ r :: post ∧ Forall (λ r, is_Some (m !! candidate r)) pre ∧ m !! candidate r = None.

Lemma candidate_int32 r : int32 (candidate r).
Proof.
  unfold int32, candidate, INT32_MIN.
  pose proof (Z.rem_bound_abs r INT32_MAX ltac:(done)) as Hb. unfold INT32_MAX in *. lia.
Qed.

Lemma wp_next_rand C x l ls s (Q : option Z → locks → ServerBackend → Prop) :
  w_rand (backend_world s) = x :: l → (∀ s', files s' = files s → C s') →
  Q (Some x) ls (with_rand l s) → wp tid C (syscall w_next_rand) ls s Q.
Proof.
  intros Hl HC HQ. unfold w_next_rand. apply wp_syscall;
    change (the_world s) with (backend_world s); rewrite ?Hl; [by apply HC|by apply HC|done].
Qed.

Lemma candidate_loop_spec C fuel pre r post ls s :
  backend_ok s → next_free (active (abs s)) (w_rand (backend_world s)) pre r post →
  (length pre < fuel)%nat → (∀ s', files s' = files s → C s') →
  wp tid C (candidate_loop fuel) ls s (λ id ls' s',
    ls' = ls ∧ id = candidate r ∧ s' = with_rand post s).
Proof.
  intros Hok. revert fuel s Hok.
  induction pre as [|x pre IH]; intros fuel s Hok (Hl & Hpre & Hfree) Hfuel HC;
    (destruct fuel as [|fuel]; [simpl in Hfuel; lia|]); simpl; wp_step;
    (apply (wp_next_rand C _ _ _ _ _ Hl HC)); cbv beta iota; unfold is_active;
    (wp_step; wp_step; [by apply HC|]).
  - rewrite bool_decide_eq_false_2; [wp_step; [by apply HC|done]|].
    intros Hx. change (is_Some (m_txn_id_to_transaction_attributes s !! candidate r)) in Hx.
    apply (ok_active _ _ Hok) in Hx. rewrite Hfree in Hx. by destruct Hx.
  - apply Forall_cons in Hpre as [Hx Hpre]. rewrite bool_decide_eq_true_2.
    2: { change (is_Some (m_txn_id_to_transaction_attributes s !! candidate x)). by apply ok_active. }
    eapply wp_mono; [apply (IH fuel (with_rand (pre ++ r :: post) s))|done|].
    + by apply (ok_frame s).
    + by split; [|split].
    + simpl in Hfuel. lia.
    + done.
    + by intros id ls' s' _ (-> & -> & ->).
Qed.

(** A NEW_TXN request with a sequence number other than 0 is refused. *)
Lemma NEW_TXN_refused C req ip s :
  request_ok req → rq_seq_num req ≠ 0 → C s →
  wp tid C (NEW_TXN m_directory req ip) ∅ s (λ r ls' s', ls' = ∅ ∧ s' = s ∧
    r = error_reply req Errors.InvalidSequenceNumber).
Proof.
  intros Hreq Hseq HC. unfold NEW_TXN. rewrite (proj2 (Z.eqb_neq _ 0)) by done.
  by eapply wp_set_error.
Qed.

(** [NEW_TXN] starts a transaction under a free id, logs it and starts its timer. *)
Lemma NEW_TXN_spec C req ip pre r post s :
  backend_ok s → request_ok req → rq_seq_num req = 0 →
  next_free (active (abs s)) (w_rand (backend_world s)) pre r post →
  (∀ s' b, logged (m_directory ++ m_transaction_log) (candidate r) (rq_data req) (files s) b (files s') → C s') →
  wp tid C (NEW_TXN m_directory req ip) ∅ s (λ rep ls' s', ls' = ∅ ∧ backend_ok s' ∧
    (abs s', rep) = spec_NEW_TXN (w_now (backend_world s)) (candidate r)
                      (size_of (files s) (rq_data req)) req ip (abs s) ∧
    w_now (backend_world s') = w_now (backend_world s) ∧ w_rand (backend_world s') = post ∧
    (calm s → calm s') ∧
    timers s' = timers s ++ [{| tm_txn_id := candidate r;
      tm_latest_timestamp := w_now (backend_world s); tm_file_name := rq_data req |}] ∧
    m_initialize s' = m_initialize s ∧
    removal_logged m_transaction_log (candidate r) (rq_data req) s s').
Proof.
  intros Hok Hreq Hseq Hfree HC. set (id := candidate r) in *. set (name := rq_data req) in *.
  set (now := w_now (backend_world s)).
  assert (HCf : ∀ s', files s' = files s → C s').
  { intros s' Hf. apply (HC s' false). rewrite Hf. constructor. }
  unfold NEW_TXN, spec_NEW_TXN. rewrite Hseq. change (0 =? 0) with true. bstep. bstep; [by apply HCf|]. bstep. unfold pick_candidate.
  bstep. bstep; [by apply HCf|].
  eapply wp_mono; [eapply (candidate_loop_spec C _ pre r post); [done|done| |done]|done|].
  { destruct Hfree as [-> _]. rewrite length_app. simpl. lia. }
  fold id. intros _ _ _ HC1 (-> & -> & ->). set (s0 := with_rand post s) in *.
  assert (Hok0 : backend_ok s0) by by apply (ok_frame s).
  assert (Hid : m_txn_id_to_transaction_attributes s0 !! id = None).
  { apply eq_None_not_Some. intros Hx. destruct Hfree as (_ & _ & Hn).
    change (m_txn_id_to_transaction_attributes s0) with (m_txn_id_to_transaction_attributes s) in Hx.
    apply (ok_active _ _ Hok) in Hx. fold id in Hn. rewrite Hn in Hx. by destruct Hx. }
  bstep. eapply wp_try_catch.
  { unfold ebind. eapply wp_seq.
    - eapply (addNewTransaction_spec tid m_directory C id name); [done|done|apply Hreq|done|exact HC].
    - intros rr ls' s' HC' (-> & -> & Hs'). apply wp_ret; [done|].
      instantiate (1 := λ x ls' s', x = inr None ∧ ls' = <[m_member_mtx:=tid]> ∅ ∧
        transaction_added m_directory id name s0 s'). done. }
  2: { intros e ls' s' _ ([=] & _). }
  intros x ls' s' HC' ([= ->] & -> & s1 & b & Hs1 & -> & Hl & Hb). cbv beta iota.
  destruct (with_new_transaction_spec id name (size_of (files s0) name) now s0)
    as (Hok1 & Habs1 & Hw1 & Ht1 & Hi1); [done|done|apply Hreq|].
  change (files s0) with (files s) in *. change (w_now (backend_world s0)) with now in *.
  bstep. eapply wp_set_new_txn; [apply candidate_int32|done|]. bstep. release.
  bstep. split; [done|].
  pose proof Hs1 as ([w Ew] & Hn & Hr & Hc). change (the_world) with backend_world in Hn, Hr.
  rewrite Hw1 in Hn, Hr. split; [|split; [|split; [|split; [|split; [|split; [|split]]]]]].
  - by apply (ok_frame s1), (ok_same_but_files _ _ Hs1).
  - change (abs (set_timers _ s1)) with (abs s1). by rewrite (abs_same_but_files _ _ Hs1), Habs1.
  - exact Hn.
  - exact Hr.
  - intros Hcs. apply Hc. unfold calm. simpl. by rewrite Hw1.
  - done.
  - subst s1. exact Hi1.
  - by exists b.
Qed.

(** ** The timer *)

(** A timer that wakes up removes its transaction if the last update is a timeout ago,
    and otherwise sleeps until a timeout after that update. *)
Lemma txn_timer_turn_spec C tm s :
  backend_ok s → nul_free (tm_file_name tm) = true →
  tm_latest_timestamp tm + seconds Constants.transaction_timeout_seconds ≤ w_now (backend_world s) →
  (∀ s' b, logged (m_directory ++ m_timeout_log) (tm_txn_id tm) (tm_file_name tm) (files s) b (files s') → C s') →
  wp tid C (txn_timer_turn m_directory tm) ∅ s (λ r ls' s', ls' = ∅ ∧ backend_ok s' ∧
    abs s' = spec_timer (w_now (backend_world s)) (tm_txn_id tm) (abs s) ∧ same_world s s' ∧
    timers s' = timers s ∧
    match active (abs s) !! tm_txn_id tm with
    | None => r = None ∧ files s' = files s
    | Some t =>
        if t_timestamp t + seconds Constants.transaction_timeout_seconds <=? w_now (backend_world s)
        then r = None ∧ removal_logged m_timeout_log (tm_txn_id tm) (tm_file_name tm) s s'
        else r = Some (t_timestamp t) ∧ files s' = files s
    end).
Proof.
  intros Hok Hname Hwake HC. set (id := tm_txn_id tm) in *.
  set (now := w_now (backend_world s)) in *.
  assert (HCf : ∀ s', files s' = files s → C s').
  { intros s' Hf. apply (HC s' false). rewrite Hf. constructor. }
  unfold txn_timer_turn, spec_timer. fold id. wp_step. apply wp_wait; [by apply HCf|by apply Z.leb_le|].
  bstep. bstep; [by apply HCf|]. bstep. bstep; [by apply HCf|].
  destruct (m_txn_id_to_transaction_attributes s !! id) as [a|] eqn:Hid.
  2: { rewrite (active_none s id) by done. bstep. release; [by apply HCf|]. by bstep; [apply HCf|]. }
  destruct (ok_lookup _ _ _ Hok Hid) as (t & f & Ht & Hf & Hact & _). rewrite Hact.
  bstep. unfold NOW, syscall_reads. bstep; [by apply HCf|]. change (w_now (the_world s)) with now.
  bstep. eapply wp_txn_get; [done|by apply HCf|]. change (t_timestamp (txn_of t f)) with (curr_timestamp t).
  destruct (curr_timestamp t + seconds Constants.transaction_timeout_seconds <=? now).
  2: { bstep. release; [by apply HCf|]. by bstep; [apply HCf|]. }
  bstep. eapply wp_remove; [done|done|done|by intros s' Es; apply HCf, world_files|].
  assert (Hok1 : backend_ok (removed id a t f s)) by by apply ok_removed.
  assert (Habs : abs (removed id a t f s) = spec_remove id (abs s)) by by apply abs_removed.
  pose proof (removed_world id a t f s) as Hw. set (s1 := removed id a t f s) in *.
  assert (Hf1 : files s1 = files s) by by apply world_files.
  wp_step. eapply wp_mono; [eapply logTransaction_spec; [done|done|]|done|].
  { intros s' b _ Hl. rewrite Hf1 in Hl. by eapply HC. }
  intros _ ls' s2 HC2 (-> & Hs2 & b & Hl & Hb). rewrite Hf1 in Hl.
  bstep. release. bstep. split; [done|]. pose proof Hs2 as ([w Ew] & Hn & Hr & Hc).
  split; [by eapply ok_same_but_files|].
  split; [by rewrite (abs_same_but_files _ _ Hs2)|].
  split. { unfold same_world. change (the_world) with backend_world in Hn, Hr. rewrite Hw in Hn, Hr.
    split; [done|]. split; [done|]. intros Hcs. apply Hc. unfold calm. simpl. by rewrite Hw. }
  split. { rewrite Ew. unfold s1. apply (proj1 (removed_rest id a t f s)). }
  split; [done|]. exists b. split; [done|]. intros Hcs. apply Hb. unfold calm. simpl. by rewrite Hw.
Qed.
End spec.
