(* ===== verification/CommitSpec.v ===== *)
(** * What COMMIT does

    The transaction's buffers are written in the order of their sequence numbers, once
    every one up to the announced maximum is there.  The two loops are proved against
    [least_missing] and [payload]; the whole command against [spec_COMMIT] for its checks
    and [commit_outcome] for the three ways the writing can end. *)
From S2P Require Import Prelude Stdcxx Constants WireProtocol Messages Prog ReadWrite Posix File Backend BackendInv BackendSteps BackendSpec.
From Stdlib Require Import ZArith Lia List Ascii String Bool.
From stdpp Require Import base gmap strings list fin_maps fin_map_dom sorting.
#[local] Set Default Goal Selector "!".
Local Open Scope Z_scope.

(** ** The least sequence number not received *)

Fixpoint least_missing_from (fuel : nat) (m : gmap Z bytes) (k : Z) : Z :=
  match fuel with
  | O => k
  | S fuel => match m !! k with Some _ => least_missing_from fuel m (k + 1) | None => k end
  end.

Definition least_missing (m : gmap Z bytes) : Z := least_missing_from (S (size m)) m 1.

(** A map with a key in each place of a range has at least as many entries. *)
Lemma range_size (m : gmap Z bytes) k n :
  (∀ i, k ≤ i < k + Z.of_nat n → is_Some (m !! i)) → (n ≤ size m)%nat.
Proof.
  intros Hin. rewrite <- size_dom.
  assert (E : size (list_to_set (seqZ k (Z.of_nat n)) : gset Z) = n).
  { rewrite size_list_to_set by apply NoDup_seqZ. rewrite length_seqZ. lia. }
  rewrite <- E at 1. apply subseteq_size. intros i Hi%elem_of_list_to_set%elem_of_seqZ.
  apply elem_of_dom, Hin. lia.
Qed.

Lemma least_missing_from_spec fuel m k :
  1 ≤ k → (∀ i, 1 ≤ i < k → is_Some (m !! i)) → Z.of_nat (size m) + 1 < Z.of_nat fuel + k →
  k ≤ least_missing_from fuel m k ∧ m !! least_missing_from fuel m k = None ∧
  ∀ i, 1 ≤ i < least_missing_from fuel m k → is_Some (m !! i).
Proof.
  revert k; induction fuel as [|fuel IH]; intros k Hk Hin Hsize; simpl.
  - exfalso. assert (Z.to_nat (k - 1) ≤ size m)%nat; [|lia].
    apply (range_size m 1). intros i Hi. apply Hin. lia.
  - destruct (m !! k) as [d|] eqn:E; [|by auto with lia].
    destruct (IH (k + 1)) as (H1 & H2 & H3); [lia| |lia|split; [lia|done]].
    intros i Hi. destruct (decide (i = k)) as [->|]; [by exists d|]. apply Hin. lia.
Qed.

(** It is the least key from 1 on that is missing. *)
Lemma least_missing_spec m :
  1 ≤ least_missing m ∧ m !! least_missing m = None ∧
  ∀ i, 1 ≤ i < least_missing m → is_Some (m !! i).
Proof. apply least_missing_from_spec; intros; lia. Qed.

Lemma least_missing_size m : least_missing m ≤ Z.of_nat (size m) + 1.
Proof.
  destruct (least_missing_spec m) as (H1 & _ & H3).
  assert (Z.to_nat (least_missing m - 1) ≤ size m)%nat; [|lia].
  apply (range_size m 1). intros i Hi. apply H3. lia.
Qed.

Lemma least_missing_unique m k :
  1 ≤ k → m !! k = None → (∀ i, 1 ≤ i < k → is_Some (m !! i)) → k = least_missing m.
Proof.
  intros Hk Hn Hin. destruct (least_missing_spec m) as (H1 & H2 & H3).
  destruct (Z.lt_trichotomy k (least_missing m)) as [Hlt|[->|Hgt]]; [|done|].
  - destruct (H3 k) as [d Hd]; [lia|congruence].
  - destruct (Hin (least_missing m)) as [d Hd]; [lia|congruence].
Qed.

(** ** The data of a transaction, in order *)

Definition payload_from (m : gmap Z bytes) (k n : Z) : bytes :=
  concat ((λ i, default [] (m !! i)) <$> seqZ k (n - k + 1)).

(** The buffers 1 to [n], one after the other. *)
Definition payload (m : gmap Z bytes) (n : Z) : bytes := payload_from m 1 n.

Lemma payload_from_nil m k n : n < k → payload_from m k n = [].
Proof. intros. unfold payload_from. by rewrite seqZ_nil by lia. Qed.

Lemma payload_from_cons m k n :
  k ≤ n → payload_from m k n = default [] (m !! k) ++ payload_from m (k + 1) n.
Proof.
  intros. unfold payload_from. rewrite seqZ_cons by lia. replace (k + 1) with (Z.succ k) by lia.
  by replace (n - Z.succ k + 1) with (Z.pred (n - k + 1)) by lia.
Qed.

Section loops.
Context `{PathResolution} (tid : nat).
Implicit Types s : ServerBackend.

(** The verification loop finds it. *)
Lemma verify_loop_spec C fuel a t k ls s :
  txn_nodes s !! a = Some t → max_seq_num t < INT32_MAX → C s →
  1 ≤ k → (∀ i, 1 ≤ i < k → is_Some (buffers t !! i)) →
  Z.of_nat (size (buffers t)) + 1 < Z.of_nat fuel + k →
  wp tid C (verify_loop fuel a k) ls s (λ r ls' s', ls' = ls ∧ s' = s ∧
    r = if least_missing (buffers t) <=? max_seq_num t then Some (least_missing (buffers t)) else None).
Proof.
  intros Ht Hmax HC. revert k; induction fuel as [|fuel IH]; intros k Hk Hin Hsize.
  - exfalso. assert (Z.to_nat (k - 1) ≤ size (buffers t))%nat; [|lia].
    apply (range_size _ 1). intros i Hi. apply Hin. lia.
  - simpl. wp_step. apply wp_txn_get with t; [done..|].
    destruct (least_missing_spec (buffers t)) as (H1 & H2 & H3).
    destruct (Z.leb_spec k (max_seq_num t)) as [Hle|Hgt].
    + wp_step. apply wp_txn_get with t; [done..|].
      destruct (buffers t !! k) as [d|] eqn:Ed.
      * rewrite bool_decide_eq_true_2 by done.
        rewrite (proj2 (Z.eqb_neq k INT32_MAX)) by lia. apply IH; [lia| |lia].
        intros i Hi. destruct (decide (i = k)) as [->|]; [by exists d|]. apply Hin. lia.
      * rewrite bool_decide_eq_false_2 by by intros [].
        apply wp_ret; [done|]. split; [done|]. split; [done|].
        rewrite <- (least_missing_unique (buffers t) k) by done.
        by rewrite (proj2 (Z.leb_le k _)) by lia.
    + apply wp_ret; [done|]. split; [done|]. split; [done|].
      rewrite (proj2 (Z.leb_gt _ _)); [done|].
      destruct (Z.le_gt_cases (least_missing (buffers t)) (max_seq_num t)) as [Hle|]; [|done].
      destruct (Hin (least_missing (buffers t))) as [d Hd]; [lia|congruence].
Qed.

(** The writing loop appends the payload, or throws having appended part of it. *)
Lemma write_buffers_spec C f a t c fs fuel k pre ls s :
  txn_nodes s !! a = Some t → txn_ok t → max_seq_num t < INT32_MAX →
  (∀ i, k ≤ i ≤ max_seq_num t → is_Some (buffers t !! i)) →
  writable (m_flags f) = true → k ≤ max_seq_num t + 1 →
  max_seq_num t - k + 1 < Z.of_nat fuel →
  files s = <[m_fd f := c ++ pre]> fs →
  (∀ s' j, same_but_files s s' →
     files s' = <[m_fd f := c ++ take j (pre ++ payload_from (buffers t) k (max_seq_num t))]> fs → C s') →
  wp tid C (write_buffers fuel f a k) ls s (λ r ls' s', ls' = ls ∧ same_but_files s s' ∧
    match r with
    | inl e => e = ErrorWritingToFile ∧ ¬ calm s ∧
        ∃ j, (j < length (pre ++ payload_from (buffers t) k (max_seq_num t)))%nat ∧
          files s' = <[m_fd f := c ++ take j (pre ++ payload_from (buffers t) k (max_seq_num t))]> fs
    | inr _ => files s' = <[m_fd f := c ++ (pre ++ payload_from (buffers t) k (max_seq_num t))]> fs
    end).
Proof.
  intros Ht Htok Hmax Hin Hw. revert k pre s Ht Hin.
  induction fuel as [|fuel IH]; intros k pre s Ht Hin Hk Hfuel Hf HC; [lia|].
  set (total := pre ++ payload_from (buffers t) k (max_seq_num t)) in *.
  assert (HC0 : C s).
  { apply (HC s (length pre)); [done|]. unfold total. by rewrite take_app_length. }
  simpl. wp_step. wp_step. apply wp_txn_get with t; [done..|].
  destruct (Z.leb_spec k (max_seq_num t)) as [Hle|Hgt].
  - destruct (Hin k) as [d Hd]; [lia|]. wp_step. wp_step. apply wp_txn_get with t; [done..|].
    rewrite Hd. assert (Et : total = pre ++ d ++ payload_from (buffers t) (k + 1) (max_seq_num t)).
    { unfold total. rewrite payload_from_cons by lia. by rewrite Hd. }
    eapply wp_eseq; [eapply (append_spec tid C f c pre d fs); [done| |done|]|..].
    + by eapply (txn_buffer t Htok k).
    + intros s' j Hs' Hf'. eapply HC; [done|]. rewrite Et, <- take_prefix. exact Hf'.
    + intros e ls' s' _ (-> & Hs' & -> & Hcalm & j & Hj & Hf'). split; [done|]. split; [done|].
      split; [done|]. split; [done|]. exists (length pre + Nat.min j (length d))%nat.
      rewrite Et at 2. rewrite <- take_prefix. split; [|done].
      rewrite Et, !length_app. lia.
    + intros [] ls' s1 HC1 (-> & Hs1 & Hf1).
      rewrite (proj2 (Z.eqb_neq k INT32_MAX)) by lia.
      rewrite (app_assoc pre) in Et.
      eapply wp_mono; [apply (IH (k + 1) (pre ++ d) s1)|done|].
      * by destruct Hs1 as ([w ->] & _).
      * intros i Hi. apply Hin. lia.
      * lia.
      * lia.
      * done.
      * intros s' j Hs' Hf'. apply (HC s' j); [by etrans|]. by rewrite Et.
      * rewrite <- Et. intros [e|u] ls' s' _ (-> & Hs' & Hr);
          (split; [done|]; split; [by etrans|]); [|done].
        destruct Hr as (-> & Hcalm & Hr). split; [done|]. split; [|done].
        intros Hc. apply Hcalm. by apply Hs1.
  - wp_step. split; [done|]. split; [done|]. unfold total.
    by rewrite payload_from_nil, app_nil_r by lia.
Qed.
End loops.

(** ** The command *)

(** Committing: the id is recorded, and the file's new size. *)
Definition spec_commit (id : Z) (name : bytes) (size : Z) (sp : Spec) : Spec :=
  {| active := active sp; committed := {[ id ]} ∪ committed sp; sizes := <[name := size]> (sizes sp) |}.

(** The checks: a reply that ends the command, or the transaction to write. *)
Definition spec_COMMIT (now : Z) (req : RequestTuple) (ip : bool) (sp : Spec) : (Spec * Reply) + Txn :=
  let id := rq_txn_id req in
  let seq_num := rq_seq_num req in
  if bool_decide (id ∈ committed sp) then inl (sp, ack_reply req ip)
  else match active sp !! id with
  | None => inl (sp, error_reply req Errors.InvalidTransactionId)
  | Some t =>
      if seq_num <? t_max_seq_num t then
        inl (spec_put id (touched now t) sp, error_reply req Errors.CommitWithInvalidSequenceNumber)
      else if least_missing (t_buffers t) <=? seq_num then
        inl (spec_put id (promised now seq_num t) sp,
             ask_resend_reply req (least_missing (t_buffers t)) ip)
      else inr t
  end.

Section commit.
Context `{PathResolution} (tid : nat) (m_directory : bytes).
Implicit Types s : ServerBackend.

(** The file a name denotes to COMMIT, and its contents before. *)
Definition target (name : bytes) : bytes := resolve (m_directory ++ name).

Definition contents (fs : gmap bytes bytes) (name : bytes) : bytes := default [] (fs !! target name).

(** The files while and after a transaction with this data is written, to a file whose
    recorded size is [size]. *)
Inductive commit_files (id : Z) (name data : bytes) (size : Z) (fs : gmap bytes bytes) :
    gmap bytes bytes → Prop :=
| cf_before : commit_files id name data size fs fs
| cf_writing j :
    commit_files id name data size fs (<[target name := contents fs name ++ take j data]> fs)
| cf_logging b fs' :
    logged (m_directory ++ m_commit_log) id name (<[target name := contents fs name ++ data]> fs) b fs' →
    commit_files id name data size fs fs'
| cf_rolled_back j c :
    <[target name := contents fs name ++ take j data]> fs !! resolve name = Some c →
    commit_files id name data size fs
      (<[resolve name := resized size c]> (<[target name := contents fs name ++ take j data]> fs)).

(** How the writing of a transaction whose buffers are all there ends. *)
Inductive commit_outcome (now : Z) (req : RequestTuple) (ip : bool) (t : Txn) (sp : Spec)
    (fs : gmap bytes bytes) (calmly : Prop) : Spec → gmap bytes bytes → Reply → Prop :=
| co_committed b fs' :
    logged (m_directory ++ m_commit_log) (rq_txn_id req) (t_file t)
      (<[target (t_file t) := contents fs (t_file t) ++ payload (t_buffers t) (rq_seq_num req)]> fs) b fs' →
    (calmly → b = true) →
    commit_outcome now req ip t sp fs calmly
      (spec_remove (rq_txn_id req)
        (spec_commit (rq_txn_id req) (t_file t) (len (contents fs' (t_file t)))
          (spec_put (rq_txn_id req) (promised now (rq_seq_num req) t) sp)))
      fs' (ack_reply req ip)
| co_not_opened :
    ¬ calmly →
    commit_outcome now req ip t sp fs calmly
      (spec_put (rq_txn_id req) (promised now (rq_seq_num req) t) sp) fs
      (error_reply req Errors.ErrorOpeningFile)
| co_not_written j size fs1 fs' :
    ¬ calmly → (j < length (payload (t_buffers t) (rq_seq_num req)))%nat →
    fs1 = <[target (t_file t) := contents fs (t_file t) ++
              take j (payload (t_buffers t) (rq_seq_num req))]> fs →
    sizes sp !! t_file t = Some size →
    (fs' = fs1 ∨ ∃ c, fs1 !! resolve (t_file t) = Some c ∧
                      fs' = <[resolve (t_file t) := resized size c]> fs1) →
    commit_outcome now req ip t sp fs calmly
      (spec_put (rq_txn_id req) (promised now (rq_seq_num req) t) sp) fs'
      (error_reply req Errors.ErrorWritingFile).

Lemma commit_outcome_calm now req ip t sp fs (calmly : Prop) sp' fs' r :
  commit_outcome now req ip t sp fs calmly sp' fs' r → calmly →
  r = ack_reply req ip ∧
  sp' = spec_remove (rq_txn_id req)
          (spec_commit (rq_txn_id req) (t_file t) (len (contents fs' (t_file t)))
            (spec_put (rq_txn_id req) (promised now (rq_seq_num req) t) sp)) ∧
  logged (m_directory ++ m_commit_log) (rq_txn_id req) (t_file t)
    (<[target (t_file t) := contents fs (t_file t) ++ payload (t_buffers t) (rq_seq_num req)]> fs) true fs'.
Proof. intros [b fs1 Hl Hb|Hn|j size fs1 fs2 Hn] Hcalm; [|done..]. by rewrite <- (Hb Hcalm). Qed.

Lemma same_but_files_set_commits c s s' :
  same_but_files s s' → same_but_files (set_commits c s) (set_commits c s').
Proof. intros ([w ->] & Hn & Hr & Hc). split; [by exists w|done]. Qed.

(** How COMMIT's [try] block ends: with the payload in the file, the id recorded, the
    commit logged and the file's size noted, or with an exception and part of it. *)
Definition written_to_file (id : Z) (t : TransactionAttributes) (f : FileAttributes) s
    (r : exn + unit) s' : Prop :=
  let name := m_file_name f in
  let data := payload (buffers t) (max_seq_num t) in
  match r with
  | inl ErrorOpeningFile => same_but_files s s' ∧ files s' = files s ∧ ¬ calm s
  | inl ErrorWritingToFile => same_but_files s s' ∧ ¬ calm s ∧
      ∃ j, (j < length data)%nat ∧ files s' = <[target name := contents (files s) name ++ take j data]> (files s)
  | inl _ => False
  | inr _ => ∃ s1 b, same_but_files (set_commits ({[ id ]} ∪ m_commits s) s) s1 ∧
      s' = put_file (sp_file_attributes t) (with_file_size (len (contents (files s1) name)) f) s1 ∧
      logged (m_directory ++ m_commit_log) id name
        (<[target name := contents (files s) name ++ data]> (files s)) b (files s') ∧
      (calm s → b = true)
  end.


(** Once the data is in the file: the id is recorded, the commit logged, the size noted. *)
Lemma record_commit_spec C id t f ls s s2 :
  let name := m_file_name f in
  let data := payload (buffers t) (max_seq_num t) in
  let fl := {| m_fd := resolve (m_directory ++ name); m_flags := Z.lor O_CREAT (Z.lor O_WRONLY O_APPEND) |} in
  file_nodes s !! sp_file_attributes t = Some f → nul_free name = true → ls !! g_mtx = None →
  same_but_files s s2 → files s2 = <[target name := contents (files s) name ++ data]> (files s) →
  C s2 → (∀ s' b, logged (m_directory ++ m_commit_log) id name (files s2) b (files s') → C s') →
  wp tid C (modify (λ s, set_commits ({[ id ]} ∪ m_commits s) s) ;;;
            logTransaction m_directory m_commit_log id name ;;;
            let! size := File_getFileSize fl in
            file_set (sp_file_attributes t) (with_file_size size)) ls s2
    (λ _ ls' s', ls' = ls ∧ written_to_file id t f s (inr tt) s').
Proof.
  intros name data fl Hf Hname Hg Hs02 Hf2 HC2 HC. set (path := m_directory ++ name) in *.
  wp_step. wp_step; [by apply (HC _ false); constructor|]. set (s3 := set_commits ({[id]} ∪ m_commits s2) s2).
  assert (Hs3 : same_but_files (set_commits ({[ id ]} ∪ m_commits s) s) s3).
  { unfold s3. replace (m_commits s2) with (m_commits s) by by destruct Hs02 as ([w ->] & _).
    by apply same_but_files_set_commits. }
  wp_step. eapply wp_mono; [eapply (logTransaction_spec tid C m_directory m_commit_log id name ls s3); [done|done|]|done|].
  - intros s' b _ Hl. by apply (HC s' b).
  - intros _ ls' s4 HC4 (-> & Hs4 & b & Hl & Hb). change (files s3) with (files s2) in Hl. pose proof Hl as Hl2. rewrite Hf2 in Hl.
    assert (Hs04 : same_but_files (set_commits ({[ id ]} ∪ m_commits s) s) s4) by by etrans.
    wp_step. unfold File_getFileSize. wp_step. unfold syscall_reads. wp_step.
    change (w_fstat (m_fd fl) (the_world s4)) with ((λ c, len c) <$> files s4 !! resolve path).
    assert (Hex : files s4 !! resolve path = Some (contents (files s4) name)).
    { unfold contents, target. fold path. destruct Hl as [|? k size Hk Hsize]; [by rewrite lookup_insert_eq|].
      destruct (decide (resolve path = resolve (m_directory ++ m_commit_log))) as [E|E].
      - by rewrite E, !lookup_insert_eq.
      - by rewrite lookup_insert_ne, lookup_insert_eq. }
    rewrite Hex. simpl. wp_step.
    apply wp_file_set with f; [by destruct Hs04 as ([w ->] & _)|done|by apply (HC _ b)|].
    split; [done|]. exists s4, b. split; [done|]. split; [done|]. split; [exact Hl|].
    intros Hc. apply Hb. by apply Hs02.
Qed.

Lemma commit_to_file_spec C id a t f ls s :
  let name := m_file_name f in
  let data := payload (buffers t) (max_seq_num t) in
  txn_nodes s !! a = Some t → file_nodes s !! sp_file_attributes t = Some f → txn_ok t →
  nul_free name = true → max_seq_num t < least_missing (buffers t) → max_seq_num t < INT32_MAX →
  ls !! g_mtx = None → ls !! m_file_mtx (sp_file_attributes t) = None →
  (∀ s', commit_files id name data (m_file_size f) (files s) (files s') → C s') →
  wp tid C (commit_to_file m_directory id a (sp_file_attributes t)) ls s (λ r ls' s', ls' = ls ∧
    written_to_file id t f s r s').
Proof.
  intros name data Ht Hf Htok Hname Hmiss Hmax Hg Hm HC.
  set (sp := sp_file_attributes t) in *. set (path := m_directory ++ name).
  set (old := contents (files s) name).
  assert (HC0 : ∀ s', files s' = files s → C s') by (intros s' E; apply HC; rewrite E; constructor).
  assert (HCw : ∀ s' j, files s' = <[resolve path := old ++ take j data]> (files s) → C s').
  { intros s' j E. apply HC. rewrite E. apply (cf_writing id name data (m_file_size f) (files s) j). }
  unfold commit_to_file. wp_step. wp_step; [by apply HC0|].
  wp_step. apply wp_file_get with f; [done|by apply HC0|].
  set (ls1 := <[m_file_mtx sp:=tid]> ls). fold name. fold path. wp_step.
  assert (Hopened : opened path (files s) = <[resolve path := old ++ []]> (files s)).
  { rewrite app_nil_r. unfold opened, old, contents, target. fold path.
    destruct (files s !! resolve path) eqn:E; [symmetry; by apply insert_id|done]. }
  eapply wp_mono; [apply (with_File_spec tid C path _ _ ls1 s (written_to_file id t f s))|done|].
  - unfold ls1. by rewrite lookup_insert_ne.
  - intros s' Hs [E|[E _]]; [by apply HC0|]. apply (HCw s' 0%nat). by rewrite E, Hopened.
  - intros s1 Hs1 Hf1 _. rewrite Hopened in Hf1. set (fl := {| m_fd := resolve path; m_flags := _ |}).
    pose proof Hs1 as ([w1 Ew1] & _).
    assert (Ht1 : txn_nodes s1 !! a = Some t) by by subst.
    wp_step. apply wp_lift. unfold loop_fuel. apply wp_txn_get with t; [done| |].
    { by apply (HCw s1 0%nat). }
    cbv beta iota. destruct (txn_max t Htok) as [Hmax1 _]. pose proof (least_missing_size (buffers t)) as Hsz.
    eapply wp_eseq; [eapply (write_buffers_spec tid C fl a t old (files s) _ 1 [] ls1 s1); try done|..].
    + intros i Hi. apply (least_missing_spec (buffers t)). lia.
    + lia.
    + lia.
    + intros s' j _ E. by apply (HCw s' j).
    + intros e ls' s' _ (-> & Hs' & -> & Hcalm & j & Hj & E). split; [done|]. simpl.
      split; [by etrans|]. split; [by intros Hc; apply Hcalm, Hs1|]. by exists j.
    + intros _ ls' s2 HC2 (-> & Hs2 & Hf2). change (files s2 = <[resolve path := old ++ data]> (files s)) in Hf2.
      apply wp_lift. apply record_commit_spec; [done|done|by unfold ls1; rewrite lookup_insert_ne|by etrans|done|done|].
      intros s' b Hl. apply HC, cf_logging with b. by rewrite Hf2 in Hl.
  - intros s' Hs E Hno. split; [done|]. split; [done|]. intros Hc. by destruct (Hno Hc).
  - intros r ls' s' HC' [-> HR]. wp_step. unfold ls1. apply wp_unlock; [done|by rewrite lookup_insert_eq|].
    rewrite delete_insert_id by done. by apply wp_ret.
Qed.

Lemma same_world_files s s' : same_but_files s s' → same_world s s'.
Proof. by intros (_ & ? & ? & ?). Qed.

Lemma same_but_files_rest s s' :
  same_but_files s s' → timers s' = timers s ∧ m_initialize s' = m_initialize s.
Proof. by intros ([w ->] & _). Qed.

Lemma abs_set_commits c s :
  abs (set_commits c s) = {| active := active (abs s); committed := c; sizes := sizes (abs s) |}.
Proof. done. Qed.

(** Telling the client which number is missing, or the COMMIT that it is too low, leaves a
    transaction whose maximum is what it announced. *)
Lemma txn_ok_promised t seq ts :
  txn_ok t → int32 seq → max_seq_num t ≤ seq → txn_ok (with_max_seq_num seq (with_timestamp ts t)).
Proof.
  intros [Hm Hb] Hs Hle. split; simpl; [unfold int32 in Hs; lia|].
  intros k d Hk. destruct (Hb k d Hk). split; [lia|done].
Qed.

(** COMMIT from the call that writes to the reply. *)
Definition commit_rest (req : RequestTuple) (ip : bool) (txn sp : positive) : prog ServerBackend Reply :=
  let! failed := try_catch
    (let? _ := commit_to_file m_directory (rq_txn_id req) txn sp in eret None)
    (λ e, match e with
          | ErrorOpeningFile =>
              Some (let! r := SET_ERROR req Errors.ErrorOpeningFile in Ret (Some r))
          | ErrorWritingToFile =>
              Some (
                let! file_name := file_get sp m_file_name in
                let! file_size := file_get sp m_file_size in
                let! _ := syscall (w_truncate file_name file_size) in
                let! r := SET_ERROR req Errors.ErrorWritingFile in Ret (Some r))
          | _ => None
          end) in
  match failed with
  | Some r => unlock (txn_mtx txn) ;;; Ret r
  | None =>
      lock m_member_mtx ;;;
      removeTransaction (rq_txn_id req) ;;;
      let! r := SET_ACK req ip in
      unlock (txn_mtx txn) ;;; unlock m_member_mtx ;;; Ret r
  end.

Section finish.
Context (C : ServerBackend → Prop) (req : RequestTuple) (ip : bool).
Context (a : positive) (t : TransactionAttributes) (f : FileAttributes) (s s1 : ServerBackend).

(** A transaction that passed the checks: [s1] is the state with its maximum and timestamp
    set, the transaction's mutex held. *)
Let id := rq_txn_id req.
Let name := m_file_name f.
Let sp := sp_file_attributes t.
Let now := w_now (backend_world s).
Let t1 := with_max_seq_num (rq_seq_num req) (with_timestamp now t).
Let data := payload (buffers t) (rq_seq_num req).
Let fs1 j := <[target name := contents (files s) name ++ take j data]> (files s).

Context (Hok : backend_ok s) (Hreq : request_ok req) (Hseq : rq_seq_num req < INT32_MAX).
Context (Hid : m_txn_id_to_transaction_attributes s !! id = Some a).
Context (Ht : txn_nodes s !! a = Some t) (Hf : file_nodes s !! sp = Some f).
Context (Es1 : s1 = put_txn a t1 s) (Ht1ok : txn_ok t1) (Hname : nul_free name = true).
Context (Hmiss : rq_seq_num req < least_missing (buffers t)).
Context (HC : ∀ s', commit_files id name data (m_file_size f) (files s) (files s') → C s').

(** How the rest of the command ends. *)
Let finished (r : Reply) (ls' : locks) s' : Prop :=
  ls' = ∅ ∧ backend_ok s' ∧ same_world s s' ∧ timers s' = timers s ∧ m_initialize s' = m_initialize s ∧
  commit_outcome now req ip (txn_of t f) (abs s) (files s) (calm s) (abs s') (files s') r.

Lemma finish_state :
  backend_ok s1 ∧ txn_nodes s1 !! a = Some t1 ∧ file_nodes s1 !! sp = Some f ∧
  m_txn_id_to_transaction_attributes s1 !! id = Some a ∧
  abs s1 = spec_put id (promised now (rq_seq_num req) (txn_of t f)) (abs s) ∧
  backend_world s1 = backend_world s ∧ m_commits s1 = m_commits s ∧
  timers s1 = timers s ∧ m_initialize s1 = m_initialize s.
Proof.
  rewrite Es1. split; [by eapply ok_put_txn|]. split; [apply lookup_put|]. split; [done|].
  split; [done|]. split; [by rewrite (abs_put_txn s id a t t1 f)|done].
Qed.

(** After world changes only, from [s1]. *)
Lemma finish_same s' fs' r :
  same_but_files s1 s' → files s' = fs' →
  commit_outcome now req ip (txn_of t f) (abs s) (files s) (calm s)
    (spec_put id (promised now (rq_seq_num req) (txn_of t f)) (abs s)) fs' r →
  finished r ∅ s'.
Proof.
  intros Hs' <- Hco. destruct finish_state as (Hok1 & _ & _ & _ & Habs1 & Ew & _ & Et & Ei).
  split; [done|]. split; [by eapply ok_same_but_files|].
  destruct (same_but_files_rest _ _ Hs') as [-> ->]. split; [|split; [done|split; [done|]]].
  - destruct Hs' as (_ & Hn & Hr & Hc). simpl in Hn, Hr. rewrite Ew in Hn, Hr.
    split; [done|]. split; [done|]. intros Hcs. apply Hc. unfold calm. simpl. by rewrite Ew.
  - by rewrite (abs_same_but_files _ _ Hs'), Habs1.
Qed.

Lemma finish_calm : calm s1 ↔ calm s.
Proof.
  destruct finish_state as (_ & _ & _ & _ & _ & Ew & _). unfold calm. simpl. by rewrite Ew.
Qed.

Lemma finish_files : files s1 = files s.
Proof. apply world_files. by destruct finish_state as (_ & _ & _ & _ & _ & -> & _). Qed.

(** The file could not be opened. *)
Lemma finish_not_opened s' k :
  written_to_file id t1 f s1 (inl ErrorOpeningFile) s' →
  wp tid C (let! r := SET_ERROR req Errors.ErrorOpeningFile in Ret (Some r))
    (<[txn_mtx a := tid]> ∅) s' (λ r ls' s', wp tid C
      match r with Some r => unlock (txn_mtx a) ;;; Ret r | None => k end ls' s' finished).
Proof.
  intros (Hs' & Hf' & Hcalm). rewrite finish_files in Hf'.
  assert (HCf : C s') by (apply HC; rewrite Hf'; constructor).
  wp_step. eapply wp_set_error; [done|done|done|]. wp_step. wp_step. release. wp_step.
  apply finish_same with (files s); [done|done|]. apply co_not_opened. by rewrite <- finish_calm.
Qed.

(** What [truncate] leaves. *)
Lemma truncate_files path size s' :
  let s2 := set_world (w_truncate path size (the_world s')).2 s' in
  same_but_files s' s2 ∧
  (files s2 = files s' ∨
   ∃ c, files s' !! resolve path = Some c ∧ files s2 = <[resolve path := resized size c]> (files s')).
Proof.
  intros s2. split; [apply syscall_same, w_truncate_step|]. unfold s2. rewrite files_set.
  apply w_truncate_fs.
Qed.

(** A write failed: the command tries to cut the file back to its recorded size. *)
Lemma finish_not_written s' k :
  written_to_file id t1 f s1 (inl ErrorWritingToFile) s' →
  wp tid C (let! file_name := file_get sp m_file_name in
            let! file_size := file_get sp m_file_size in
            let! _ := syscall (w_truncate file_name file_size) in
            let! r := SET_ERROR req Errors.ErrorWritingFile in Ret (Some r))
    (<[txn_mtx a := tid]> ∅) s' (λ r ls' s', wp tid C
      match r with Some r => unlock (txn_mtx a) ;;; Ret r | None => k end ls' s' finished).
Proof.
  intros (Hs' & Hcalm & j & Hj & Hf'). rewrite finish_files in Hf'.
  change (files s' = fs1 j) in Hf'. pose proof Hs' as ([w' Ew'] & _).
  assert (Hfp : file_nodes s' !! sp = Some f) by (subst s' s1; done).
  assert (Hsize : sizes (abs s) !! name = Some (m_file_size f)) by by apply sizes_file with sp.
  assert (HCf : C s') by (apply HC; rewrite Hf'; apply cf_writing).
  destruct (truncate_files name (m_file_size f) s') as [Hs2 Htr]. rewrite Hf' in Htr.
  set (s2 := set_world (w_truncate name (m_file_size f) (the_world s')).2 s') in *.
  assert (HC2 : C s2).
  { apply HC. destruct Htr as [->|(c & Hc & ->)]; [apply cf_writing|by apply cf_rolled_back]. }
  wp_step. apply wp_file_get with f; [done|done|].
  wp_step. apply wp_file_get with f; [done|done|]. fold name.
  wp_step. apply wp_syscall; [done|done|]. fold s2.
  wp_step. eapply wp_set_error; [done|done|done|]. wp_step. wp_step. release. wp_step.
  apply finish_same with (files s2); [by etrans|done|].
  apply co_not_written with j (m_file_size f) (fs1 j); try done. by rewrite <- finish_calm.
Qed.

(** The payload is written: the transaction is removed and acknowledged. *)
Lemma finish_written s' :
  written_to_file id t1 f s1 (inr tt) s' →
  wp tid C (lock m_member_mtx ;;;
            removeTransaction id ;;;
            let! r := SET_ACK req ip in
            unlock (txn_mtx a) ;;; unlock m_member_mtx ;;; Ret r)
    (<[txn_mtx a := tid]> ∅) s' finished.
Proof.
  intros (s2 & b & Hs2 & Es3 & Hl & Hb). rewrite finish_files in Hl.
  destruct finish_state as (Hok1 & Ht1 & Hf1 & Hid1 & Habs1 & Ew & Em & Et & Ei).
  pose proof Hs2 as ([w2 Ew2] & Hn2 & Hr2 & Hc2). simpl in Hn2, Hr2. rewrite Ew in Hn2, Hr2.
  set (f2 := with_file_size (len (contents (files s2) (m_file_name f))) f) in *.
  assert (Hok2 : backend_ok s2) by (subst s2; by apply (ok_frame s1)).
  assert (Hf2 : file_nodes s2 !! sp = Some f) by by subst s2.
  assert (Hok3 : backend_ok s') by (subst s'; by apply (ok_put_file s2 sp f)).
  assert (Ht3 : txn_nodes s' !! a = Some t1) by by subst s' s2.
  assert (Hid3 : m_txn_id_to_transaction_attributes s' !! id = Some a) by by subst s' s2.
  assert (Hf3 : file_nodes s' !! sp_file_attributes t1 = Some f2) by (subst s'; apply lookup_insert_eq).
  assert (Ef3 : files s2 = files s') by by subst s'.
  assert (HCl : ∀ s'', backend_world s'' = backend_world s' → C s'').
  { intros s'' E. apply HC. rewrite (world_files s' s'') by done. by apply cf_logging with b. }
  wp_step. wp_step; [by apply HCl|]. wp_step.
  eapply wp_remove; [done|done|done|done|].
  set (s4 := removed id a t1 f2 s'). pose proof (removed_world id a t1 f2 s') as Ew4. fold s4 in Ew4.
  assert (Hf4 : files s4 = files s') by by apply world_files.
  wp_step. eapply wp_set_ack; [done|by apply HCl|]. wp_step. release; [by apply HCl|].
  wp_step. release; [by apply HCl|]. wp_step; [by apply HCl|].
  assert (Eabs : abs s4 = spec_remove id (spec_commit id name (len (contents (files s4) name))
    (spec_put id (promised now (rq_seq_num req) (txn_of t f)) (abs s)))).
  { rewrite Hf4, <- Ef3. unfold s4. rewrite abs_removed by done. f_equal. rewrite Es3.
    change (sp_file_attributes t1) with sp.
    rewrite (abs_put_file s2 sp f f2), (abs_same_but_files _ _ Hs2), abs_set_commits, Habs1, Em by done.
    done. }
  destruct (removed_rest id a t1 f2 s') as [Et4 Ei4]. fold s4 in Et4, Ei4.
  split; [done|]. split; [by apply ok_removed|]. split; [|split; [|split]].
  - unfold same_world, calm. simpl. rewrite Ew4, Es3. split; [done|]. split; [done|].
    intros Hcs. apply Hc2. unfold calm. simpl. by rewrite Ew.
  - rewrite Et4. by subst s' s2.
  - rewrite Ei4. by subst s' s2.
  - rewrite Eabs, Hf4. apply co_committed with b; [exact Hl|by intros; apply Hb, finish_calm].
Qed.

Lemma commit_finish : wp tid C (commit_rest req ip a sp) (<[txn_mtx a := tid]> ∅) s1 finished.
Proof.
  destruct finish_state as (Hok1 & Ht1 & Hf1 & _). unfold commit_rest.
  wp_step. eapply (wp_try_catch tid _ _ _ _ _ (λ r ls' s', ls' = <[txn_mtx a := tid]> ∅ ∧
    match r with
    | inl e => written_to_file id t1 f s1 (inl e) s'
    | inr o => o = None ∧ written_to_file id t1 f s1 (inr tt) s'
    end)).
  { eapply wp_eseq.
    - eapply (commit_to_file_spec C id a t1 f); [done|done|done|done|exact Hmiss|exact Hseq|done|done|].
      rewrite finish_files. exact HC.
    - intros e ls' s' _ HR. exact HR.
    - intros [] ls' s' HC' [-> HR]. by wp_step. }
  - intros o ls' s' HC' (-> & -> & HR). by apply finish_written.
  - intros e ls' s' HC' [-> HR]. destruct e; [| |by destruct HR|by destruct HR].
    + by apply finish_not_opened.
    + by apply finish_not_written.
Qed.
End finish.

(** [COMMIT] implements its specification: its checks, and for a transaction whose buffers
    are all there one of the outcomes. *)
Lemma COMMIT_spec C req ip s :
  backend_ok s → request_ok req → rq_seq_num req < INT32_MAX →
  (∀ s', files s' = files s → C s') →
  (∀ s' t size, spec_COMMIT (w_now (backend_world s)) req ip (abs s) = inr t →
     sizes (abs s) !! t_file t = Some size →
     commit_files (rq_txn_id req) (t_file t) (payload (t_buffers t) (rq_seq_num req)) size
       (files s) (files s') → C s') →
  wp tid C (COMMIT m_directory req ip) ∅ s (λ r ls' s', ls' = ∅ ∧ backend_ok s' ∧ same_world s s' ∧
    timers s' = timers s ∧ m_initialize s' = m_initialize s ∧
    match spec_COMMIT (w_now (backend_world s)) req ip (abs s) with
    | inl (sp', rep) => abs s' = sp' ∧ r = rep ∧ files s' = files s
    | inr t => commit_outcome (w_now (backend_world s)) req ip t (abs s) (files s) (calm s)
                 (abs s') (files s') r
    end).
Proof.
  intros Hok Hreq Hseq HC HCw. set (id := rq_txn_id req) in *. set (seq := rq_seq_num req) in *.
  assert (HC0 : C s) by by apply HC.
  unfold COMMIT, is_committed, is_active. unfold spec_COMMIT in *. fold id seq in HCw |- *.
  change (committed (abs s)) with (m_commits s) in *.
  bstep. bstep. bstep. bstep.
  destruct (bool_decide (id ∈ m_commits s)) eqn:Ec.
  { bstep. bstep. bstep. release. by bstep. }
  bstep. bstep. destruct (m_txn_id_to_transaction_attributes s !! id) as [a|] eqn:Hid.
  2: { rewrite (bool_decide_eq_false_2 (is_Some None)) by by intros [].
    rewrite (active_none s id) by done. simpl. bstep. bstep. bstep. release. by bstep. }
  rewrite (bool_decide_eq_true_2 (is_Some (Some a))) by done. simpl negb.
  destruct (ok_lookup _ _ _ Hok Hid) as (t & f & Ht & Hf & Hact & Htok & Hname). rewrite Hact in *.
  wp_step. apply wp_find_txn with a; [done..|]. bstep. release. bstep. bstep. bstep. bstep.
  bstep. apply wp_check; [done|]. fold id. rewrite Ec, Hid, bool_decide_eq_true_2 by done.
  bstep. release. bstep. eapply wp_update_timestamp; [done|done|by apply HC|].
  set (now := w_now (backend_world s)) in *.
  change (t_max_seq_num (txn_of t f)) with (max_seq_num t) in *.
  change (t_buffers (txn_of t f)) with (buffers t) in *.
  bstep. eapply wp_txn_get; [apply lookup_put|by apply HC|]. simpl max_seq_num.
  destruct (Z.ltb_spec seq (max_seq_num t)) as [Hlt|Hge].
  { bstep. eapply wp_set_error; [done|done|by apply HC|]. bstep. release; [by apply HC|].
    bstep; [by apply HC|]. split; [done|]. split; [|split; [done|split; [done|split; [done|]]]].
    - eapply ok_put_txn; [done|done|done|]. destruct Htok. by split.
    - split; [by rewrite (abs_put_txn s id a t _ f)|done]. }
  bstep. eapply wp_txn_set; [apply lookup_put|by apply HC..|]. rewrite put_put.
  assert (Hok1 : txn_ok (with_max_seq_num seq (with_timestamp now t))).
  { apply txn_ok_promised; [done|apply Hreq|done]. }
  bstep. eapply wp_txn_get; [apply lookup_put|by apply HC|]. simpl sp_file_attributes.
  bstep. unfold loop_fuel. eapply wp_txn_get; [apply lookup_put|by apply HC|]. simpl buffers.
  bstep. eapply wp_mono; [eapply (verify_loop_spec tid C _ a); [apply lookup_put|done|by apply HC|done| |]|done|].
  { intros i Hi. unfold Constants.initial_seq_num in Hi. lia. }
  { simpl. unfold Constants.initial_seq_num. lia. }
  intros missing ls' s' _ (-> & -> & ->). simpl buffers. simpl max_seq_num.
  destruct (Z.leb_spec (least_missing (buffers t)) seq) as [Hm|Hm].
  - bstep. eapply wp_set_ask_resend; [done| |by apply HC|].
    { destruct (least_missing_spec (buffers t)) as [? _]. unfold int32, INT32_MIN. lia. }
    bstep. release; [by apply HC|]. bstep; [by apply HC|].
    split; [done|]. split; [by eapply ok_put_txn|]. split; [done|]. split; [done|]. split; [done|].
    split; [by rewrite (abs_put_txn s id a t _ f)|done].
  - apply (commit_finish C req ip a t f s); try done. intros s' Hcf. apply (HCw s' (txn_of t f) (m_file_size f)); [done| |done].
    by apply sizes_file with (sp_file_attributes t).
Qed.
End commit.
