(* ===== verification/Service.v ===== *)
(** * The service the backend provides

    [spec_step] is what a client is promised of one request: a relation between the
    abstract state and the files before, the reply, and both after.  [processCommand]
    refines it, so what is proved of [spec_step] holds of every run of the server. *)
From S2P Require Import Prelude Stdcxx Constants WireProtocol Messages Prog ReadWrite Posix File Backend BackendInv BackendSteps BackendSpec CommitSpec.
From Stdlib Require Import ZArith Lia List Ascii String Bool.
From stdpp Require Import base gmap strings list fin_maps sorting.
#[local] Set Default Goal Selector "!".
Local Open Scope Z_scope.

Definition known_command (c : bytes) : bool :=
  bool_decide (c ∈ [Constants.read_cmd; Constants.new_txn_cmd; Constants.write_cmd;
                    Constants.commit_cmd; Constants.abort_cmd]).

Section service.
Context `{PathResolution} (m_directory : bytes).
Implicit Types (s : ServerBackend) (sp : Spec) (fs : gmap bytes bytes).

(** One request, at time [now]; [calmly] says that no system call fails, [fresh] is the id
    a NEW_TXN would get. *)
Inductive spec_step (now fresh : Z) (calmly : Prop) (req : RequestTuple) (ip : bool) (sp : Spec) fs :
    Reply → Spec → gmap bytes bytes → Prop :=
| step_unknown :
    known_command (rq_command req) = false →
    spec_step now fresh calmly req ip sp fs (error_reply req Errors.InvalidCommand) sp fs
| step_read c :
    rq_command req = Constants.read_cmd → fs !! target m_directory (rq_data req) = Some c →
    spec_step now fresh calmly req ip sp fs (read_reply req (c_str c) ip) sp fs
| step_read_failed e :
    rq_command req = Constants.read_cmd →
    (fs !! target m_directory (rq_data req) = None ∧ e = Errors.ErrorOpeningFile ∨
     ¬ calmly ∧ (e = Errors.ErrorOpeningFile ∨ e = Errors.ErrorReadingFile)) →
    spec_step now fresh calmly req ip sp fs (error_reply req e) sp fs
| step_new_txn b fs' :
    rq_command req = Constants.new_txn_cmd → rq_seq_num req = 0 → active sp !! fresh = None →
    logged (m_directory ++ m_transaction_log) fresh (rq_data req) fs b fs' → (calmly → b = true) →
    spec_step now fresh calmly req ip sp fs (new_txn_reply fresh ip)
      (spec_add fresh (rq_data req) (size_of fs (rq_data req)) now sp) fs'
| step_new_txn_refused :
    rq_command req = Constants.new_txn_cmd → rq_seq_num req ≠ 0 →
    spec_step now fresh calmly req ip sp fs (error_reply req Errors.InvalidSequenceNumber) sp fs
| step_write sp' r :
    rq_command req = Constants.write_cmd → spec_WRITE now req ip sp = (sp', r) →
    spec_step now fresh calmly req ip sp fs r sp' fs
| step_commit_checked sp' r :
    rq_command req = Constants.commit_cmd → spec_COMMIT now req ip sp = inl (sp', r) →
    spec_step now fresh calmly req ip sp fs r sp' fs
| step_commit t sp' fs' r :
    rq_command req = Constants.commit_cmd → spec_COMMIT now req ip sp = inr t →
    commit_outcome m_directory now req ip t sp fs calmly sp' fs' r →
    spec_step now fresh calmly req ip sp fs r sp' fs'
| step_abort_refused sp' r :
    rq_command req = Constants.abort_cmd →
    (rq_txn_id req ∈ committed sp ∨ active sp !! rq_txn_id req = None) →
    spec_ABORT req sp = (sp', r) →
    spec_step now fresh calmly req ip sp fs r sp' fs
| step_abort t b sp' fs' r :
    rq_command req = Constants.abort_cmd →
    rq_txn_id req ∉ committed sp → active sp !! rq_txn_id req = Some t →
    spec_ABORT req sp = (sp', r) →
    logged (m_directory ++ m_abort_log) (rq_txn_id req) (t_file t) fs b fs' → (calmly → b = true) →
    spec_step now fresh calmly req ip sp fs r sp' fs'.

(** What the server needs to answer: a file it can hold in memory, a free id among the
    results of [rand()], a COMMIT below the largest [int]. *)
Record servable (req : RequestTuple) (r : Z) s : Prop := {
  serve_read c : rq_command req = Constants.read_cmd →
    files s !! target m_directory (rq_data req) = Some c → len c < INT32_MAX;
  serve_new_txn : rq_command req = Constants.new_txn_cmd → rq_seq_num req = 0 →
    ∃ pre post, next_free (active (abs s)) (w_rand (backend_world s)) pre r post;
  serve_commit : rq_command req = Constants.commit_cmd → rq_seq_num req < INT32_MAX
}.

(** The request reaches the function of its command. *)
Lemma command_cases c :
  (known_command c = false ∧ m_command_to_function m_directory c = None) ∨
  (c = Constants.read_cmd ∧ m_command_to_function m_directory c = Some (READ m_directory)) ∨
  (c = Constants.new_txn_cmd ∧ m_command_to_function m_directory c = Some (NEW_TXN m_directory)) ∨
  (c = Constants.write_cmd ∧ m_command_to_function m_directory c = Some WRITE) ∨
  (c = Constants.commit_cmd ∧ m_command_to_function m_directory c = Some (COMMIT m_directory)) ∨
  (c = Constants.abort_cmd ∧ m_command_to_function m_directory c = Some (ABORT m_directory)).
Proof.
  unfold m_command_to_function, known_command.
  case_decide; [right; left; by split|].
  case_decide; [right; right; left; by split|].
  case_decide; [do 3 right; left; by split|].
  case_decide; [do 4 right; left; by split|].
  case_decide; [do 5 right; by split|].
  left. split; [|done]. apply bool_decide_eq_false_2.
  rewrite !elem_of_cons, elem_of_nil. by intros [?|[?|[?|[?|[?|[]]]]]].
Qed.

Definition anything : ServerBackend → Prop := λ _, True.

(** The whole of [processCommand], with everything a later proof may need. *)
Lemma processCommand_spec tid req ip r s :
  backend_ok s → request_ok req → servable req r s →
  wp tid anything (processCommand m_directory req ip) ∅ s (λ rep ls' s', ls' = ∅ ∧ backend_ok s' ∧
    w_now (backend_world s') = w_now (backend_world s) ∧ (calm s → calm s') ∧
    m_initialize s' = m_initialize s ∧
    spec_step (w_now (backend_world s)) (candidate r) (calm s) req ip (abs s) (files s)
      rep (abs s') (files s')).
Proof.
  intros Hok Hreq [Hread Hnew Hcommit]. unfold processCommand.
  assert (Hany : ∀ s, anything s) by done.
  destruct (command_cases (rq_command req))
    as [[Hc ->]|[[Hc ->]|[[Hc ->]|[[Hc ->]|[[Hc ->]|[Hc ->]]]]]].
  - eapply wp_set_error; [done|done|done|]. do 5 (split; [done|]). by apply step_unknown.
  - eapply wp_mono; [apply (READ_spec tid m_directory anything); [done| |done]|done|]. { intros c. by apply Hread. }
    intros rep ls' s' _ (-> & Hs & Hf & Hr). split; [done|]. split; [by eapply ok_same_but_files|].
    split; [by apply Hs|]. split; [by apply Hs|]. split; [by apply (same_but_files_rest s s')|].
    rewrite Hf, (abs_same_but_files _ _ Hs). fold (target m_directory (rq_data req)) in Hr.
    destruct (files s !! target m_directory (rq_data req)) as [c|] eqn:E.
    + destruct Hr as [->|[Hcalm [->| ->]]]; [by apply step_read|apply step_read_failed; auto..].
    + subst rep. apply step_read_failed; auto.
  - destruct (decide (rq_seq_num req = 0)) as [Hseq|Hseq].
    + destruct (Hnew Hc Hseq) as (pre & post & Hfree).
      eapply wp_mono; [by apply (NEW_TXN_spec tid m_directory anything req ip pre r post s)|done|].
      intros rep ls' s' _ (-> & Hok' & Habs & Hn & _ & Hcalm & _ & Hi & b & Hl & Hb).
      do 5 (split; [done|]). unfold spec_NEW_TXN in Habs. rewrite Hseq in Habs. change (0 =? 0) with true in Habs. cbv iota in Habs.
      apply pair_equal_spec in Habs as [E1 ->]. rewrite E1.
      apply step_new_txn with b; [done|done|by apply Hfree|done|done].
    + eapply wp_mono; [by apply (NEW_TXN_refused tid m_directory anything)|done|]. intros rep ls' s' _ (-> & -> & ->).
      do 5 (split; [done|]). by apply step_new_txn_refused.
  - eapply wp_mono; [by apply (WRITE_spec tid anything)|done|].
    intros rep ls' s' _ (-> & Hok' & Habs & Hw & _ & Hi). split; [done|]. split; [done|].
    unfold calm. simpl. rewrite Hw. do 3 (split; [done|]). rewrite (world_files s s') by done.
    by apply step_write.
  - eapply wp_mono; [by apply (COMMIT_spec tid m_directory anything); auto|done|].
    intros rep ls' s' _ (-> & Hok' & (Hn & _ & Hcalm) & _ & Hi & Hr). do 5 (split; [done|]).
    destruct (spec_COMMIT (w_now (backend_world s)) req ip (abs s)) as [[sp' r']|t] eqn:E.
    + destruct Hr as (-> & -> & ->). by apply step_commit_checked.
    + by apply step_commit with t.
  - eapply wp_mono; [by apply (ABORT_spec tid m_directory anything)|done|].
    intros rep ls' s' _ (-> & Hok' & Habs & (Hn & _ & Hcalm) & _ & Hi & Hr). do 5 (split; [done|]).
    destruct (bool_decide (rq_txn_id req ∈ committed (abs s))) eqn:Ec.
    + rewrite Hr. apply step_abort_refused; [done|left; by apply bool_decide_eq_true in Ec|done].
    + destruct (active (abs s) !! rq_txn_id req) as [t|] eqn:Ea.
      * destruct Hr as (b & Hl & Hb). apply step_abort with t b; try done.
        by apply bool_decide_eq_false in Ec.
      * rewrite Hr. apply step_abort_refused; [done|by right|done].
Qed.
End service.
