(* ===== verification/BackendProps.v ===== *)
(** * Properties of the transactional backend

    What a client of the server can rely on, for every command: the reply, the abstract
    state and the files after running it from any state of the invariant, under any
    schedule of failing and partial system calls; and, for COMMIT, at every point where
    the process may crash. *)
From S2P Require Import Prelude Stdcxx Constants WireProtocol Messages Prog ReadWrite Posix File Backend BackendInv BackendSteps BackendSpec CommitSpec Service.
From Stdlib Require Import ZArith Lia List Ascii String Bool.
From stdpp Require Import base gmap strings list fin_maps sorting.
#[local] Set Default Goal Selector "!".
Local Open Scope Z_scope.

(** ** A sample server, for the witnesses

    Server directory and working directory coincide, transaction 5 has buffered data for
    sequence numbers 1 and 2 of file f. *)
Section sample.
#[local] Instance sample_resolution : PathResolution := λ p, p.

Definition sample_world : World :=
  {| w_fs := {[ str "f" := str "ab" ]}; w_now := seconds 100; w_rand := [5; 7]; w_sched := [] |}.

Definition sample_txn : TransactionAttributes :=
  {| sp_file_attributes := 1; buffers := {[ 1 := str "cd"; 2 := str "ef" ]};
     max_seq_num := 2; curr_timestamp := seconds 90 |}.

Definition sample_backend : ServerBackend :=
  put_txn 2 sample_txn
    (emplaced 5 (getNewTransactionAttributes 1 (seconds 80)) (new_file (str "f") 2 (new_backend sample_world))).

Definition sample_request (cmd : bytes) (txn_id seq_num : Z) (data : bytes) : RequestTuple :=
  {| rq_command := cmd; rq_txn_id := txn_id; rq_seq_num := seq_num;
     rq_content_len := len data; rq_data := data |}.
End sample.

Lemma sample_backend_ok : backend_ok sample_backend.
Proof.
  eapply ok_put_txn; [|reflexivity|reflexivity|].
  - apply (ok_add_new (new_backend sample_world)); [apply new_backend_ok|done..|apply fresh_txn_ok].
  - split; [by vm_compute|]. simpl. intros k d Hk.
    rewrite lookup_insert_Some, lookup_singleton_Some in Hk.
    destruct Hk as [[<- <-]|[_ [<- <-]]]; by vm_compute.
Qed.

Lemma sample_request_ok cmd txn_id seq_num data :
  bool_decide (int32 txn_id) && bool_decide (int32 seq_num) && nul_free data = true →
  request_ok (sample_request cmd txn_id seq_num data).
Proof. intros H. to_prop. by split. Qed.

(** ** Running what was specified *)

Section runs.
Context `{PathResolution} (m_directory : bytes).
Implicit Types (s : ServerBackend).

(** A request with a transaction id leaves every other transaction as it is. *)
Lemma spec_remove_other id j sp : j ≠ id → active (spec_remove id sp) !! j = active sp !! j.
Proof. intros. simpl. by apply lookup_delete_ne. Qed.

Lemma spec_step_isolated now fresh calmly req ip sp fs r sp' fs' j :
  spec_step m_directory now fresh calmly req ip sp fs r sp' fs' →
  j ≠ rq_txn_id req → is_Some (active sp !! j) → active sp' !! j = active sp !! j.
Proof.
  intros Hstep Hj Hact. inversion Hstep; subst; try done.
  - simpl. rewrite lookup_insert_ne; [done|]. intros ->. rewrite H2 in Hact. by destruct Hact.
  - unfold spec_WRITE in *. repeat case_hyp H1; simplify_eq; try done; simpl; by rewrite lookup_insert_ne.
  - unfold spec_COMMIT in *. repeat case_hyp H1; simplify_eq; try done; simpl; by rewrite lookup_insert_ne.
  - match goal with H : commit_outcome _ _ _ _ _ _ _ _ _ _ _ |- _ => destruct H end; simpl;
      by rewrite ?lookup_delete_ne, ?lookup_insert_ne.
  - unfold spec_ABORT in *. repeat case_hyp H2; simplify_eq; try done. by apply spec_remove_other.
  - unfold spec_ABORT in *. repeat case_hyp H3; simplify_eq; try done. by apply spec_remove_other.
Qed.
End runs.

(** ** Properties *)

Section properties.
Context `{PathResolution} (m_directory : bytes).
Implicit Types (s : ServerBackend).

(** C1. Refinement of the service: from every state of the invariant, [processCommand] on
    any servable request returns (no deadlock, no undefined behaviour, no uncaught
    exception), with every mutex released and the invariant kept, and its reply, the
    state it leaves and the files it leaves are those the abstract service [spec_step]
    allows. *)
Theorem processCommand_refines tid req ip r s :
  backend_ok s → request_ok req → servable m_directory req r s →
  ∃ rep s', run tid (processCommand m_directory req ip) ∅ s = Done rep ∅ s' ∧ backend_ok s' ∧
    spec_step m_directory (w_now (backend_world s)) (candidate r) (calm s) req ip
      (abs s) (files s) rep (abs s') (files s').
Proof.
  intros Hok Hreq Hserve.
  destruct (wp_run _ _ _ _ _ _ (processCommand_spec m_directory tid req ip r s Hok Hreq Hserve))
    as (rep & ls' & s' & Hrun & -> & Hok' & _ & _ & _ & Hstep). eauto.
Qed.

(** A COMMIT that has everything it needs, while no call fails. *)
Lemma commit_complete tid req ip t s :
  let fs1 := <[target m_directory (t_file t) :=
               contents m_directory (files s) (t_file t) ++ payload (t_buffers t) (rq_seq_num req)]> (files s) in
  let log := resolve (m_directory ++ m_commit_log) in
  backend_ok s → request_ok req → rq_seq_num req < INT32_MAX → calm s →
  rq_txn_id req ∉ committed (abs s) → active (abs s) !! rq_txn_id req = Some t →
  t_max_seq_num t ≤ rq_seq_num req →
  (∀ k, 1 ≤ k ≤ rq_seq_num req → is_Some (t_buffers t !! k)) →
  target m_directory (t_file t) ≠ log → resolve (t_file t) ≠ log →
  wp tid anything (COMMIT m_directory req ip) ∅ s (λ r ls' s', r = ack_reply req ip ∧ ls' = ∅ ∧
    backend_ok s' ∧ calm s' ∧
    files s' = <[log := default [] (files s !! log) ++
                        log_entry (rq_txn_id req) (t_file t) (size_of fs1 (t_file t))]> fs1 ∧
    rq_txn_id req ∈ committed (abs s') ∧ active (abs s') !! rq_txn_id req = None).
Proof.
  intros fs1 log Hok Hreq Hseq Hcalm Hc Hact Hmax Hall Hlog Hres.
  assert (Hspec : spec_COMMIT (w_now (backend_world s)) req ip (abs s) = inr t).
  { unfold spec_COMMIT. rewrite bool_decide_eq_false_2, Hact by done.
    rewrite (proj2 (Z.ltb_ge _ _)) by done.
    destruct (Z.leb_spec (least_missing (t_buffers t)) (rq_seq_num req)) as [Hle|]; [|done].
    destruct (least_missing_spec (t_buffers t)) as (H1 & H2 & _).
    destruct (Hall (least_missing (t_buffers t))) as [d Hd]; [lia|congruence]. }
  eapply wp_mono; [apply (COMMIT_spec tid m_directory anything req ip s Hok Hreq Hseq
    (λ _ _, I) (λ _ _ _ _ _ _, I))|done|]. intros rep ls' s' _ (-> & Hok' & (_ & _ & Hcalm') & _ & _ & Hout).
  rewrite Hspec in Hout. destruct (commit_outcome_calm _ _ _ _ _ _ _ _ _ _ _ Hout Hcalm) as (-> & Ea & Hl).
  split; [done|]. split; [done|]. split; [done|]. split; [by apply Hcalm'|]. split; [|split].
  - apply logged_true in Hl; [|done]. fold fs1 log in Hl. rewrite Hl.
    assert (E : fs1 !! log = files s !! log) by by apply lookup_insert_ne.
    by rewrite E.
  - rewrite Ea. simpl. set_solver.
  - rewrite Ea. simpl. apply lookup_delete_eq.
Qed.

(** C8. COMMIT writes the transaction: when every number from 1 to the announced maximum
    has data, no call fails and the file is not the commit log, the file afterwards is
    its old contents followed by the buffers in the order of their numbers; the commit
    log has one more entry; no other file changes; the transaction is gone, its id
    committed, and the client gets an ACK. *)
Theorem commit_writes_payload tid req ip t s :
  let fs1 := <[target m_directory (t_file t) :=
               contents m_directory (files s) (t_file t) ++ payload (t_buffers t) (rq_seq_num req)]> (files s) in
  let log := resolve (m_directory ++ m_commit_log) in
  backend_ok s → request_ok req → rq_seq_num req < INT32_MAX → calm s →
  rq_txn_id req ∉ committed (abs s) → active (abs s) !! rq_txn_id req = Some t →
  t_max_seq_num t ≤ rq_seq_num req →
  (∀ k, 1 ≤ k ≤ rq_seq_num req → is_Some (t_buffers t !! k)) →
  target m_directory (t_file t) ≠ log → resolve (t_file t) ≠ log →
  ∃ s', run tid (COMMIT m_directory req ip) ∅ s = Done (ack_reply req ip) ∅ s' ∧ backend_ok s' ∧
    files s' = <[log := default [] (files s !! log) ++
                        log_entry (rq_txn_id req) (t_file t) (size_of fs1 (t_file t))]> fs1 ∧
    rq_txn_id req ∈ committed (abs s') ∧ active (abs s') !! rq_txn_id req = None.
Proof.
  intros fs1 log Hok Hreq Hseq Hcalm Hc Hact Hmax Hall Hlog Hres.
  destruct (wp_run _ _ _ _ _ _ (commit_complete tid req ip t s Hok Hreq Hseq Hcalm Hc Hact Hmax Hall Hlog Hres))
    as (rep & ls' & s' & Hrun & -> & -> & Hok' & _ & Hf & Hc' & Ha). by exists s'.
Qed.

(** C26. COMMIT asks for what is missing: when some number up to the announced maximum has
    no data, the reply is ASK_RESEND with the least such number, no file changes, and the
    transaction goes on with all its buffers. *)
Theorem commit_asks_for_least_missing tid req ip t s :
  backend_ok s → request_ok req → rq_seq_num req < INT32_MAX →
  rq_txn_id req ∉ committed (abs s) → active (abs s) !! rq_txn_id req = Some t →
  t_max_seq_num t ≤ rq_seq_num req →
  ∀ k, 1 ≤ k ≤ rq_seq_num req → t_buffers t !! k = None →
  (∀ i, 1 ≤ i < k → is_Some (t_buffers t !! i)) →
  ∃ s', run tid (COMMIT m_directory req ip) ∅ s = Done (ask_resend_reply req k ip) ∅ s' ∧
    files s' = files s ∧ backend_ok s' ∧
    active (abs s') !! rq_txn_id req = Some (promised (w_now (backend_world s)) (rq_seq_num req) t).
Proof.
  intros Hok Hreq Hseq Hc Hact Hmax k Hk Hnone Hall.
  pose proof (least_missing_unique (t_buffers t) k ltac:(lia) Hnone Hall) as Ek.
  destruct (wp_run _ _ _ _ _ _ (COMMIT_spec tid m_directory anything req ip s Hok Hreq Hseq
    (λ _ _, I) (λ _ _ _ _ _ _, I))) as (rep & ls' & s' & Hrun & -> & Hok' & _ & _ & _ & Hout).
  unfold spec_COMMIT in Hout. rewrite bool_decide_eq_false_2, Hact in Hout by done.
  rewrite (proj2 (Z.ltb_ge _ _)), <- Ek, (proj2 (Z.leb_le k _)) in Hout by lia.
  destruct Hout as (Habs & -> & Hf). exists s'. split; [done|]. split; [done|]. split; [done|].
  rewrite Habs. apply lookup_insert_eq.
Qed.

(** A COMMIT sent again for a committed transaction is acknowledged again and changes
    nothing: the client may have lost the first ACK. *)
Theorem commit_is_idempotent tid req ip s :
  backend_ok s → request_ok req → rq_seq_num req < INT32_MAX →
  rq_txn_id req ∈ committed (abs s) →
  ∃ s', run tid (COMMIT m_directory req ip) ∅ s = Done (ack_reply req ip) ∅ s' ∧
    files s' = files s ∧ abs s' = abs s.
Proof.
  intros Hok Hreq Hseq Hc.
  destruct (wp_run _ _ _ _ _ _ (COMMIT_spec tid m_directory anything req ip s Hok Hreq Hseq
    (λ _ _, I) (λ _ _ _ _ _ _, I))) as (rep & ls' & s' & Hrun & -> & Hok' & _ & _ & _ & Hout).
  unfold spec_COMMIT in Hout. rewrite bool_decide_eq_true_2 in Hout by done.
  destruct Hout as (Habs & -> & Hf). by exists s'.
Qed.

(** The files at a crash point: the target is its old contents and part of the data. *)
Lemma commit_files_crash id name data fs fs' :
  target m_directory name = resolve name →
  target m_directory name ≠ resolve (m_directory ++ m_commit_log) →
  commit_files m_directory id name data (len (contents m_directory fs name)) fs fs' →
  ∃ j, contents m_directory fs' name = contents m_directory fs name ++ take j data ∧
    (∀ p, p ≠ target m_directory name → p ≠ resolve (m_directory ++ m_commit_log) → fs' !! p = fs !! p) ∧
    (fs' !! resolve (m_directory ++ m_commit_log) = fs !! resolve (m_directory ++ m_commit_log) ∨
     take j data = data).
Proof.
  intros Hcwd Hlog Hcf.
  assert (Hins : ∀ c, contents m_directory (<[target m_directory name := c]> fs) name = c).
  { intros c. unfold contents. by rewrite lookup_insert_eq. }
  destruct Hcf as [|j|b fs' Hl|j c Hlook].
  - exists 0%nat. rewrite take_0, app_nil_r. auto.
  - exists j. rewrite Hins. split; [done|]. split; [|left].
    + intros p Hp _. by rewrite lookup_insert_ne.
    + by rewrite lookup_insert_ne.
  - exists (length data). rewrite take_ge by lia. split; [|split; [|by right]].
    + unfold contents at 1. rewrite (logged_lookup _ _ _ _ _ _ _ Hl Hlog). apply Hins.
    + intros p Hp Hp'. rewrite (logged_lookup _ _ _ _ _ _ _ Hl Hp'). by rewrite lookup_insert_ne.
  - rewrite <- Hcwd, lookup_insert_eq in Hlook. injection Hlook as <-. exists 0%nat.
    rewrite <- Hcwd, insert_insert_eq, Hins, take_0, app_nil_r, resized_app.
    split; [done|]. split; [|left].
    + intros p Hp _. by rewrite lookup_insert_ne.
    + by rewrite lookup_insert_ne.
Qed.

(** What holds at every crash point of a COMMIT. *)
Definition commit_crash_ok (req : RequestTuple) (t : Txn) s s' : Prop :=
  ∃ j, contents m_directory (files s') (t_file t) =
         contents m_directory (files s) (t_file t) ++ take j (payload (t_buffers t) (rq_seq_num req)) ∧
    (∀ p, p ≠ target m_directory (t_file t) → p ≠ resolve (m_directory ++ m_commit_log) →
       files s' !! p = files s !! p) ∧
    (files s' !! resolve (m_directory ++ m_commit_log) = files s !! resolve (m_directory ++ m_commit_log) ∨
     take j (payload (t_buffers t) (rq_seq_num req)) = payload (t_buffers t) (rq_seq_num req)).

Lemma COMMIT_crash tid req ip t s :
  backend_ok s → request_ok req → rq_seq_num req < INT32_MAX →
  rq_txn_id req ∉ committed (abs s) → active (abs s) !! rq_txn_id req = Some t →
  target m_directory (t_file t) = resolve (t_file t) →
  target m_directory (t_file t) ≠ resolve (m_directory ++ m_commit_log) →
  sizes (abs s) !! t_file t = Some (len (contents m_directory (files s) (t_file t))) →
  wp tid (commit_crash_ok req t s) (COMMIT m_directory req ip) ∅ s (λ _ _ _, True).
Proof.
  intros Hok Hreq Hseq Hc Hact Hcwd Hlog Hsize.
  eapply wp_mono; [apply (COMMIT_spec tid m_directory (commit_crash_ok req t s) req ip s Hok Hreq Hseq)|done|done].
  - intros s' Hf. exists 0%nat. rewrite Hf, take_0, app_nil_r. auto.
  - intros s' t' size Hspec Hsz Hcf.
    assert (t' = t) as ->.
    { unfold spec_COMMIT in Hspec. rewrite bool_decide_eq_false_2, Hact in Hspec by done.
      by repeat case_hyp Hspec; simplify_eq. }
    rewrite Hsize in Hsz. injection Hsz as <-. by eapply commit_files_crash.
Qed.

(** C10. No crash of a COMMIT can damage the file: the working directory being the server
    directory, the recorded size accurate and the file not the commit log, at every point
    where the process may stop the file is its old contents followed by a prefix of the
    transaction's data, only the commit log differs otherwise, and the log differs only
    once all of the data is in the file. *)
Theorem commit_crash_points tid req ip t s :
  let old := contents m_directory (files s) (t_file t) in
  let data := payload (t_buffers t) (rq_seq_num req) in
  let log := resolve (m_directory ++ m_commit_log) in
  backend_ok s → request_ok req → rq_seq_num req < INT32_MAX →
  rq_txn_id req ∉ committed (abs s) → active (abs s) !! rq_txn_id req = Some t →
  target m_directory (t_file t) = resolve (t_file t) → target m_directory (t_file t) ≠ log →
  sizes (abs s) !! t_file t = Some (len old) →
  always tid (λ s', ∃ j,
      contents m_directory (files s') (t_file t) = old ++ take j data ∧
      (∀ p, p ≠ target m_directory (t_file t) → p ≠ log → files s' !! p = files s !! p) ∧
      (files s' !! log = files s !! log ∨ take j data = data))
    (COMMIT m_directory req ip) ∅ s.
Proof.
  intros old data log Hok Hreq Hseq Hc Hact Hcwd Hlog Hsize.
  exact (proj1 (wp_sound _ _ _ _ _ _ (COMMIT_crash tid req ip t s Hok Hreq Hseq Hc Hact Hcwd Hlog Hsize))).
Qed.

(** ** Writing in any order *)

(** A client that sends WRITE after WRITE for one transaction. *)
Fixpoint write_all (txn_id : Z) (l : list (Z * bytes)) (ip : bool) : prog ServerBackend unit :=
  match l with
  | [] => Ret tt
  | (seq_num, data) :: l =>
      let! _ := WRITE {| rq_command := Constants.write_cmd; rq_txn_id := txn_id;
                         rq_seq_num := seq_num; rq_content_len := len data; rq_data := data |} ip in
      write_all txn_id l ip
  end.

Definition write_txn (now seq_num : Z) (data : bytes) (t : Txn) : Txn :=
  if bool_decide (is_Some (t_buffers t !! seq_num)) then touched now t else written now seq_num data t.

(** What the writes do to the abstract state. *)
Definition spec_writes (now txn_id : Z) (l : list (Z * bytes)) (sp : Spec) : Spec :=
  if bool_decide (txn_id ∈ committed sp) then sp
  else set_active (foldl (λ m kd, alter (write_txn now kd.1 kd.2) txn_id m) (active sp) l) sp.

Lemma spec_WRITE_alter now req ip sp :
  (spec_WRITE now req ip sp).1 =
  if bool_decide (rq_txn_id req ∈ committed sp) then sp
  else set_active (alter (write_txn now (rq_seq_num req) (rq_data req)) (rq_txn_id req) (active sp)) sp.
Proof.
  unfold spec_WRITE, write_txn. destruct (bool_decide (rq_txn_id req ∈ committed sp)); [done|].
  destruct (active sp !! rq_txn_id req) as [t|] eqn:E.
  - assert (Ea : ∀ f, alter f (rq_txn_id req) (active sp) = <[rq_txn_id req := f t]> (active sp)).
    { intros f. by rewrite <- (insert_id (active sp) (rq_txn_id req) t) at 1; rewrite ?alter_insert_eq. }
    rewrite Ea. by destruct (bool_decide (is_Some _)).
  - rewrite alter_id; [by destruct sp|]. intros x Hx. congruence.
Qed.

Lemma write_all_spec tid txn_id l ip s :
  backend_ok s → int32 txn_id → Forall (λ kd, int32 kd.1 ∧ nul_free kd.2 = true) l →
  wp tid anything (write_all txn_id l ip) ∅ s (λ _ ls' s', ls' = ∅ ∧ backend_ok s' ∧
    abs s' = spec_writes (w_now (backend_world s)) txn_id l (abs s) ∧
    backend_world s' = backend_world s).
Proof.
  revert s; induction l as [|[k d] l IH]; intros s Hok Hid Hl; simpl.
  - apply wp_ret; [done|]. split; [done|]. split; [done|]. split; [|done]. unfold spec_writes. simpl.
    by destruct (bool_decide _).
  - apply Forall_cons in Hl as [[Hk Hd] Hl]. wp_step.
    eapply wp_mono; [apply (WRITE_spec tid anything); [done|by split|done]|done|].
    intros r ls' s' _ (-> & Hok' & Hspec & Hw & _).
    eapply wp_mono; [by apply IH|done|]. intros [] ls' s'' _ (-> & Hok'' & Habs & Hw').
    split; [done|]. split; [done|]. split; [|congruence]. rewrite Habs, Hw.
    apply (f_equal fst) in Hspec. rewrite spec_WRITE_alter in Hspec. cbn [fst rq_txn_id rq_seq_num rq_data] in Hspec.
    rewrite Hspec. unfold spec_writes. destruct (bool_decide (txn_id ∈ committed (abs s))) eqn:E;
      simpl in *; by rewrite E.
Qed.

Lemma write_txn_comm now k d k' d' t :
  k ≠ k' → write_txn now k d (write_txn now k' d' t) = write_txn now k' d' (write_txn now k d t).
Proof.
  intros Hne. unfold write_txn.
  destruct (bool_decide (is_Some (t_buffers t !! k))) eqn:E1,
    (bool_decide (is_Some (t_buffers t !! k'))) eqn:E2; simpl;
    rewrite ?lookup_insert_ne, ?E1, ?E2 by done; simpl; try done.
  unfold written. simpl. f_equal; [by apply insert_insert_ne|lia].
Qed.

Lemma alter_comm (f g : Txn → Txn) (i : Z) (m : gmap Z Txn) :
  (∀ t, f (g t) = g (f t)) → alter f i (alter g i m) = alter g i (alter f i m).
Proof.
  intros Hfg. apply map_eq. intros j. destruct (decide (j = i)) as [->|Hne].
  - rewrite !lookup_alter_eq. destruct (m !! i); simpl; [by rewrite Hfg|done].
  - by rewrite !lookup_alter_ne.
Qed.

Lemma spec_writes_perm now txn_id l l' sp :
  l ≡ₚ l' → NoDup l.*1 → spec_writes now txn_id l sp = spec_writes now txn_id l' sp.
Proof.
  intros Hp Hd. unfold spec_writes. destruct (bool_decide _); [done|]. f_equal.
  generalize (active sp). clear sp. induction Hp as [|[k d] l l' Hp IH|[k d] [k' d'] l|l l' l'' Hp1 IH1 Hp2 IH2];
    intros m; simpl.
  - done.
  - apply IH. by apply NoDup_cons in Hd as [_ ?].
  - f_equal. apply NoDup_cons in Hd as [Hk _]. apply alter_comm.
    intros t. simpl. apply write_txn_comm. intros ->. apply Hk. simpl. by left.
  - rewrite IH1 by done. apply IH2. by rewrite <- Hp1.
Qed.

(** C25. WRITEs may arrive in any order: sending the same numbered buffers (no number
    twice) in two different orders leaves the server in the same abstract state. *)
Theorem writes_commute tid txn_id l l' ip s :
  backend_ok s → int32 txn_id → Forall (λ kd, int32 kd.1 ∧ nul_free kd.2 = true) l →
  NoDup l.*1 → l ≡ₚ l' →
  ∃ s1 s2, run tid (write_all txn_id l ip) ∅ s = Done tt ∅ s1 ∧
    run tid (write_all txn_id l' ip) ∅ s = Done tt ∅ s2 ∧ abs s1 = abs s2.
Proof.
  intros Hok Hid Hl Hd Hp.
  destruct (wp_run _ _ _ _ _ _ (write_all_spec tid txn_id l ip s Hok Hid Hl))
    as ([] & ls1 & s1 & Hrun1 & -> & _ & Ha1 & _).
  assert (Hl' : Forall (λ kd, int32 kd.1 ∧ nul_free kd.2 = true) l') by by rewrite <- Hp.
  destruct (wp_run _ _ _ _ _ _ (write_all_spec tid txn_id l' ip s Hok Hid Hl'))
    as ([] & ls2 & s2 & Hrun2 & -> & _ & Ha2 & _).
  exists s1, s2. split; [done|]. split; [done|]. rewrite Ha1, Ha2. by apply spec_writes_perm.
Qed.

(** WRITE buffers data once per number: for a transaction in progress, a number
    without data gets it and the largest number is updated, a number with data keeps it
    and the reply is the error for repeated numbers; either way the transaction's timeout
    starts anew, and no file changes. *)
Theorem write_buffers_data tid req ip t s :
  backend_ok s → request_ok req →
  rq_txn_id req ∉ committed (abs s) → active (abs s) !! rq_txn_id req = Some t →
  ∃ s', run tid (WRITE req ip) ∅ s =
      Done (if bool_decide (is_Some (t_buffers t !! rq_seq_num req))
            then error_reply req Errors.RepeatedSequenceNumber else ack_reply req ip) ∅ s' ∧
    backend_ok s' ∧ files s' = files s ∧
    active (abs s') = <[rq_txn_id req :=
      {| t_file := t_file t;
         t_buffers := match t_buffers t !! rq_seq_num req with
                      | Some _ => t_buffers t
                      | None => <[rq_seq_num req := rq_data req]> (t_buffers t)
                      end;
         t_max_seq_num := Z.max (t_max_seq_num t) (rq_seq_num req);
         t_timestamp := w_now (backend_world s) |}]> (active (abs s)).
Proof.
  intros Hok Hreq Hc Hact.
  destruct (wp_run _ _ _ _ _ _ (WRITE_spec tid anything req ip s Hok Hreq (λ _ _, I)))
    as (r & ls' & s' & Hrun & -> & Hok' & Hspec & Hw & _).
  unfold spec_WRITE in Hspec. rewrite bool_decide_eq_false_2, Hact in Hspec by done.
  exists s'. rewrite Hrun. split; [|split; [done|split; [by apply world_files|]]].
  - f_equal. by destruct (bool_decide (is_Some (t_buffers t !! rq_seq_num req)));
      apply pair_equal_spec in Hspec as [_ ->].
  - destruct (t_buffers t !! rq_seq_num req) as [d|] eqn:E.
    + rewrite bool_decide_eq_true_2 in Hspec by done. apply pair_equal_spec in Hspec as [-> _].
      simpl. f_equal. unfold touched. f_equal.
      destruct (active_txn_ok s _ t Hok Hact) as [_ Hb]. specialize (Hb _ _ E). lia.
    + rewrite bool_decide_eq_false_2 in Hspec by by intros []. by apply pair_equal_spec in Hspec as [-> _].
Qed.

(** C27. NEW_TXN starts an empty transaction under an id no other transaction has: the
    first candidate of [rand() % INT32_MAX] that is free, a 32-bit integer; the other
    transactions and every file but the transaction log stay as they are. *)
Theorem new_txn_is_fresh tid req ip pre r post s :
  backend_ok s → request_ok req → rq_seq_num req = 0 →
  next_free (active (abs s)) (w_rand (backend_world s)) pre r post →
  ∃ s', run tid (NEW_TXN m_directory req ip) ∅ s = Done (new_txn_reply (candidate r) ip) ∅ s' ∧
    backend_ok s' ∧ active (abs s) !! candidate r = None ∧ int32 (candidate r) ∧
    active (abs s') = <[candidate r := {| t_file := rq_data req; t_buffers := ∅; t_max_seq_num := 1;
                                          t_timestamp := w_now (backend_world s) |}]> (active (abs s)) ∧
    ∀ p, p ≠ resolve (m_directory ++ m_transaction_log) → files s' !! p = files s !! p.
Proof.
  intros Hok Hreq Hseq Hfree.
  destruct (wp_run _ _ _ _ _ _ (NEW_TXN_spec tid m_directory anything req ip pre r post s Hok Hreq Hseq Hfree (λ _ _ _, I)))
    as (rep & ls' & s' & Hrun & -> & Hok' & Habs & _ & _ & _ & _ & _ & b & Hl & _).
  unfold spec_NEW_TXN in Habs. rewrite Hseq in Habs. change (0 =? 0) with true in Habs. cbv iota in Habs.
  apply pair_equal_spec in Habs as [Ha ->]. exists s'. split; [done|]. split; [done|].
  split; [by apply Hfree|]. split; [apply candidate_int32|]. split; [by rewrite Ha|].
  intros p Hp. by eapply logged_lookup.
Qed.

(** ABORT forgets the transaction: its reply is an ACK that ends the connection's
    progress, every file but the abort log is as before, the other transactions too, and
    a WRITE for it afterwards is refused as an invalid transaction id. *)
Theorem abort_forgets tid req ip t s :
  backend_ok s → request_ok req →
  rq_txn_id req ∉ committed (abs s) → active (abs s) !! rq_txn_id req = Some t →
  ∃ s', run tid (ABORT m_directory req ip) ∅ s = Done (ack_reply req false) ∅ s' ∧ backend_ok s' ∧
    active (abs s') = delete (rq_txn_id req) (active (abs s)) ∧
    (∀ p, p ≠ resolve (m_directory ++ m_abort_log) → files s' !! p = files s !! p) ∧
    ∀ req' ip', request_ok req' → rq_txn_id req' = rq_txn_id req →
      ∃ s'', run tid (WRITE req' ip') ∅ s' = Done (error_reply req' Errors.InvalidTransactionId) ∅ s''.
Proof.
  intros Hok Hreq Hc Hact.
  destruct (wp_run _ _ _ _ _ _ (ABORT_spec tid m_directory anything req ip s Hok Hreq (λ _ _, I) (λ _ _ _ _ _, I)))
    as (r & ls' & s' & Hrun & -> & Hok' & Hspec & _ & _ & _ & Hlog).
  unfold spec_ABORT in Hspec. rewrite bool_decide_eq_false_2, Hact in Hspec, Hlog by done.
  destruct Hlog as (b & Hl & _). apply pair_equal_spec in Hspec as [Ha ->].
  exists s'. split; [done|]. split; [done|]. split; [by rewrite Ha|].
  split; [intros p Hp; by eapply logged_lookup|].
  intros req' ip' Hreq' Hid.
  destruct (wp_run _ _ _ _ _ _ (WRITE_spec tid anything req' ip' s' Hok' Hreq' (λ _ _, I)))
    as (r & ls'' & s'' & Hrun' & -> & _ & Hspec' & _).
  assert (Ec : committed (abs s') = committed (abs s)) by by rewrite Ha.
  assert (En : active (abs s') !! rq_txn_id req' = None) by (rewrite Ha, Hid; apply lookup_delete_eq).
  unfold spec_WRITE in Hspec'. rewrite bool_decide_eq_false_2, En in Hspec' by by rewrite Ec, Hid.
  apply pair_equal_spec in Hspec' as [_ ->]. by exists s''.
Qed.

(** C28. A transaction that is not touched for [transaction_timeout_seconds] ends, and no
    other does: a timer that wakes up removes its transaction exactly when its last
    update is a timeout ago, returns exactly when there is nothing left to watch, and
    otherwise goes back to sleep until a timeout after the last update. *)
Theorem timer_expires tid tm s :
  backend_ok s → nul_free (tm_file_name tm) = true →
  tm_latest_timestamp tm + seconds Constants.transaction_timeout_seconds ≤ w_now (backend_world s) →
  ∃ r s', run tid (txn_timer_turn m_directory tm) ∅ s = Done r ∅ s' ∧ backend_ok s' ∧
    match active (abs s) !! tm_txn_id tm with
    | None => r = None ∧ abs s' = abs s
    | Some t =>
        if t_timestamp t + seconds Constants.transaction_timeout_seconds <=? w_now (backend_world s)
        then r = None ∧ active (abs s') = delete (tm_txn_id tm) (active (abs s))
        else r = Some (t_timestamp t) ∧ abs s' = abs s
    end.
Proof.
  intros Hok Hname Hwake.
  destruct (wp_run _ _ _ _ _ _ (txn_timer_turn_spec tid m_directory anything tm s Hok Hname Hwake (λ _ _ _, I)))
    as (r & ls' & s' & Hrun & -> & Hok' & Habs & _ & _ & Hr).
  exists r, s'. split; [done|]. split; [done|]. unfold spec_timer in Habs.
  destruct (active (abs s) !! tm_txn_id tm) as [t|]; [|by destruct Hr].
  destruct (t_timestamp t + _ <=? _); [|by destruct Hr]. destruct Hr. by rewrite Habs.
Qed.

(** READ returns the file: when no call fails and the file fits an [int], the reply
    carries its contents up to the first NUL, or the error for a file that does not open;
    nothing changes. *)
Theorem read_returns_file tid req ip s :
  request_ok req → calm s →
  (∀ c, files s !! resolve (m_directory ++ rq_data req) = Some c → len c < INT32_MAX) →
  ∃ s', run tid (READ m_directory req ip) ∅ s =
      Done (match files s !! resolve (m_directory ++ rq_data req) with
            | Some c => read_reply req (c_str c) ip
            | None => error_reply req Errors.ErrorOpeningFile
            end) ∅ s' ∧ files s' = files s ∧ abs s' = abs s.
Proof.
  intros Hreq Hcalm Hlen.
  destruct (wp_run _ _ _ _ _ _ (READ_spec tid m_directory anything req ip s Hreq Hlen (λ _ _ _, I)))
    as (r & ls' & s' & Hrun & -> & Hs & Hf & Hr).
  exists s'. rewrite Hrun. split; [|split; [done|by apply abs_same_but_files]]. f_equal.
  destruct (files s !! _); [|done]. by destruct Hr as [|[? _]].
Qed.

(** C24. Transactions are isolated: whatever a request does, every transaction other than
    the one it names keeps its file, its buffers, its largest number and its timestamp. *)
Theorem requests_are_isolated tid req ip r j s :
  backend_ok s → request_ok req → servable m_directory req r s →
  j ≠ rq_txn_id req → is_Some (active (abs s) !! j) →
  ∃ rep s', run tid (processCommand m_directory req ip) ∅ s = Done rep ∅ s' ∧
    active (abs s') !! j = active (abs s) !! j.
Proof.
  intros Hok Hreq Hserve Hj Hact.
  destruct (wp_run _ _ _ _ _ _ (processCommand_spec m_directory tid req ip r s Hok Hreq Hserve))
    as (rep & ls' & s' & Hrun & -> & Hok' & _ & _ & _ & Hstep).
  exists rep, s'. split; [done|]. by eapply spec_step_isolated.
Qed.

End properties.

(** ** Witnesses *)

(** Close a goal by the parts of a theorem's conclusion [W], up to evaluation. *)
Ltac conclude_with W :=
  lazymatch goal with
  | |- ∃ _, _ => let x := fresh "x" in destruct W as [x W]; exists x; conclude_with W
  | |- _ ∧ _ => let H := fresh "H" in destruct W as [H W]; split; [exact H|conclude_with W]
  | |- _ => exact W
  end.

Section witnesses.
#[local] Existing Instance sample_resolution.

(** Transaction 5 in the abstract view, and its COMMIT. *)
Definition sample_view : Txn :=
  {| t_file := str "f"; t_buffers := {[ 1 := str "cd"; 2 := str "ef" ]};
     t_max_seq_num := 2; t_timestamp := seconds 90 |}.

Definition sample_commit : RequestTuple := sample_request Constants.commit_cmd 5 2 [].

Lemma sample_active : active (abs sample_backend) !! 5 = Some sample_view.
Proof. by vm_compute. Qed.

Lemma sample_servable cmd seq data : seq < INT32_MAX → servable [] (sample_request cmd 5 seq data) 7 sample_backend.
Proof.
  intros Hseq. split; simpl.
  - intros c _ Hc. unfold files in Hc. simpl in Hc. apply lookup_singleton_Some in Hc as [_ <-]. by vm_compute.
  - intros _ _. exists [5], []. split; [done|]. split; [|by vm_compute].
    apply Forall_singleton, (bool_decide_unpack _). by vm_compute.
  - done.
Qed.

Lemma sample_buffers k : 1 ≤ k < 3 → is_Some (({[ 1 := str "cd"; 2 := str "ef" ]} : gmap Z bytes) !! k).
Proof. intros Hk. assert (k = 1 ∨ k = 2) as [->| ->] by lia; by eexists. Qed.

Lemma processCommand_refines_witness :
  ∃ rep s', run 1 (processCommand [] (sample_request Constants.commit_cmd 5 2 []) true) ∅ sample_backend
      = Done rep ∅ s' ∧ backend_ok s' ∧
    spec_step [] (seconds 100) (candidate 7) (calm sample_backend)
      (sample_request Constants.commit_cmd 5 2 []) true (abs sample_backend) (files sample_backend)
      rep (abs s') (files s').
Proof.
  apply (processCommand_refines [] 1 (sample_request Constants.commit_cmd 5 2 []) true 7 sample_backend).
  - exact sample_backend_ok.
  - by apply sample_request_ok.
  - by apply sample_servable.
Defined.

Lemma commit_writes_payload_witness :
  ∃ s', run 1 (COMMIT [] (sample_request Constants.commit_cmd 5 2 []) true) ∅ sample_backend
      = Done (ack_reply (sample_request Constants.commit_cmd 5 2 []) true) ∅ s' ∧ backend_ok s' ∧
    files s' !! str "f" = Some (str "abcdef") ∧
    files s' !! str ".commitlog.txt" = Some (log_entry 5 (str "f") 6) ∧
    5 ∈ committed (abs s') ∧ active (abs s') !! 5 = None.
Proof.
  destruct (commit_writes_payload [] 1 (sample_request Constants.commit_cmd 5 2 []) true
    sample_view sample_backend)
    as (s' & Hrun & Hok & Hf & Hc & Ha).
  - exact sample_backend_ok.
  - by apply sample_request_ok.
  - done.
  - done.
  - by vm_compute.
  - exact sample_active.
  - done.
  - intros k Hk. apply sample_buffers. simpl in Hk. lia.
  - by vm_compute.
  - by vm_compute.
  - exists s'. split; [exact Hrun|]. split; [exact Hok|]. rewrite Hf.
    split; [by vm_compute|]. split; [by vm_compute|]. by split.
Defined.

Lemma commit_asks_for_least_missing_witness :
  ∃ s', run 1 (COMMIT [] (sample_request Constants.commit_cmd 5 4 []) true) ∅ sample_backend
      = Done (ask_resend_reply (sample_request Constants.commit_cmd 5 4 []) 3 true) ∅ s' ∧
    files s' = files sample_backend ∧ backend_ok s' ∧
    active (abs s') !! 5 =
      Some {| t_file := str "f"; t_buffers := {[ 1 := str "cd"; 2 := str "ef" ]};
              t_max_seq_num := 4; t_timestamp := seconds 100 |}.
Proof.
  destruct (commit_asks_for_least_missing [] 1 (sample_request Constants.commit_cmd 5 4 []) true
    sample_view sample_backend) with (k := 3)
    as (s' & Hrun & Hf & Hok & Ha).
  - exact sample_backend_ok.
  - by apply sample_request_ok.
  - done.
  - by vm_compute.
  - exact sample_active.
  - done.
  - done.
  - by vm_compute.
  - intros i Hi. by apply sample_buffers.
  - exists s'. by split.
Defined.

Lemma commit_is_idempotent_witness :
  ∃ s', run 1 (COMMIT [] (sample_request Constants.commit_cmd 5 2 []) true) ∅
        (set_commits {[ 5 ]} sample_backend)
      = Done (ack_reply (sample_request Constants.commit_cmd 5 2 []) true) ∅ s' ∧
    files s' = files (set_commits {[ 5 ]} sample_backend) ∧
    abs s' = abs (set_commits {[ 5 ]} sample_backend).
Proof.
  apply (commit_is_idempotent [] 1 (sample_request Constants.commit_cmd 5 2 []) true
    (set_commits {[ 5 ]} sample_backend)).
  - by apply (ok_frame sample_backend), sample_backend_ok.
  - by apply sample_request_ok.
  - done.
  - by vm_compute.
Defined.

Lemma commit_crash_points_witness :
  let old := contents [] (files sample_backend) (t_file sample_view) in
  let data := payload (t_buffers sample_view) (rq_seq_num sample_commit) in
  let log := resolve ([] ++ m_commit_log) in
  old = str "ab" ∧ data = str "cdef" ∧
  always 1 (λ s', ∃ j,
      contents [] (files s') (t_file sample_view) = old ++ take j data ∧
      (∀ p, p ≠ target [] (t_file sample_view) → p ≠ log → files s' !! p = files sample_backend !! p) ∧
      (files s' !! log = files sample_backend !! log ∨ take j data = data))
    (COMMIT [] sample_commit true) ∅ sample_backend.
Proof.
  split; [by vm_compute|]. split; [by vm_compute|].
  apply (commit_crash_points [] 1 sample_commit true sample_view sample_backend).
  - exact sample_backend_ok.
  - by apply sample_request_ok.
  - done.
  - by vm_compute.
  - exact sample_active.
  - done.
  - by vm_compute.
  - by vm_compute.
Defined.

Lemma writes_commute_witness :
  ∃ s1 s2, run 1 (write_all 5 [(4, str "y"); (3, str "x")] true) ∅ sample_backend = Done tt ∅ s1 ∧
    run 1 (write_all 5 [(3, str "x"); (4, str "y")] true) ∅ sample_backend = Done tt ∅ s2 ∧
    abs s1 = abs s2.
Proof.
  apply (writes_commute 1 5 [(4, str "y"); (3, str "x")] [(3, str "x"); (4, str "y")] true sample_backend).
  - exact sample_backend_ok.
  - done.
  - apply (bool_decide_unpack _). by vm_compute.
  - apply (bool_decide_unpack _). by vm_compute.
  - constructor.
Defined.

Lemma write_buffers_data_witness :
  ∃ s', run 1 (WRITE (sample_request Constants.write_cmd 5 7 (str "z")) true) ∅ sample_backend
      = Done (ack_reply (sample_request Constants.write_cmd 5 7 (str "z")) true) ∅ s' ∧
    backend_ok s' ∧ files s' = files sample_backend ∧
    active (abs s') =
      <[5 := {| t_file := str "f"; t_buffers := {[ 7 := str "z"; 1 := str "cd"; 2 := str "ef" ]};
                t_max_seq_num := 7; t_timestamp := seconds 100 |}]> (active (abs sample_backend)).
Proof.
  apply (write_buffers_data 1 (sample_request Constants.write_cmd 5 7 (str "z")) true
    sample_view sample_backend).
  - exact sample_backend_ok.
  - by apply sample_request_ok.
  - by vm_compute.
  - exact sample_active.
Defined.

Lemma new_txn_is_fresh_witness :
  ∃ s', run 1 (NEW_TXN [] (sample_request Constants.new_txn_cmd (-1) 0 (str "g")) true) ∅ sample_backend
      = Done (new_txn_reply 7 true) ∅ s' ∧
    backend_ok s' ∧ active (abs sample_backend) !! 7 = None ∧ int32 7 ∧
    active (abs s') = <[7 := {| t_file := str "g"; t_buffers := ∅; t_max_seq_num := 1;
                                t_timestamp := seconds 100 |}]> (active (abs sample_backend)) ∧
    ∀ p, p ≠ str ".transactionlog.txt" → files s' !! p = files sample_backend !! p.
Proof.
  unshelve epose proof (new_txn_is_fresh [] 1 (sample_request Constants.new_txn_cmd (-1) 0 (str "g")) true
    [5] 7 [] sample_backend _ _ _ _) as W.
  - exact sample_backend_ok.
  - by apply sample_request_ok.
  - done.
  - split; [done|]. split; [|by vm_compute]. apply Forall_singleton, (bool_decide_unpack _). by vm_compute.
  - by conclude_with W.
Defined.

Lemma abort_forgets_witness :
  ∃ s', run 1 (ABORT [] (sample_request Constants.abort_cmd 5 0 []) true) ∅ sample_backend
      = Done (ack_reply (sample_request Constants.abort_cmd 5 0 []) false) ∅ s' ∧ backend_ok s' ∧
    active (abs s') = delete 5 (active (abs sample_backend)) ∧
    (∀ p, p ≠ str ".abortlog.txt" → files s' !! p = files sample_backend !! p) ∧
    ∀ req' ip', request_ok req' → rq_txn_id req' = 5 →
      ∃ s'', run 1 (WRITE req' ip') ∅ s' = Done (error_reply req' Errors.InvalidTransactionId) ∅ s''.
Proof.
  unshelve epose proof (abort_forgets [] 1 (sample_request Constants.abort_cmd 5 0 []) true
    sample_view sample_backend _ _ _ _) as W.
  - exact sample_backend_ok.
  - by apply sample_request_ok.
  - by vm_compute.
  - exact sample_active.
  - by conclude_with W.
Defined.

(** The transaction was last updated 10 seconds ago: its timer goes back to sleep. *)
Lemma timer_expires_witness :
  let tm := {| tm_txn_id := 5; tm_latest_timestamp := seconds 80; tm_file_name := str "f" |} in
  ∃ r s', run 1 (txn_timer_turn [] tm) ∅ sample_backend = Done r ∅ s' ∧ backend_ok s' ∧
    (r = Some (seconds 90) ∧ abs s' = abs sample_backend).
Proof.
  unshelve epose proof (timer_expires [] 1
    {| tm_txn_id := 5; tm_latest_timestamp := seconds 80; tm_file_name := str "f" |} sample_backend _ _ _) as W.
  - exact sample_backend_ok.
  - done.
  - by vm_compute.
  - by conclude_with W.
Defined.

Lemma read_returns_file_witness :
  ∃ s', run 1 (READ [] (sample_request Constants.read_cmd (-1) 0 (str "f")) true) ∅ sample_backend
      = Done (read_reply (sample_request Constants.read_cmd (-1) 0 (str "f")) (str "ab") true) ∅ s' ∧
    files s' = files sample_backend ∧ abs s' = abs sample_backend.
Proof.
  unshelve epose proof (read_returns_file [] 1 (sample_request Constants.read_cmd (-1) 0 (str "f")) true sample_backend _ _ _) as W.
  - by apply sample_request_ok.
  - done.
  - intros c Hc. change (Some (str "ab") = Some c) in Hc. injection Hc as <-. by vm_compute.
  - by conclude_with W.
Defined.

Lemma requests_are_isolated_witness :
  ∃ rep s', run 1 (processCommand [] (sample_request Constants.abort_cmd 6 0 []) true) ∅ sample_backend
      = Done rep ∅ s' ∧ active (abs s') !! 5 = active (abs sample_backend) !! 5.
Proof.
  apply (requests_are_isolated [] 1 (sample_request Constants.abort_cmd 6 0 []) true 7 5 sample_backend).
  - exact sample_backend_ok.
  - by apply sample_request_ok.
  - by split.
  - done.
  - rewrite sample_active. by eexists.
Defined.
End witnesses.
