(* ===== verification/Rollback.v ===== *)
(** * COMMITs that cannot write

    What a COMMIT leaves behind when a [write] fails after some of its data has reached the
    file: its [catch] block truncates the file under its bare name, relative to the
    working directory, and not the one in the server directory it has written to. *)
From S2P Require Import Prelude Stdcxx Constants WireProtocol Messages Prog ReadWrite Posix File Backend BackendInv BackendSteps BackendSpec CommitSpec BackendProps.
From Stdlib Require Import ZArith Lia List Ascii String Bool.
From stdpp Require Import base gmap strings list fin_maps sorting.
#[local] Set Default Goal Selector "!".
Local Open Scope Z_scope.

(** The state with these files and these outcomes of the calls to come. *)
Definition disk_state (fs : gmap bytes bytes) (sched : list sysret) (s : ServerBackend) : ServerBackend :=
  set_backend_world (set_sched sched (set_fs fs (backend_world s))) s.

Lemma disk_state_twice fs l fs' l' s : disk_state fs l (disk_state fs' l' s) = disk_state fs l s.
Proof. done. Qed.

Lemma files_disk_state fs l s : files (disk_state fs l s) = fs.
Proof. done. Qed.

Abbreviation sched s := (w_sched (backend_world s)).

Section failing.
Context `{PathResolution} (tid : nat).
Implicit Types (s : ServerBackend) (l : list sysret).

Abbreviation anything := (λ _ : ServerBackend, True).

(** ** Writes whose outcome is known *)

Lemma w_write_ok d buf c l s :
  sched s = SysOk :: l → files s !! d = Some c →
  w_write d buf (backend_world s) = (Some (length buf), backend_world (disk_state (<[d := c ++ buf]> (files s)) l s)).
Proof.
  intros Hl Hd. unfold w_write, next_call. rewrite Hl. cbn [transferred]. f_equal. simpl.
  unfold set_fs, set_sched. simpl. f_equal. rewrite firstn_all. change (w_fs (backend_world s)) with (files s).
  rewrite <- (insert_id (files s) d c) at 1 by done. by rewrite alter_insert_eq.
Qed.

Lemma write_ok f buf c l ls s (Q : exn + unit → locks → ServerBackend → Prop) :
  sched s = SysOk :: l → files s !! m_fd f = Some c → writable (m_flags f) = true → nul_free buf = true → buf ≠ [] →
  Q (inr tt) ls (disk_state (<[m_fd f := c ++ buf]> (files s)) l s) → wp tid anything (File_write f buf) ls s Q.
Proof.
  intros Hl Hd Hw Hn Hne HQ. unfold File_write. rewrite Hw. wp_step. apply wp_lift. unfold writeFileDescriptor.
  apply wp_bind, wp_assert; [done|done|]. assert (0 < length buf)%nat by (destruct buf; simpl; [done|lia]).
  cbn [write_loop]. rewrite decide_True by done. wp_step. apply wp_syscall; [done|done|].
  change (the_world s) with (backend_world s). rewrite drop_0, (w_write_ok _ _ c l) by done. cbn [fst snd].
  destruct (length buf) as [|n] eqn:En; [lia|]. cbn [write_loop Nat.add]. rewrite decide_False, decide_True by lia.
  apply wp_ret; [done|]. cbv beta iota. rewrite (proj2 (Z.ltb_ge _ 0)) by lia. wp_step. exact HQ.
Qed.

Lemma write_err f buf l ls s (Q : exn + unit → locks → ServerBackend → Prop) :
  sched s = SysErr :: l → writable (m_flags f) = true → nul_free buf = true → buf ≠ [] →
  Q (inl ErrorWritingToFile) ls (disk_state (files s) l s) → wp tid anything (File_write f buf) ls s Q.
Proof.
  intros Hl Hw Hn Hne HQ. unfold File_write. rewrite Hw. wp_step. apply wp_lift. unfold writeFileDescriptor.
  apply wp_bind, wp_assert; [done|done|]. assert (0 < length buf)%nat by (destruct buf; simpl; [done|lia]).
  cbn [write_loop]. rewrite decide_True by done. wp_step. apply wp_syscall; [done|done|].
  change (the_world s) with (backend_world s). unfold w_write, next_call. rewrite Hl. cbn [fst snd].
  rewrite decide_False by lia. apply wp_ret; [done|]. change (-1 <? 0) with true. wp_step. exact HQ.
Qed.

(** The writing loop, when the [n + 1]st call fails: [n] buffers are in the file. *)
Lemma write_buffers_err f a t c n fuel k l ls s (Q : exn + unit → locks → ServerBackend → Prop) :
  txn_nodes s !! a = Some t → txn_ok t → max_seq_num t < INT32_MAX →
  (∀ i, k ≤ i ≤ max_seq_num t → ∃ d, buffers t !! i = Some d ∧ d ≠ []) →
  writable (m_flags f) = true → k + Z.of_nat n ≤ max_seq_num t → (n < fuel)%nat →
  files s !! m_fd f = Some c → sched s = replicate n SysOk ++ SysErr :: l →
  Q (inl ErrorWritingToFile) ls
    (disk_state (<[m_fd f := c ++ payload_from (buffers t) k (k + Z.of_nat n - 1)]> (files s)) l s) →
  wp tid anything (write_buffers fuel f a k) ls s Q.
Proof.
  intros Ht Htok Hmax Hin Hw. revert n k c s Ht Hin. induction fuel as [|fuel IH]; intros n k c s Ht Hin Hn Hfuel Hd Hl HQ; [lia|].
  cbn [write_buffers]. wp_step. wp_step. apply wp_txn_get with t; [done..|]. cbv beta iota.
  rewrite (proj2 (Z.leb_le k _)) by lia. wp_step. wp_step. apply wp_txn_get with t; [done..|]. cbv beta iota.
  destruct (Hin k) as (d & Hdk & Hne); [lia|]. rewrite Hdk. wp_step.
  assert (Hnul : nul_free d = true) by by eapply (txn_buffer t Htok k).
  destruct n as [|n]; cbn [replicate app] in Hl.
  - apply (write_err f d l); [done..|]. cbv beta iota. wp_step.
    rewrite payload_from_nil, app_nil_r, insert_id in HQ by (done || lia). exact HQ.
  - apply (write_ok f d c (replicate n SysOk ++ SysErr :: l)); [done..|]. cbv beta iota.
    rewrite (proj2 (Z.eqb_neq k INT32_MAX)) by lia.
    apply (IH n (k + 1) (c ++ d)); [done| |lia|lia|apply lookup_insert_eq|done|].
    + intros i Hi. apply Hin. lia.
    + rewrite payload_from_cons, Hdk in HQ by lia. cbn [default from_option id] in HQ.
      replace (k + 1 + Z.of_nat n - 1) with (k + Z.of_nat (S n) - 1) by lia.
      rewrite <- app_assoc, disk_state_twice, files_disk_state. by rewrite insert_insert_eq.
Qed.
End failing.

(** ** The command *)

Section commit.
Context `{PathResolution} (tid : nat) (m_directory : bytes).
Implicit Types (s : ServerBackend) (l : list sysret).

Abbreviation anything := (λ _ : ServerBackend, True).

(** The [try] block: the file is opened, [n] buffers are written, the next is not. *)
Lemma commit_to_file_err id a t f n l ls s :
  let name := m_file_name f in
  txn_nodes s !! a = Some t → file_nodes s !! sp_file_attributes t = Some f → txn_ok t →
  max_seq_num t < INT32_MAX → max_seq_num t < least_missing (buffers t) →
  (∀ i d, buffers t !! i = Some d → d ≠ []) → Z.of_nat n < max_seq_num t →
  ls !! g_mtx = None → ls !! m_file_mtx (sp_file_attributes t) = None →
  sched s = SysOk :: replicate n SysOk ++ SysErr :: l →
  wp tid anything (commit_to_file m_directory id a (sp_file_attributes t)) ls s (λ r ls' s',
    r = inl ErrorWritingToFile ∧ ls' = ls ∧
    s' = disk_state (<[target m_directory name := contents m_directory (files s) name ++ payload (buffers t) (Z.of_nat n)]> (files s)) l s).
Proof.
  intros name Ht Hf Htok Hmax Hmiss Hne Hn Hg Hm Hl. set (sp := sp_file_attributes t) in *. set (path := m_directory ++ name).
  unfold commit_to_file. wp_step. wp_step. wp_step. apply wp_file_get with f; [done|done|]. fold name path.
  set (ls1 := <[m_file_mtx sp:=tid]> ls). assert (Hg1 : ls1 !! g_mtx = None) by (unfold ls1; by rewrite lookup_insert_ne).
  wp_step. unfold with_File, File_ctor. wp_step. wp_step. wp_step. wp_step. apply wp_syscall; [done|done|].
  set (s1 := disk_state (opened path (files s)) (replicate n SysOk ++ SysErr :: l) s).
  assert (Eo : w_open path (Z.lor O_CREAT (Z.lor O_WRONLY O_APPEND)) (backend_world s) = (Some (resolve path), backend_world s1)).
  { unfold w_open, next_call. rewrite Hl. unfold s1, opened, disk_state. simpl. change (files s) with (w_fs (backend_world s)).
    destruct (w_fs (backend_world s) !! resolve path) ; [done|]. by change (has_flag _ _) with true. }
  change (the_world s) with (backend_world s). rewrite Eo. cbn [fst snd].
  change (set_world (backend_world s1) s) with s1. wp_step. apply wp_unlock; [done|by rewrite lookup_insert_eq|].
  rewrite delete_insert_id by done. wp_step. set (fl := {| m_fd := resolve path; m_flags := _ |}).
  wp_step. wp_step. apply wp_lift. unfold loop_fuel. apply wp_txn_get with t; [done|done|]. cbv beta iota.
  assert (Hin : ∀ i, 1 ≤ i ≤ max_seq_num t → ∃ d, buffers t !! i = Some d ∧ d ≠ []).
  { intros i Hi. destruct (least_missing_spec (buffers t)) as (_ & _ & Hall). destruct (Hall i) as [d Hd]; [lia|]. exists d. eauto. }
  unfold ebind. wp_step.
  apply (write_buffers_err tid fl a t (contents m_directory (files s) name) n _ _ l); try done.
  { unfold Constants.initial_seq_num. lia. }
  { pose proof (least_missing_size (buffers t)). lia. }
  { apply opened_lookup. }
  cbv beta iota. wp_step. wp_step. apply File_dtor_spec; [done|done|]. wp_step.
  wp_step. unfold ls1. apply wp_unlock; [done|by rewrite lookup_insert_eq|]. rewrite delete_insert_id by done. wp_step.
  split; [done|]. split; [done|]. unfold s1, fl, target. fold path. rewrite disk_state_twice, files_disk_state. cbn [m_fd].
  rewrite opened_insert. unfold payload, Constants.initial_seq_num. by replace (0 + 1 + Z.of_nat n - 1) with (Z.of_nat n) by lia.
Qed.

(** The checks of a COMMIT of a complete transaction, and the rest of it: the writing. *)
Lemma COMMIT_to_write req ip a t f s (Q : Reply → locks → ServerBackend → Prop) :
  let now := w_now (backend_world s) in
  rq_txn_id req ∉ m_commits s → m_txn_id_to_transaction_attributes s !! rq_txn_id req = Some a →
  txn_nodes s !! a = Some t → file_nodes s !! sp_file_attributes t = Some f → txn_ok t →
  rq_seq_num req < INT32_MAX → max_seq_num t ≤ rq_seq_num req < least_missing (buffers t) →
  wp tid anything (commit_rest m_directory req ip a (sp_file_attributes t)) (<[txn_mtx a := tid]> ∅)
    (put_txn a (with_max_seq_num (rq_seq_num req) (with_timestamp now t)) s) Q →
  wp tid anything (COMMIT m_directory req ip) ∅ s Q.
Proof.
  intros now Hc Hid Ht Hf Htok Hseq Hmax HQ. unfold COMMIT, is_committed, is_active.
  bstep. bstep. bstep. bstep. rewrite bool_decide_eq_false_2 by done. bstep. bstep. rewrite Hid, bool_decide_eq_true_2 by done. simpl negb.
  wp_step. apply wp_find_txn with a; [done..|]. bstep. release. bstep. bstep. bstep. bstep.
  bstep. apply wp_check; [done|]. rewrite bool_decide_eq_false_2, Hid, bool_decide_eq_true_2 by done.
  bstep. release. bstep. eapply wp_update_timestamp; [done|done|done|].
  bstep. eapply wp_txn_get; [apply lookup_put|done|]. simpl max_seq_num.
  rewrite (proj2 (Z.ltb_ge _ _)) by lia. bstep. eapply wp_txn_set; [apply lookup_put|done..|]. rewrite put_put.
  bstep. eapply wp_txn_get; [apply lookup_put|done|]. simpl sp_file_attributes.
  bstep. unfold loop_fuel. eapply wp_txn_get; [apply lookup_put|done|]. simpl buffers.
  bstep. eapply wp_mono; [eapply (verify_loop_spec tid anything _ a); [apply lookup_put|done|done|done| |]|done|].
  { intros i Hi. unfold Constants.initial_seq_num in Hi. lia. }
  { simpl. unfold Constants.initial_seq_num. lia. }
  intros missing ls' s' _ (-> & -> & ->). simpl buffers. simpl max_seq_num. rewrite (proj2 (Z.leb_gt _ _)) by lia. exact HQ.
Qed.

(** The rollback looks for the file elsewhere and does nothing. *)
Lemma commit_rest_err req ip a t f n l s :
  let name := m_file_name f in
  request_ok req → txn_nodes s !! a = Some t → file_nodes s !! sp_file_attributes t = Some f → txn_ok t →
  max_seq_num t < INT32_MAX → max_seq_num t < least_missing (buffers t) →
  (∀ i d, buffers t !! i = Some d → d ≠ []) → Z.of_nat n < max_seq_num t →
  sched s = SysOk :: replicate n SysOk ++ SysErr :: l →
  resolve name ≠ target m_directory name → files s !! resolve name = None →
  wp tid anything (commit_rest m_directory req ip a (sp_file_attributes t)) (<[txn_mtx a := tid]> ∅) s (λ r ls' s',
    r = error_reply req Errors.ErrorWritingFile ∧ ls' = ∅ ∧
    files s' = <[target m_directory name := contents m_directory (files s) name ++ payload (buffers t) (Z.of_nat n)]> (files s)).
Proof.
  intros name Hreq Ht Hf Htok Hmax Hmiss Hne Hn Hl Hdir Hnone. unfold commit_rest. wp_step.
  set (s1 := disk_state (<[target m_directory name := contents m_directory (files s) name ++ payload (buffers t) (Z.of_nat n)]> (files s)) l s).
  eapply (wp_try_catch tid _ _ _ _ _ (λ r ls' s', r = inl ErrorWritingToFile ∧ ls' = <[txn_mtx a := tid]> ∅ ∧ s' = s1)).
  { eapply wp_eseq.
    - by apply (commit_to_file_err (rq_txn_id req) a t f n l).
    - by intros e ls' s' _ ([= ->] & -> & ->).
    - by intros [] ls' s' _ ([=] & _). }
  { by intros o ls' s' _ ([=] & _). }
  intros e ls' s' _ ([= ->] & -> & ->). wp_step. apply wp_file_get with f; [done|done|].
  wp_step. apply wp_file_get with f; [done|done|]. fold name. wp_step. apply wp_syscall; [done|done|].
  assert (Hf1 : w_fs (w_truncate name (m_file_size f) (the_world s1)).2 = files s1).
  { unfold w_truncate. pose proof (next_call_fs (the_world s1)) as Ew. destruct (next_call (the_world s1)) as [r w]. cbn [snd] in Ew. rewrite Ew.
    assert (E : w_fs (the_world s1) !! resolve name = None) by (simpl; by rewrite lookup_insert_ne).
    rewrite E. by destruct r. }
  wp_step. eapply wp_set_error; [done|done|done|]. wp_step. wp_step. release. wp_step.
  split; [done|]. split; [done|]. by rewrite files_set, Hf1.
Qed.

(** C29. The rollback of a failed COMMIT looks for the file in the working directory.  When
    that is not the server directory and holds no such file, a COMMIT of which [n] pieces
    have been written when a write fails is answered with the write error, and the [n]
    pieces stay in the file. *)
Theorem rollback_misses_the_file req ip t n l s :
  backend_ok s → request_ok req → rq_seq_num req < INT32_MAX →
  rq_txn_id req ∉ committed (abs s) → active (abs s) !! rq_txn_id req = Some t →
  t_max_seq_num t ≤ rq_seq_num req < least_missing (t_buffers t) →
  (∀ i d, t_buffers t !! i = Some d → d ≠ []) → Z.of_nat n < rq_seq_num req →
  resolve (t_file t) ≠ target m_directory (t_file t) → files s !! resolve (t_file t) = None →
  w_sched (backend_world s) = SysOk :: replicate n SysOk ++ SysErr :: l →
  ∃ s', run tid (COMMIT m_directory req ip) ∅ s = Done (error_reply req Errors.ErrorWritingFile) ∅ s' ∧
    files s' = <[target m_directory (t_file t) :=
                   contents m_directory (files s) (t_file t) ++ payload (t_buffers t) (Z.of_nat n)]> (files s).
Proof.
  intros Hok Hreq Hseq Hc Hact Hcomplete Hne Hn Hdir Hnone Hl.
  destruct (m_txn_id_to_transaction_attributes s !! rq_txn_id req) as [a|] eqn:Hid.
  2: { by rewrite active_none in Hact. }
  destruct (ok_lookup _ _ _ Hok Hid) as (t0 & f & Ht & Hf & Hact0 & Htok & Hname).
  rewrite Hact in Hact0. injection Hact0 as ->. simpl in Hcomplete, Hne, Hdir, Hnone |- *.
  set (t1 := with_max_seq_num (rq_seq_num req) (with_timestamp (w_now (backend_world s)) t0)).
  assert (Hw : wp tid anything (COMMIT m_directory req ip) ∅ s (λ r ls' s',
    r = error_reply req Errors.ErrorWritingFile ∧ ls' = ∅ ∧
    files s' = <[target m_directory (m_file_name f) :=
                   contents m_directory (files s) (m_file_name f) ++ payload (buffers t0) (Z.of_nat n)]> (files s))).
  { apply (COMMIT_to_write req ip a t0 f); [done..|]. fold t1.
    apply (commit_rest_err req ip a t1 f n l (put_txn a t1 s)); try done.
    - apply lookup_put.
    - apply txn_ok_promised; [done|apply Hreq|lia].
    - simpl. lia. }
  destruct (wp_run _ _ _ _ _ _ Hw) as (r & ls & s' & Hrun & -> & -> & Hs'). by exists s'.
Qed.
End commit.

(** ** A server elsewhere

    Its directory /d/ is not the working directory /w/, and the third of its system calls
    fails. *)
Section elsewhere.
#[local] Instance elsewhere_resolution : PathResolution :=
  λ p, match p with
       | "/"%char :: _ => p
       | _ => str "/w/" ++ p
       end.

Definition elsewhere_backend : ServerBackend :=
  set_backend_world
    {| w_fs := {[ str "/d/f" := str "ab" ]}; w_now := seconds 100; w_rand := [];
       w_sched := [SysOk; SysOk; SysErr] |} sample_backend.

Definition elsewhere_request : RequestTuple := sample_request Constants.commit_cmd 5 2 [].

(** Of the pieces "cd" and "ef" the first stays. *)
Lemma rollback_misses_the_file_witness :
  ∃ s', run 1 (COMMIT (str "/d/") elsewhere_request true) ∅ elsewhere_backend =
      Done (error_reply elsewhere_request Errors.ErrorWritingFile) ∅ s' ∧
    files s' !! str "/d/f" = Some (str "abcd").
Proof.
  destruct (rollback_misses_the_file 1 (str "/d/") elsewhere_request true sample_view 1 [] elsewhere_backend) as (s' & Hrun & Hs').
  - by apply (ok_frame sample_backend), sample_backend_ok.
  - by apply sample_request_ok.
  - done.
  - by vm_compute.
  - by vm_compute.
  - by vm_compute.
  - intros i d. simpl. rewrite lookup_insert_Some, lookup_singleton_Some. by intros [[_ <-]|[_ [_ <-]]].
  - done.
  - by vm_compute.
  - by vm_compute.
  - done.
  - exists s'. split; [exact Hrun|]. rewrite Hs'. by vm_compute.
Defined.
End elsewhere.
