(* ===== verification/UploadProps.v ===== *)
(** * What a client uploads is what it reads

    The composition of the commands: a transaction started, written to in any order,
    committed, and the file read back. *)
From S2P Require Import Prelude Stdcxx Constants WireProtocol Messages Prog ReadWrite Posix File Backend BackendInv BackendSteps BackendSpec CommitSpec Service BackendProps.
From Stdlib Require Import ZArith Lia List Ascii String Bool.
From stdpp Require Import base gmap strings list fin_maps sorting.
#[local] Set Default Goal Selector "!".
Local Open Scope Z_scope.

Definition request (cmd : bytes) (txn_id seq_num : Z) (data : bytes) : RequestTuple :=
  {| rq_command := cmd; rq_txn_id := txn_id; rq_seq_num := seq_num; rq_content_len := len data; rq_data := data |}.

Definition write_request (id : Z) (kd : Z * bytes) : RequestTuple := request Constants.write_cmd id kd.1 kd.2.

Section upload.
Context `{PathResolution} (tid : nat) (m_directory : bytes).
Implicit Types (s : ServerBackend).

(** Requests handled one after the other. *)
Fixpoint requests (reqs : list RequestTuple) : prog ServerBackend (list Reply) :=
  match reqs with
  | [] => Ret []
  | req :: reqs =>
      let! r := processCommand m_directory req true in
      let! rs := requests reqs in
      Ret (r :: rs)
  end.

(** An upload: the numbered pieces are sent in some order, [n] is the largest number. *)
Definition upload (name : bytes) (order : list (Z * bytes)) (n id : Z) : prog ServerBackend (list Reply) :=
  let! started := processCommand m_directory (request Constants.new_txn_cmd Constants.default_txn_id
                                                Constants.initial_seq_num name) true in
  let! acks := requests (write_request id <$> order) in
  let! committed := processCommand m_directory (request Constants.commit_cmd id n []) true in
  let! contents := processCommand m_directory (request Constants.read_cmd Constants.default_txn_id
                                                 Constants.initial_seq_num name) true in
  Ret (started :: acks ++ [committed; contents]).

(** ** The writes *)

(** What a transaction holds once numbered pieces have been written to it. *)
Definition holds (t : Txn) (l : list (Z * bytes)) (t' : Txn) : Prop :=
  t_file t' = t_file t ∧ t_buffers t' = list_to_map l ∪ t_buffers t ∧
  ∀ n, t_max_seq_num t ≤ n → Forall (λ kd, kd.1 ≤ n) l → t_max_seq_num t' ≤ n.

Lemma writes_spec id l t s :
  backend_ok s → int32 id → Forall (λ kd, int32 kd.1 ∧ nul_free kd.2 = true) l → NoDup l.*1 →
  id ∉ committed (abs s) → active (abs s) !! id = Some t → (∀ k, k ∈ l.*1 → t_buffers t !! k = None) →
  wp tid anything (requests (write_request id <$> l)) ∅ s (λ rs ls' s',
    rs = (λ kd, ack_reply (write_request id kd) true) <$> l ∧ ls' = ∅ ∧ backend_ok s' ∧
    backend_world s' = backend_world s ∧ committed (abs s') = committed (abs s) ∧
    ∃ t', active (abs s') !! id = Some t' ∧ holds t l t').
Proof.
  intros Hok Hid Hl Hd Hc Ht Hnew. revert s t Hok Hc Ht Hnew.
  induction l as [|[k d] l IH]; intros s t Hok Hc Ht Hnew; cbn [fmap list_fmap requests].
  - apply wp_ret; [done|]. do 5 (split; [done|]). exists t. split; [done|]. split; [done|].
    split; [by rewrite list_to_map_nil, (left_id_L ∅ (∪))|done].
  - apply Forall_cons in Hl as [[Hk Hdat] Hl]. apply NoDup_cons in Hd as [Hkl Hd]. simpl in Hk, Hdat, Hkl.
    wp_step. change (processCommand m_directory (write_request id (k, d)) true) with
      (WRITE (write_request id (k, d)) true).
    eapply wp_mono; [apply (WRITE_spec tid anything); [done|by split|done]|done|].
    intros r ls' s1 _ (-> & Hok1 & Hspec & Hw1 & _). unfold spec_WRITE in Hspec. cbn [rq_txn_id rq_seq_num rq_data write_request request fst snd] in Hspec.
    rewrite bool_decide_eq_false_2, Ht in Hspec by done.
    rewrite bool_decide_eq_false_2 in Hspec by (rewrite (Hnew k) by (simpl; left); by intros [? ?]).
    apply pair_equal_spec in Hspec as [Ea ->]. wp_step.
    eapply wp_mono; [apply (IH Hl Hd s1 (written (w_now (backend_world s)) k d t) Hok1)|done|].
    + by rewrite Ea.
    + rewrite Ea. apply lookup_insert_eq.
    + intros k' Hk'. simpl. rewrite lookup_insert_ne by (by intros ->). apply Hnew. simpl. by right.
    + intros rs ls' s' _ (-> & -> & Hok' & Hw' & Hc' & t' & Ht' & Hf' & Hb' & Hm').
      apply wp_ret; [done|]. split; [done|]. split; [done|]. split; [done|]. split; [congruence|].
      split; [by rewrite Hc', Ea|]. exists t'. split; [done|]. split; [done|]. split.
      * rewrite Hb'. simpl. rewrite <- insert_union_r by (apply not_elem_of_list_to_map_1; done).
        by rewrite insert_union_l.
      * intros n Hn [Hkn Hln]%Forall_cons. apply Hm'; [simpl in *; lia|done].
Qed.

(** The payload of a transaction that holds the pieces numbered from 1 on. *)
Lemma payload_pieces m (pieces : list bytes) :
  (∀ j p, pieces !! j = Some p → m !! (1 + Z.of_nat j) = Some p) →
  payload m (Z.of_nat (length pieces)) = concat pieces.
Proof.
  intros Hm. unfold payload, payload_from. f_equal.
  replace (Z.of_nat (length pieces) - 1 + 1) with (Z.of_nat (length pieces)) by lia.
  apply list_eq. intros j. rewrite list_lookup_fmap. destruct (pieces !! j) as [p|] eqn:Ej.
  - pose proof (lookup_lt_Some _ _ _ Ej). rewrite lookup_seqZ_lt by lia. simpl. by rewrite (Hm j p Ej).
  - apply lookup_ge_None in Ej. by rewrite lookup_seqZ_ge by lia.
Qed.

Lemma numbered_lookup (pieces : list bytes) order j p :
  order ≡ₚ zip (seqZ 1 (Z.of_nat (length pieces))) pieces → pieces !! j = Some p →
  (list_to_map order : gmap Z bytes) !! (1 + Z.of_nat j) = Some p.
Proof.
  intros Hp Hj. pose proof (lookup_lt_Some _ _ _ Hj).
  assert (Hf : (zip (seqZ 1 (Z.of_nat (length pieces))) pieces).*1 = seqZ 1 (Z.of_nat (length pieces))).
  { apply fst_zip. rewrite length_seqZ. lia. }
  apply elem_of_list_to_map.
  - rewrite Hp, Hf. apply NoDup_seqZ.
  - rewrite Hp. apply list_elem_of_lookup. exists j. apply lookup_zip_with_Some. exists (1 + Z.of_nat j), p.
    split; [done|]. split; [|done]. apply lookup_seqZ_lt. lia.
Qed.

(** ** The upload *)

(** An order of the numbered pieces. *)
Lemma order_spec (pieces : list bytes) order (n := Z.of_nat (length pieces)) :
  Forall (λ p, nul_free p = true) pieces → n < INT32_MAX → order ≡ₚ zip (seqZ 1 n) pieces →
  Forall (λ kd, int32 kd.1 ∧ nul_free kd.2 = true) order ∧ NoDup order.*1 ∧ Forall (λ kd, kd.1 ≤ n) order.
Proof.
  intros Hpieces Hn Horder.
  assert (Hf : (zip (seqZ 1 n) pieces).*1 = seqZ 1 n) by (apply fst_zip; rewrite length_seqZ; lia).
  assert (Hz : ∀ kd, kd ∈ zip (seqZ 1 n) pieces → 1 ≤ kd.1 ≤ n ∧ nul_free kd.2 = true).
  { intros [k d] Hkd. split.
    - apply elem_of_zip_l in Hkd. apply elem_of_seqZ in Hkd. simpl. lia.
    - apply elem_of_zip_r in Hkd. rewrite Forall_forall in Hpieces. by apply Hpieces. }
  unfold int32, INT32_MIN. split; [|split].
  - apply Forall_forall. intros kd Hkd. rewrite Horder in Hkd. apply Hz in Hkd as [??]. split; [lia|done].
  - rewrite Horder, Hf. apply NoDup_seqZ.
  - apply Forall_forall. intros kd Hkd. rewrite Horder in Hkd. apply Hz in Hkd as [??]. lia.
Qed.

Section whole.
Context (name : bytes) (pieces : list bytes) (order : list (Z * bytes)) (pre post : list Z) (r : Z) (s : ServerBackend).
Let id := candidate r.
Let n := Z.of_nat (length pieces).

Context (Hok : backend_ok s) (Hcalm : calm s) (Hname : nul_free name = true) (Hne : pieces ≠ []).
Context (Hpieces : Forall (λ p, nul_free p = true) pieces) (Hn : n < INT32_MAX).
Context (Horder : order ≡ₚ zip (seqZ 1 n) pieces).
Context (Hfree : next_free (active (abs s)) (w_rand (backend_world s)) pre r post).
Context (Hid : id ∉ committed (abs s)).
Context (Htrans : target m_directory name ≠ resolve (m_directory ++ m_transaction_log)).
Context (Hlog : target m_directory name ≠ resolve (m_directory ++ m_commit_log)).
Context (Hres : resolve name ≠ resolve (m_directory ++ m_commit_log)).

Let data := contents m_directory (files s) name ++ concat pieces.

(** The COMMIT of a transaction that holds the pieces. *)
Lemma commit_pieces t s2 :
  backend_ok s2 → calm s2 → id ∉ committed (abs s2) → active (abs s2) !! id = Some t → t_file t = name →
  t_max_seq_num t ≤ n → (∀ j p, pieces !! j = Some p → t_buffers t !! (1 + Z.of_nat j) = Some p) →
  wp tid anything (COMMIT m_directory (request Constants.commit_cmd id n []) true) ∅ s2 (λ rep ls' s',
    rep = ack_reply (request Constants.commit_cmd id n []) true ∧ ls' = ∅ ∧ calm s' ∧
    files s' !! target m_directory name = Some (contents m_directory (files s2) name ++ concat pieces)).
Proof using Hlog Hn Hres.
  intros Hok2 Hcalm2 Hc2 Ht Hf Hmax Hb. assert (Hpay : payload (t_buffers t) n = concat pieces) by by apply payload_pieces.
  eapply wp_mono; [apply (commit_complete m_directory tid (request Constants.commit_cmd id n []) true t s2)|done|]; try done.
  - split; [apply candidate_int32|unfold int32, INT32_MIN; simpl; lia|done].
  - simpl. intros k Hk. destruct (lookup_lt_is_Some_2 pieces (Z.to_nat (k - 1))) as [p Hp]; [lia|].
    exists p. replace k with (1 + Z.of_nat (Z.to_nat (k - 1))) by lia. by apply Hb.
  - by rewrite Hf.
  - by rewrite Hf.
  - intros rep ls' s' _ (-> & -> & _ & Hcalm' & Hfiles & _). simpl in Hfiles. rewrite Hf, Hpay in Hfiles.
    split; [done|]. split; [done|]. split; [done|]. rewrite Hfiles, lookup_insert_ne by done. apply lookup_insert_eq.
Qed.

Lemma upload_spec :
  len data < INT32_MAX →
  wp tid anything (upload name order n id) ∅ s (λ rs ls' s', ls' = ∅ ∧
    rs = new_txn_reply id true ::
         ((λ kd, ack_reply (write_request id kd) true) <$> order) ++
         [ack_reply (request Constants.commit_cmd id n []) true;
          read_reply (request Constants.read_cmd Constants.default_txn_id Constants.initial_seq_num name)
            (c_str data) true]).
Proof using Hcalm Hfree Hid Hlog Hn Hname Hne Hok Horder Hpieces Hres Htrans.
  intros Hlen. destruct (order_spec pieces order Hpieces Hn Horder) as (Hl & Hd & Hle). unfold upload.
  assert (Hn1 : 1 ≤ n) by (destruct pieces; [done|simpl in n; lia]).
  (* NEW_TXN *)
  wp_step. change (processCommand m_directory (request Constants.new_txn_cmd ?a ?b name) true) with
    (NEW_TXN m_directory (request Constants.new_txn_cmd a b name) true).
  eapply wp_mono; [apply (NEW_TXN_spec tid m_directory anything _ true pre r post s); try done|done|].
  intros started ls1 s1 _ (-> & Hok1 & Habs1 & _ & _ & Hcalm1 & _ & _ & b & Hl1 & _).
  unfold spec_NEW_TXN in Habs1. cbn [rq_seq_num rq_data request] in Habs1, Hl1. change (0 =? 0) with true in Habs1.
  cbv iota in Habs1. apply pair_equal_spec in Habs1 as [Ea1 ->]. fold id in Ea1.
  (* WRITEs *)
  wp_step. eapply wp_mono; [eapply (writes_spec id order _ s1 Hok1 (candidate_int32 r) Hl Hd)|done|].
  { by rewrite Ea1. }
  { rewrite Ea1. apply lookup_insert_eq. }
  { by intros k _. }
  intros acks ls2 s2 _ (-> & -> & Hok2 & Hw2 & Hc2 & t' & Ht' & Hf' & Hb' & Hm'). simpl in Hf', Hb', Hm'.
  assert (Hold : contents m_directory (files s2) name = contents m_directory (files s) name).
  { rewrite (world_files s1 s2 Hw2). unfold contents. f_equal. by eapply logged_lookup. }
  (* COMMIT *)
  wp_step. change (processCommand m_directory (request Constants.commit_cmd id n []) true) with
    (COMMIT m_directory (request Constants.commit_cmd id n []) true).
  eapply wp_mono; [apply (commit_pieces t' s2)|done|]; try done.
  { unfold calm. simpl. rewrite Hw2. by apply Hcalm1. }
  { change (id ∉ committed (abs s2)). by rewrite Hc2, Ea1. }
  { apply Hm'; [unfold Constants.initial_seq_num in *; lia|done]. }
  { intros j p Hj. rewrite Hb'. apply lookup_union_Some_l. by eapply numbered_lookup. }
  intros committed ls3 s3 _ (-> & -> & Hcalm3 & Hread). rewrite Hold in Hread.
  change (files s3 !! resolve (m_directory ++ name) = Some data) in Hread.
  (* READ *)
  wp_step. change (processCommand m_directory (request Constants.read_cmd ?a ?b name) true) with
    (READ m_directory (request Constants.read_cmd a b name) true).
  eapply wp_mono; [apply (READ_spec tid m_directory anything)|done|].
  { by split. }
  { intros c Hc. simpl in Hc. rewrite Hread in Hc. by injection Hc as <-. }
  { done. }
  intros got ls4 s4 _ (-> & _ & _ & Hgot). cbn [rq_data request] in Hgot. rewrite Hread in Hgot.
  destruct Hgot as [->|[Hnc _]]; [|done]. apply wp_ret; [done|]. by split.
Qed.

(** C9. What is uploaded is read back: when a file is written in numbered pieces, sent in
    any order between a NEW_TXN and a COMMIT, and no system call fails, the server
    acknowledges every request, and a READ then returns the old contents of the file
    followed by the pieces in the order of their numbers (up to the first NUL the old
    contents may hold). *)
Theorem upload_reads_back :
  len data < INT32_MAX →
  ∃ s', run tid (upload name order n id) ∅ s =
    Done (new_txn_reply id true ::
          ((λ kd, ack_reply (write_request id kd) true) <$> order) ++
          [ack_reply (request Constants.commit_cmd id n []) true;
           read_reply (request Constants.read_cmd Constants.default_txn_id Constants.initial_seq_num name)
             (c_str data) true]) ∅ s'.
Proof using Hcalm Hfree Hid Hlog Hn Hname Hne Hok Horder Hpieces Hres Htrans.
  intros Hlen. destruct (wp_run _ _ _ _ _ _ (upload_spec Hlen)) as (rs & ls & s' & Hrun & -> & ->). eauto.
Qed.
End whole.
End upload.

(** ** Witness: two pieces sent in the wrong order *)

Section witness.
#[local] Existing Instance sample_resolution.

Lemma upload_reads_back_witness :
  ∃ s', run 1 (upload [] (str "f") [(2, str "ef"); (1, str "cd")] 2 7) ∅ sample_backend =
    Done [new_txn_reply 7 true; ack_reply (write_request 7 (2, str "ef")) true;
          ack_reply (write_request 7 (1, str "cd")) true;
          ack_reply (request Constants.commit_cmd 7 2 []) true;
          read_reply (request Constants.read_cmd Constants.default_txn_id Constants.initial_seq_num (str "f"))
            (str "abcdef") true] ∅ s'.
Proof.
  destruct (upload_reads_back 1 [] (str "f") [str "cd"; str "ef"] [(2, str "ef"); (1, str "cd")] [5] [] 7 sample_backend)
    as [s' Hrun].
  - apply sample_backend_ok.
  - done.
  - done.
  - done.
  - by repeat constructor.
  - by vm_compute.
  - apply (Permutation_swap (1, str "cd") (2, str "ef") []).
  - split; [done|]. split; [|by vm_compute]. constructor; [apply (bool_decide_unpack (is_Some _)); by vm_compute|constructor].
  - by vm_compute.
  - by vm_compute.
  - by vm_compute.
  - by vm_compute.
  - by vm_compute.
  - exists s'. assert (E1 : candidate 7 = 7) by done. rewrite E1 in Hrun.
    assert (E2 : contents [] (files sample_backend) (str "f") ++ concat [str "cd"; str "ef"] = str "abcdef") by by vm_compute.
    rewrite E2 in Hrun. exact Hrun.
Defined.
End witness.
