(* ===== verification/LogSpec.v ===== *)
(** * The transaction logs

    What [logTransaction] prints, [loadFilesAndTransactions] reads back; and what the
    entries of the logs say: the size each file is cut back to and the transactions that
    are still in progress. *)
From S2P Require Import Prelude Stdcxx Constants WireProtocol Messages Prog ReadWrite Posix File Backend Recovery BackendInv BackendSteps BackendSpec CommitSpec.
From Stdlib Require Import ZArith Lia List Ascii String Bool.
From stdpp Require Import base gmap strings list fin_maps sorting.
#[local] Set Default Goal Selector "!".
Local Open Scope Z_scope.

(** ** Printing and parsing *)

Definition print_entry (e : LogEntry) : bytes :=
  log_entry (le_txn_id e) (le_file_name e) (le_file_size e).

Definition print_log (es : list LogEntry) : bytes := concat (print_entry <$> es).

(** Entries that can be read back: the file name is one word. *)
Record entry_ok (e : LogEntry) : Prop := {
  entry_id : int32 (le_txn_id e);
  entry_name : le_file_name e ≠ [] ∧ forallb (λ c, negb (is_space c)) (le_file_name e) = true;
  entry_size : INT64_MIN ≤ le_file_size e ≤ INT64_MAX
}.

Definition newline : bytes := str "
".

Lemma int32_bounds : INT32_MIN ≤ 0 ≤ INT32_MAX.
Proof. done. Qed.

(** One turn of the reading loop on a printed entry. *)
Lemma log_entries_step fuel ws e tail :
  forallb is_space ws = true → entry_ok e →
  log_entries (S fuel) (istringstream (ws ++ print_entry e ++ tail)) =
    e :: log_entries fuel (istringstream (newline ++ tail)).
Proof.
  intros Hws [Hid [Hne Hname] Hsize]. unfold print_entry, log_entry. rewrite <- !app_assoc.
  cbn [log_entries]. rewrite extract_int_to_string by done. cbn [istringstream is_ok].
  change {| is_rest := ?r; is_ok := true |} with (istringstream r).
  rewrite extract_string_word by done. cbn [istringstream is_ok].
  change {| is_rest := ?r; is_ok := true |} with (istringstream r).
  rewrite extract_int_to_string by done. cbn [istringstream is_ok]. by destruct e.
Qed.

(** The loop stops at white space. *)
Lemma log_entries_spaces fuel ws :
  forallb is_space ws = true → log_entries fuel (istringstream ws) = [].
Proof.
  intros Hws. destruct fuel as [|fuel]; [done|]. cbn [log_entries].
  assert (E : skipws (istringstream ws) = {| is_rest := []; is_ok := false |}).
  { unfold skipws. cbn [istringstream is_rest is_ok].
    rewrite <- (app_nil_r ws), (span_app is_space ws []) by done. done. }
  unfold extract_int. by rewrite E.
Qed.

Lemma log_entries_print es ws fuel :
  forallb is_space ws = true → Forall entry_ok es → (length es < fuel)%nat →
  log_entries fuel (istringstream (ws ++ print_log es)) = es.
Proof.
  revert ws fuel; induction es as [|e es IH]; intros ws fuel Hws Hes Hfuel.
  - rewrite app_nil_r. by apply log_entries_spaces.
  - apply Forall_cons in Hes as [He Hes]. destruct fuel as [|fuel]; [simpl in Hfuel; lia|].
    change (print_log (e :: es)) with (print_entry e ++ print_log es).
    rewrite log_entries_step by done. f_equal. apply IH; [done|done|simpl in Hfuel; lia].
Qed.

Lemma print_entry_length e : (1 ≤ length (print_entry e))%nat.
Proof. unfold print_entry, log_entry. rewrite !length_app. simpl. lia. Qed.

Lemma print_log_length es : (length es ≤ length (print_log es))%nat.
Proof.
  induction es as [|e es IH]; [done|].
  change (print_log (e :: es)) with (print_entry e ++ print_log es).
  rewrite length_app. pose proof (print_entry_length e). simpl. lia.
Qed.

Lemma parse_print es : Forall entry_ok es → parse_log (print_log es) = es.
Proof.
  intros Hes. apply (log_entries_print es []); [done|done|].
  pose proof (print_log_length es). lia.
Qed.

(** ** Keeping a log *)
Section keeping.
Context `{PathResolution} (tid : nat) (m_directory : bytes).
Implicit Types (s : ServerBackend) (fs : gmap bytes bytes).

(** What [logTransaction] records of a transaction, beside these files. *)
Definition entry_of fs (e : Z * bytes) : LogEntry :=
  {| le_txn_id := e.1; le_file_name := e.2; le_file_size := size_of fs e.2 |}.

Definition log_lines fs (l : list (Z * bytes)) : bytes := print_log (entry_of fs <$> l).

Lemma log_lines_frame fs fs' l :
  (∀ name, name ∈ l.*2 → fs' !! resolve name = fs !! resolve name) → log_lines fs' l = log_lines fs l.
Proof.
  intros Hf. unfold log_lines. f_equal. apply list_fmap_ext. intros i [id name] Hi.
  unfold entry_of, size_of. simpl. rewrite Hf; [done|].
  by apply (list_elem_of_fmap_2 snd l (id, name)), list_elem_of_lookup_2 with i.
Qed.

(** A complete line in the log. *)
Lemma log_line log id name fs fs' l :
  logged (m_directory ++ log) id name fs true fs' → resolve name ≠ target m_directory log →
  (∀ n, n ∈ l.*2 → resolve n ≠ target m_directory log) →
  contents m_directory fs' log ++ log_lines fs' l = contents m_directory fs log ++ log_lines fs ((id, name) :: l).
Proof.
  intros Hl Hn Hnot. rewrite (log_lines_frame fs).
  2: { intros n Hin. eapply logged_lookup; [exact Hl|]. by apply Hnot. }
  unfold contents, target. rewrite (logged_true _ _ _ _ _ Hl Hn), lookup_insert_eq.
  unfold log_lines, print_log. simpl. by rewrite <- app_assoc.
Qed.

(** Transactions logged one after the other. *)
Definition log_all (log : bytes) (entries : list (Z * bytes)) : prog ServerBackend unit :=
  foldr (λ e p, logTransaction m_directory log e.1 e.2 ;;; p) (Ret tt) entries.

Lemma log_all_spec log entries ls s :
  calm s → ls !! g_mtx = None →
  (∀ name, name ∈ entries.*2 → nul_free name = true ∧ resolve name ≠ target m_directory log) →
  wp tid (λ _, True) (log_all log entries) ls s (λ _ ls' s', ls' = ls ∧
    (∀ p, p ≠ target m_directory log → files s' !! p = files s !! p) ∧
    contents m_directory (files s') log = contents m_directory (files s) log ++ log_lines (files s) entries).
Proof.
  revert s; induction entries as [|[id name] entries IH]; intros s Hc Hg Hnames; simpl.
  - apply wp_ret; [done|]. do 2 (split; [done|]). by rewrite app_nil_r.
  - destruct (Hnames name) as [Hnul Hn]; [by left|].
    assert (Hrest : ∀ n, n ∈ entries.*2 → nul_free n = true ∧ resolve n ≠ target m_directory log)
      by (intros; apply Hnames; by right).
    eapply wp_seq; [by apply logTransaction_spec|].
    intros _ ls' s1 _ (-> & Hs1 & b & Hl & Hb). rewrite (Hb Hc) in Hl.
    assert (Hc1 : calm s1) by (destruct Hs1 as (_ & _ & _ & Hcalm); by apply Hcalm).
    eapply wp_mono; [by apply IH|done|]. intros _ ls' s' _ (-> & Hf & Ht). split; [done|]. split.
    + intros p Hp. rewrite Hf by done. by eapply logged_lookup.
    + rewrite Ht. apply log_line; [done|done|]. intros n Hin. by apply Hrest.
Qed.
End keeping.

(** A name of two words whose second is a number is read as the first word, with that
    number for size; reading then stops at the next line. *)
Lemma spaced_name_parsed id u n size :
  int32 id → u ≠ [] → forallb (λ c, negb (is_space c)) u = true →
  INT64_MIN ≤ n ≤ INT64_MAX → int32 size →
  parse_log (log_entry id (u ++ str " " ++ to_string n) size) =
    [{| le_txn_id := id; le_file_name := u; le_file_size := n |}].
Proof.
  intros Hid Hne Hu Hn Hsize.
  assert (E : ∀ fuel, log_entries (S (S fuel)) (istringstream (log_entry id (u ++ str " " ++ to_string n) size)) =
    [{| le_txn_id := id; le_file_name := u; le_file_size := n |}]).
  { intros fuel. unfold log_entry. rewrite <- !app_assoc. cbn [log_entries].
    change (istringstream (to_string id ++ ?r)) with (istringstream ([] ++ to_string id ++ r)).
    rewrite extract_int_to_string by done. cbn [istringstream is_ok].
    change {| is_rest := ?r; is_ok := true |} with (istringstream r).
    rewrite extract_string_word by done. cbn [istringstream is_ok].
    change {| is_rest := ?r; is_ok := true |} with (istringstream r).
    rewrite extract_int_to_string by done. cbn [istringstream is_ok].
    change {| is_rest := ?r; is_ok := true |} with (istringstream r).
    by rewrite extract_int_to_string by done. }
  unfold parse_log. assert (Hlen : (1 ≤ length (log_entry id (u ++ str " " ++ to_string n) size))%nat)
    by (unfold log_entry; rewrite !length_app; simpl; lia).
  destruct (length _) as [|k]; [lia|]. apply E.
Qed.

(** ** What the entries say *)

Definition load_entries (l : Loaded) (es : list LogEntry) : Loaded := foldl load_entry l es.

(** The size a file is cut back to is the largest in its entries. *)
Lemma load_sizes es l name :
  (∀ m, file_names_to_file_sizes l !! name = Some m →
     ∃ m', file_names_to_file_sizes (load_entries l es) !! name = Some m' ∧ m ≤ m') ∧
  (∀ e, e ∈ es → le_file_name e = name →
     ∃ m', file_names_to_file_sizes (load_entries l es) !! name = Some m' ∧ le_file_size e ≤ m') ∧
  (∀ m', file_names_to_file_sizes (load_entries l es) !! name = Some m' →
     file_names_to_file_sizes l !! name = Some m' ∨
     ∃ e, e ∈ es ∧ le_file_name e = name ∧ le_file_size e = m').
Proof.
  revert l; induction es as [|e es IH]; intros l; simpl.
  - split; [eauto with lia|]. split; [by intros e ?%elem_of_nil|auto].
  - specialize (IH (load_entry l e)) as (H1 & H2 & H3).
    change (foldl load_entry (load_entry l e) es) with (load_entries (load_entry l e) es) in *.
    assert (Hstep : ∀ m, file_names_to_file_sizes l !! name = Some m →
      ∃ m1, file_names_to_file_sizes (load_entry l e) !! name = Some m1 ∧ m ≤ m1).
    { intros m Hm. simpl. destruct (decide (le_file_name e = name)) as [->|Hne].
      - rewrite Hm. destruct (Z.ltb_spec m (le_file_size e)); [|by exists m; auto with lia].
        exists (le_file_size e). rewrite lookup_insert_eq. auto with lia.
      - exists m. destruct (file_names_to_file_sizes l !! le_file_name e) as [x|];
          [destruct (x <? _)|]; rewrite ?lookup_insert_ne by done; auto with lia. }
    assert (Hnew : ∃ m1, file_names_to_file_sizes (load_entry l e) !! le_file_name e = Some m1 ∧
      le_file_size e ≤ m1 ∧ (m1 = le_file_size e ∨ file_names_to_file_sizes l !! le_file_name e = Some m1)).
    { simpl. destruct (file_names_to_file_sizes l !! le_file_name e) as [x|] eqn:Ex.
      - destruct (Z.ltb_spec x (le_file_size e)); [|by exists x; auto with lia].
        exists (le_file_size e). rewrite lookup_insert_eq. auto with lia.
      - exists (le_file_size e). rewrite lookup_insert_eq. auto with lia. }
    split; [|split].
    + intros m Hm. destruct (Hstep m Hm) as (m1 & Hm1 & Hle). destruct (H1 m1 Hm1) as (m' & ? & ?).
      exists m'. auto with lia.
    + intros e0 [->|He0]%elem_of_cons En; [|by apply H2]. subst name.
      destruct Hnew as (m1 & Hm1 & Hle & _). destruct (H1 m1 Hm1) as (m' & ? & ?). exists m'. auto with lia.
    + intros m' Hm'. destruct (H3 m' Hm') as [Hl|(e0 & He0 & En & Es)].
      2: { right. exists e0. split; [by right|done]. }
      destruct (decide (le_file_name e = name)) as [En|Hne].
      * subst name. destruct Hnew as (m1 & Hm1 & _ & [->|Hor]); [|left; congruence].
        right. exists e. split; [by left|]. split; [done|congruence].
      * left. simpl in Hl. destruct (file_names_to_file_sizes l !! le_file_name e) as [x|];
          [destruct (x <? _)|]; rewrite ?lookup_insert_ne in Hl by done; done.
Qed.

(** The transactions after the entries of the transaction log, no id twice. *)
Lemma load_started es l id :
  NoDup (le_txn_id <$> es) → (∀ e, e ∈ es → txn_ids_to_file_names l !! le_txn_id e = None) →
  txn_ids_to_file_names (load_entries l es) !! id =
    match list_find (λ e, le_txn_id e = id) es with
    | Some (_, e) => Some (le_file_name e)
    | None => txn_ids_to_file_names l !! id
    end.
Proof.
  revert l; induction es as [|e es IH]; intros l Hd Hl; [done|].
  apply NoDup_cons in Hd as [Hin Hd].
  assert (He : txn_ids_to_file_names l !! le_txn_id e = None) by (apply Hl; by left).
  simpl load_entries.
  change (load_entries (load_entry l e) es) with (load_entries (load_entry l e) es).
  assert (Hload : txn_ids_to_file_names (load_entry l e) =
    <[le_txn_id e := le_file_name e]> (txn_ids_to_file_names l)) by (simpl; by rewrite He).
  change (foldl load_entry (load_entry l e) es) with (load_entries (load_entry l e) es).
  rewrite IH; [|done|].
  2: { intros e0 He0. rewrite Hload, lookup_insert_ne; [by apply Hl; right|].
    intros E. apply Hin. rewrite E. by apply list_elem_of_fmap_2. }
  rewrite Hload. simpl list_find. case_decide as E.
  - destruct (list_find (λ e0, le_txn_id e0 = id) es) as [[i e0]|] eqn:Ef; simpl.
    + apply list_find_Some in Ef as (Hi & E0 & _). exfalso. apply Hin. rewrite E, <- E0.
      apply list_elem_of_fmap_2. by eapply list_elem_of_lookup_2.
    + rewrite <- E. apply lookup_insert_eq.
  - destruct (list_find (λ e0, le_txn_id e0 = id) es) as [[i e0]|]; simpl; [done|].
    by rewrite lookup_insert_ne.
Qed.

(** The transactions after the entries of a log of ended ones, each in progress before. *)
Lemma load_ended es l id :
  NoDup (le_txn_id <$> es) → (∀ e, e ∈ es → is_Some (txn_ids_to_file_names l !! le_txn_id e)) →
  txn_ids_to_file_names (load_entries l es) !! id =
    if decide (id ∈ le_txn_id <$> es) then None else txn_ids_to_file_names l !! id.
Proof.
  revert l; induction es as [|e es IH]; intros l Hd Hl; [done|].
  apply NoDup_cons in Hd as [Hin Hd].
  destruct (Hl e ltac:(by left)) as [n He].
  assert (Hload : txn_ids_to_file_names (load_entry l e) = delete (le_txn_id e) (txn_ids_to_file_names l))
    by (simpl; by rewrite He).
  change (load_entries l (e :: es)) with (load_entries (load_entry l e) es).
  rewrite IH; [|done|].
  2: { intros e0 He0. rewrite Hload, lookup_delete_ne; [by apply Hl; right|].
    intros E. apply Hin. rewrite E. by apply list_elem_of_fmap_2. }
  rewrite Hload. simpl. destruct (decide (id = le_txn_id e)) as [->|Hne].
  - rewrite lookup_delete_eq, (decide_True (P := le_txn_id e ∈ le_txn_id e :: _)) by by left.
    by case_decide.
  - rewrite lookup_delete_ne by done.
    destruct (decide (id ∈ le_txn_id <$> es)) as [H1|H1].
    + by rewrite decide_True by by right.
    + rewrite decide_False; [done|]. by intros [?|?]%elem_of_cons.
Qed.
