(* ===== verification/RestartSpec.v ===== *)
(** * Restarting the server

    What the initialisation does with the files a crash left behind: the logs are read and
    removed, every file they name is cut back to the largest size they record, and the
    transactions in progress start again.  System calls are taken not to fail here: a
    failing one ends the process ([exit]) or loses a log. *)
From S2P Require Import Prelude Stdcxx Constants WireProtocol Messages Prog ReadWrite Posix File Backend Recovery BackendInv BackendSteps BackendSpec CommitSpec LogSpec.
From Stdlib Require Import ZArith Lia List Ascii String Bool.
From stdpp Require Import base gmap strings list fin_maps sorting.
#[local] Set Default Goal Selector "!".
Local Open Scope Z_scope.

Section restart.
Context `{PathResolution} (tid : nat).
Implicit Types (s : ServerBackend) (fs : gmap bytes bytes).

Definition always_true : ServerBackend → Prop := λ _, True.

(** A state with other files. *)
Definition with_files fs s : ServerBackend := set_backend_world (set_fs fs (backend_world s)) s.

Lemma files_with_files fs s : files (with_files fs s) = fs.
Proof. done. Qed.

Lemma with_files_twice fs fs' s : with_files fs' (with_files fs s) = with_files fs' s.
Proof. done. Qed.

Lemma with_files_same s : with_files (files s) s = s.
Proof. by destruct s as [? ? ? ? ? ? ? ? []]. Qed.

Lemma calm_with_files fs s : calm s → calm (with_files fs s).
Proof. done. Qed.

(** ** Calm system calls *)

Lemma wp_calm_open path ls s (Q : option bytes → locks → ServerBackend → Prop) :
  calm s →
  Q (match files s !! resolve path with Some _ => Some (resolve path) | None => None end) ls s →
  wp tid always_true (syscall (w_open path O_RDONLY)) ls s Q.
Proof.
  intros Hc HQ.
  assert (E : w_open path O_RDONLY (the_world s) =
    (match files s !! resolve path with Some _ => Some (resolve path) | None => None end, the_world s)).
  { unfold w_open. rewrite next_call_calm by done. change (w_fs (the_world s)) with (files s).
    destruct (files s !! resolve path); [done|]. by change (has_flag O_CREAT O_RDONLY) with false. }
  apply wp_syscall; [done|done|]. rewrite E. simpl.
  replace (set_backend_world (backend_world s) s) with s by by destruct s. done.
Qed.

Lemma wp_calm_remove path c ls s (Q : bool → locks → ServerBackend → Prop) :
  calm s → files s !! resolve path = Some c →
  Q true ls (with_files (delete (resolve path) (files s)) s) →
  wp tid always_true (syscall (w_remove path)) ls s Q.
Proof.
  intros Hc Hl HQ. apply wp_syscall; [done|done|].
  unfold w_remove. rewrite next_call_calm by done. change (w_fs (the_world s)) with (files s).
  by rewrite Hl.
Qed.

Lemma wp_calm_truncate path size c ls s (Q : bool → locks → ServerBackend → Prop) :
  calm s → files s !! resolve path = Some c →
  Q true ls (with_files (<[resolve path := resized size c]> (files s)) s) →
  wp tid always_true (syscall (w_truncate path size)) ls s Q.
Proof.
  intros Hc Hl HQ. apply wp_syscall; [done|done|].
  unfold w_truncate. rewrite next_call_calm by done. change (w_fs (the_world s)) with (files s).
  by rewrite Hl.
Qed.

(** [ss << log.rdbuf()] reads the whole file. *)
Lemma rdbuf_spec fuel d c pre rest ls s :
  calm s → files s !! d = Some c → c = pre ++ rest → (length rest < fuel)%nat →
  wp tid always_true (rdbuf fuel d pre) ls s (λ r ls' s', r = c ∧ ls' = ls ∧ s' = s).
Proof.
  intros Hc Hd. revert pre rest; induction fuel as [|fuel IH]; intros pre rest Hcr Hfuel; [lia|].
  simpl. wp_step. apply wp_syscall; [done|done|].
  unfold w_read. rewrite next_call_calm by done. change (w_fs (the_world s)) with (files s).
  rewrite Hd. cbn [default from_option id fst snd transferred]. rewrite Hcr at 1 2. rewrite drop_app_length.
  replace (set_world (the_world s) s) with s by by destruct s.
  rewrite Nat.min_r by lia. rewrite take_ge by done.
  destruct rest as [|x rest].
  - apply wp_ret; [done|]. by rewrite Hcr, app_nil_r.
  - destruct fuel as [|fuel]; [simpl in Hfuel; lia|]. apply (IH _ []); [by rewrite app_nil_r|simpl; lia].
Qed.

(** ** Reading the logs *)

(** What one log contributes. *)
Definition load_file fs (l : Loaded) (log : bytes) : Loaded :=
  match fs !! resolve log with Some c => load_log l c | None => l end.

Lemma load_log_file_spec l log ls s :
  calm s →
  wp tid always_true (load_log_file l log) ls s (λ r ls' s',
    r = load_file (files s) l log ∧ ls' = ls ∧ s' = with_files (delete (resolve log) (files s)) s).
Proof.
  intros Hc. unfold load_log_file, load_file. wp_step. apply wp_calm_open; [done|].
  destruct (files s !! resolve log) as [c|] eqn:E.
  - wp_step. unfold syscall_reads. wp_step.
    change (w_fs (the_world s)) with (files s). rewrite E. simpl length.
    wp_step. eapply wp_mono; [eapply (rdbuf_spec _ _ c [] c); [done|done|done|lia]|done|].
    intros r ls' s' _ (-> & -> & ->). wp_step. eapply wp_calm_remove; [done|done|].
    by apply wp_ret.
  - apply wp_ret; [done|]. split; [done|]. split; [done|].
    rewrite delete_id by done. by rewrite with_files_same.
Qed.

Definition without_logs fs (logs : list bytes) : gmap bytes bytes :=
  foldl (λ fs log, delete (resolve log) fs) fs logs.

Lemma without_logs_lookup fs logs p :
  p ∉ resolve <$> logs → without_logs fs logs !! p = fs !! p.
Proof.
  revert fs; induction logs as [|log logs IH]; intros fs Hp; [done|]. simpl.
  apply not_elem_of_cons in Hp as [Hne Hp]. rewrite IH by done. by apply lookup_delete_ne.
Qed.

Lemma without_logs_gone fs logs p : p ∈ resolve <$> logs → without_logs fs logs !! p = None.
Proof.
  assert (Hstay : ∀ logs fs, fs !! p = None → without_logs fs logs !! p = None).
  { clear. intros logs. induction logs as [|log logs IH]; intros fs Hp; [done|]. apply IH.
    by apply lookup_delete_None; right. }
  revert fs; induction logs as [|log logs IH]; intros fs Hp; [by apply elem_of_nil in Hp|].
  apply elem_of_cons in Hp as [->|Hp]; [apply (Hstay logs), lookup_delete_eq|by apply IH].
Qed.

Lemma load_logs_spec logs l ls s :
  calm s → NoDup (resolve <$> logs) →
  wp tid always_true (load_logs l logs) ls s (λ r ls' s',
    r = foldl (load_file (files s)) l logs ∧ ls' = ls ∧ s' = with_files (without_logs (files s) logs) s).
Proof.
  revert l s; induction logs as [|log logs IH]; intros l s Hc Hd; simpl.
  - apply wp_ret; [done|]. by rewrite with_files_same.
  - apply NoDup_cons in Hd as [Hin Hd]. wp_step.
    eapply wp_mono; [by apply load_log_file_spec|done|]. intros r ls' s' _ (-> & -> & ->).
    eapply wp_mono; [by apply IH|done|]. intros r ls' s' _ (-> & -> & ->). split; [|done].
    generalize (load_file (files s) l log). clear -Hin. intros l.
    change (files (with_files ?fs s)) with fs. revert l.
    induction logs as [|log' logs IH]; intros l; [done|]. simpl in *.
    apply not_elem_of_cons in Hin as [Hne Hin]. rewrite <- IH by done. f_equal.
    unfold load_file. by rewrite lookup_delete_ne.
Qed.

(** ** Cutting the files back *)

Definition truncate_one fs (entry : bytes * Z) : gmap bytes bytes :=
  match fs !! resolve entry.1 with
  | None => fs
  | Some c => if 0 <? entry.2 then <[resolve entry.1 := resized entry.2 c]> fs
              else delete (resolve entry.1) fs
  end.

Lemma truncateFiles_spec l ls s :
  calm s →
  wp tid always_true (truncateFiles l) ls s (λ _ ls' s',
    ls' = ls ∧ s' = with_files (foldl truncate_one (files s) l) s).
Proof.
  revert s; induction l as [|[name size] l IH]; intros s Hc; simpl.
  - apply wp_ret; [done|]. by rewrite with_files_same.
  - wp_step. unfold fileExists, syscall_reads. wp_step.
    unfold w_stat. change (w_fs (the_world s)) with (files s). wp_step. unfold truncate_one at 2. simpl.
    destruct (files s !! resolve name) as [c|] eqn:E; simpl.
    + destruct (0 <? size).
      * wp_step. eapply wp_calm_truncate; [done|done|]. wp_step.
        eapply wp_mono; [by apply IH|done|]. by intros [] ls' s' _ [-> ->].
      * wp_step. eapply wp_calm_remove; [done|done|]. wp_step.
        eapply wp_mono; [by apply IH|done|]. by intros [] ls' s' _ [-> ->].
    + wp_step. by apply IH.
Qed.

(** A file the list does not name is left alone. *)
Lemma truncate_other l fs p :
  p ∉ (λ e, resolve e.1) <$> l → foldl truncate_one fs l !! p = fs !! p.
Proof.
  revert fs; induction l as [|e l IH]; intros fs Hp; [done|]. simpl.
  apply not_elem_of_cons in Hp as [Hne Hp]. rewrite IH by done. unfold truncate_one.
  destruct (fs !! resolve e.1); [|done]. destruct (0 <? e.2);
    [by apply lookup_insert_ne|by apply lookup_delete_ne].
Qed.

(** No file is made. *)
Lemma truncate_absent l fs p : fs !! p = None → foldl truncate_one fs l !! p = None.
Proof.
  revert fs; induction l as [|e l IH]; intros fs Hp; [done|]. apply IH. unfold truncate_one.
  destruct (fs !! resolve e.1) as [c|] eqn:E; [|done].
  destruct (decide (resolve e.1 = p)) as [Ep|Hne]; [congruence|].
  destruct (0 <? e.2); [by rewrite lookup_insert_ne|by rewrite lookup_delete_ne].
Qed.

(** A file it names once is cut back, or removed. *)
Lemma truncate_named l fs name size :
  NoDup ((λ e, resolve e.1) <$> l) → (name, size) ∈ l →
  foldl truncate_one fs l !! resolve name =
    c ← fs !! resolve name; if 0 <? size then Some (resized size c) else None.
Proof.
  revert fs; induction l as [|e l IH]; intros fs Hd Hin; [by apply elem_of_nil in Hin|]. simpl.
  apply NoDup_cons in Hd as [Hn Hd]. apply elem_of_cons in Hin as [<-|Hin].
  - rewrite truncate_other by done. unfold truncate_one. simpl.
    destruct (fs !! resolve name) as [c|] eqn:E; [|by rewrite E].
    simpl. destruct (0 <? size); [apply lookup_insert_eq|apply lookup_delete_eq].
  - rewrite IH by done. f_equal. unfold truncate_one.
    assert (Hne : resolve name ≠ resolve e.1).
    { intros E. apply Hn. rewrite <- E. by apply (list_elem_of_fmap_2 (λ e, resolve e.1) l (name, size)). }
    destruct (fs !! resolve e.1); [|done]. destruct (0 <? e.2);
      [by apply lookup_insert_ne|by apply lookup_delete_ne].
Qed.

(** ** Starting the transactions again *)

Definition started (now : Z) (name : bytes) : Txn :=
  {| t_file := name; t_buffers := ∅; t_max_seq_num := 1; t_timestamp := now |}.

Section adding.
Context (m_directory : bytes).

Lemma add_transactions_spec l ls s :
  backend_ok s → calm s → ls !! g_mtx = None →
  NoDup l.*1 → (∀ id, id ∈ l.*1 → active (abs s) !! id = None) →
  (∀ name, name ∈ l.*2 → nul_free name = true) →
  wp tid always_true
    (for_each (λ '(txn_id, file_name), addNewTransaction m_directory txn_id file_name) l) ls s
    (λ r ls' s', r = inr tt ∧ ls' = ls ∧ backend_ok s' ∧ calm s' ∧
      active (abs s') = foldl (λ m e, <[e.1 := started (w_now (backend_world s)) e.2]> m) (active (abs s)) l ∧
      committed (abs s') = committed (abs s) ∧ m_initialize s' = m_initialize s ∧
      w_now (backend_world s') = w_now (backend_world s) ∧
      (∀ p, p ≠ resolve (m_directory ++ m_transaction_log) → files s' !! p = files s !! p) ∧
      ((∀ name, name ∈ l.*2 → resolve name ≠ resolve (m_directory ++ m_transaction_log)) →
       contents m_directory (files s') m_transaction_log =
         contents m_directory (files s) m_transaction_log ++ log_lines (files s) l)).
Proof.
  revert s; induction l as [|[id name] l IH]; intros s Hok Hc Hg Hd Hfresh Hnul;
    cbn [for_each foldl fst snd].
  - apply wp_ret; [done|]. do 9 (split; [done|]). intros _. by rewrite app_nil_r.
  - apply NoDup_cons in Hd as [Hn Hd].
    assert (Hid : m_txn_id_to_transaction_attributes s !! id = None).
    { apply eq_None_not_Some. rewrite (ok_active s id Hok). intros [t Ht].
      rewrite (Hfresh id) in Ht; [done|by left]. }
    assert (Hname : nul_free name = true) by (apply Hnul; by left).
    unfold ebind. wp_step.
    eapply wp_mono; [by apply (addNewTransaction_spec tid m_directory always_true id name ls s)|done|].
    intros r ls' s' _ (-> & -> & s1 & b & Hs1 & -> & Hl & Hb). cbv beta iota.
    set (s' := set_timers _ s1) in *.
    destruct (with_new_transaction_spec id name (size_of (files s) name) (w_now (backend_world s)) s)
      as (Hok1 & Habs1 & Hw1 & _ & Hi1); [done..|].
    pose proof Hs1 as ([w Ew] & Hnow & _ & Hcalm). simpl in Hnow. rewrite Hw1 in Hnow.
    assert (Hok' : backend_ok s') by by apply (ok_frame s1), (ok_same_but_files _ _ Hs1).
    assert (Habs : abs s' = spec_add id name (size_of (files s) name) (w_now (backend_world s)) (abs s)).
    { change (abs s') with (abs s1). by rewrite (abs_same_but_files _ _ Hs1), Habs1. }
    assert (Hc' : calm s') by (apply Hcalm; unfold calm; simpl; by rewrite Hw1).
    assert (Hnow' : w_now (backend_world s') = w_now (backend_world s)) by exact Hnow.
    eapply wp_mono; [apply (IH s'); [done|done|done|done| |]|done|].
    + intros i Hi. rewrite Habs. simpl. rewrite lookup_insert_ne; [apply Hfresh; by right|].
      by intros <-.
    + intros n Hin. apply Hnul. by right.
    + intros r ls' s'' _ (-> & -> & Hok'' & Hc'' & Ha & Hcm & Hi & Hn'' & Hf & Hlines).
      do 4 (split; [done|]). split; [|split; [|split; [|split; [|split]]]].
      * rewrite Ha, Habs, Hnow'. done.
      * by rewrite Hcm, Habs.
      * rewrite Hi. unfold s'. simpl. subst s1. exact Hi1.
      * congruence.
      * intros p Hp. rewrite Hf by done. by eapply logged_lookup.
      * intros Hnot. assert (Hnot' : resolve name ≠ resolve (m_directory ++ m_transaction_log))
          by (apply Hnot; by left).
        rewrite Hlines by (intros n Hin; apply Hnot; by right).
        rewrite (Hb Hc) in Hl. apply log_line; [done|done|]. intros n Hin. apply Hnot. by right.
Qed.
End adding.
End restart.

(** Inserting the elements of a map in any order rebuilds its image. *)
Lemma foldl_insert_lookup {A B} (f : A → B) (l : list (Z * A)) (m : gmap Z B) (i : Z) :
  NoDup l.*1 →
  foldl (λ m e, <[e.1 := f e.2]> m) m l !! i =
    match list_to_map (M := gmap Z A) l !! i with Some x => Some (f x) | None => m !! i end.
Proof.
  revert m; induction l as [|[k x] l IH]; intros m Hd; simpl; [by rewrite lookup_empty|].
  apply NoDup_cons in Hd as [Hn Hd]. rewrite IH by done.
  destruct (decide (i = k)) as [->|Hne].
  - rewrite lookup_insert_eq. rewrite not_elem_of_list_to_map_1 by done. by rewrite lookup_insert_eq.
  - by rewrite !lookup_insert_ne.
Qed.

Lemma foldl_insert_iterate `{HashOrder} {A B} (f : A → B) (m : gmap Z A) :
  foldl (λ m e, <[e.1 := f e.2]> m) (∅ : gmap Z B) (iterate m) = f <$> m.
Proof.
  assert (Hd : NoDup (iterate m).*1) by (rewrite iterate_perm; apply NoDup_fst_map_to_list).
  apply map_eq. intros i. rewrite foldl_insert_lookup by done.
  assert (E : list_to_map (iterate m) = m).
  { rewrite <- (list_to_map_to_list m) at 2. apply list_to_map_proper; [done|apply iterate_perm]. }
  rewrite E, lookup_fmap, lookup_empty. by destruct (m !! i).
Qed.

Lemma iterate_singleton `{HashOrder} `{Countable K} {A} (k : K) (x : A) :
  iterate {[ k := x ]} = [(k, x)].
Proof. apply Permutation_singleton_r. by rewrite iterate_perm, map_to_list_singleton. Qed.

Lemma NoDup_fmap_inj_on {A B} (f : A → B) (l : list A) x y :
  NoDup (f <$> l) → x ∈ l → y ∈ l → f x = f y → x = y.
Proof.
  induction l as [|a l IH]; intros Hd Hx Hy E; [by apply elem_of_nil in Hx|].
  apply NoDup_cons in Hd as [Hn Hd]. apply elem_of_cons in Hx as [->|Hx], Hy as [->|Hy]; [done|..|by apply IH];
    exfalso; apply Hn; [rewrite E|rewrite <- E]; by apply list_elem_of_fmap_2.
Qed.

(** ** The whole initialisation *)

Section initialising.
Context `{PathResolution} `{HashOrder} (m_directory : bytes).
Implicit Types (s : ServerBackend) (w : World) (fs : gmap bytes bytes).

(** What the logs among these files say. *)
Definition logs_of fs : Loaded := foldl (load_file fs) nothing_loaded m_logs.

(** With nothing in the later logs, only the transaction log counts. *)
Lemma first_log_only fs c :
  fs !! resolve m_transaction_log = Some c →
  (∀ log, log ∈ [m_timeout_log; m_commit_log; m_abort_log] → fs !! resolve log = None) →
  logs_of fs = load_log nothing_loaded c.
Proof.
  intros Hc Hn. unfold logs_of, m_logs, load_file. simpl.
  rewrite Hc, !Hn by set_solver. done.
Qed.

(** The files cut back, the logs gone. *)
Definition cut_back fs : gmap bytes bytes :=
  foldl truncate_one (without_logs fs m_logs) (iterate (file_names_to_file_sizes (logs_of fs))).

Lemma initialize_spec tid w :
  w_sched w = [] → NoDup (resolve <$> m_logs) →
  (∀ id name, txn_ids_to_file_names (logs_of (w_fs w)) !! id = Some name → nul_free name = true) →
  wp tid always_true (initializeFunctionsAndTransactions m_directory) ∅ (new_backend w)
    (λ _ ls' s', ls' = ∅ ∧ backend_ok s' ∧ calm s' ∧ m_initialize s' = false ∧
      active (abs s') = started (w_now w) <$> txn_ids_to_file_names (logs_of (w_fs w)) ∧
      committed (abs s') = ∅ ∧ w_now (backend_world s') = w_now w ∧
      (∀ p, p ≠ resolve (m_directory ++ m_transaction_log) → files s' !! p = cut_back (w_fs w) !! p) ∧
      ((∀ id name, txn_ids_to_file_names (logs_of (w_fs w)) !! id = Some name →
          resolve name ≠ resolve (m_directory ++ m_transaction_log)) →
       contents m_directory (files s') m_transaction_log =
         contents m_directory (cut_back (w_fs w)) m_transaction_log ++
         log_lines (cut_back (w_fs w)) (iterate (txn_ids_to_file_names (logs_of (w_fs w)))))).
Proof.
  intros Hc Hd Hnul. set (l := logs_of (w_fs w)) in *.
  unfold initializeFunctionsAndTransactions. wp_step. wp_step. simpl. wp_step. wp_step.
  wp_step. wp_step. simpl. wp_step. wp_step.
  pose proof (new_backend_ok w) as Hok0.
  set (s1 := with_files (cut_back (w_fs w)) (new_backend w)).
  eapply (wp_try_catch tid _ _ _ _ _ (λ r ls' s', r = inr tt ∧ ls' = <[m_member_mtx:=tid]> ∅ ∧
    backend_ok s' ∧ calm s' ∧
    active (abs s') = started (w_now w) <$> txn_ids_to_file_names l ∧
    committed (abs s') = ∅ ∧ w_now (backend_world s') = w_now w ∧
    (∀ p, p ≠ resolve (m_directory ++ m_transaction_log) → files s' !! p = cut_back (w_fs w) !! p) ∧
    ((∀ id name, txn_ids_to_file_names l !! id = Some name →
        resolve name ≠ resolve (m_directory ++ m_transaction_log)) →
     contents m_directory (files s') m_transaction_log =
       contents m_directory (cut_back (w_fs w)) m_transaction_log ++
       log_lines (cut_back (w_fs w)) (iterate (txn_ids_to_file_names l))))).
  - unfold initializeTransactions. unfold ebind. wp_step. apply wp_lift. unfold loadFilesAndTransactions.
    eapply wp_mono; [by apply (load_logs_spec tid m_logs nothing_loaded)|done|].
    intros r ls' s' _ (-> & -> & ->). change (foldl (load_file (files (new_backend w))) nothing_loaded m_logs) with l.
    cbv beta iota. wp_step. apply wp_lift.
    eapply wp_mono; [by apply truncateFiles_spec|done|].
    intros [] ls' s' _ [-> ->]. cbv beta iota. rewrite with_files_twice. fold (cut_back (w_fs w)).
    change (with_files _ (new_backend w)) with s1.
    eapply wp_mono; [apply (add_transactions_spec tid m_directory _ _ s1)|done|].
    + by apply (ok_frame (new_backend w)).
    + done.
    + done.
    + apply iterate_fst_NoDup.
    + intros id _. simpl. by rewrite lookup_omap, lookup_empty.
    + intros name ([id n] & -> & Hin)%list_elem_of_fmap. apply elem_of_iterate in Hin. by eapply Hnul.
    + intros r ls' s' _ (-> & -> & Hok' & Hc' & Ha & Hcm & _ & Hn & Hf & Hlines).
      do 4 (split; [done|]). split; [|split; [done|split; [done|split; [done|]]]].
      2: { intros Hnot. apply Hlines. intros name ([id n] & -> & Hin)%list_elem_of_fmap.
           apply elem_of_iterate in Hin. by eapply Hnot. }
      rewrite Ha. change (active (abs s1)) with (omap (abs_txn s1) (∅ : gmap Z positive)).
      rewrite omap_empty. change (w_now (backend_world s1)) with (w_now w).
      by rewrite (foldl_insert_iterate (started (w_now w))).
  - intros [] ls' s' _ (_ & -> & Hok' & Hc' & Ha & Hcm & Hn & Hf).
    wp_step. apply wp_unlock; [done|by rewrite lookup_insert_eq|].
    rewrite delete_insert_eq, delete_empty. split; [done|].
    split; [by apply (ok_frame s')|]. done.
  - by intros e ls' s' _ ([=] & _).
Qed.
End initialising.
