(* ===== verification/RecoveryProps.v ===== *)
(** * Properties of the logs and of recovery

    The logs survive writing and reading, where file names are one word; a restart brings
    back the open transactions and undoes commits cut short; and a file name of two words
    can make it remove another file. *)
From S2P Require Import Prelude Stdcxx Constants WireProtocol Messages Prog ReadWrite Posix File Backend Recovery BackendInv BackendSteps BackendSpec CommitSpec Service BackendProps LogSpec RestartSpec.
From Stdlib Require Import ZArith Lia List Ascii String Bool.
From stdpp Require Import base gmap strings list fin_maps sorting.
#[local] Set Default Goal Selector "!".
Local Open Scope Z_scope.

(** The transactions in progress according to the logs are those started and not
    ended: with no id started twice and none ended twice or without having started,
    replaying the started entries and then the ended ones leaves exactly the started
    transactions without an end, with their file names. *)
Theorem logs_give_open_transactions started ended id :
  NoDup (le_txn_id <$> started) → NoDup (le_txn_id <$> ended) →
  (∀ i, i ∈ le_txn_id <$> ended → i ∈ le_txn_id <$> started) →
  txn_ids_to_file_names (foldl load_entry nothing_loaded (started ++ ended)) !! id =
    if decide (id ∈ le_txn_id <$> ended) then None
    else (λ e, le_file_name e.2) <$> list_find (λ e, le_txn_id e = id) started.
Proof.
  intros Hs He Hsub. rewrite foldl_app.
  assert (Hst : ∀ i, txn_ids_to_file_names (load_entries nothing_loaded started) !! i =
    (λ e, le_file_name e.2) <$> list_find (λ e, le_txn_id e = i) started).
  { intros i. rewrite load_started; [|done|done]. simpl. rewrite lookup_empty.
    by destruct (list_find _ started) as [[? ?]|]. }
  change (foldl load_entry nothing_loaded started) with (load_entries nothing_loaded started).
  change (foldl load_entry ?l ended) with (load_entries l ended).
  rewrite load_ended, Hst; [done|done|].
  intros e He'. rewrite Hst, fmap_is_Some.
  assert (Hin : le_txn_id e ∈ le_txn_id <$> started) by by apply Hsub, list_elem_of_fmap_2.
  apply list_elem_of_fmap in Hin as (e0 & E & Hin). by apply (list_find_elem_of _ _ e0).
Qed.

(** The size a file is cut back to is the largest one the entries record for it: the
    loaded size of a name is that of one of its entries and no entry of it is larger. *)
Theorem logs_give_largest_size es name size :
  file_names_to_file_sizes (foldl load_entry nothing_loaded es) !! name = Some size ↔
  (∃ e, e ∈ es ∧ le_file_name e = name ∧ le_file_size e = size) ∧
  ∀ e, e ∈ es → le_file_name e = name → le_file_size e ≤ size.
Proof.
  change (foldl load_entry nothing_loaded es) with (load_entries nothing_loaded es).
  destruct (load_sizes es nothing_loaded name) as (_ & H2 & H3). split.
  - intros Hs. split.
    + destruct (H3 _ Hs) as [Hn|He]; [simpl in Hn; by rewrite lookup_empty in Hn|done].
    + intros e He En. destruct (H2 e He En) as (m & Hm & Hle). congruence.
  - intros [(e & He & En & Es) Hall]. destruct (H2 e He En) as (m & Hm & Hle).
    destruct (H3 _ Hm) as [Hn|(e' & He' & En' & Es')]; [simpl in Hn; by rewrite lookup_empty in Hn|].
    specialize (Hall e' He' En'). rewrite Hm. f_equal. lia.
Qed.

Section recovery.
Context `{PathResolution} `{HashOrder} (m_directory : bytes).

(** C30. What [logTransaction] writes, the recovery reads back: a log that is empty or
    absent, kept by [logTransaction] for any list of transactions in a state without
    failing calls, parses to those transactions in order, each with the size its file had,
    provided every name is one word without NUL (the format has no way to delimit others) and is not
    the log itself, and ids and sizes are in range; no other file changes. *)
Theorem log_roundtrip tid log entries ls s :
  calm s → ls !! g_mtx = None → contents m_directory (files s) log = [] →
  (∀ id name, (id, name) ∈ entries →
     nul_free name = true ∧ resolve name ≠ target m_directory log ∧ entry_ok (entry_of (files s) (id, name))) →
  ∃ s', run tid (log_all m_directory log entries) ls s = Done tt ls s' ∧
    parse_log (contents m_directory (files s') log) = entry_of (files s) <$> entries ∧
    ∀ p, p ≠ target m_directory log → files s' !! p = files s !! p.
Proof.
  intros Hc Hg Hempty Hall.
  destruct (wp_run _ _ _ _ _ _ (log_all_spec tid m_directory log entries ls s Hc Hg ltac:(
    intros name ([id n] & -> & Hin)%list_elem_of_fmap; destruct (Hall id n Hin) as (? & ? & _); done)))
    as ([] & ls' & s' & Hrun & -> & Hf & Ht).
  exists s'. split; [done|]. split; [|done]. rewrite Ht, Hempty. simpl. apply parse_print.
  apply Forall_fmap, Forall_forall. intros [id name] Hin. by apply Hall.
Qed.

(** The world a restarted process finds. *)
Definition rebooted (fs : gmap bytes bytes) (now : Z) : World :=
  {| w_fs := fs; w_now := now; w_rand := []; w_sched := [] |}.

(** What a restart does to the state, in terms of the logs and of [cut_back]. *)
Lemma restart_spec tid fs now :
  NoDup (resolve <$> m_logs) →
  (∀ id name, txn_ids_to_file_names (logs_of fs) !! id = Some name → nul_free name = true) →
  ∃ s, run tid (initializeFunctionsAndTransactions m_directory) ∅ (new_backend (rebooted fs now)) = Done tt ∅ s ∧
    backend_ok s ∧ m_initialize s = false ∧
    active (abs s) = started now <$> txn_ids_to_file_names (logs_of fs) ∧
    (∀ p, p ≠ resolve (m_directory ++ m_transaction_log) → files s !! p = cut_back fs !! p) ∧
    ((∀ id name, txn_ids_to_file_names (logs_of fs) !! id = Some name →
        resolve name ≠ resolve (m_directory ++ m_transaction_log)) →
     contents m_directory (files s) m_transaction_log =
       contents m_directory (cut_back fs) m_transaction_log ++
       log_lines (files s) (iterate (txn_ids_to_file_names (logs_of fs)))).
Proof.
  intros Hd Hnul.
  destruct (wp_run _ _ _ _ _ _ (initialize_spec m_directory tid (rebooted fs now) eq_refl Hd Hnul))
    as ([] & ls' & s & Hrun & -> & Hok & _ & Hi & Ha & _ & _ & Hf & Hlines).
  exists s. do 5 (split; [done|]). intros Hnot. rewrite (Hlines Hnot). f_equal. symmetry.
  apply log_lines_frame. intros name ([id n] & -> & Hin)%list_elem_of_fmap.
  apply elem_of_iterate in Hin. apply Hf. by eapply Hnot.
Qed.

(** The logs are not among the files cut back. *)
Lemma cut_back_log fs p : p ∈ resolve <$> m_logs → cut_back fs !! p = None.
Proof. intros Hp. by apply truncate_absent, without_logs_gone. Qed.

Lemma cut_back_named fs name size :
  NoDup ((λ e, resolve e.1) <$> iterate (file_names_to_file_sizes (logs_of fs))) →
  file_names_to_file_sizes (logs_of fs) !! name = Some size → resolve name ∉ resolve <$> m_logs →
  cut_back fs !! resolve name = c ← fs !! resolve name; if 0 <? size then Some (resized size c) else None.
Proof.
  intros Hnames Hsize Hlog. unfold cut_back.
  rewrite (truncate_named _ _ name size); [|done|by apply elem_of_iterate].
  by rewrite without_logs_lookup.
Qed.

Lemma cut_back_other fs p :
  p ∉ resolve <$> m_logs →
  (∀ name, is_Some (file_names_to_file_sizes (logs_of fs) !! name) → resolve name ≠ p) →
  cut_back fs !! p = fs !! p.
Proof.
  intros Hlog Hp. unfold cut_back. rewrite truncate_other; [by apply without_logs_lookup|].
  intros ([n z] & E & Hin)%list_elem_of_fmap. apply elem_of_iterate in Hin.
  apply (Hp n); [by eexists|done].
Qed.

(** C12. Starting the server, with no call failing, recovers its state.  When the logs
    are distinct files that name no two files alike, and nothing open has a NUL in its name: the transactions in progress are those the logs leave open,
    each with no data and a fresh timeout; every log read is removed, except that the
    transaction log of the server directory holds again a line for each open transaction,
    with the size its file has now, and no other line when it is one of the logs read (the
    server directory being the working directory); every file the logs name, distinct
    from the logs, is cut back to its recorded size or removed if that is 0; and every
    other file is as the crash left it. *)
Theorem restart_recovers tid fs now :
  NoDup (resolve <$> m_logs) →
  (∀ id name, txn_ids_to_file_names (logs_of fs) !! id = Some name → nul_free name = true) →
  NoDup ((λ e, resolve e.1) <$> iterate (file_names_to_file_sizes (logs_of fs))) →
  ∃ s, run tid (initializeFunctionsAndTransactions m_directory) ∅ (new_backend (rebooted fs now)) = Done tt ∅ s ∧
    backend_ok s ∧ m_initialize s = false ∧
    active (abs s) = started now <$> txn_ids_to_file_names (logs_of fs) ∧
    (∀ log, log ∈ m_logs → resolve log ≠ resolve (m_directory ++ m_transaction_log) →
       files s !! resolve log = None) ∧
    (resolve (m_directory ++ m_transaction_log) ∈ resolve <$> m_logs →
     (∀ id name, txn_ids_to_file_names (logs_of fs) !! id = Some name →
        resolve name ≠ resolve (m_directory ++ m_transaction_log)) →
     contents m_directory (files s) m_transaction_log =
       log_lines (files s) (iterate (txn_ids_to_file_names (logs_of fs)))) ∧
    (∀ name size, file_names_to_file_sizes (logs_of fs) !! name = Some size →
       resolve name ∉ resolve <$> m_logs → resolve name ≠ resolve (m_directory ++ m_transaction_log) →
       files s !! resolve name = c ← fs !! resolve name; if 0 <? size then Some (resized size c) else None) ∧
    (∀ p, p ∉ resolve <$> m_logs → p ≠ resolve (m_directory ++ m_transaction_log) →
       (∀ name, is_Some (file_names_to_file_sizes (logs_of fs) !! name) → resolve name ≠ p) →
       files s !! p = fs !! p).
Proof.
  intros Hd Hnul Hnames.
  destruct (restart_spec tid fs now Hd Hnul) as (s & Hrun & Hok & Hi & Ha & Hf & Hlines).
  exists s. do 4 (split; [done|]). split; [|split; [|split]].
  - intros log Hlog Ht. rewrite Hf by done. by apply cut_back_log, list_elem_of_fmap_2.
  - intros Ht Hnot. rewrite (Hlines Hnot). unfold contents at 1, target. by rewrite cut_back_log.
  - intros name size Hsize Hlog Ht. rewrite Hf by done. by apply cut_back_named.
  - intros p Hlog Ht Hp. rewrite Hf by done. by apply cut_back_other.
Qed.

(** A client can have another file removed: a transaction on a name of two words whose
    second is 0 is logged under that name, which the recovery takes for the first word
    with size 0; so, crashing before anything else is logged, the restart removes the
    file of the first word, which no transaction named. *)
Theorem spaced_name_removes_another_file tid tid' now id u ls s :
  let name := u ++ str " 0" in
  calm s → ls !! g_mtx = None → NoDup (resolve <$> m_logs) →
  (∀ log, log ∈ m_logs → files s !! resolve log = None) → (∀ p, resolve (m_directory ++ p) = resolve p) →
  int32 id → u ≠ [] → forallb (λ c, negb (is_space c)) u = true → nul_free u = true →
  int32 (size_of (files s) name) → resolve name ∉ resolve <$> m_logs → resolve u ∉ resolve <$> m_logs →
  ∃ s', run tid (logTransaction m_directory m_transaction_log id name) ls s = Done tt ls s' ∧
    files s' !! resolve u = files s !! resolve u ∧
    ∃ s'', run tid' (initializeFunctionsAndTransactions m_directory) ∅ (new_backend (rebooted (files s') now))
             = Done tt ∅ s'' ∧ files s'' !! resolve u = None.
Proof.
  intros name Hc Hg Hd Hnone Hcwd Hid Hne Hu Hnul Hsize Hname Hlog.
  assert (Hnul' : nul_free name = true) by by apply nul_free_app.
  destruct (wp_run _ _ _ _ _ _ (logTransaction_spec tid always_true m_directory m_transaction_log id name ls s
    Hnul' Hg (λ _ _ _ _, I))) as ([] & ls' & s' & Hrun & -> & _ & b & Hl & Hb).
  rewrite (Hb Hc) in Hl. apply logged_true in Hl; rewrite Hcwd in *.
  2: { intros E. apply Hname. rewrite E. by left. }
  rewrite Hnone in Hl by by left. simpl in Hl.
  assert (Hother : ∀ p, p ≠ resolve m_transaction_log → files s' !! p = files s !! p).
  { intros p Hp. rewrite Hl. by rewrite lookup_insert_ne. }
  exists s'. split; [done|].
  assert (Hut : resolve u ≠ resolve m_transaction_log) by (intros E; apply Hlog; rewrite E; by left).
  split; [by apply Hother|].
  assert (Elogs : logs_of (files s') = load_entry nothing_loaded
    {| le_txn_id := id; le_file_name := u; le_file_size := 0 |}).
  { rewrite (first_log_only _ (log_entry id name (size_of (files s) name))).
    - unfold load_log, name. change (str " 0") with (str " " ++ to_string 0).
      by rewrite spaced_name_parsed.
    - rewrite Hl. apply lookup_insert_eq.
    - intros log Hin. rewrite Hother; [apply Hnone; by right|].
      apply NoDup_cons in Hd as [Hd _]. intros E. apply Hd. rewrite <- E.
      by apply (list_elem_of_fmap_2 resolve [m_timeout_log; m_commit_log; m_abort_log] log). }
  destruct (restart_spec tid' (files s') now) as (s'' & Hrun' & _ & _ & _ & Hf & _); [done| |].
  { rewrite Elogs. simpl. rewrite lookup_empty. rewrite insert_empty. by intros i n [_ <-]%lookup_singleton_Some. }
  exists s''. split; [done|]. rewrite Hf by by rewrite Hcwd.
  rewrite (cut_back_named _ _ 0); [by destruct (files s' !! _)| | |done].
  - rewrite Elogs. simpl. rewrite lookup_empty, insert_empty, iterate_singleton. apply NoDup_singleton.
  - rewrite Elogs. simpl. by rewrite lookup_empty, lookup_insert_eq.
Qed.

(** The initialisation happens once: when it has been done, it changes nothing, takes
    no mutex and reads no log. *)
Theorem initialised_once tid ls s :
  m_initialize s = false →
  run tid (initializeFunctionsAndTransactions m_directory) ls s = Done tt ls s.
Proof.
  intros Hi. unfold initializeFunctionsAndTransactions. rewrite run_bind. unfold run. simpl.
  by rewrite Hi.
Qed.

(** C11. A COMMIT cut short by a crash is undone at the restart, where recovery looks for
    the files the server writes and knows their sizes: when the server directory is the
    working directory, the logs are different files, the names they give have no NUL, are
    different files and none is a log, no call of the restart fails, and
    both the server and the logs record the size the file had before the COMMIT, then at
    every crash point where nothing of the commit's line is in its log, starting the server
    again gives the file its old contents back (a file that was empty may be removed). *)
Theorem crash_is_undone_by_restart tid tid' now req ip t s :
  let old := contents m_directory (files s) (t_file t) in
  let logs := logs_of (files s) in
  backend_ok s → request_ok req → rq_seq_num req < INT32_MAX →
  rq_txn_id req ∉ committed (abs s) → active (abs s) !! rq_txn_id req = Some t →
  (∀ p, resolve (m_directory ++ p) = resolve p) → NoDup (resolve <$> m_logs) →
  resolve (t_file t) ∉ resolve <$> m_logs →
  (∀ id name, txn_ids_to_file_names logs !! id = Some name → nul_free name = true) →
  NoDup ((λ e, resolve e.1) <$> iterate (file_names_to_file_sizes logs)) →
  sizes (abs s) !! t_file t = Some (len old) →
  file_names_to_file_sizes logs !! t_file t = Some (len old) →
  always tid (λ s', files s' !! resolve m_commit_log = files s !! resolve m_commit_log →
      ∃ s'', run tid' (initializeFunctionsAndTransactions m_directory) ∅
               (new_backend (rebooted (files s') now)) = Done tt ∅ s'' ∧
        backend_ok s'' ∧ contents m_directory (files s'') (t_file t) = old)
    (COMMIT m_directory req ip) ∅ s.
Proof.
  intros old logs Hok Hreq Hseq Hc Hact Hcwd Hd Hnolog Hnul Hnames Hsize Hlogged.
  assert (Htgt : target m_directory (t_file t) = resolve (t_file t)) by apply Hcwd.
  assert (Hin : ∀ l, l ∈ m_logs → resolve l ∈ resolve <$> m_logs) by (intros; by apply list_elem_of_fmap_2).
  assert (Hcl : target m_directory (t_file t) ≠ resolve (m_directory ++ m_commit_log)).
  { rewrite Htgt, Hcwd. intros E. apply Hnolog. rewrite E. apply Hin. by right; right; left. }
  eapply always_impl; [|exact (proj1 (wp_sound _ _ _ _ _ _ (COMMIT_crash m_directory tid req ip t s Hok Hreq Hseq Hc Hact Htgt Hcl Hsize)))].
  simpl. intros s' (j & Hold & Hothers & _) Hsame.
  assert (Elogs : ∀ log, log ∈ m_logs → files s' !! resolve log = files s !! resolve log).
  { intros log Hl. destruct (decide (log = m_commit_log)) as [->|Hne]; [done|].
    apply Hothers.
    - rewrite Htgt. intros E. apply Hnolog. rewrite <- E. by apply Hin.
    - rewrite Hcwd. intros E. apply Hne.
      apply (NoDup_fmap_inj_on resolve m_logs log m_commit_log Hd); [done|by right; right; left|done]. }
  assert (El : logs_of (files s') = logs).
  { unfold logs, logs_of. assert (Hsub : ∀ l, l ⊆ m_logs → ∀ a,
      foldl (load_file (files s')) a l = foldl (load_file (files s)) a l).
    { intros l. induction l as [|x l IH]; intros Hl a; [done|]. simpl. rewrite IH by set_solver.
      f_equal. unfold load_file. rewrite Elogs; [done|]. apply Hl. by left. }
    by apply Hsub. }
  destruct (restart_spec tid' (files s') now) as (s'' & Hrun & Hok'' & _ & _ & Hf & _);
    [done|by rewrite El|].
  exists s''. split; [done|]. split; [done|].
  assert (Econt : ∀ fs, contents m_directory fs (t_file t) = default [] (fs !! resolve (t_file t)))
    by (intros; unfold contents; by rewrite Htgt).
  rewrite Econt in Hold. rewrite Econt, Hf.
  2: { rewrite Hcwd. intros E. apply Hnolog. rewrite E. apply Hin. by left. }
  rewrite (cut_back_named _ _ (len old)); [|by rewrite El|by rewrite El|done].
  fold old in Hold. destruct (files s' !! resolve (t_file t)) as [c|]; simpl in *.
  - rewrite Hold. destruct (Z.ltb_spec 0 (len old)) as [_|Hempty]; [apply resized_app|].
    by destruct old; [|simpl in Hempty; lia].
  - by destruct old.
Qed.
End recovery.

(** ** Witnesses *)

Section witnesses.
#[local] Existing Instance sample_resolution.

#[local] Instance map_order : HashOrder :=
  {| iterate K A _ _ m := map_to_list m; iterate_perm K A _ _ m := reflexivity _ |}.

Definition sample_entry : LogEntry := {| le_txn_id := 5; le_file_name := str "f"; le_file_size := 2 |}.

(** The files of the sample server, its transaction log included. *)
Definition logged_files : gmap bytes bytes :=
  {[ str "f" := str "abcd"; str ".transactionlog.txt" := print_log [sample_entry] ]}.

Definition logged_backend : ServerBackend :=
  set_backend_world
    {| w_fs := {[ str "f" := str "ab"; str ".transactionlog.txt" := print_log [sample_entry] ]};
       w_now := seconds 100; w_rand := []; w_sched := [] |} sample_backend.

Lemma log_roundtrip_witness :
  ∃ s', run 1 (log_all [] m_commit_log [(5, str "f"); (6, str "g")]) ∅ logged_backend = Done tt ∅ s' ∧
    parse_log (contents [] (files s') m_commit_log) =
      [sample_entry; {| le_txn_id := 6; le_file_name := str "g"; le_file_size := 0 |}].
Proof.
  destruct (log_roundtrip [] 1 m_commit_log [(5, str "f"); (6, str "g")] ∅ logged_backend)
    as (s' & Hrun & Hparse & _).
  - done.
  - done.
  - by vm_compute.
  - intros id name [[= -> ->]|[[= -> ->]|[]%elem_of_nil]%elem_of_cons]%elem_of_cons;
      by repeat split.
  - exists s'. split; [exact Hrun|]. rewrite Hparse. by vm_compute.
Defined.

Lemma logs_give_open_transactions_witness :
  txn_ids_to_file_names (foldl load_entry nothing_loaded
    ([sample_entry; {| le_txn_id := 6; le_file_name := str "g"; le_file_size := 0 |}] ++ [sample_entry])) !! 6
    = Some (str "g").
Proof.
  rewrite (logs_give_open_transactions _ [sample_entry] 6).
  - done.
  - apply (bool_decide_unpack _). by vm_compute.
  - apply (bool_decide_unpack _). by vm_compute.
  - intros i Hi. apply list_elem_of_singleton in Hi as ->. by left.
Defined.

Lemma restart_recovers_witness :
  ∃ s, run 1 (initializeFunctionsAndTransactions []) ∅ (new_backend (rebooted logged_files 0)) = Done tt ∅ s ∧
    backend_ok s ∧ m_initialize s = false ∧
    active (abs s) = started 0 <$> txn_ids_to_file_names (logs_of logged_files) ∧
    files s !! str ".commitlog.txt" = None ∧
    contents [] (files s) m_transaction_log = print_log [sample_entry] ∧
    files s !! str "f" = Some (str "ab").
Proof.
  assert (E : txn_ids_to_file_names (logs_of logged_files) = {[ 5 := str "f" ]}) by by vm_compute.
  assert (Hone : ∀ id name, txn_ids_to_file_names (logs_of logged_files) !! id = Some name → name = str "f").
  { intros id name Hid. rewrite E in Hid. by apply lookup_singleton_Some in Hid as [_ <-]. }
  destruct (restart_recovers [] 1 logged_files 0) as (s & Hrun & Hok & Hi & Ha & Hlogs & Hlines & Hf & _).
  - apply (bool_decide_unpack _). by vm_compute.
  - by intros id name ->%Hone.
  - apply (bool_decide_unpack _). by vm_compute.
  - exists s. split; [exact Hrun|]. split; [exact Hok|]. split; [exact Hi|]. split; [exact Ha|].
    assert (Ef : files s !! str "f" = Some (str "ab")).
    { apply (Hf (str "f") 2); [by vm_compute|apply (bool_decide_unpack _); by vm_compute|done]. }
    split; [apply (Hlogs m_commit_log); [by right; right; left|done]|]. split; [|exact Ef].
    rewrite Hlines; [|by left|by intros id name ->%Hone].
    rewrite E. unfold iterate, map_order.
    rewrite map_to_list_singleton. unfold log_lines, entry_of. cbn [fmap list_fmap fst snd].
    assert (Es : size_of (files s) (str "f") = 2).
    { unfold size_of. change (resolve (str "f")) with (str "f"). by rewrite Ef. }
    by rewrite Es.
Defined.

Lemma spaced_name_removes_another_file_witness :
  let s := new_backend (rebooted {[ str "f" := str "abcd" ]} 0) in
  ∃ s', run 1 (logTransaction [] m_transaction_log 5 (str "f 0")) ∅ s = Done tt ∅ s' ∧
    files s' !! str "f" = Some (str "abcd") ∧
    ∃ s'', run 2 (initializeFunctionsAndTransactions []) ∅ (new_backend (rebooted (files s') 0)) = Done tt ∅ s'' ∧
      files s'' !! str "f" = None.
Proof.
  intros s. destruct (spaced_name_removes_another_file [] 1 2 0 5 (str "f") ∅ s)
    as (s' & Hrun & Hstays & s'' & Hrun' & Hgone).
  - done.
  - done.
  - apply (bool_decide_unpack _). by vm_compute.
  - intros log Hin. repeat (apply elem_of_cons in Hin as [->|Hin]; [by vm_compute|]). by apply elem_of_nil in Hin.
  - done.
  - done.
  - done.
  - done.
  - done.
  - by vm_compute.
  - apply (bool_decide_unpack _). by vm_compute.
  - apply (bool_decide_unpack _). by vm_compute.
  - exists s'. split; [exact Hrun|]. split; [exact Hstays|].
    exists s''. split; [exact Hrun'|exact Hgone].
Defined.

Lemma initialised_once_witness :
  run 1 (initializeFunctionsAndTransactions []) ∅ (set_initialize false sample_backend)
    = Done tt ∅ (set_initialize false sample_backend).
Proof. by apply (initialised_once [] 1 ∅ (set_initialize false sample_backend)). Defined.

Lemma crash_is_undone_by_restart_witness :
  always 1 (λ s', files s' !! resolve m_commit_log = files logged_backend !! resolve m_commit_log →
      ∃ s'', run 2 (initializeFunctionsAndTransactions []) ∅
               (new_backend (rebooted (files s') 0)) = Done tt ∅ s'' ∧
        backend_ok s'' ∧
        contents [] (files s'') (t_file sample_view) = contents [] (files logged_backend) (t_file sample_view))
    (COMMIT [] sample_commit true) ∅ logged_backend.
Proof.
  apply (crash_is_undone_by_restart [] 1 2 0 sample_commit true sample_view logged_backend).
  - by apply (ok_frame sample_backend), sample_backend_ok.
  - by apply sample_request_ok.
  - done.
  - by vm_compute.
  - exact sample_active.
  - done.
  - apply (bool_decide_unpack _). by vm_compute.
  - apply (bool_decide_unpack _). by vm_compute.
  - intros id name Hid.
    assert (E : txn_ids_to_file_names (logs_of (files logged_backend)) = {[ 5 := str "f" ]}) by by vm_compute.
    rewrite E in Hid. by apply lookup_singleton_Some in Hid as [_ <-].
  - apply (bool_decide_unpack _). by vm_compute.
  - by vm_compute.
  - by vm_compute.
Defined.
End witnesses.
