(* ===== verification/Arguments.v ===== *)
(** * Command line arguments

    [ArgumentHelper] (argument-helper.h): extraction of the supported arguments from
    [argv], the help messages, and the validation of the server address, port and
    directory; and the argument handling of the two [main] functions (Server/main.cpp,
    ClientServerTest/main.cpp).  The theorems say exactly which ports and addresses the
    patterns accept and with what arguments the server starts. *)
From S2P Require Import Prelude Stdcxx Regex Prog.
From Stdlib Require Import ZArith Lia List Ascii String Bool.
From stdpp Require Import base gmap strings list fin_maps sorting.
#[local] Set Default Goal Selector "!".
Local Open Scope Z_scope.

Definition server_ipv4_addr_arg_prefix : bytes := str "--server_ipv4_addr=".
Definition server_port_arg_prefix : bytes := str "--server_port=".
Definition server_directory_arg_prefix : bytes := str "--server_directory=".
Definition help_arg_prefix : bytes := str "--help".

(** [argv]: an element is [None] once it has been set to [nullptr]. *)
Abbreviation arguments := (list (option bytes)).

(** [opendir]: [None] when it returns a directory, else the [errno] it sets. *)
Class Directories := opendir : bytes → option Z.

Section extraction.
Context {S : Type} `{HashOrder}.

(** [!arg.compare(0, prefix.size(), prefix)] *)
Definition starts_with (prefix arg : bytes) : bool :=
  bool_decide (take (length prefix) arg = prefix).

(** The inner loop: the first supported prefix that fits, and [arg.substr(prefix.size())]. *)
Fixpoint match_argument (arg : bytes) (prefixes : list bytes) : option (bytes * bytes) :=
  match prefixes with
  | [] => None
  | prefix :: rest =>
      if starts_with prefix arg then Some (prefix, drop (length prefix) arg)
      else match_argument arg rest
  end.

(** The outer loop.  The map [vars] holds the variable behind each prefix; a null argument
    is undefined behaviour ([std::string] of a null pointer). *)
Fixpoint extract_from (prefixes : list bytes) (args : arguments) (vars : gmap bytes bytes)
    : prog S (arguments * gmap bytes bytes) :=
  match args with
  | [] => Ret ([], vars)
  | None :: _ => Halt Undefined
  | Some arg :: rest =>
      match match_argument arg prefixes with
      | Some (prefix, value) =>
          let! r := extract_from prefixes rest (<[prefix := value]> vars) in
          Ret (None :: r.1, r.2)
      | None =>
          let! r := extract_from prefixes rest vars in
          Ret (Some arg :: r.1, r.2)
      end
  end.

Definition extractArguments (in_argv : arguments) (in_out_supported_arguments : gmap bytes bytes)
    : prog S (arguments * gmap bytes bytes) :=
  match in_argv with
  | [] => Ret ([], in_out_supported_arguments)
  | program :: args =>
      let! r := extract_from (iterate in_out_supported_arguments).*1 args in_out_supported_arguments in
      Ret (program :: r.1, r.2)
  end.

(** [hasHelpArgument]: [strcmp] of a null pointer is undefined behaviour. *)
Fixpoint has_help (args : arguments) : prog S bool :=
  match args with
  | [] => Ret false
  | None :: _ => Halt Undefined
  | Some arg :: rest => if decide (arg = help_arg_prefix) then Ret true else has_help rest
  end.

Definition hasHelpArgument (in_argv : arguments) : prog S bool := has_help (tl in_argv).
End extraction.

(** ** Help messages *)

Definition argument_indent : bytes := str "  ".
Definition description_indent : bytes := str "      ".

(** [std::endl] *)
Definition endl : bytes := [ascii_of_nat 10].

Definition printClientHelpMessage : bytes :=
  endl ++
  str "Required Arguments:" ++ endl ++
  argument_indent ++ server_ipv4_addr_arg_prefix ++ str "[IPV4_ADDRESS]" ++ endl ++
  description_indent ++ str "The IPv4 address of the server to connect to for running the tests." ++ endl ++
  argument_indent ++ server_port_arg_prefix ++ str "[NUMBER]" ++ endl ++
  description_indent ++ str "The port number the server file system is listening on." ++ endl ++
  endl ++
  str "Optional Arguments:" ++ endl ++
  argument_indent ++ server_directory_arg_prefix ++ str "[DIRECTORY_PATH]" ++ endl ++
  description_indent ++ str "The path to the directory where the server is writing files. This" ++ endl ++
  description_indent ++ str "argument can be used when the client and server are running on the" ++ endl ++
  description_indent ++ str "same machine to enable deletion of test created files." ++ endl ++
  endl.

Definition printServerHelpMessage : bytes :=
  endl ++
  str "Required Arguments:" ++ endl ++
  argument_indent ++ server_ipv4_addr_arg_prefix ++ str "[IPV4_ADDRESS]" ++ endl ++
  description_indent ++ str "The IPv4 address of the server." ++ endl ++
  argument_indent ++ server_port_arg_prefix ++ str "[NUMBER]" ++ endl ++
  description_indent ++ str "The port number the server is to listen on." ++ endl ++
  argument_indent ++ server_directory_arg_prefix ++ str "[DIRECTORY_PATH]" ++ endl ++
  description_indent ++ str "The path to the directory where the server is to write files." ++ endl ++
  endl.

(** ** Validation *)

Definition ipv4_address_format : bytes :=
  str "^(([0-9]|[1-9][0-9]|1[0-9]{2}|2[0-4][0-9]|25[0-5])\.){3}([0-9]|[1-9][0-9]|1[0-9]{2}|2[0-4][0-9]|25[0-5])$".

Definition port_format : bytes :=
  str "^([1-9][0-9]{0,3}|[1-5][0-9]{4}|6[0-4][0-9]{3}|65[0-4][0-9]{2}|655[0-2][0-9]|6553[0-5])$".

(** [regex_match(in, std::regex(format))]; a pattern that does not compile throws. *)
Definition format_matches (format in_ : bytes) : option bool :=
  regex_match in_ <$> compile format.

Section validation.
Context {S : Type} `{Directories}.

Definition require_match (format in_ : bytes) : prog S unit :=
  match format_matches format in_ with
  | None => Halt Uncaught
  | Some false => Halt ExitFailure
  | Some true => Ret tt
  end.

Definition validateIPv4Address (in_ipv4_address : bytes) : prog S unit :=
  if decide (in_ipv4_address = []) then Halt ExitFailure
  else require_match ipv4_address_format in_ipv4_address.

Definition validatePortNumber (in_portno : bytes) : prog S unit :=
  if decide (in_portno = []) then Halt ExitFailure
  else require_match port_format in_portno.

(** [validateDirectory]: the directory, with a slash at its end.  Whatever [errno] says,
    one that does not open ends the process. *)
Definition validateDirectory (in_directory : bytes) : prog S bytes :=
  if decide (in_directory = []) then Halt ExitFailure
  else
    match opendir in_directory with
    | None =>
        if decide (last in_directory = Some "/"%char) then Ret in_directory
        else Ret (in_directory ++ ["/"%char])
    | Some _ => Halt ExitFailure
    end.
End validation.

(** ** The two [main] functions, up to the construction of the server and the test run *)

(** What [main] of the server does: print the help message, or start a server. *)
Inductive ServerMain :=
| ServerHelp (message : bytes)
| StartServer (server_ipv4_addr : bytes) (server_port : Z) (server_directory : bytes).

(** The test program runs the tests either way ([RUN_ALL_TESTS]), with the globals set by
    the arguments; the arguments left over go to Google Test. *)
Inductive ClientMain :=
| ClientHelp (message : bytes) (argv : arguments)
| RunTests (g_server_ipv4_addr g_server_port g_server_directory : bytes) (argv : arguments).

Definition supported_arguments : gmap bytes bytes :=
  {[ server_ipv4_addr_arg_prefix := []; server_port_arg_prefix := [];
     server_directory_arg_prefix := [] ]}.

Definition variable (vars : gmap bytes bytes) (prefix : bytes) : bytes := default [] (vars !! prefix).

Section mains.
Context {S : Type} `{HashOrder} `{Directories}.

Definition server_main (argv : arguments) : prog S ServerMain :=
  let! help := if (length argv <=? 3)%nat then Ret true else hasHelpArgument argv in
  if help : bool then Ret (ServerHelp printServerHelpMessage)
  else
    let! r := extractArguments argv supported_arguments in
    let server_ipv4_addr := variable r.2 server_ipv4_addr_arg_prefix in
    let server_port := variable r.2 server_port_arg_prefix in
    let server_directory := variable r.2 server_directory_arg_prefix in
    validateIPv4Address server_ipv4_addr ;;;
    validatePortNumber server_port ;;;
    let! server_directory := validateDirectory server_directory in
    match stoi server_port with
    | Some port => Ret (StartServer server_ipv4_addr port server_directory)
    | None => Halt Uncaught
    end.

Definition client_main (argv : arguments) : prog S ClientMain :=
  let! help := hasHelpArgument argv in
  if (length argv <=? 2)%nat || help then
    if help : bool then Ret (ClientHelp printClientHelpMessage argv) else Halt ExitFailure
  else
    let! r := extractArguments argv supported_arguments in
    let g_server_ipv4_addr := variable r.2 server_ipv4_addr_arg_prefix in
    let g_server_port := variable r.2 server_port_arg_prefix in
    let g_server_directory := variable r.2 server_directory_arg_prefix in
    validateIPv4Address g_server_ipv4_addr ;;;
    validatePortNumber g_server_port ;;;
    let! g_server_directory :=
      if decide (g_server_directory = []) then Ret g_server_directory
      else validateDirectory g_server_directory in
    Ret (RunTests g_server_ipv4_addr g_server_port g_server_directory r.1).
End mains.

(** ** What the patterns accept *)

Definition re_octet : regex :=
  default REps (compile (str "[0-9]|[1-9][0-9]|1[0-9]{2}|2[0-4][0-9]|25[0-5]")).

Definition re_dot : regex := RSet [(".", ".")]%char.

Definition re_port : regex :=
  default REps (compile (str "[1-9][0-9]{0,3}|[1-5][0-9]{4}|6[0-4][0-9]{3}|65[0-4][0-9]{2}|655[0-2][0-9]|6553[0-5]")).

Lemma ipv4_regex_eq :
  compile ipv4_address_format =
    Some (RSeq RBegin (RSeq (RRep (RSeq re_octet (RSeq re_dot REps)) 3 (Some 3%nat))
      (RSeq re_octet (RSeq REnd REps)))).
Proof. by vm_compute. Qed.

Lemma port_regex_eq :
  compile port_format = Some (RSeq RBegin (RSeq re_port (RSeq REnd REps))).
Proof. by vm_compute. Qed.

(** A number between two bounds, printed in decimal without leading zeros. *)
Definition decimal (lo hi : Z) (s : bytes) : Prop := ∃ n, lo ≤ n ≤ hi ∧ s = to_string n.

(** The classes of a word as intervals of character codes. *)
Definition word_codes (w : list (list (ascii * ascii))) : list (list (Z * Z)) :=
  map (map (λ p, (code p.1, code p.2))) w.

Fixpoint matches_codes (w : list (list (Z * Z))) (s : bytes) : bool :=
  match w, s with
  | [], [] => true
  | rs :: w, c :: s =>
      existsb (λ p, (p.1 <=? code c) && (code c <=? p.2)) rs && matches_codes w s
  | _, _ => false
  end.

Lemma matches_word_codes w s : matches_word w s = matches_codes (word_codes w) s.
Proof.
  revert s; induction w as [|rs w IH]; intros [|c s]; simpl; [done..|]. rewrite IH. f_equal.
  unfold in_set. induction rs as [|r rs IHr]; simpl; [done|]. by rewrite IHr.
Qed.

Lemma matches_words_codes l s :
  matches_words l s = existsb (λ w, matches_codes w s) (map word_codes l).
Proof.
  unfold matches_words. induction l as [|w l IH]; simpl; [done|]. by rewrite IH, matches_word_codes.
Qed.

(** Printed numbers are the digit strings of their value without a leading zero. *)
Definition canonical (s : bytes) : bool :=
  match s with
  | [] => false
  | c :: s' => forallb is_digit s && match s' with [] => true | _ => 1 <=? digit_value c end
  end.

Lemma decimal_canonical lo hi s :
  0 ≤ lo → decimal lo hi s ↔ canonical s = true ∧ lo ≤ digits_value 0 s ≤ hi.
Proof.
  intros Hlo. split.
  - intros (n & Hn & ->). unfold to_string. rewrite (proj2 (Z.ltb_ge n 0)) by lia.
    destruct (digits_spec n ltac:(lia)) as (ds & -> & Hd & Hne & Hv & Hl & Hlead).
    rewrite Hv. split; [|done]. destruct ds as [|c ds]; [done|]. unfold canonical. rewrite Hd. simpl.
    destruct ds as [|d ds]; [done|]. destruct (decide (10 ≤ n)) as [H10|H10].
    + destruct (Hlead H10) as (? & ? & [= <- <-] & ?). lia.
    + specialize (Hl 0%nat ltac:(lia)). simpl in Hl. lia.
  - intros [Hc Hv]. exists (digits_value 0 s). split; [done|]. destruct s as [|c s]; [done|].
    unfold canonical in Hc. apply andb_true_iff in Hc as [Hd Hc]. symmetry.
    apply to_string_canonical; [done|]. destruct s; [by left|right; lia].
Qed.

(** Turn the matching of a string of known length into inequalities on its codes. *)
Ltac decimal_digits :=
  rewrite decimal_canonical by done; rewrite matches_words_codes;
  match goal with |- context [existsb _ ?l] => let v := eval vm_compute in l in change l with v end;
  cbn [existsb matches_codes fst snd].

Ltac decimal_codes :=
  cbn [matches_codes existsb fst snd canonical digits_value forallb];
  unfold is_digit, digit_value;
  repeat first [setoid_rewrite orb_true_iff | setoid_rewrite andb_true_iff | setoid_rewrite Z.leb_le];
  lia.

(** A longer digit string has a larger value. *)
Lemma digits_value_long acc s :
  0 ≤ acc → forallb is_digit s = true → acc * 10 ^ len s ≤ digits_value acc s.
Proof.
  revert acc; induction s as [|c s IH]; simpl; intros acc Ha; [lia|].
  intros [Hc Hs]%andb_true_iff. pose proof (digit_value_range c Hc).
  etrans; [|apply IH; [lia|done]].
  rewrite Nat2Z.inj_succ, Z.pow_succ_r by lia. pose proof (Z.pow_pos_nonneg 10 (len s) ltac:(lia) ltac:(lia)). nia.
Qed.

Lemma canonical_long s k :
  canonical s = true → (S k < length s)%nat → 10 ^ Z.of_nat (S k) ≤ digits_value 0 s.
Proof.
  destruct s as [|c [|d s]]; simpl; intros Hc Hl; [done|lia|].
  apply andb_true_iff in Hc as [[Hdc [Hdd Hds]%andb_true_iff]%andb_true_iff Hlead].
  pose proof (digits_value_long (digit_value c) (d :: s)) as Hge.
  cbn [forallb digits_value] in *. rewrite Hdd in Hge. specialize (Hge ltac:(lia) Hds).
  replace (10 * 0 + digit_value c) with (digit_value c) by lia.
  etrans; [|done]. etrans; [apply (Z.pow_le_mono_r 10 _ (len (d :: s))); simpl; lia|].
  pose proof (Z.pow_pos_nonneg 10 (len (d :: s)) ltac:(lia) ltac:(lia)). nia.
Qed.

Lemma octet_words_decimal u :
  matches_words (default [] (words re_octet)) u = true ↔ decimal 0 255 u.
Proof.
  decimal_digits. destruct u as [|c1 [|c2 [|c3 [|c4 u]]]]; [decimal_codes..|]. split.
  - cbn [matches_codes]. by rewrite !andb_false_r.
  - intros [Hc Hv]. pose proof (canonical_long _ 2 Hc ltac:(simpl; lia)). lia.
Qed.

Lemma port_words_decimal u :
  matches_words (default [] (words re_port)) u = true ↔ decimal 1 65535 u.
Proof.
  decimal_digits. destruct u as [|c1 [|c2 [|c3 [|c4 [|c5 [|c6 u]]]]]]; [decimal_codes..|]. split.
  - cbn [matches_codes]. by rewrite !andb_false_r.
  - intros [Hc Hv]. pose proof (canonical_long _ 4 Hc ltac:(simpl; lia)). lia.
Qed.

Lemma decimal_step w t lo hi ws s' :
  words t = Some ws → (∀ u, matches_words ws u = true ↔ decimal lo hi u) →
  ∀ s, denote w t s s' ↔ ∃ u, s = u ++ s' ∧ decimal lo hi u.
Proof. intros Hw Hd s. rewrite (words_spec w t ws) by done. by setoid_rewrite Hd. Qed.

(** Four numbers below 256, separated by dots. *)
Definition dotted_quad (s : bytes) : Prop :=
  ∃ a b c d, decimal 0 255 a ∧ decimal 0 255 b ∧ decimal 0 255 c ∧ decimal 0 255 d ∧
    s = a ++ str "." ++ b ++ str "." ++ c ++ str "." ++ d.

Lemma octet_step w s s' : denote w re_octet s s' ↔ ∃ u, s = u ++ s' ∧ decimal 0 255 u.
Proof. by apply (decimal_step _ _ _ _ (default [] (words re_octet))), octet_words_decimal. Qed.

Lemma port_step w s s' : denote w re_port s s' ↔ ∃ u, s = u ++ s' ∧ decimal 1 65535 u.
Proof. by apply (decimal_step _ _ _ _ (default [] (words re_port))), port_words_decimal. Qed.

Lemma octet_dot_step w s s' :
  denote w (RSeq re_octet (RSeq re_dot REps)) s s' ↔ ∃ u, s = u ++ str "." ++ s' ∧ decimal 0 255 u.
Proof.
  cbn [denote]. setoid_rewrite octet_step. unfold re_dot. cbn [denote]. split.
  - intros (t & (u & -> & Hu) & t' & (c & -> & Hc) & ->). exists u. split; [|done].
    unfold in_set, in_pair in Hc. cbn [existsb fst snd] in Hc.
    assert (c = "."%char) as ->; [|done]. to_prop. rewrite orb_false_r in Hc. to_prop.
    assert (E : code c = code ".") by lia. unfold code in E.
    rewrite <- (ascii_N_embedding c), <- (ascii_N_embedding "."). f_equal. lia.
  - intros (u & -> & Hu). exists (str "." ++ s'). split; [by exists u|]. exists s'. split; [|done].
    by exists "."%char.
Qed.

Lemma port_format_matches s :
  ∃ b, format_matches port_format s = Some b ∧ (b = true ↔ decimal 1 65535 s).
Proof.
  unfold format_matches. rewrite port_regex_eq. eexists. split; [done|].
  rewrite regex_match_spec. cbn [denote]. setoid_rewrite port_step. split.
  - intros (t & [-> _] & t' & (u & -> & Hu) & t'' & [-> ->] & _). by rewrite app_nil_r.
  - intros Hu. exists s. split; [done|]. exists []. split; [by exists s; rewrite app_nil_r|]. by exists [].
Qed.

Lemma ipv4_format_matches s :
  ∃ b, format_matches ipv4_address_format s = Some b ∧ (b = true ↔ dotted_quad s).
Proof.
  unfold format_matches. rewrite ipv4_regex_eq. eexists. split; [done|].
  rewrite regex_match_spec. remember (RSeq re_octet (RSeq re_dot REps)) as dotted eqn:Ed.
  cbn [denote]. setoid_rewrite octet_step.
  assert (Hd : ∀ t t', denote s dotted t t' ↔ ∃ u, t = u ++ str "." ++ t' ∧ decimal 0 255 u)
    by (intros; rewrite Ed; apply octet_dot_step). split.
  - intros (t & [-> _] & t' & (n & H3 & Hn & Hs) & t'' & (d & -> & Hdd) & t3 & [-> ->] & _).
    simpl in Hn. replace n with 3%nat in Hs by lia.
    inversion Hs as [|? ? t1 ? (a & Ea & Ha)%Hd Hs1]; subst.
    inversion Hs1 as [|? ? t2 ? (b & Eb & Hb)%Hd Hs2]; subst.
    apply nsteps_once_inv in Hs2. apply Hd in Hs2 as (c & Ec & Hc). subst.
    exists a, b, c, d. do 4 (split; [done|]). by rewrite app_nil_r.
  - intros (a & b & c & d & Ha & Hb & Hc & Hdd & E). exists s. split; [done|]. exists d. split.
    + exists 3%nat. split; [lia|]. split; [simpl; lia|].
      eapply nsteps_l; [apply Hd; by exists a|].
      eapply nsteps_l; [apply Hd; by exists b|].
      apply nsteps_once, Hd. by exists c.
    + exists []. split; [by exists d; rewrite app_nil_r|]. by exists [].
Qed.

(** ** Extraction *)

Definition last_value (prefix : bytes) (args : list bytes) (old : bytes) : bytes :=
  foldl (λ v arg, if starts_with prefix arg then drop (length prefix) arg else v) old args.

(** No supported prefix is the beginning of another one. *)
Definition prefix_free (vars : gmap bytes bytes) : Prop :=
  ∀ p q, is_Some (vars !! p) → is_Some (vars !! q) → p `prefix_of` q → p = q.

Lemma starts_with_prefix p arg : starts_with p arg = true ↔ p `prefix_of` arg.
Proof.
  unfold starts_with. rewrite bool_decide_eq_true. split.
  - intros E. exists (drop (length p) arg). rewrite <- E at 1. by rewrite take_drop.
  - intros [k ->]. by rewrite take_app_length.
Qed.

Lemma prefix_free_unique vars p q arg :
  prefix_free vars → is_Some (vars !! p) → is_Some (vars !! q) →
  starts_with p arg = true → starts_with q arg = true → p = q.
Proof.
  intros Hf Hp Hq Hpa%starts_with_prefix Hqa%starts_with_prefix.
  destruct (prefix_weak_total p q arg Hpa Hqa) as [H|H]; [|symmetry]; by apply Hf.
Qed.

Lemma match_argument_spec arg prefixes :
  match match_argument arg prefixes with
  | Some (p, v) => p ∈ prefixes ∧ starts_with p arg = true ∧ v = drop (length p) arg
  | None => ∀ p, p ∈ prefixes → starts_with p arg = false
  end.
Proof.
  induction prefixes as [|q l IH]; simpl; [by intros p ?%elem_of_nil|].
  destruct (starts_with q arg) eqn:E; [by split; [left|]|].
  destruct (match_argument arg l) as [[p v]|].
  - destruct IH as (? & ? & ?). by split; [right|].
  - intros p [->|Hp]%elem_of_cons; [done|by apply IH].
Qed.

(** Is the argument one of the supported ones? *)
Definition supported (vars : gmap bytes bytes) (arg : bytes) : Prop :=
  ∃ p, is_Some (vars !! p) ∧ starts_with p arg = true.

Section extract_spec.
Context {S : Type} `{HashOrder} (tid : nat) (ls : locks) (st : S).

(** What is left of [argv], and the values the variables end with. *)
Definition extracted (vars : gmap bytes bytes) (args : list bytes) (r : arguments * gmap bytes bytes) : Prop :=
  (∀ p, r.2 !! p = last_value p args <$> vars !! p) ∧
  Forall2 (λ arg o, (supported vars arg ∧ o = None) ∨ (¬ supported vars arg ∧ o = Some arg)) args r.1.

Lemma extract_from_spec prefixes args vars :
  (∀ p, p ∈ prefixes ↔ is_Some (vars !! p)) → prefix_free vars →
  ∃ r, run tid (extract_from prefixes (Some <$> args) vars) ls st = Done r ls st ∧ extracted vars args r.
Proof.
  revert vars; induction args as [|arg args IH]; intros vars Hp Hfree.
  - exists ([], vars). split; [done|]. split; [|by constructor]. intros p. simpl.
    by destruct (vars !! p).
  - cbn [fmap list_fmap extract_from]. pose proof (match_argument_spec arg prefixes) as Hm.
    destruct (match_argument arg prefixes) as [[q v]|].
    + destruct Hm as (Hq%Hp & Hs & ->).
      assert (Hdom : ∀ p, is_Some (<[q:=drop (length q) arg]> vars !! p) ↔ is_Some (vars !! p)).
      { intros p. destruct (decide (p = q)) as [->|]; [rewrite lookup_insert_eq|by rewrite lookup_insert_ne].
        by split. }
      destruct (IH (<[q:=drop (length q) arg]> vars)) as (r & Hr & Hv & Ha).
      { intros p. by rewrite Hp, Hdom. }
      { intros p p'. rewrite !Hdom. apply Hfree. }
      exists (None :: r.1, r.2). split; [by rewrite run_bind, Hr|]. split.
      * intros p. simpl. rewrite Hv. destruct (decide (p = q)) as [->|Hne].
        -- rewrite lookup_insert_eq. destruct Hq as [x ->]. simpl. unfold last_value. simpl.
           by rewrite Hs.
        -- rewrite lookup_insert_ne by done. destruct (vars !! p) as [x|] eqn:E; [|done]. simpl.
           f_equal. unfold last_value. simpl. destruct (starts_with p arg) eqn:Ep; [|done].
           destruct Hne. by eapply (prefix_free_unique vars).
      * constructor; [left; split; [by exists q|done]|].
        eapply Forall2_impl; [exact Ha|]. intros a o. unfold supported. by setoid_rewrite Hdom.
    + destruct (IH vars Hp Hfree) as (r & Hr & Hv & Ha).
      exists (Some arg :: r.1, r.2). split; [by rewrite run_bind, Hr|]. split.
      * intros p. simpl. rewrite Hv. destruct (vars !! p) as [x|] eqn:E; [|done]. simpl. f_equal.
        unfold last_value. simpl. by rewrite Hm by by apply Hp; eexists.
      * constructor; [right; split; [|done]|done]. intros (p & Hp' & Hs).
        by rewrite Hm in Hs by by apply Hp.
Qed.

Lemma extractArguments_spec program args vars :
  prefix_free vars →
  ∃ r, run tid (extractArguments (program :: (Some <$> args)) vars) ls st = Done (program :: r.1, r.2) ls st ∧
    extracted vars args r.
Proof.
  intros Hfree. destruct (extract_from_spec (iterate vars).*1 args vars) as (r & Hr & He); [|done|].
  - intros p. rewrite list_elem_of_fmap. split.
    + intros ([q v] & -> & Hin%elem_of_iterate). by exists v.
    + intros [v Hv]. exists (p, v). split; [done|by apply elem_of_iterate].
  - exists r. split; [|done]. unfold extractArguments. by rewrite run_bind, Hr.
Qed.

Lemma has_help_spec args :
  run tid (has_help (Some <$> args)) ls st = Done (bool_decide (help_arg_prefix ∈ args)) ls st.
Proof.
  induction args as [|arg args IH]; [done|]. cbn [fmap list_fmap has_help].
  destruct (decide (arg = help_arg_prefix)) as [->|Hne].
  - rewrite bool_decide_eq_true_2; [done|by left].
  - rewrite IH. f_equal. apply bool_decide_ext. rewrite elem_of_cons.
    split; [by right|]. by intros [E|?]; [destruct Hne|].
Qed.
End extract_spec.

Lemma supported_prefix_free : prefix_free supported_arguments.
Proof.
  intros p q Hp Hq Hpq. unfold supported_arguments in *.
  rewrite !lookup_insert_is_Some', lookup_singleton_is_Some in Hp, Hq.
  destruct_or!; subst; try done; destruct Hpq as [k E]; by vm_compute in E.
Qed.

(** ** Properties *)

(** [directory/] *)
Definition with_slash (d : bytes) : bytes :=
  if decide (last d = Some "/"%char) then d else d ++ ["/"%char].

Section properties.
Context {S : Type} `{HashOrder} `{Directories} (tid : nat) (ls : locks) (st : S).

(** Extraction does not depend on the order the hash table is visited in: when no
    supported prefix begins another, every variable ends as the value of the last
    argument with its prefix (unchanged without one), and in [argv] exactly the arguments
    with a supported prefix are replaced by null pointers. *)
Theorem extraction_last_wins program args vars :
  prefix_free vars →
  ∃ r, run tid (extractArguments (program :: (Some <$> args)) vars) ls st = Done (program :: r.1, r.2) ls st ∧
    (∀ p, r.2 !! p = last_value p args <$> vars !! p) ∧
    Forall2 (λ arg o, (supported vars arg ∧ o = None) ∨ (¬ supported vars arg ∧ o = Some arg)) args r.1.
Proof. apply extractArguments_spec. Qed.

Lemma run_validateDirectory d :
  run tid (validateDirectory d) ls st =
    if decide (d ≠ [] ∧ opendir d = None) then Done (with_slash d) ls st else Stopped ExitFailure st.
Proof.
  unfold validateDirectory, with_slash.
  destruct (decide (d = [])) as [->|Hne]; [by rewrite decide_False by tauto|].
  destruct (opendir d) as [e|] eqn:E; [rewrite decide_False; [done|by intros [_ ?]]|].
  rewrite (decide_True (P := d ≠ [] ∧ _)) by done. by case_decide.
Qed.

Lemma validated_iff (p : prog S unit) (P : Prop) (b : bool) :
  run tid p ls st = (if b then Done tt ls st else Stopped ExitFailure st) → (b = true ↔ P) →
  (run tid p ls st = Done tt ls st ↔ P) ∧ (run tid p ls st = Stopped ExitFailure st ↔ ¬ P).
Proof.
  intros -> Hb. destruct b.
  - assert (HP : P) by by apply Hb. by split; split.
  - assert (HP : ¬ P) by (intros HP; by apply Hb in HP). by split; split.
Qed.

(** Both validations return or end the process. *)
Lemma run_validatePortNumber s :
  ∃ b : bool, run tid (validatePortNumber s) ls st = (if b then Done tt ls st else Stopped ExitFailure st) ∧
    (b = true ↔ decimal 1 65535 s).
Proof.
  unfold validatePortNumber. destruct (decide (s = [])) as [->|Hne].
  - exists false. split; [done|]. rewrite decimal_canonical by done. by split; [|intros [? _]].
  - destruct (port_format_matches s) as (b & E & Hb). exists b. split; [|done].
    unfold require_match. rewrite E. by destruct b.
Qed.

Lemma run_validateIPv4Address s :
  ∃ b : bool, run tid (validateIPv4Address s) ls st = (if b then Done tt ls st else Stopped ExitFailure st) ∧
    (b = true ↔ dotted_quad s).
Proof.
  unfold validateIPv4Address. destruct (decide (s = [])) as [->|Hne].
  - exists false. split; [done|]. split; [done|].
    intros (a & b & c & d & _ & _ & _ & _ & E). symmetry in E. by apply app_eq_nil in E as [_ E].
  - destruct (ipv4_format_matches s) as (b & E & Hb). exists b. split; [|done].
    unfold require_match. rewrite E. by destruct b.
Qed.

(** C37. Exactly the ports are accepted: [validatePortNumber] returns just on the decimal
    numbers from 1 to 65535 written without leading zeros, and ends the process with
    EXIT_FAILURE on every other string. *)
Theorem port_exact s :
  (run tid (validatePortNumber s) ls st = Done tt ls st ↔ decimal 1 65535 s) ∧
  (run tid (validatePortNumber s) ls st = Stopped ExitFailure st ↔ ¬ decimal 1 65535 s).
Proof.
  destruct (run_validatePortNumber s) as (b & E & Hb). by apply (validated_iff _ _ b).
Qed.

(** Exactly the IPv4 addresses are accepted: [validateIPv4Address] returns just on
    four decimal numbers from 0 to 255 without leading zeros joined by dots, and ends the
    process with EXIT_FAILURE on every other string. *)
Theorem ipv4_exact s :
  (run tid (validateIPv4Address s) ls st = Done tt ls st ↔ dotted_quad s) ∧
  (run tid (validateIPv4Address s) ls st = Stopped ExitFailure st ↔ ¬ dotted_quad s).
Proof.
  destruct (run_validateIPv4Address s) as (b & E & Hb). by apply (validated_iff _ _ b).
Qed.


(** What the arguments must be for [main] to start a server. *)
Definition starts (args : list bytes) (ip : bytes) (port : Z) (dir : bytes) : Prop :=
  let value prefix := last_value prefix args [] in
  (3 ≤ length args)%nat ∧ (help_arg_prefix ∉ args) ∧
  ip = value server_ipv4_addr_arg_prefix ∧ dotted_quad ip ∧
  (1 ≤ port ≤ 65535) ∧ value server_port_arg_prefix = to_string port ∧
  value server_directory_arg_prefix ≠ [] ∧ opendir (value server_directory_arg_prefix) = None ∧
  dir = with_slash (value server_directory_arg_prefix).

Lemma server_main_spec program args ip port dir :
  run tid (server_main (program :: (Some <$> args))) ls st = Done (StartServer ip port dir) ls st ↔
    starts args ip port dir.
Proof.
  pose (value := λ prefix, last_value prefix args []).
  change (starts args ip port dir) with ((3 ≤ length args)%nat ∧ (help_arg_prefix ∉ args) ∧
    ip = value server_ipv4_addr_arg_prefix ∧ dotted_quad ip ∧
    (1 ≤ port ≤ 65535) ∧ value server_port_arg_prefix = to_string port ∧
    value server_directory_arg_prefix ≠ [] ∧ opendir (value server_directory_arg_prefix) = None ∧
    dir = with_slash (value server_directory_arg_prefix)).
  unfold server_main. cbn [length]. rewrite length_fmap, run_bind.
  destruct (Nat.leb_spec (Datatypes.S (length args)) 3) as [Hl|Hl].
  { split; [done|]. intros [? _]. lia. }
  unfold hasHelpArgument. cbn [tl]. rewrite has_help_spec. cbn [andthen].
  case_bool_decide as Hhelp; [split; [done|intros (_ & Hn & _); by destruct Hn]|].
  rewrite run_bind. destruct (extractArguments_spec tid ls st program args supported_arguments supported_prefix_free)
    as (r & -> & Hv & _). cbn [andthen snd fst].
  assert (Ev : ∀ p, is_Some (supported_arguments !! p) → variable r.2 p = value p).
  { intros p [old Hp]. unfold variable. rewrite Hv, Hp. simpl. f_equal.
    unfold supported_arguments in Hp. rewrite !lookup_insert_Some, lookup_singleton_Some in Hp.
    destruct Hp as [[_ <-]|[_ [[_ <-]|[_ [_ <-]]]]]; done. }
  rewrite !Ev by (unfold supported_arguments; rewrite !lookup_insert_is_Some', lookup_singleton_is_Some; tauto).
  rewrite run_bind. destruct (run_validateIPv4Address (value server_ipv4_addr_arg_prefix)) as (bi & -> & Hi).
  destruct bi; cbn [andthen]; [|split; [done|intros (_ & _ & -> & Hq & _); by apply Hi in Hq]].
  rewrite run_bind. destruct (run_validatePortNumber (value server_port_arg_prefix)) as (bp & -> & Hp).
  destruct bp; cbn [andthen];
    [|split; [done|intros (_ & _ & _ & _ & Hr & E & _); rewrite E in Hp; discriminate (proj2 Hp (ex_intro _ port (conj Hr eq_refl)))]].
  rewrite run_bind, run_validateDirectory. case_decide as Hd; cbn [andthen];
    [|split; [done|intros (_ & _ & _ & _ & _ & _ & ? & ? & _); by destruct Hd]].
  destruct (proj1 Hp eq_refl) as (n & Hn & E). rewrite E, stoi_to_string by (unfold INT32_MAX; lia). split.
  - intros [= <- <- <-]. destruct Hd. repeat split; try done; try lia. by apply Hi.
  - intros (_ & _ & -> & _ & Hr & Eport & _ & _ & ->). repeat f_equal.
    rewrite <- (digits_value_to_string n), <- (digits_value_to_string port) by lia. by rewrite Eport.
Qed.
(** When the server starts: [main] constructs and starts a server on an address, a
    port and a directory exactly when at least three arguments are given, none of them
    the help argument, the last address argument is an IPv4 address, the last port
    argument the number between 1 and 65535, and the last directory argument opens; the
    directory then ends in a slash. *)
Theorem server_main_starts program args ip port dir :
  let value prefix := last_value prefix args [] in
  run tid (server_main (program :: (Some <$> args))) ls st = Done (StartServer ip port dir) ls st ↔
    (3 ≤ length args)%nat ∧ (help_arg_prefix ∉ args) ∧
    ip = value server_ipv4_addr_arg_prefix ∧ dotted_quad ip ∧
    (1 ≤ port ≤ 65535) ∧ value server_port_arg_prefix = to_string port ∧
    value server_directory_arg_prefix ≠ [] ∧ opendir (value server_directory_arg_prefix) = None ∧
    dir = with_slash (value server_directory_arg_prefix).
Proof. apply server_main_spec. Qed.
End properties.

(** ** Witnesses *)

#[local] Instance sample_order : HashOrder :=
  {| iterate K A _ _ m := map_to_list m; iterate_perm K A _ _ m := reflexivity _ |}.

(** A server whose only directory is /tmp. *)
#[local] Instance sample_directories : Directories :=
  λ d, if decide (d = str "/tmp") then None else Some 2.

Lemma extraction_last_wins_witness :
  ∃ r, run (S := unit) 1 (extractArguments [Some (str "server"); Some (str "--server_port=1"); Some (str "x");
                                   Some (str "--server_port=22")] supported_arguments) ∅ tt
         = Done (Some (str "server") :: r.1, r.2) ∅ tt ∧ r.2 !! server_port_arg_prefix = Some (str "22").
Proof.
  destruct (extraction_last_wins (S := unit) 1 ∅ tt (Some (str "server"))
    [str "--server_port=1"; str "x"; str "--server_port=22"] supported_arguments supported_prefix_free)
    as (r & Hr & Hv & _).
  exists r. split; [exact Hr|]. rewrite Hv. by vm_compute.
Defined.

(** The documented way to start the server. *)
Example server_starts :
  run (S := unit) 1 (server_main (Some <$> [str "server"; str "--server_ipv4_addr=127.0.0.1"; str "--server_port=8080";
                                 str "--server_directory=/tmp"])) ∅ tt
    = Done (StartServer (str "127.0.0.1") 8080 (str "/tmp/")) ∅ tt.
Proof. by vm_compute. Qed.
