(* ===== verification/Dispatcher.v ===== *)
(** * The dispatcher: connections, threads and the accept loop

    [ServerDispatcher] (server-dispatcher.h): the thread that accepts connections, the
    thread that tells the others which descriptors are ready, and the thread that serves
    one connection.  The class is a template over the backend; what it asks of it is the
    class [Backend], which ServerBackend implements in Server.v.

    The network is part of the state: what each connection will receive, how its writes
    fare and which connections will be accepted are arbitrary.  Each thread is a program
    of its own; the mutexes and condition variables of a descriptor are named by it. *)
From S2P Require Import Prelude Stdcxx Constants WireProtocol Messages Prog ReadWrite Posix Backend.
From Stdlib Require Import ZArith Lia List Ascii String Bool.
From stdpp Require Import base gmap strings list fin_maps sorting.
#[local] Set Default Goal Selector "!".
Local Open Scope Z_scope.

(** ** The interface to the backend

    [getRequestHeaderLength], [getContentLength] and [processRequest], as documented at
    the top of server-dispatcher.h. *)
Class BackendOps (B : Type) := {
  backend_getRequestHeaderLength : Z;
  backend_getContentLength : bytes → bytes → bool → prog B ContentLength;
  backend_processRequest : bytes → bytes → bytes → bool → prog B Reply
}.

(** ** The network *)

(** What happens next on a connection, seen from the server. *)
Inductive incoming :=
| Chunk (b : bytes)   (* bytes arrive *)
| Silence             (* nothing arrives for a whole timeout *)
| Reset.              (* the connection breaks: [read] fails *)

(** How the next [write] on a connection fares. *)
Inductive delivery :=
| Sent (n : nat)      (* takes at most [n] bytes (at least one) *)
| Failed              (* returns -1 *)
| PeerGone.           (* the peer has closed: [SIGPIPE], which nothing handles *)

(** A connection: the bytes to come, the bytes sent, whether the descriptor is open.  At
    the end of [c_incoming] the peer has closed its side; past the end of [c_deliveries]
    writes take everything. *)
Record Connection := {
  c_incoming : list incoming;
  c_deliveries : list delivery;
  c_sent : bytes;
  c_open : bool
}.

(** The future of the listening socket: a connection with the descriptor the kernel gives
    it, or an error. *)
Abbreviation arrival := (option (Z * Connection)).

(** ** The state

    The members of [ServerDispatcher] its threads share; the constants are parameters of
    the section below. *)
Record ServerDispatcher (B : Type) := {
  m_backend : B;
  m_sockfd : Z;
  m_rfds : gset Z;
  connections : gmap Z Connection;     (* by descriptor *)
  arrivals : list arrival;
  threads : list Z;                    (* the connection threads started, by descriptor *)
  woken : list Z;                      (* the descriptors [notify_one] was called for *)
  spurious : list bool                 (* whether the next waits of [start] end by themselves *)
}.

Arguments m_backend {B}.
Arguments m_sockfd {B}.
Arguments m_rfds {B}.
Arguments connections {B}.
Arguments arrivals {B}.
Arguments threads {B}.
Arguments woken {B}.
Arguments spurious {B}.

Section setters.
Context {B : Type}.
Implicit Types (s : ServerDispatcher B).

Definition set_backend (b : B) s : ServerDispatcher B :=
  {| m_backend := b; m_sockfd := m_sockfd s; m_rfds := m_rfds s; connections := connections s;
     arrivals := arrivals s; threads := threads s; woken := woken s; spurious := spurious s |}.
Definition set_sockfd (fd : Z) s : ServerDispatcher B :=
  {| m_backend := m_backend s; m_sockfd := fd; m_rfds := m_rfds s; connections := connections s;
     arrivals := arrivals s; threads := threads s; woken := woken s; spurious := spurious s |}.
Definition set_rfds (rfds : gset Z) s : ServerDispatcher B :=
  {| m_backend := m_backend s; m_sockfd := m_sockfd s; m_rfds := rfds; connections := connections s;
     arrivals := arrivals s; threads := threads s; woken := woken s; spurious := spurious s |}.
Definition set_connections (cs : gmap Z Connection) s : ServerDispatcher B :=
  {| m_backend := m_backend s; m_sockfd := m_sockfd s; m_rfds := m_rfds s; connections := cs;
     arrivals := arrivals s; threads := threads s; woken := woken s; spurious := spurious s |}.
Definition set_arrivals (l : list arrival) s : ServerDispatcher B :=
  {| m_backend := m_backend s; m_sockfd := m_sockfd s; m_rfds := m_rfds s; connections := connections s;
     arrivals := l; threads := threads s; woken := woken s; spurious := spurious s |}.
Definition set_threads (l : list Z) s : ServerDispatcher B :=
  {| m_backend := m_backend s; m_sockfd := m_sockfd s; m_rfds := m_rfds s; connections := connections s;
     arrivals := arrivals s; threads := l; woken := woken s; spurious := spurious s |}.
Definition set_woken (l : list Z) s : ServerDispatcher B :=
  {| m_backend := m_backend s; m_sockfd := m_sockfd s; m_rfds := m_rfds s; connections := connections s;
     arrivals := arrivals s; threads := threads s; woken := l; spurious := spurious s |}.
Definition set_spurious (l : list bool) s : ServerDispatcher B :=
  {| m_backend := m_backend s; m_sockfd := m_sockfd s; m_rfds := m_rfds s; connections := connections s;
     arrivals := arrivals s; threads := threads s; woken := woken s; spurious := l |}.
End setters.

(** ** Descriptors *)

(** [read] of [n] bytes: a blocking read sits out a silence, and reads nothing at the end
    of the input. *)
Fixpoint next_bytes (n : nat) (l : list incoming) : option bytes * list incoming :=
  match l with
  | [] => (Some [], [])
  | Silence :: l => next_bytes n l
  | Reset :: l => (None, Reset :: l)
  | Chunk [] :: _ => (Some [], l)
  | Chunk b :: l =>
      (Some (take n b), match drop n b with [] => l | rest => Chunk rest :: l end)
  end.

Definition set_incoming (l : list incoming) (c : Connection) : Connection :=
  {| c_incoming := l; c_deliveries := c_deliveries c; c_sent := c_sent c; c_open := c_open c |}.

(** The bytes a [write] of [buf] takes. *)
Definition sent (n : nat) (buf : bytes) : bytes := take (Nat.max 1 n) buf.

Definition deliver (b : bytes) (l : list delivery) (c : Connection) : Connection :=
  {| c_incoming := c_incoming c; c_deliveries := l; c_sent := c_sent c ++ b; c_open := c_open c |}.

Definition closed (c : Connection) : Connection :=
  {| c_incoming := c_incoming c; c_deliveries := c_deliveries c; c_sent := c_sent c; c_open := false |}.

(** Readable: bytes, the end of the stream or an error are there. *)
Definition readable (c : Connection) : bool :=
  match c_incoming c with Silence :: _ => false | _ => true end.

(** An array of [n + 1] elements fits a stack of which [used] bytes are taken: the addition
    is one of [int]s. *)
Definition fits (stack_bytes used n : Z) : bool := (n <? INT32_MAX) && (used + (n + 1) <=? stack_bytes).

(** [FD_SETSIZE] of the platform; [FD_SET] outside of it is undefined. *)
Definition FD_SETSIZE : Z := 1024.

Section dispatcher.
Context {B : Type} `{BackendOps B}.

(** The arguments of the constructor, the descriptor of the listening socket and the room
    the stack of a thread has for arrays. *)
Context (m_max_sockfd m_connection_timeout_seconds m_listenfd stack_bytes : Z).

Abbreviation State := (ServerDispatcher B).
Abbreviation P A := (prog State A) (only parsing).
Implicit Types (s : State).

Definition set_connection (fd : Z) (c : Connection) s : State :=
  set_connections (<[fd := c]> (connections s)) s.

(** An index into [m_fd_mtxs] and [m_fd_cvs], vectors of [m_max_sockfd + 1] elements. *)
Definition fd_index (fd : Z) : P unit :=
  if (0 <=? fd) && (fd <=? m_max_sockfd) then Ret tt else Halt Undefined.

Definition sock_read (fd : Z) (_ n : nat) : P (option bytes) :=
  act (λ s, match connections s !! fd with
            | Some c =>
                if c_open c
                then let '(r, l) := next_bytes n (c_incoming c) in
                     (r, set_connection fd (set_incoming l c) s)
                else (None, s)
            | None => (None, s)
            end).

Definition sock_write (fd : Z) (buf : bytes) : P (option nat) :=
  let! r := act (λ s,
    match connections s !! fd with
    | Some c =>
        if c_open c then
          match c_deliveries c with
          | [] => (Some (Some (length buf)), set_connection fd (deliver buf [] c) s)
          | Sent n :: l =>
              (Some (Some (length (sent n buf))), set_connection fd (deliver (sent n buf) l c) s)
          | Failed :: l => (Some None, set_connection fd (deliver [] l c) s)
          | PeerGone :: l => (None, s)
          end
        else (Some None, s)
    | None => (Some None, s)
    end) in
  match r with
  | Some r => Ret r
  | None => Halt Killed
  end.

(** [close] *)
Definition close_socket (fd : Z) : P unit :=
  modify (λ s, set_connections (alter closed fd (connections s)) s).

Definition FD_SET (fd : Z) : P unit :=
  if (0 <=? fd) && (fd <? FD_SETSIZE) then modify (λ s, set_rfds ({[fd]} ∪ m_rfds s) s)
  else Halt Undefined.

Definition FD_CLR (fd : Z) : P unit := modify (λ s, set_rfds (m_rfds s ∖ {[fd]}) s).

(** ** Serving a connection *)

(** [wait_for] on the condition variable of the descriptor: it times out when nothing
    arrives, and is notified otherwise (see [notifier_turn]). *)
Definition wait_for (fd : Z) : P bool :=
  unlock (m_fd_mtx fd) ;;;
  let! ready := reads (λ s, from_option readable false (connections s !! fd)) in
  lock (m_fd_mtx fd) ;;;
  Ret ready.

Definition wait_ready (fd : Z) : P bool :=
  if 0 <? m_connection_timeout_seconds then
    lock (m_fd_mtx fd) ;;;
    let! ready := wait_for fd in
    unlock (m_fd_mtx fd) ;;;
    Ret ready
  else Ret true.

(** [readSocket]: the buffer when it was filled. *)
Definition readSocket (in_sockfd : Z) (in_buffer_len : Z) : P (option bytes) :=
  fd_index in_sockfd ;;;
  let! r := readFileDescriptor (sock_read in_sockfd) (wait_ready in_sockfd) (Z.to_nat in_buffer_len) in
  Ret (if r.1 <? 0 then None else Some r.2).

(** [if (server_response.length() > 0 && writeFileDescriptor(...) < 0) { }] *)
Definition writeSocket (in_sockfd : Z) (server_response : bytes) : P unit :=
  if 0 <? len server_response then
    let! _ := writeFileDescriptor (sock_write in_sockfd) server_response in Ret tt
  else Ret tt.

(** [char array[n + 1]] on the stack. *)
Definition char_array (used n : Z) : P unit :=
  if fits stack_bytes used n then Ret tt else Halt Undefined.

Definition the_backend {A} (p : prog B A) : P A := zoom m_backend set_backend p.

(** One turn of the loop of [m_processRequest]: [None] is [break]. *)
Definition serve_request (in_sockfd : Z) (in_progress : bool) : P (option bool) :=
  let request_header_len := backend_getRequestHeaderLength in
  char_array 0 request_header_len ;;;
  let! request_header := readSocket in_sockfd request_header_len in
  match request_header with
  | None => Ret None
  | Some request_header =>
      let! cl := the_backend (backend_getContentLength request_header [] in_progress) in
      let content_len := cl_result cl in
      if content_len <? 0 then
        writeSocket in_sockfd (cl_server_response cl) ;;;
        Ret (Some (cl_transaction_in_progress cl))
      else
        char_array (request_header_len + 1) content_len ;;;
        let! request_payload := readSocket in_sockfd content_len in
        match request_payload with
        | None => Ret None
        | Some request_payload =>
            let! reply := the_backend (backend_processRequest request_header request_payload
                                 (cl_server_response cl) (cl_transaction_in_progress cl)) in
            writeSocket in_sockfd (server_response reply) ;;;
            Ret (Some (transaction_in_progress reply))
        end
  end.

Fixpoint connection_loop (fuel : nat) (in_sockfd : Z) (in_progress : bool) : P unit :=
  match fuel with
  | O => diverge
  | S fuel =>
      let! r := serve_request in_sockfd in_progress in
      match r with
      | Some true => connection_loop fuel in_sockfd true
      | _ => Ret tt
      end
  end.

(** What follows the loop, under the global mutex. *)
Definition close_connection (in_sockfd : Z) : P unit :=
  lock g_mtx ;;;
  close_socket in_sockfd ;;;
  FD_CLR in_sockfd ;;;
  unlock g_mtx.

(** The thread of a connection.  Every turn consumes a header; [fuel] bounds the turns. *)
Definition m_processRequest (fuel : nat) (in_sockfd : Z) : P unit :=
  connection_loop fuel in_sockfd true ;;;
  close_connection in_sockfd.

(** ** Accepting connections *)

(** A wait without a predicate on the condition variable of the listening socket.  It ends
    when [notify_one] is called after it has begun - a call before that is lost -, or by
    itself, as the standard allows. *)
Definition notified (fd : Z) s : nat := length (filter (λ fd', fd' = fd) (woken s)).

Definition begin_wait (fd : Z) : P (nat * bool) :=
  let! w := act (λ s, ((notified fd s, hd false (spurious s)), set_spurious (tl (spurious s)) s)) in
  unlock (m_fd_mtx fd) ;;;
  Ret w.

Definition wait_over (fd : Z) (w : nat * bool) s : bool := w.2 || (w.1 <? notified fd s)%nat.

(** [accept] blocks until there is a connection.  This is the only thread that takes one,
    so there still is when it goes on. *)
Definition connection_pending s : bool := negb (bool_decide (arrivals s = [])).

Definition accept : P (option Z) :=
  wait_until connection_pending ;;;
  act_partial (λ s, match arrivals s with
                    | Some (fd, c) :: l => Some (Some fd, set_connection fd c (set_arrivals l s))
                    | None :: l => Some (None, set_arrivals l s)
                    | [] => None
                    end).

(** Both as the first part of a program. *)
Lemma begin_wait_bind {A} fd (k : nat * bool → P A) :
  bind (begin_wait fd) k =
    (let! w := act (λ s, ((notified fd s, hd false (spurious s)), set_spurious (tl (spurious s)) s)) in
     unlock (m_fd_mtx fd) ;;; k w).
Proof. done. Qed.

Lemma accept_bind {A} (k : option Z → P A) :
  bind accept k =
    (wait_until connection_pending ;;;
    let! fd := act_partial (λ s, match arrivals s with
                      | Some (fd, c) :: l => Some (Some fd, set_connection fd c (set_arrivals l s))
                      | None :: l => Some (None, set_arrivals l s)
                      | [] => None
                      end) in k fd).
Proof. done. Qed.

(** One turn of the loop of [start]. *)
Definition start_turn : P unit :=
  fd_index m_listenfd ;;;
  lock (m_fd_mtx m_listenfd) ;;;
  let! w := begin_wait m_listenfd in
  wait_until (wait_over m_listenfd w) ;;;
  lock (m_fd_mtx m_listenfd) ;;;
  lock g_mtx ;;;
  let! fd := accept in
  modify (set_sockfd (default (-1) fd)) ;;;
  match fd with
  | None => Halt ExitFailure
  | Some fd =>
      if m_max_sockfd <? fd then
        close_socket fd ;;;
        unlock g_mtx ;;;
        unlock (m_fd_mtx m_listenfd)
      else
        FD_SET fd ;;;
        unlock g_mtx ;;;
        modify (λ s, set_threads (threads s ++ [fd]) s) ;;;
        unlock (m_fd_mtx m_listenfd)
  end.

(** The first [turns] turns of [while (1)]. *)
Fixpoint start (turns : nat) : P unit :=
  match turns with
  | O => Ret tt
  | S turns => start_turn ;;; start turns
  end.

(** ** Telling the threads what is readable *)

(** What [select] finds readable in a set; a closed descriptor in it is an error. *)
Definition fd_readable s (fd : Z) : bool :=
  if decide (fd = m_listenfd) then connection_pending s
  else match connections s !! fd with Some c => readable c | None => false end.

Definition fd_open s (fd : Z) : bool :=
  if decide (fd = m_listenfd) then true
  else match connections s !! fd with Some c => c_open c | None => false end.

Definition select (nfds : Z) (rfds : gset Z) s : Z * gset Z :=
  let watched := filter (λ fd, fd < nfds) rfds in
  if forallb (fd_open s) (elements watched) then
    let ready := filter (λ fd, fd_readable s fd = true) watched in (Z.of_nat (size ready), ready)
  else (-1, rfds).

(** The loop over the descriptors, from the listening socket on. *)
Fixpoint notify_loop (fds : list Z) (numReadyFileDescriptors : Z) (rfds : gset Z) : P unit :=
  match fds with
  | [] => Ret tt
  | fd :: fds =>
      if 0 <? numReadyFileDescriptors then
        if decide (fd ∈ rfds) then
          fd_index fd ;;;
          modify (λ s, set_woken (woken s ++ [fd]) s) ;;;
          notify_loop fds (numReadyFileDescriptors - 1) rfds
        else notify_loop fds numReadyFileDescriptors rfds
      else Ret tt
  end.

(** One turn of the loop of [m_notifier]. *)
Definition notifier_turn : P unit :=
  let nfds := m_max_sockfd + 1 in
  lock g_mtx ;;;
  let! rfds := reads m_rfds in
  let! r := reads (select nfds rfds) in
  unlock g_mtx ;;;
  notify_loop (seqZ m_listenfd (m_max_sockfd + 1 - m_listenfd)) r.1 r.2.

(** The first [turns] turns of [while (1)]. *)
Fixpoint m_notifier (turns : nat) : P unit :=
  match turns with
  | O => Ret tt
  | S turns => notifier_turn ;;; m_notifier turns
  end.

(** ** Construction *)

(** [initializeSocket]: [socket_fd] is what [socket] returns and [bind] the outcome of
    binding it to an address and port. *)
Definition initializeSocket (bind_ok : bool) : P unit :=
  FD_SET m_listenfd ;;;
  (if m_listenfd <? 0 then Halt ExitFailure else Ret tt) ;;;
  (if bind_ok then Ret tt else Halt ExitFailure).

(** A dispatcher before its socket is set up: [FD_ZERO] and the backend it takes over. *)
Definition new_dispatcher (backend : B) (network : list arrival) (spurious : list bool) : State :=
  {| m_backend := backend; m_sockfd := 0; m_rfds := ∅; connections := ∅; arrivals := network;
     threads := []; woken := []; spurious := spurious |}.
End dispatcher.
