(* ===== verification/DispatcherSpec.v ===== *)
(** * What the dispatcher does

    A connection thread against a reference that reads the requests off a byte stream:
    however the network cuts the bytes into pieces and however the writes are split, the
    thread hands the same requests to the backend and sends the same responses.  Then the
    accept loop and the notifier. *)
From S2P Require Import Prelude Stdcxx Constants WireProtocol Messages Prog ReadWrite Posix Backend Dispatcher Threads.
From Stdlib Require Import ZArith Lia List Ascii String Bool.
From stdpp Require Import base gmap strings list fin_maps sorting relations.
#[local] Set Default Goal Selector "!".
Local Open Scope Z_scope.

(** The bytes that arrive before the connection falls silent for a timeout, breaks or is
    closed. *)
Fixpoint stream (l : list incoming) : bytes :=
  match l with
  | Chunk (c :: b) :: l => (c :: b) ++ stream l
  | _ => []
  end.

(** Writes that succeed, whole or in part. *)
Definition delivered (d : delivery) : Prop := match d with Sent _ => True | _ => False end.

Lemma next_bytes_spec n c :
  (0 < n)%nat → readable c = true →
  match next_bytes n (c_incoming c) with
  | (Some b, l) => stream (c_incoming c) = b ++ stream l ∧ (length b ≤ n)%nat ∧
                   (b = [] → stream (c_incoming c) = [])
  | (None, l) => stream (c_incoming c) = [] ∧ stream l = []
  end.
Proof.
  unfold readable. destruct (c_incoming c) as [|[[|x b]| |] l]; intros Hn Hr; [by simpl; auto with lia..| |done|by split].
  cbn [next_bytes stream]. split; [|split].
  - rewrite <- (take_drop n (x :: b)) at 1. rewrite <- app_assoc. f_equal. by destruct (drop n (x :: b)).
  - rewrite length_take. lia.
  - by destruct n; [lia|].
Qed.

(** ** The reference: a byte stream served request by request *)

Section reference.
Context {B : Type} `{BackendOps B} (tid : nat) (stack_bytes : Z).

(** The result of a call to the backend that returns and leaves no mutex taken. *)
Definition alone {A} (p : prog B A) (b : B) : option (A * B) :=
  match run tid p ∅ b with
  | Done a ls b => if decide (ls = ∅) then Some (a, b) else None
  | _ => None
  end.

(** One request off the front of the input: the state of the backend after it, with the
    response, whether the transaction goes on and the input left, or [None] when the input
    ends within the request. *)
Definition stream_turn (in_progress : bool) (b : B) (input : bytes)
    : option (B * option (bytes * bool * bytes)) :=
  let n := Z.to_nat backend_getRequestHeaderLength in
  if fits stack_bytes 0 backend_getRequestHeaderLength then
    if (length input <? n)%nat then Some (b, None)
    else
      '(cl, b) ← alone (backend_getContentLength (take n input) [] in_progress) b;
      if cl_result cl <? 0 then
        Some (b, Some (cl_server_response cl, cl_transaction_in_progress cl, drop n input))
      else if fits stack_bytes (backend_getRequestHeaderLength + 1) (cl_result cl) then
        let k := Z.to_nat (cl_result cl) in
        let rest := drop n input in
        if (length rest <? k)%nat then Some (b, None)
        else
          '(reply, b) ← alone (backend_processRequest (take n input) (take k rest)
                                 (cl_server_response cl) (cl_transaction_in_progress cl)) b;
          Some (b, Some (server_response reply, transaction_in_progress reply, drop k rest))
      else None
  else None.

(** All of them, until a response ends the transaction or the input runs out: the state of
    the backend and everything sent. *)
Fixpoint serve_stream (fuel : nat) (in_progress : bool) (b : B) (input : bytes) : option (B * bytes) :=
  match fuel with
  | O => None
  | S fuel =>
      '(b, r) ← stream_turn in_progress b input;
      match r with
      | None => Some (b, [])
      | Some (response, in_progress, rest) =>
          if nul_free response then
            if in_progress : bool then
              '(b, out) ← serve_stream fuel true b rest; Some (b, response ++ out)
            else Some (b, response)
          else None
      end
  end.
End reference.

(** ** One connection *)

Section connection.
Context {B : Type} `{BackendOps B}.
Context (tid : nat) (m_max_sockfd m_connection_timeout_seconds stack_bytes : Z).
Context (fd : Z) (s0 : ServerDispatcher B).
Context (fd_ok : 0 ≤ fd ≤ m_max_sockfd) (timeout_pos : 0 < m_connection_timeout_seconds).

(** The states the connection thread goes through: the backend and its own connection
    change, nothing else does. *)
Definition at_ (b : B) (c : Connection) : ServerDispatcher B := set_backend b (set_connection fd c s0).

Definition anywhere (s : ServerDispatcher B) : Prop := True.

Lemma at_connection b c : connections (at_ b c) !! fd = Some c.
Proof. apply lookup_insert_eq. Qed.

Lemma at_self c : connections s0 !! fd = Some c → at_ (m_backend s0) c = s0.
Proof.
  intros Hc. unfold at_, set_connection, set_connections, set_backend. destruct s0. simpl in *.
  by rewrite insert_id.
Qed.

Lemma at_set_connection b c c' : set_connection fd c' (at_ b c) = at_ b c'.
Proof.
  unfold at_, set_connection, set_backend, set_connections. simpl. f_equal. apply insert_insert_eq.
Qed.

Lemma at_set_backend b b' c : set_backend b' (at_ b c) = at_ b' c.
Proof. done. Qed.

Lemma wp_fd_index ls s (Q : unit → locks → ServerDispatcher B → Prop) :
  Q tt ls s → wp tid anywhere (fd_index m_max_sockfd fd) ls s Q.
Proof using fd_ok.
  intros HQ. unfold fd_index. rewrite (proj2 (Z.leb_le 0 fd)), (proj2 (Z.leb_le fd _)) by lia.
  by apply wp_ret.
Qed.

(** The reads of a connection whose stream was [source] when the transfer began. *)
Definition reading (b : B) (c : Connection) (k : nat) (s : ServerDispatcher B) : Prop :=
  ∃ l, s = at_ b (set_incoming l c) ∧ stream l = drop k (stream (c_incoming c)).

Definition ready_to_read (b : B) (c : Connection) (k : nat) (s : ServerDispatcher B) : Prop :=
  ∃ l, s = at_ b (set_incoming l c) ∧ stream l = drop k (stream (c_incoming c)) ∧
       readable (set_incoming l c) = true.

Lemma wait_ready_spec b c k s total :
  reading b c k s → (k < total)%nat →
  wp tid anywhere (wait_ready m_connection_timeout_seconds fd) ∅ s (λ r ls' s', ls' = ∅ ∧
    if r then ready_to_read b c k s'
    else reading b c k s' ∧ (length (stream (c_incoming c)) < total)%nat).
Proof using timeout_pos.
  intros (l & -> & Hl) Hk. unfold wait_ready, wait_for. rewrite (proj2 (Z.ltb_lt 0 _)) by done.
  wp_step. wp_step. wp_step. wp_step. apply wp_unlock; [done|by rewrite lookup_insert_eq|].
  wp_step. wp_step. rewrite at_connection. cbn [from_option]. rewrite delete_insert_id by done.
  wp_step. wp_step. wp_step. wp_step. apply wp_unlock; [done|by rewrite lookup_insert_eq|]. wp_step.
  rewrite delete_insert_id by done. split; [done|].
  destruct (readable (set_incoming l c)) eqn:Hr; [by exists l|]. split; [by exists l|].
  unfold readable in Hr. simpl in Hr. destruct l as [|[] l]; try done.
  change (stream (Silence :: l)) with (@nil ascii) in Hl. symmetry in Hl.
  apply drop_nil_inv in Hl. lia.
Qed.

Lemma sock_read_spec b c k n s total :
  c_open c = true → ready_to_read b c k s → (k + n = total)%nat → (0 < n)%nat →
  wp tid anywhere (sock_read fd k n) ∅ s (λ r ls' s', ls' = ∅ ∧
    match r with
    | Some chunk => reading b c (k + length chunk) s' ∧
        chunk `prefix_of` drop k (stream (c_incoming c)) ∧ (length chunk ≤ n)%nat ∧
        (chunk = [] → (length (stream (c_incoming c)) < total)%nat)
    | None => reading b c k s' ∧ (length (stream (c_incoming c)) < total)%nat
    end).
Proof.
  intros Hopen (l & -> & Hl & Hr) Htot Hn. unfold sock_read.
  apply wp_act; [done|done|]. rewrite at_connection. simpl. rewrite Hopen.
  pose proof (next_bytes_spec n (set_incoming l c) Hn Hr) as Hspec. simpl in Hspec.
  assert (Hend : stream l = [] → (length (stream (c_incoming c)) < total)%nat).
  { intros E. rewrite E in Hl. symmetry in Hl. apply drop_nil_inv in Hl. lia. }
  destruct (next_bytes n l) as [[chunk|] l'].
  - destruct Hspec as (Hst & Hlen & Hne). cbn [fst snd]. rewrite at_set_connection. split; [done|].
    split; [|split; [|split; [done|]]].
    + exists l'. split; [done|]. rewrite <- drop_drop, <- Hl, Hst. by rewrite drop_app_length.
    + rewrite <- Hl, Hst. by apply prefix_app_r.
    + intros E. apply Hend. by apply Hne.
  - destruct Hspec as [Hst Hst']. cbn [fst snd]. rewrite at_set_connection. split; [done|].
    split; [|by apply Hend]. exists l'. split; [done|]. by rewrite Hst', <- Hst.
Qed.

(** Filling a buffer: exactly the next bytes of the stream, when there are enough. *)
Lemma readSocket_spec b c n :
  c_open c = true →
  wp tid anywhere (readSocket m_max_sockfd m_connection_timeout_seconds fd n) ∅ (at_ b c)
    (λ r ls' s', ls' = ∅ ∧ ∃ l, s' = at_ b (set_incoming l c) ∧
      match r with
      | None => (length (stream (c_incoming c)) < Z.to_nat n)%nat
      | Some out => out = take (Z.to_nat n) (stream (c_incoming c)) ∧
          (Z.to_nat n ≤ length (stream (c_incoming c)))%nat ∧
          stream l = drop (Z.to_nat n) (stream (c_incoming c))
      end).
Proof.
  intros Hopen. unfold readSocket. wp_step. apply wp_fd_index. wp_step.
  eapply wp_mono; [eapply (readFileDescriptor_spec _ _ tid ∅ anywhere (reading b c) (ready_to_read b c)
    (stream (c_incoming c)) (Z.to_nat n) (length (stream (c_incoming c)) < Z.to_nat n)%nat)|done|].
  - done.
  - intros off m s Hs Hoff Hm. by apply sock_read_spec.
  - intros k s Hs Hk. by apply wait_ready_spec.
  - exists (c_incoming c). split; [by destruct c|done].
  - intros [ret out] ls' s' _ (-> & (l & -> & Hl) & [rest Hp] & Hret & Hend). simpl in *.
    wp_step. split; [done|]. exists l. split; [done|]. destruct Hret as [[-> E]|[-> E]].
    + rewrite (proj2 (Z.ltb_ge _ 0)) by lia. rewrite <- E, Hl, Hp.
      rewrite take_app_length. split; [done|]. rewrite length_app. split; [lia|done].
    + by apply Hend.
Qed.

(** Sending a response: whatever the sizes of the single writes. *)
Definition sending (b : B) (c : Connection) (buf : bytes) (k : nat) (s : ServerDispatcher B) : Prop :=
  ∃ l, s = at_ b (deliver (take k buf) l c) ∧ Forall delivered l.

Lemma sock_write_spec b c buf k s :
  c_open c = true → sending b c buf k s → (k < length buf)%nat →
  wp tid anywhere (sock_write fd (drop k buf)) ∅ s (λ r ls' s', ls' = ∅ ∧
    match r with
    | Some n => (1 ≤ n)%nat ∧ (n ≤ length buf - k)%nat ∧ sending b c buf (k + n) s'
    | None => sending b c buf k s' ∧ False
    end).
Proof.
  intros Hopen (l & -> & Hl) Hk. unfold sock_write. wp_step. apply wp_act; [done|done|].
  rewrite at_connection. cbn [c_open deliver c_deliveries]. rewrite Hopen.
  assert (Hd : ∀ n l', deliver (take n (drop k buf)) l' (deliver (take k buf) l c) =
                    deliver (take (k + n) buf) l' c).
  { intros n l'. unfold deliver. simpl. by rewrite <- app_assoc, take_take_drop. }
  destruct l as [|[n| |] l]; cbn [fst snd]; rewrite ?at_set_connection.
  - apply wp_ret; [done|]. split; [done|]. pose proof (Hd (length (drop k buf)) []) as E.
    rewrite firstn_all in E. rewrite E, length_drop. split; [lia|]. split; [lia|]. by exists [].
  - apply wp_ret; [done|]. split; [done|]. unfold sent. rewrite length_take, length_drop.
    split; [lia|]. split; [lia|]. apply Forall_cons in Hl as [_ Hl]. exists l. split; [|done]. f_equal.
    rewrite Hd. unfold deliver. f_equal. f_equal.
    destruct (decide (Nat.max 1 n ≤ length buf - k)%nat); [by rewrite Nat.min_l|].
    rewrite Nat.min_r by lia. rewrite !firstn_all2 by lia. done.
  - by apply Forall_cons in Hl as [? _].
  - by apply Forall_cons in Hl as [? _].
Qed.

Lemma writeSocket_spec b c response :
  c_open c = true → nul_free response = true → Forall delivered (c_deliveries c) →
  wp tid anywhere (writeSocket fd response) ∅ (at_ b c) (λ _ ls' s', ls' = ∅ ∧
    ∃ l, s' = at_ b (deliver response l c) ∧ Forall delivered l).
Proof.
  intros Hopen Hn Hd. unfold writeSocket. destruct (Z.ltb_spec 0 (len response)) as [Hl|Hl].
  - wp_step. eapply wp_mono; [eapply (writeFileDescriptor_spec _ tid ∅ anywhere response (sending b c response) False)|done|].
    + done.
    + intros k s Hs Hk. by apply sock_write_spec.
    + done.
    + exists (c_deliveries c). split; [|done]. f_equal. destruct c. unfold deliver. simpl. by rewrite app_nil_r.
    + intros ret ls' s' _ (-> & k & (l & -> & Hl') & Hret & HF). wp_step. split; [done|].
      exists l. split; [|done]. do 2 f_equal. destruct Hret as [[_ ->]|[_ Hk]]; [apply firstn_all|].
      by destruct (HF Hk).
  - wp_step. split; [done|]. exists (c_deliveries c). split; [|done]. f_equal.
    destruct response; [|simpl in Hl; lia]. destruct c. unfold deliver. simpl. by rewrite app_nil_r.
Qed.

Lemma the_backend_spec {A} (p : prog B A) b c a b' :
  alone tid p b = Some (a, b') →
  wp tid anywhere (the_backend p) ∅ (at_ b c) (λ r ls' s', r = a ∧ ls' = ∅ ∧ s' = at_ b' c).
Proof.
  unfold alone. intros Ha. apply wp_of_run. unfold the_backend.
  rewrite run_zoom by (done || by intros []).
  change (m_backend (at_ b c)) with b. destruct (run tid p ∅ b) as [a1 ls1 b1| |]; [|done..].
  case_decide as E; [|done]. simplify_eq. done.
Qed.

Lemma wp_char_array used n s (Q : unit → locks → ServerDispatcher B → Prop) :
  fits stack_bytes used n = true → Q tt ∅ s → wp tid anywhere (char_array stack_bytes used n) ∅ s Q.
Proof. unfold char_array. intros -> HQ. by apply wp_ret. Qed.

(** One turn of the loop, as the reference has it. *)
Lemma serve_request_spec b c in_progress b' r :
  c_open c = true → Forall delivered (c_deliveries c) →
  stream_turn tid stack_bytes in_progress b (stream (c_incoming c)) = Some (b', r) →
  (∀ response ip rest, r = Some (response, ip, rest) → nul_free response = true) →
  wp tid anywhere (serve_request m_max_sockfd m_connection_timeout_seconds stack_bytes fd in_progress) ∅ (at_ b c)
    (λ o ls' s', ls' = ∅ ∧ ∃ l d,
      match r with
      | None => o = None ∧ s' = at_ b' (deliver [] d (set_incoming l c))
      | Some (response, ip, rest) => o = Some ip ∧ s' = at_ b' (deliver response d (set_incoming l c)) ∧
          stream l = rest ∧ Forall delivered d
      end).
Proof.
  intros Hopen Hd Hturn Hnul. unfold stream_turn in Hturn. unfold serve_request.
  destruct (fits stack_bytes 0 backend_getRequestHeaderLength) eqn:Hfit; [|done].
  wp_step. apply wp_char_array; [done|]. cbv beta.
  eapply wp_seq; [by apply readSocket_spec|]. intros header ls1 s1 _ (-> & l & -> & Hh).
  assert (Hend : ∀ b l, at_ b (set_incoming l c) = at_ b (deliver [] (c_deliveries c) (set_incoming l c))).
  { intros b1 l'. unfold deliver, set_incoming. simpl. by rewrite app_nil_r. }
  destruct header as [header|].
  2: { rewrite (proj2 (Nat.ltb_lt _ _)) in Hturn by done. simplify_eq. apply wp_ret; [done|].
       split; [done|]. exists l, (c_deliveries c). by rewrite <- Hend. }
  destruct Hh as (-> & Hlen & Hl). rewrite (proj2 (Nat.ltb_ge _ _)) in Hturn by done.
  set (header := take _ (stream (c_incoming c))) in *.
  destruct (alone tid (backend_getContentLength header [] in_progress) b) as [[cl b1]|] eqn:Ecl; [|done].
  cbn [mbind option_bind] in Hturn.
  wp_step. eapply wp_mono; [by apply the_backend_spec|done|]. intros cl' ls1 s1 _ (-> & -> & ->). cbv beta.
  destruct (Z.ltb_spec (cl_result cl) 0) as [Hneg|Hpos].
  { simplify_eq. wp_step. eapply wp_mono; [apply writeSocket_spec; [done|by eapply Hnul|done]|done|].
    intros [] ls1 s1 _ (-> & d & -> & Hd'). wp_step. split; [done|]. exists l, d. by rewrite Hl. }
  destruct (fits stack_bytes (backend_getRequestHeaderLength + 1) (cl_result cl)) eqn:Hfit'; [|done].
  wp_step. apply wp_char_array; [done|]. cbv beta.
  eapply wp_seq; [by apply readSocket_spec|]. intros payload ls1 s1 _ (-> & l2 & -> & Hp).
  change (stream (c_incoming (set_incoming l c))) with (stream l) in Hp. rewrite Hl in Hp.
  change (set_incoming l2 (set_incoming l c)) with (set_incoming l2 c).
  destruct payload as [payload|].
  2: { rewrite (proj2 (Nat.ltb_lt _ _)) in Hturn by done. simplify_eq. apply wp_ret; [done|].
       split; [done|]. exists l2, (c_deliveries c). by rewrite <- Hend. }
  destruct Hp as (-> & Hlen2 & Hl2). rewrite (proj2 (Nat.ltb_ge _ _)) in Hturn by done.
  match type of Hturn with context [alone _ ?p b1] =>
    destruct (alone tid p b1) as [[reply b2]|] eqn:Erep; [|done] end.
  cbn [mbind option_bind] in Hturn. simplify_eq.
  wp_step. eapply wp_mono; [by apply the_backend_spec|done|]. intros reply' ls1 s1 _ (-> & -> & ->). cbv beta.
  wp_step. eapply wp_mono; [apply writeSocket_spec; [done|by eapply Hnul|done]|done|].
  intros [] ls1 s1 _ (-> & d & -> & Hd'). wp_step. split; [done|]. by exists l2, d.
Qed.

Lemma connection_loop_spec fuel b c in_progress b' out :
  c_open c = true → Forall delivered (c_deliveries c) →
  serve_stream tid stack_bytes fuel in_progress b (stream (c_incoming c)) = Some (b', out) →
  wp tid anywhere (connection_loop m_max_sockfd m_connection_timeout_seconds stack_bytes fuel fd in_progress) ∅ (at_ b c)
    (λ _ ls' s', ls' = ∅ ∧ ∃ l d, s' = at_ b' (deliver out d (set_incoming l c))).
Proof.
  intros Hopen. revert b c in_progress out Hopen. induction fuel as [|fuel IH]; intros b c ip out Hopen Hd Hs; [done|].
  cbn [serve_stream] in Hs.
  destruct (stream_turn tid stack_bytes ip b (stream (c_incoming c))) as [[b1 r]|] eqn:Hturn; [|done].
  cbn [mbind option_bind] in Hs. cbn [connection_loop]. wp_step.
  eapply wp_mono; [eapply serve_request_spec; [done|done|exact Hturn|]|done|].
  { intros response ip' rest ->. by destruct (nul_free response). }
  intros o ls1 s1 _ (-> & l & d & Hr). destruct r as [[[response ip'] rest]|].
  - destruct Hr as (-> & -> & Hl & Hd'). destruct (nul_free response); [|done]. destruct ip'.
    + destruct (serve_stream tid stack_bytes fuel true b1 rest) as [[b2 out2]|] eqn:E2; [|done].
      simplify_eq/=. eapply wp_mono; [eapply IH; [done|exact Hd'|exact E2]|done|].
      intros [] ls2 s2 _ (-> & l2 & d2 & ->). split; [done|]. exists l2, d2.
      unfold deliver, set_incoming. simpl. by rewrite app_assoc.
    + simplify_eq. wp_step. split; [done|]. by exists l, d.
  - destruct Hr as [-> ->]. simplify_eq. wp_step. split; [done|]. by exists l, d.
Qed.
End connection.

(** ** The reference needs no more turns than there are bytes *)

Section enough_fuel.
Context {B : Type} `{BackendOps B} (tid : nat) (stack_bytes : Z).
Context (header_pos : 0 < backend_getRequestHeaderLength).

Lemma stream_turn_shorter ip b input b' response ip' rest :
  stream_turn tid stack_bytes ip b input = Some (b', Some (response, ip', rest)) →
  (length rest < length input)%nat.
Proof using header_pos.
  unfold stream_turn. case_match; [|done]. destruct (Nat.ltb_spec (length input) (Z.to_nat backend_getRequestHeaderLength)) as [|Hl]; [done|].
  destruct (alone tid _ b) as [[cl b1]|]; [|done]. cbn [mbind option_bind].
  destruct (cl_result cl <? 0).
  { intros [= <- <- <- <-]. rewrite length_drop. lia. }
  case_match; [|done]. destruct (Nat.ltb _ _); [done|].
  destruct (alone tid _ b1) as [[reply b2]|]; [|done]. cbn [mbind option_bind].
  intros [= <- <- <- <-]. rewrite !length_drop. lia.
Qed.

Lemma serve_stream_fuel f1 f2 ip b input :
  (length input < f1)%nat → (length input < f2)%nat →
  serve_stream tid stack_bytes f1 ip b input = serve_stream tid stack_bytes f2 ip b input.
Proof using header_pos.
  revert f2 ip b input; induction f1 as [|f1 IH]; intros f2 ip b input H1 H2; [lia|].
  destruct f2 as [|f2]; [lia|]. cbn [serve_stream].
  destruct (stream_turn tid stack_bytes ip b input) as [[b1 [[[response ip'] rest]|]]|] eqn:Et; [|done..].
  apply stream_turn_shorter in Et. cbn [mbind option_bind].
  destruct (nul_free response), ip'; try done. by rewrite (IH f2) by lia.
Qed.
End enough_fuel.

(** ** The thread of a connection, to its end *)

Section thread.
Context {B : Type} `{BackendOps B}.
Context (tid : nat) (m_max_sockfd m_connection_timeout_seconds stack_bytes : Z).

(** The state after the thread of a connection: the backend [b], everything in [out] sent,
    the descriptor closed and no longer watched. *)
Definition connection_done (fd : Z) (b : B) (c : Connection) (s : ServerDispatcher B) : ServerDispatcher B :=
  set_rfds (m_rfds s ∖ {[fd]}) (set_backend b (set_connection fd (closed c) s)).

Lemma processRequest_spec fd fuel s c b out :
  0 ≤ fd ≤ m_max_sockfd → 0 < m_connection_timeout_seconds → 0 < backend_getRequestHeaderLength →
  connections s !! fd = Some c → c_open c = true → Forall delivered (c_deliveries c) →
  (length (stream (c_incoming c)) < fuel)%nat →
  serve_stream tid stack_bytes (S (length (stream (c_incoming c)))) true (m_backend s)
    (stream (c_incoming c)) = Some (b, out) →
  ∃ l d, run tid (m_processRequest m_max_sockfd m_connection_timeout_seconds stack_bytes fuel fd) ∅ s =
    Done tt ∅ (connection_done fd b (deliver out d (set_incoming l c)) s).
Proof.
  intros Hfd Ht Hhead Hc Hopen Hd Hfuel Hs.
  rewrite (serve_stream_fuel tid stack_bytes Hhead _ fuel) in Hs by lia.
  assert (Es : at_ fd s (m_backend s) c = s) by by apply at_self.
  destruct (wp_run _ _ _ _ _ _ (connection_loop_spec tid m_max_sockfd _ stack_bytes fd s Hfd Ht fuel _ c true b out Hopen Hd Hs))
    as ([] & ls & s' & Hrun & -> & l & d & ->).
  rewrite Es in Hrun. exists l, d. unfold m_processRequest. rewrite run_bind, Hrun. cbn [andthen].
  unfold close_connection, close_socket, FD_CLR. unfold run. simpl.
  rewrite lookup_insert_eq, decide_True by done. rewrite delete_insert_id by done. f_equal.
  unfold connection_done, at_, set_connection, set_connections, set_rfds, set_backend. simpl. f_equal.
  by rewrite alter_insert_eq.
Qed.
End thread.

(** ** Accepting and watching *)

Section accepting.
Context {B : Type}.
Context (tid : nat) (m_max_sockfd m_listenfd : Z).
Context (listen_ok : 0 ≤ m_listenfd ≤ m_max_sockfd).
Implicit Types (s : ServerDispatcher B) (l : list arrival).

(** The descriptors the server has open: the listening socket and the open connections. *)
Definition in_use s (fd : Z) : Prop :=
  fd = m_listenfd ∨ ∃ c, connections s !! fd = Some c ∧ c_open c = true.

(** The set given to [select] holds exactly them. *)
Definition watch_ok s : Prop := ∀ fd, fd ∈ m_rfds s ↔ in_use s fd.

(** Connections to come get descriptors that are not in use, and distinct ones. *)
Definition arrival_fds l : list Z := omap (fmap fst) l.

Definition arrivals_ok s : Prop :=
  NoDup (arrival_fds (arrivals s)) ∧
  Forall (λ a, match a with Some (fd, c) => 0 ≤ fd ∧ ¬ in_use s fd ∧ c_open c = true | None => False end) (arrivals s).

(** The state after accepting one. *)
Definition accepted (fd : Z) (c : Connection) (l : list arrival) s : ServerDispatcher B :=
  if m_max_sockfd <? fd then
    set_sockfd fd (set_connection fd (closed c) (set_arrivals l s))
  else
    set_threads (threads s ++ [fd])
      (set_rfds ({[fd]} ∪ m_rfds s) (set_sockfd fd (set_connection fd c (set_arrivals l s)))).

Lemma wp_fd_index_listen ls s (Q : unit → locks → ServerDispatcher B → Prop) :
  Q tt ls s → wp tid anywhere (fd_index m_max_sockfd m_listenfd) ls s Q.
Proof using listen_ok. by apply wp_fd_index. Qed.

(** Up to the wait for a notification, and on from it. *)
Definition start_begins : prog (ServerDispatcher B) (nat * bool) :=
  fd_index m_max_sockfd m_listenfd ;;; lock (m_fd_mtx m_listenfd) ;;; begin_wait m_listenfd.

Definition start_goes_on (w : nat * bool) : prog (ServerDispatcher B) unit :=
  wait_until (wait_over m_listenfd w) ;;;
  lock (m_fd_mtx m_listenfd) ;;;
  lock g_mtx ;;;
  let! fd := accept in
  modify (set_sockfd (default (-1) fd)) ;;;
  match fd with
  | None => Halt ExitFailure
  | Some fd =>
      if m_max_sockfd <? fd then
        close_socket fd ;;;
        unlock g_mtx ;;;
        unlock (m_fd_mtx m_listenfd)
      else
        FD_SET fd ;;;
        unlock g_mtx ;;;
        modify (λ s, set_threads (threads s ++ [fd]) s) ;;;
        unlock (m_fd_mtx m_listenfd)
  end.

Lemma start_turn_parts {A} (q : prog (ServerDispatcher B) A) :
  (start_turn m_max_sockfd m_listenfd ;;; q) = let! w := start_begins in (start_goes_on w ;;; q).
Proof using listen_ok.
  unfold start_turn, start_begins, fd_index.
  rewrite (proj2 (Z.leb_le 0 m_listenfd)), (proj2 (Z.leb_le m_listenfd m_max_sockfd)) by lia. done.
Qed.

Definition wait_begun s : ServerDispatcher B := set_spurious (tl (spurious s)) s.

Lemma start_begins_spec s :
  wp tid anywhere start_begins ∅ s (λ w ls' s', w = (notified m_listenfd s, hd false (spurious s)) ∧ ls' = ∅ ∧ s' = wait_begun s).
Proof using listen_ok.
  unfold start_begins, begin_wait. wp_step. apply wp_fd_index_listen. wp_step. wp_step. wp_step.
  apply wp_act; [done|done|]. cbn [fst snd].
  wp_step. apply wp_unlock; [done|by rewrite lookup_insert_eq|]. rewrite delete_insert_id by done. by apply wp_ret.
Qed.

Lemma start_goes_on_spec s w fd c l :
  arrivals s = Some (fd, c) :: l → wait_over m_listenfd w s = true → 0 ≤ fd → m_max_sockfd < FD_SETSIZE →
  wp tid anywhere (start_goes_on w) ∅ s (λ _ ls' s', ls' = ∅ ∧ s' = accepted fd c l s).
Proof.
  intros Hl Hw Hfd Hmax. unfold start_goes_on.
  wp_step. apply wp_wait; [done|done|]. wp_step. wp_step.
  wp_step. wp_step. wp_step. unfold accept. wp_step. apply wp_wait; [done|by unfold connection_pending; rewrite Hl|].
  eapply wp_act_partial; [by rewrite Hl|done|done|]. cbv beta iota. wp_step. wp_step. unfold accepted.
  destruct (Z.ltb_spec m_max_sockfd fd) as [Hgt|Hle].
  - wp_step. unfold close_socket. wp_step. wp_step. apply wp_unlock; [done|by rewrite lookup_insert_eq|].
    rewrite delete_insert_id by (by rewrite lookup_insert_ne).
    apply wp_unlock; [done|by rewrite lookup_insert_eq|]. rewrite delete_insert_id by done. split; [done|].
    unfold set_sockfd, set_connection, set_connections, set_arrivals. simpl. f_equal. by rewrite alter_insert_eq.
  - wp_step. unfold FD_SET. rewrite (proj2 (Z.leb_le 0 fd)), (proj2 (Z.ltb_lt fd _)) by lia. cbn [andb].
    wp_step. wp_step. apply wp_unlock; [done|by rewrite lookup_insert_eq|].
    rewrite delete_insert_id by (by rewrite lookup_insert_ne). wp_step. wp_step.
    apply wp_unlock; [done|by rewrite lookup_insert_eq|]. by rewrite delete_insert_id.
Qed.

Lemma accepted_arrivals fd c l s : arrivals (accepted fd c l s) = l.
Proof. unfold accepted. by case_match. Qed.

Lemma accepted_threads fd c l s :
  threads (accepted fd c l s) = threads s ++ filter (λ fd, fd ≤ m_max_sockfd) [fd].
Proof.
  unfold accepted. destruct (Z.ltb_spec m_max_sockfd fd).
  - rewrite filter_cons_False by lia. by rewrite app_nil_r.
  - by rewrite filter_cons_True by lia.
Qed.

Lemma accepted_connections fd c l s :
  connections (accepted fd c l s) =
    <[fd := if m_max_sockfd <? fd then closed c else c]> (connections s).
Proof. unfold accepted. by case_match. Qed.

(** A descriptor is in use afterwards if it was or is the new, small enough, one. *)
Lemma accepted_in_use fd c l s fd' :
  c_open c = true → ¬ in_use s fd →
  in_use (accepted fd c l s) fd' ↔ in_use s fd' ∨ (fd' = fd ∧ fd ≤ m_max_sockfd).
Proof.
  intros Hopen Hfree. unfold in_use. rewrite accepted_connections. split.
  - intros [->|(c' & Hc & Ho)]; [by left; left|].
    destruct (decide (fd' = fd)) as [->|Hne].
    + rewrite lookup_insert_eq in Hc. simplify_eq. destruct (Z.ltb_spec m_max_sockfd fd); [done|by right].
    + rewrite lookup_insert_ne in Hc by done. left. right. eauto.
  - intros [[->|(c' & Hc & Ho)]|[-> Hle]]; [by left|right..].
    + exists c'. split; [|done]. rewrite lookup_insert_ne; [done|]. intros ->. apply Hfree. right. eauto.
    + exists c. rewrite lookup_insert_eq. by rewrite (proj2 (Z.ltb_ge m_max_sockfd fd)).
Qed.

Lemma accepted_watch_ok fd c l s :
  c_open c = true → ¬ in_use s fd → watch_ok s → watch_ok (accepted fd c l s).
Proof.
  intros Hopen Hfree Hw fd'. rewrite accepted_in_use by done. unfold accepted.
  destruct (Z.ltb_spec m_max_sockfd fd); simpl.
  - rewrite (Hw fd'). split; [tauto|]. intros [?|[_ ?]]; [done|lia].
  - rewrite elem_of_union, elem_of_singleton, (Hw fd'). split; [|tauto]. intros [->|?]; [by right|by left].
Qed.

(** The rest of the arrivals still gets unused descriptors. *)
Lemma accepted_arrivals_ok fd c l s :
  arrivals s = Some (fd, c) :: l → arrivals_ok s → arrivals_ok (accepted fd c l s).
Proof.
  intros Hl [Hd Hall]. rewrite Hl in Hd, Hall. apply NoDup_cons in Hd as [Hnew Hd].
  apply Forall_cons in Hall as [(Hpos & Hfree & Hopen) Hall].
  split; rewrite accepted_arrivals; [done|]. apply Forall_forall. intros [[fd' c']|] Hin.
  - apply (proj1 (Forall_forall _ _) Hall) in Hin as Hgood. destruct Hgood as (Hpos' & Hfree' & Hopen').
    split; [done|]. split; [|done]. rewrite accepted_in_use by done. intros [?|[-> _]]; [done|].
    apply Hnew. apply list_elem_of_omap. by exists (Some (fd, c')).
  - by apply (proj1 (Forall_forall _ _) Hall) in Hin.
Qed.

(** ** As many turns as there are arrivals *)

(** What is left when all of them are accepted. *)
Definition all_accepted s s' : Prop :=
  watch_ok s' ∧ arrivals s' = [] ∧ m_backend s' = m_backend s ∧
  threads s' = threads s ++ filter (λ fd, fd ≤ m_max_sockfd) (arrival_fds (arrivals s)) ∧
  ∀ fd, in_use s' fd ↔ in_use s fd ∨ (fd ∈ arrival_fds (arrivals s) ∧ fd ≤ m_max_sockfd).

(** Waits and notifications change neither sockets nor threads. *)
Definition same_sockets s s' : Prop :=
  m_backend s' = m_backend s ∧ m_rfds s' = m_rfds s ∧ connections s' = connections s ∧ arrivals s' = arrivals s ∧ threads s' = threads s.

Lemma same_in_use s s' fd : same_sockets s s' → in_use s' fd ↔ in_use s fd.
Proof. intros (_ & _ & E & _). unfold in_use. by rewrite E. Qed.

Lemma same_watch_ok s s' : same_sockets s s' → watch_ok s → watch_ok s'.
Proof. intros Hs Hw fd. rewrite (same_in_use s s' fd Hs). destruct Hs as (_ & -> & _). apply Hw. Qed.

Lemma same_arrivals_ok s s' : same_sockets s s' → arrivals_ok s → arrivals_ok s'.
Proof.
  intros Hs [Hd Hall]. pose proof Hs as (_ & _ & _ & E & _). split; rewrite E; [done|].
  eapply Forall_impl; [exact Hall|]. intros [[fd c]|]; [|done]. by rewrite (same_in_use s s' fd Hs).
Qed.

Lemma all_accepted_none s s' : watch_ok s → arrivals s = [] → same_sockets s s' → all_accepted s s'.
Proof.
  intros Hw Hl Hs. pose proof Hs as (Eb & _ & _ & Ea & Et). split; [by eapply same_watch_ok|]. rewrite Ea, Hl.
  split; [done|]. split; [done|]. split; [by rewrite app_nil_r|]. intros fd. rewrite (same_in_use s s' fd Hs).
  split; [by left|]. intros [?|[?%elem_of_nil _]]; done.
Qed.

(** One after the other. *)
Lemma all_accepted_next s s1 s' fd c l :
  arrivals s = Some (fd, c) :: l → arrivals_ok s → same_sockets s s1 →
  all_accepted (accepted fd c l s1) s' → all_accepted s s'.
Proof.
  intros Hl [_ Hall] Hs (Hw & Ha & Hb & Ht & Hu). rewrite Hl in Hall. apply Forall_cons in Hall as [(Hpos & Hfree & Hopen) _].
  pose proof Hs as (Eb & _ & _ & _ & Et). rewrite accepted_arrivals in Ht, Hu. do 2 (split; [done|]).
  split; [rewrite Hb, <- Eb; unfold accepted; by case_match|]. rewrite Hl. split.
  - rewrite Ht, accepted_threads, Et, <- app_assoc. f_equal. by rewrite <- filter_app.
  - intros fd'. rewrite Hu, accepted_in_use by (done || by rewrite (same_in_use s s1)). rewrite (same_in_use s s1 fd' Hs).
    cbn [arrival_fds omap list_omap fmap option_fmap option_map fst]. rewrite elem_of_cons. split.
    + intros [[Hi|[-> Hle]]|[Hi Hle]]; [by left|right; split; [by left|done]|right; split; [by right|done]].
    + intros [Hi|[[->|Hi] Hle]]; [by left; left|by left; right|by right].
Qed.

(** The state in which the next is accepted. *)
Lemma next_arrival s s1 fd c l :
  arrivals s = Some (fd, c) :: l → arrivals_ok s → watch_ok s → same_sockets s s1 →
  0 ≤ fd ∧ arrivals s1 = Some (fd, c) :: l ∧ arrivals_ok (accepted fd c l s1) ∧ watch_ok (accepted fd c l s1).
Proof.
  intros Hl Hok Hw Hs. pose proof Hs as (_ & _ & _ & E & _). rewrite Hl in E.
  pose proof (same_arrivals_ok _ _ Hs Hok) as Hok1. pose proof Hok1 as [_ Hall]. rewrite E in Hall.
  apply Forall_cons in Hall as [(Hpos & Hfree & Hopen) _]. split; [done|]. split; [done|].
  split; [by apply accepted_arrivals_ok|]. apply accepted_watch_ok; [done|done|by eapply same_watch_ok].
Qed.

Lemma first_arrival s a l : arrivals s = a :: l → arrivals_ok s → ∃ fd c, a = Some (fd, c).
Proof. intros Hl [_ Hall]. rewrite Hl in Hall. apply Forall_cons in Hall as [Ha _]. destruct a as [[fd c]|]; [by exists fd, c|done]. Qed.

Lemma start_spec s rest :
  arrivals_ok s → watch_ok s → m_max_sockfd < FD_SETSIZE → spurious s = replicate (length (arrivals s)) true ++ rest →
  wp tid anywhere (start m_max_sockfd m_listenfd (length (arrivals s))) ∅ s (λ _ ls' s', ls' = ∅ ∧ all_accepted s s').
Proof using listen_ok.
  intros Hok Hw Hmax Hsp. remember (arrivals s) as l eqn:Hl. symmetry in Hl.
  revert s Hl Hok Hw Hsp. induction l as [|a l IH]; intros s Hl Hok Hw Hsp; cbn [length start].
  - apply wp_ret; [done|]. split; [done|]. by apply all_accepted_none.
  - destruct (first_arrival s a l Hl Hok) as (fd & c & ->). rewrite start_turn_parts.
    eapply wp_seq; [apply start_begins_spec|]. intros w ls' s1 _ (-> & -> & ->).
    destruct (next_arrival s (wait_begun s) fd c l) as (Hpos & Hl1 & Hok1 & Hw1); [done..|].
    eapply wp_seq; [apply start_goes_on_spec; [exact Hl1| |done|done]|].
    { unfold wait_over. simpl. by rewrite Hsp. }
    intros [] ls' s' _ [-> ->].
    eapply wp_mono; [apply IH; [apply accepted_arrivals|done|done|]|done|].
    { assert (E : spurious (accepted fd c l (wait_begun s)) = tl (spurious s)) by (unfold accepted; by case_match).
      by rewrite E, Hsp. }
    intros [] ls' s' _ [-> Hs']. split; [done|]. by apply (all_accepted_next s (wait_begun s) s' fd c l).
Qed.
End accepting.

(** ** The notifier *)

Section notifying.
Context {B : Type}.
Context (tid : nat) (m_max_sockfd m_listenfd : Z).
Implicit Types (s : ServerDispatcher B) (rfds : gset Z).

Lemma set_woken_nil s : set_woken (woken s ++ []) s = s.
Proof. rewrite app_nil_r. by destruct s. Qed.

(** The loop wakes the first [n] descriptors of the set. *)
Lemma notify_loop_spec fds n rfds s ls :
  Forall (λ fd, 0 ≤ fd ≤ m_max_sockfd) fds →
  wp tid anywhere (notify_loop m_max_sockfd fds n rfds) ls s (λ _ ls' s', ls' = ls ∧
    s' = set_woken (woken s ++ take (Z.to_nat n) (filter (λ fd, fd ∈ rfds) fds)) s).
Proof.
  revert n s. induction fds as [|fd fds IH]; intros n s Hall; cbn [notify_loop].
  - apply wp_ret; [done|]. rewrite filter_nil, take_nil. by rewrite set_woken_nil.
  - apply Forall_cons in Hall as [Hfd Hall]. destruct (Z.ltb_spec 0 n) as [Hn|Hn].
    + destruct (decide (fd ∈ rfds)) as [Hin|Hin].
      * wp_step. apply wp_fd_index; [done|]. wp_step. wp_step.
        eapply wp_mono; [by apply IH|done|]. intros [] ls' s' _ [-> ->]. split; [done|].
        rewrite filter_cons_True by done. replace (Z.to_nat n) with (S (Z.to_nat (n - 1))) by lia.
        simpl. unfold set_woken. simpl. by rewrite <- app_assoc.
      * rewrite filter_cons_False by done. by apply IH.
    + apply wp_ret; [done|]. replace (Z.to_nat n) with 0%nat by lia. simpl. by rewrite set_woken_nil.
Qed.

(** The descriptors [select] reports. *)
Definition ready_fds s : gset Z := filter (λ fd, fd_readable m_listenfd s fd = true) (m_rfds s).

Definition watched_range : list Z := seqZ m_listenfd (m_max_sockfd + 1 - m_listenfd).

Lemma watched_range_spec fd : fd ∈ watched_range ↔ m_listenfd ≤ fd ≤ m_max_sockfd.
Proof. unfold watched_range. rewrite elem_of_seqZ. lia. Qed.

Lemma watched_open s fd : watch_ok m_listenfd s → fd ∈ m_rfds s → fd_open m_listenfd s fd = true.
Proof.
  intros Hw Hin. apply Hw in Hin. unfold fd_open.
  destruct Hin as [->|(c & -> & Ho)]; [by rewrite decide_True|]. by case_decide.
Qed.

Lemma select_spec s :
  watch_ok m_listenfd s → (∀ fd, fd ∈ m_rfds s → fd ≤ m_max_sockfd) →
  select m_listenfd (m_max_sockfd + 1) (m_rfds s) s = (Z.of_nat (size (ready_fds s)), ready_fds s).
Proof.
  intros Hw Hmax. unfold select.
  assert (Hall : filter (λ fd, fd < m_max_sockfd + 1) (m_rfds s) = m_rfds s).
  { apply set_eq. intros fd. rewrite elem_of_filter. split; [by intros []|].
    intros Hin. split; [|done]. specialize (Hmax fd Hin). lia. }
  rewrite Hall, (proj2 (forallb_forall _ _)); [done|].
  intros fd Hin. apply list_elem_of_In, elem_of_elements in Hin. by apply watched_open.
Qed.

(** Every reported descriptor is in the range the loop runs over, so the count covers
    them all. *)
Lemma ready_in_range s :
  (∀ fd, fd ∈ m_rfds s → m_listenfd ≤ fd ≤ m_max_sockfd) →
  length (filter (λ fd, fd ∈ ready_fds s) watched_range) = size (ready_fds s).
Proof.
  intros Hr. unfold size, set_size. simpl. apply Permutation_length, NoDup_Permutation.
  - apply NoDup_filter. apply NoDup_seqZ.
  - apply NoDup_elements.
  - intros fd. rewrite list_elem_of_filter, elem_of_elements, watched_range_spec. split; [by intros []|].
    intros Hin. split; [done|]. apply Hr. by apply elem_of_filter in Hin as [_ ?].
Qed.

Lemma notifier_turn_spec s :
  0 ≤ m_listenfd → watch_ok m_listenfd s →
  (∀ fd, fd ∈ m_rfds s → m_listenfd ≤ fd ≤ m_max_sockfd) →
  wp tid anywhere (notifier_turn m_max_sockfd m_listenfd) ∅ s (λ _ ls' s', ls' = ∅ ∧
    s' = set_woken (woken s ++ filter (λ fd, fd ∈ ready_fds s) watched_range) s).
Proof.
  intros Hpos Hw Hr. unfold notifier_turn. wp_step. wp_step. wp_step. wp_step. wp_step. wp_step.
  rewrite select_spec; [|done|by intros fd Hin; destruct (Hr fd Hin)]. wp_step.
  apply wp_unlock; [done|by rewrite lookup_insert_eq|]. rewrite delete_insert_id by done. cbn [fst snd].
  eapply wp_mono; [apply notify_loop_spec|done|].
  - apply Forall_forall. intros fd Hin. apply watched_range_spec in Hin. lia.
  - intros [] ls' s' _ [-> ->]. split; [done|]. do 2 f_equal.
    rewrite Nat2Z.id, <- ready_in_range by done. apply firstn_all.
Qed.

(** Whatever else it finds, the notifier wakes the accept loop when there is a connection. *)
Lemma notifier_wakes_listener s :
  0 ≤ m_listenfd ≤ m_max_sockfd → watch_ok m_listenfd s → connection_pending s = true →
  wp tid anywhere (notifier_turn m_max_sockfd m_listenfd) ∅ s (λ _ ls' s', ls' = ∅ ∧
    ∃ fds, s' = set_woken (woken s ++ m_listenfd :: fds) s).
Proof.
  intros Hl Hw Hp. unfold notifier_turn. wp_step. wp_step. wp_step. wp_step. wp_step. wp_step. wp_step.
  apply wp_unlock; [done|by rewrite lookup_insert_eq|]. rewrite delete_insert_id by done.
  eapply wp_mono; [apply notify_loop_spec|done|].
  { apply Forall_forall. intros fd Hin. apply watched_range_spec in Hin. lia. }
  intros [] ls' s' _ [-> ->]. split; [done|]. unfold select.
  set (watched := filter (λ fd, fd < m_max_sockfd + 1) (m_rfds s)).
  rewrite (proj2 (forallb_forall _ _)); cbn [fst snd].
  2: { intros fd Hin. apply list_elem_of_In, elem_of_elements, elem_of_filter in Hin as [_ Hin]. by apply watched_open. }
  set (ready := filter _ watched).
  assert (Hin : m_listenfd ∈ ready).
  { apply elem_of_filter. split; [unfold fd_readable; by rewrite decide_True|].
    apply elem_of_filter. split; [lia|]. apply Hw. by left. }
  rewrite Nat2Z.id. destruct (size ready) as [|n] eqn:En.
  { apply size_empty_inv in En. set_solver. }
  rewrite seqZ_cons by lia. rewrite filter_cons_True by done. cbn [take]. by eexists.
Qed.
End notifying.

(** ** The accept loop beside the notifier *)

Section together.
Context {B : Type} (m_max_sockfd m_listenfd : Z) (listen_ok : 0 ≤ m_listenfd ≤ m_max_sockfd).
Implicit Types (s : ServerDispatcher B).

Definition side_by_side (p q : prog (ServerDispatcher B) unit) s : process (ServerDispatcher B) :=
  {| pool := [p; q]; held := ∅; shared := s |}.

Lemma first_runs {A} (p : prog (ServerDispatcher B) A) (k : A → prog _ unit) q s a s' :
  run 0 p ∅ s = Done a ∅ s' → rtc step (side_by_side (bind p k) q s) (side_by_side (k a) q s').
Proof. intros Hr. by apply (bind_steps [bind p k; q] 0 (Nat.lt_0_succ 1) p k ∅ s a ∅ s'). Qed.

Lemma second_runs {A} p (q : prog (ServerDispatcher B) A) (k : A → prog _ unit) s a s' :
  run 1 q ∅ s = Done a ∅ s' → rtc step (side_by_side p (bind q k) s) (side_by_side p (k a) s').
Proof. intros Hr. by apply (bind_steps [p; bind q k] 1 (Nat.lt_succ_diag_r 1) q k ∅ s a ∅ s'). Qed.

(** Each connection is accepted after the notifier has found it; [q] is what the thread
    does when the loop is over. *)
Lemma start_beside_notifier s q :
  arrivals_ok m_listenfd s → watch_ok m_listenfd s → m_max_sockfd < FD_SETSIZE →
  let turns := length (arrivals s) in
  ∃ s', rtc step (side_by_side (start m_max_sockfd m_listenfd turns ;;; q) (m_notifier m_max_sockfd m_listenfd turns) s)
                 (side_by_side q (Ret tt) s') ∧ all_accepted m_max_sockfd m_listenfd s s'.
Proof using listen_ok.
  intros Hok Hw Hmax. cbv zeta. remember (arrivals s) as l eqn:Hl. symmetry in Hl.
  revert s Hl Hok Hw. induction l as [|a l IH]; intros s Hl Hok Hw; cbn [length start m_notifier].
  { exists s. split; [done|]. by apply all_accepted_none. }
  destruct (first_arrival m_listenfd s a l Hl Hok) as (fd & c & ->). rewrite bind_assoc, start_turn_parts by done.
  destruct (wp_run _ _ _ _ _ _ (start_begins_spec 0 m_max_sockfd m_listenfd listen_ok s)) as (w & ls & s1 & Hr1 & -> & -> & ->).
  assert (Hp : connection_pending (wait_begun s) = true) by (unfold connection_pending; simpl; by rewrite Hl).
  destruct (wp_run _ _ _ _ _ _ (notifier_wakes_listener 1 m_max_sockfd m_listenfd (wait_begun s) listen_ok Hw Hp))
    as ([] & ls & s2 & Hr2 & -> & fds & ->).
  set (s2 := set_woken _ _) in Hr2.
  destruct (next_arrival m_max_sockfd m_listenfd listen_ok s s2 fd c l) as (Hpos & Hl2 & Hok2 & Hw2); [done..|].
  set (w := (notified m_listenfd s, hd false (spurious s))) in *.
  assert (Ho : wait_over m_listenfd w s2 = true).
  { unfold wait_over, w, notified, s2. simpl. rewrite filter_app, length_app, filter_cons_True by done. simpl.
    apply orb_true_iff. right. apply Nat.ltb_lt. lia. }
  destruct (wp_run _ _ _ _ _ _ (start_goes_on_spec 0 m_max_sockfd m_listenfd s2 w fd c l Hl2 Ho Hpos Hmax))
    as ([] & ls & s3 & Hr3 & -> & ->).
  destruct (IH (accepted m_max_sockfd fd c l s2)) as (s' & Hsteps & Hs'); [apply accepted_arrivals|done|done|].
  exists s'. split.
  - etrans; [by apply first_runs|]. etrans; [by apply second_runs|]. etrans; [by apply first_runs|]. exact Hsteps.
  - by apply (all_accepted_next m_max_sockfd m_listenfd s s2 s' fd c l).
Qed.
End together.
