(* ===== verification/Server.v ===== *)
(** * The server program

    [ServerBackend] as the backend of the dispatcher, [Server] (server.h, server.cpp) and
    [main] (Server/main.cpp). *)
From S2P Require Import Prelude Stdcxx Constants WireProtocol Messages Prog ReadWrite Posix File Backend Recovery Arguments Dispatcher.
From Stdlib Require Import ZArith Lia List Ascii String Bool.
From stdpp Require Import base gmap strings list fin_maps sorting.
#[local] Set Default Goal Selector "!".
Local Open Scope Z_scope.

(** ** The backend behind the interface *)

Section backend.
Context `{PathResolution} `{HashOrder}.

(** The methods of [ServerBackend] the dispatcher calls.  Building a response may throw,
    which nothing catches; [processRequest] always sets the response anew. *)
Definition server_backend_ops (m_directory : bytes) : BackendOps ServerBackend := {|
  backend_getRequestHeaderLength := getRequestHeaderLength;
  backend_getContentLength in_request_header out_server_response_str out_transaction_in_progress :=
    match getContentLength in_request_header out_server_response_str out_transaction_in_progress with
    | Some cl => Ret cl
    | None => Halt Uncaught
    end;
  backend_processRequest in_request_header in_request_payload _ out_transaction_in_progress :=
    processRequest m_directory in_request_header in_request_payload out_transaction_in_progress
|}.

(** ** Server *)

Context `{Directories} (m_listenfd stack_bytes : Z) (bind : bytes → Z → bool).

Abbreviation State := (ServerDispatcher ServerBackend).

(** The constructor: a new backend, and a dispatcher with the constants of the program
    whose socket is set up. *)
Definition Server_state (w : World) (network : list arrival) (spurious : list bool) : State :=
  new_dispatcher (new_backend w) network spurious.

Definition Server (in_ipv4_address : bytes) (in_portno : Z) : prog State unit :=
  initializeSocket m_listenfd (bind in_ipv4_address in_portno).

(** [Server::start], and the threads it starts. *)
Definition Server_start (turns : nat) : prog State unit :=
  start Constants.max_sockfd m_listenfd turns.

Definition Server_connection (in_directory : bytes) (fuel : nat) (in_sockfd : Z) : prog State unit :=
  m_processRequest (H := server_backend_ops (directory_name in_directory))
    Constants.max_sockfd Constants.connection_timeout_seconds stack_bytes fuel in_sockfd.

Definition Server_notifier (turns : nat) : prog State unit := m_notifier Constants.max_sockfd m_listenfd turns.

(** ** main *)

(** The directory a server was started on, or [None] when the help message was printed. *)
Definition main (turns : nat) (argv : arguments) : prog State (option bytes) :=
  let! m := server_main argv in
  match m with
  | ServerHelp _ => Ret None
  | StartServer server_ipv4_addr server_port server_directory =>
      Server server_ipv4_addr server_port ;;;
      Server_start turns ;;;
      Ret (Some server_directory)
  end.
End backend.
