(* ===== verification/ServerProps.v ===== *)
(** * Properties of the server program

    From the command line to the threads: what [main] of the server does with its
    arguments and with the connections that arrive. *)
From S2P Require Import Prelude Stdcxx Constants Prog ReadWrite Posix Backend Recovery Arguments Dispatcher Threads DispatcherSpec Server.
From Stdlib Require Import ZArith Lia List Ascii String Bool.
From stdpp Require Import base gmap strings list fin_maps sorting relations.
#[local] Set Default Goal Selector "!".
Local Open Scope Z_scope.

Section properties.
Context `{PathResolution} `{HashOrder} `{Directories}.
Context (tid : nat) (m_listenfd : Z) (bind : bytes → Z → bool).
Implicit Types (w : World) (network : list arrival) (early : list bool).

(** The listening socket is set up and watched. *)
Definition listening w network early : ServerDispatcher ServerBackend :=
  set_rfds {[m_listenfd]} (Server_state w network early).

Lemma Server_spec i ip port w network early :
  0 ≤ m_listenfd < FD_SETSIZE → bind ip port = true →
  run i (Server m_listenfd bind ip port) ∅ (Server_state w network early) = Done tt ∅ (listening w network early).
Proof.
  intros Hl Hb. unfold Server, initializeSocket, FD_SET. rewrite Hb.
  rewrite (proj2 (Z.leb_le 0 m_listenfd)), (proj2 (Z.ltb_lt m_listenfd _)), (proj2 (Z.ltb_ge m_listenfd 0)) by lia.
  rewrite run_bind. unfold run. simpl. unfold listening, set_rfds. simpl. by rewrite union_empty_r_L.
Qed.

Lemma listening_watch_ok w network early : watch_ok m_listenfd (listening w network early).
Proof.
  intros fd. unfold in_use. simpl. rewrite elem_of_singleton, lookup_empty. split; [by left|].
  by intros [?|(c & ? & _)].
Qed.

(** A thread for each connection up to the maximum, and the descriptors in use watched. *)
Definition serves network (s' : ServerDispatcher ServerBackend) : Prop :=
  watch_ok m_listenfd s' ∧
  threads s' = filter (λ fd, fd ≤ Constants.max_sockfd) (arrival_fds network) ∧
  ∀ fd, in_use m_listenfd s' fd ↔ fd = m_listenfd ∨ (fd ∈ arrival_fds network ∧ fd ≤ Constants.max_sockfd).

Lemma all_accepted_serves w network early s' :
  all_accepted Constants.max_sockfd m_listenfd (listening w network early) s' → serves network s'.
Proof.
  intros (Hw & _ & _ & Ht & Hu). split; [done|]. split; [done|]. intros fd. rewrite Hu. unfold in_use. simpl. rewrite lookup_empty. split.
  - intros [[?|(c & ? & _)]|?]; [by left|done|by right].
  - intros [?|?]; [by left; left|by right].
Qed.

(** C23. The program starts and serves: on arguments that name an IPv4 address, a port and
    a directory that opens, when the socket binds, [main] sets up the listening socket and
    has, after as many turns of its loop as there are connections to accept, started a
    thread for every one whose descriptor is at most [max_sockfd], in order, and watches
    exactly the descriptors in use ([serves]); the directory is the one given, with a
    slash.  This is so whenever the waits of its loop end by themselves; and when they do
    not, a schedule leads there on which the notifier ends them. *)
Theorem main_serves program args ip port dir w network early :
  starts args ip port dir → bind ip port = true → 0 ≤ m_listenfd ≤ Constants.max_sockfd →
  arrivals_ok m_listenfd (Server_state w network early) →
  let turns := length network in
  let argv := program :: (Some <$> args) in
  (∀ rest, early = replicate turns true ++ rest →
     ∃ s', run tid (main m_listenfd bind turns argv) ∅ (Server_state w network early) = Done (Some dir) ∅ s' ∧ serves network s') ∧
  ∃ s', rtc step {| pool := [main m_listenfd bind turns argv ;;; Ret tt; Server_notifier m_listenfd turns]; held := ∅;
                    shared := Server_state w network early |}
                 {| pool := [Ret tt; Ret tt]; held := ∅; shared := s' |} ∧ serves network s'.
Proof.
  intros Hstart Hb Hl Ha turns argv. assert (Hmax : Constants.max_sockfd < FD_SETSIZE) by done.
  assert (Hargs : ∀ tid, run tid (server_main argv) ∅ (Server_state w network early) = Done (StartServer ip port dir) ∅ (Server_state w network early))
    by (intros i; by apply (proj2 (server_main_spec i ∅ _ program args ip port dir))).
  pose proof (λ i, Server_spec i ip port w network early) as Hserver.
  pose proof (listening_watch_ok w network early) as Hwatch. split.
  - intros rest Hearly.
    destruct (wp_run _ _ _ _ _ _ (start_spec tid Constants.max_sockfd m_listenfd Hl (listening w network early) rest
      Ha Hwatch Hmax Hearly)) as ([] & ls & s' & Hrun & -> & Hs').
    exists s'. split; [|by eapply all_accepted_serves]. unfold main. rewrite run_bind, Hargs.
    cbn [andthen]. rewrite run_bind, Hserver by (done || lia). cbn [andthen].
    unfold Server_start. rewrite run_bind. change turns with (length (arrivals (listening w network early))). by rewrite Hrun.
  - destruct (start_beside_notifier Constants.max_sockfd m_listenfd Hl (listening w network early) (Ret tt) Ha Hwatch Hmax)
      as (s' & Hsteps & Hs').
    exists s'. split; [|by eapply all_accepted_serves]. unfold main. rewrite bind_assoc.
    etrans; [apply first_runs, Hargs|]. cbv beta iota. rewrite bind_assoc.
    etrans; [apply first_runs, Hserver; (done || lia)|]. rewrite bind_assoc. exact Hsteps.
Qed.
End properties.

(** ** Witnesses *)

Section witnesses.
#[local] Instance main_resolution : PathResolution := λ p, p.
#[local] Instance main_order : HashOrder :=
  {| iterate K A _ _ m := map_to_list m; iterate_perm K A _ _ m := reflexivity _ |}.
#[local] Instance main_directories : Directories := λ d, if decide (d = str "/tmp") then None else Some 2.

Definition main_arguments : list bytes :=
  [str "--server_ipv4_addr=127.0.0.1"; str "--server_port=8080"; str "--server_directory=/tmp"].

Definition silent_client : Connection :=
  {| c_incoming := []; c_deliveries := []; c_sent := []; c_open := true |}.

Definition main_network : list arrival := [Some (4, silent_client); Some (256, silent_client); Some (5, silent_client)].

Definition main_world : World := {| w_fs := ∅; w_now := 0; w_rand := []; w_sched := [] |}.

Lemma main_starts : starts main_arguments (str "127.0.0.1") 8080 (str "/tmp/").
Proof.
  apply (server_main_spec (S := unit) 1 ∅ tt (Some (str "server"))). by vm_compute.
Qed.

Lemma main_serves_witness :
  (∃ s', run 1 (main 3 (λ _ _, true) 3 (Some (str "server") :: (Some <$> main_arguments))) ∅
          (Server_state main_world main_network [true; true; true]) = Done (Some (str "/tmp/")) ∅ s' ∧ threads s' = [4; 5]) ∧
  ∃ s', rtc step {| pool := [main 3 (λ _ _, true) 3 (Some (str "server") :: (Some <$> main_arguments)) ;;; Ret tt; Server_notifier 3 3];
                    held := ∅; shared := Server_state main_world main_network [true; true; true] |}
                 {| pool := [Ret tt; Ret tt]; held := ∅; shared := s' |} ∧ threads s' = [4; 5].
Proof.
  destruct (main_serves 1 3 (λ _ _, true) (Some (str "server")) main_arguments (str "127.0.0.1") 8080
    (str "/tmp/") main_world main_network [true; true; true]) as [W1 (s2 & Hsteps & _ & Ht2 & _)].
  - exact main_starts.
  - done.
  - by unfold Constants.max_sockfd.
  - split; [apply (bool_decide_unpack _); by vm_compute|].
    repeat constructor; try (intros [?|(c & Hc & _)]; [lia|by vm_compute in Hc]); lia.
  - split; [|exists s2; split; [exact Hsteps|exact Ht2]].
    destruct (W1 [] eq_refl) as (s' & Hrun & _ & Ht & _). exists s'. split; [exact Hrun|exact Ht].
Defined.
End witnesses.
