(* ===== verification/SignalHandler.v ===== *)
(** * The Ctrl-C handler

    [SignalHandler::ctrlc] (signal-handler.h): the dialogue on the terminal and the
    erasing of the server directory.  The theorems say after which answers the directory
    is erased, after which it is kept, and when the handler never returns. *)
From S2P Require Import Prelude Stdcxx Prog ReadWrite Posix.
From Stdlib Require Import ZArith Lia List Ascii String Bool.
From stdpp Require Import base gmap strings list fin_maps sorting.
#[local] Set Default Goal Selector "!".
Local Open Scope Z_scope.

Section signal.
Context `{PathResolution}.

(** [std::cin >> input]: the next word; at the end of the input the old value stays. *)
Definition read_word (words : list bytes) (input : bytes) : bytes * list bytes :=
  match words with
  | [] => (input, [])
  | w :: words => (w, words)
  end.

Definition is_answer (input : bytes) : bool :=
  bool_decide (input = str "Y") || bool_decide (input = str "N").

(** [sprintf(filepath, "%s/%s", ...)] into 256 bytes, the final NUL included; writing
    past them is undefined behaviour. *)
Definition sprintf_filepath (s_directory d_name : bytes) : option bytes :=
  let path := s_directory ++ str "/" ++ d_name in
  if len path <? 256 then Some path else None.

(** The loop over the entries of the directory; what [remove] cannot remove stays. *)
Fixpoint erase_entries (s_directory : bytes) (entries : list bytes) : prog World unit :=
  match entries with
  | [] => Ret tt
  | d_name :: entries =>
      match sprintf_filepath s_directory d_name with
      | None => Halt Undefined
      | Some filepath =>
          let! _ := syscall (w_remove filepath) in
          erase_entries s_directory entries
      end
  end.

Section loops.
Context (s_directory : bytes) (listing : option (list bytes)).

(** The erasing step: [readdir] of the null pointer a failed [opendir] returns is
    undefined behaviour. *)
Definition erase_directory : prog World unit :=
  match listing with
  | None => Halt Undefined
  | Some entries => erase_entries s_directory entries
  end.

(** The inner loop, from the prompt on: the answer it ends with and the input left. *)
Fixpoint are_you_sure (fuel : nat) (words : list bytes) (input : bytes) : prog World (bytes * list bytes) :=
  match fuel with
  | O => diverge
  | S fuel =>
      let '(input, words) := read_word words input in
      (if decide (input = str "Y") then erase_directory else Ret tt) ;;;
      if is_answer input then Ret (input, words) else are_you_sure fuel words input
  end.

(** [ctrlc], up to its [exit(EXIT_SUCCESS)]. *)
Fixpoint ctrlc (fuel : nat) (words : list bytes) (input : bytes) : prog World unit :=
  match fuel with
  | O => diverge
  | S fuel =>
      let '(input, words) := read_word words input in
      let! r := if decide (input = str "Y") then are_you_sure fuel words input else Ret (input, words) in
      if is_answer r.1 then Ret tt else ctrlc fuel r.2 r.1
  end.
End loops.
End signal.

(** ** What the answers amount to *)

Inductive decision := Erase | Keep | Forever.

(** The inner dialogue; [input] is the last word read. *)
Fixpoint confirmation (words : list bytes) (input : bytes) : decision :=
  match words with
  | [] => if decide (input = str "Y") then Erase
          else if decide (input = str "N") then Keep else Forever
  | w :: words =>
      if decide (w = str "Y") then Erase
      else if decide (w = str "N") then Keep else confirmation words w
  end.

(** The whole of it. *)
Fixpoint dialogue (words : list bytes) : decision :=
  match words with
  | [] => Forever
  | w :: words =>
      if decide (w = str "Y") then confirmation words w
      else if decide (w = str "N") then Keep else dialogue words
  end.

Section spec.
Context `{PathResolution} (tid : nat) (s_directory : bytes) (listing : option (list bytes)).
Implicit Types (w : World) (words : list bytes).

(** What the handler does after a decision. *)
Definition carried_out (d : decision) (ls : locks) w : outcome World unit :=
  match d with
  | Erase => run tid (erase_directory s_directory listing) ls w
  | Keep => Done tt ls w
  | Forever => Blocked w
  end.

Lemma is_answer_cases input : is_answer input = true ↔ input = str "Y" ∨ input = str "N".
Proof. unfold is_answer. by rewrite orb_true_iff, !bool_decide_eq_true. Qed.

Lemma not_answer input : input ≠ str "Y" → input ≠ str "N" → is_answer input = false.
Proof. intros HY HN. unfold is_answer. by rewrite !bool_decide_eq_false_2. Qed.

(** At the end of the input a word that is no answer is asked for again and again. *)
Lemma are_you_sure_stuck fuel input ls w :
  is_answer input = false →
  run tid (are_you_sure s_directory listing fuel [] input) ls w = Blocked w.
Proof.
  intros Hin. induction fuel as [|fuel IH]; [done|]. cbn [are_you_sure read_word].
  rewrite decide_False by (by intros ->). rewrite Hin. exact IH.
Qed.

Lemma ctrlc_stuck fuel input ls w :
  is_answer input = false → run tid (ctrlc s_directory listing fuel [] input) ls w = Blocked w.
Proof.
  intros Hin. induction fuel as [|fuel IH]; [done|]. cbn [ctrlc read_word].
  rewrite decide_False by (by intros ->). change (run tid (let! r := Ret (input, []) in if is_answer r.1 then Ret tt else ctrlc s_directory listing fuel r.2 r.1) ls w)
    with (run tid (if is_answer input then Ret tt else ctrlc s_directory listing fuel [] input) ls w).
  by rewrite Hin.
Qed.

(** After an answer the dialogue is over: [k] is what the outer loop does with it. *)
Lemma are_you_sure_spec fuel words input ls w (k : bytes * list bytes → prog World unit) :
  (length words < fuel)%nat → (∀ r, is_answer r.1 = true → k r = Ret tt) →
  run tid (bind (are_you_sure s_directory listing fuel words input) k) ls w =
    carried_out (confirmation words input) ls w.
Proof.
  intros Hf Hk.
  assert (Hstep : ∀ v rest fuel, run tid (bind (let! _ := if decide (v = str "Y") then erase_directory s_directory listing else Ret tt in
      if is_answer v then Ret (v, rest) else are_you_sure s_directory listing fuel rest v) k) ls w =
    if decide (v = str "Y") then carried_out Erase ls w
    else if decide (v = str "N") then carried_out Keep ls w
    else run tid (bind (are_you_sure s_directory listing fuel rest v) k) ls w).
  { intros v rest f. destruct (decide (v = str "Y")) as [->|HY].
    - rewrite !run_bind. simpl.
      destruct (run tid (erase_directory s_directory listing) ls w) as [[] ls' w'| |]; [|done..].
      cbn [andthen]. change (is_answer (str "Y")) with true. cbv iota. unfold run at 1. cbn [andthen].
      by rewrite Hk.
    - destruct (decide (v = str "N")) as [->|HN].
      + rewrite !run_bind. unfold run at 1. cbn [andthen]. change (is_answer (str "N")) with true.
        cbv iota. unfold run at 1. cbn [andthen]. by rewrite Hk.
      + rewrite !run_bind. unfold run at 1. cbn [andthen]. by rewrite not_answer. }
  revert fuel input Hf. induction words as [|v words IH]; intros fuel input Hf;
    (destruct fuel as [|fuel]; [simpl in Hf; lia|]); cbn [are_you_sure read_word confirmation]; rewrite Hstep.
  - case_decide; [done|]. case_decide; [done|].
    by rewrite run_bind, are_you_sure_stuck by by apply not_answer.
  - case_decide; [done|]. case_decide; [done|]. apply IH. simpl in Hf. lia.
Qed.

Lemma ctrlc_spec fuel words input ls w :
  (length words + 1 < fuel)%nat → is_answer input = false →
  run tid (ctrlc s_directory listing fuel words input) ls w = carried_out (dialogue words) ls w.
Proof.
  revert fuel input. induction words as [|v words IH]; intros fuel input Hf Hin;
    (destruct fuel as [|fuel]; [simpl in Hf; lia|]).
  - by apply ctrlc_stuck.
  - cbn [ctrlc read_word dialogue]. simpl in Hf. destruct (decide (v = str "Y")) as [->|HY].
    + apply are_you_sure_spec; [lia|]. by intros r ->.
    + rewrite run_bind. unfold run at 1. cbn [andthen fst snd].
      destruct (decide (v = str "N")) as [->|HN]; [done|]. rewrite not_answer by done.
      apply IH; [lia|by apply not_answer].
Qed.

(** Erasing, when no call fails. *)
Lemma erase_entries_spec entries ls w :
  w_sched w = [] → Forall (λ d, len s_directory + 1 + len d < 256) entries →
  ∃ w', run tid (erase_entries s_directory entries) ls w = Done tt ls w' ∧ w_sched w' = [] ∧
    ∀ p, w_fs w' !! p =
      if decide (p ∈ (λ d, resolve (s_directory ++ str "/" ++ d)) <$> entries) then None else w_fs w !! p.
Proof.
  revert w. induction entries as [|d entries IH]; intros w Hc Hl.
  - exists w. split; [done|]. split; [done|]. intros p. rewrite decide_False; [done|by apply not_elem_of_nil].
  - apply Forall_cons in Hl as [Hd Hl]. cbn [erase_entries]. unfold sprintf_filepath.
    rewrite (proj2 (Z.ltb_lt _ 256)) by (rewrite !length_app; simpl; lia).
    set (path := s_directory ++ str "/" ++ d).
    assert (Hr : ∃ b fs, w_remove path w = (b, set_fs fs w) ∧ ∀ p, fs !! p = if decide (p = resolve path) then None else w_fs w !! p).
    { unfold w_remove, next_call. rewrite Hc. destruct (w_fs w !! resolve path) as [c|] eqn:E.
      - exists true, (delete (resolve path) (w_fs w)). split; [done|]. intros p.
        case_decide as Hp; [subst; apply lookup_delete_eq|by apply lookup_delete_ne].
      - exists false, (w_fs w). split; [by destruct w|]. intros p. case_decide as Hp; [by subst|done]. }
    destruct Hr as (b & fs & Er & Hfs).
    destruct (IH (set_fs fs w)) as (w' & Hrun & Hc' & Hw'); [done|done|].
    exists w'. split; [|split; [done|]].
    + unfold syscall. rewrite run_bind. unfold run at 1. cbn. rewrite Er. exact Hrun.
    + intros p. rewrite Hw'. cbn [fmap list_fmap]. fold path. cbn [w_fs set_fs]. rewrite Hfs.
      destruct (decide (p ∈ _ <$> entries)) as [Hin|Hin].
      * by rewrite decide_True by by right.
      * destruct (decide (p = resolve path)) as [->|Hne]; [by rewrite decide_True by by left|].
        rewrite decide_False; [done|]. by intros [?|?]%elem_of_cons.
Qed.
End spec.

(** ** Properties *)

Section properties.
Context `{PathResolution}.

(** C38. What the answers to Ctrl-C do: the directory is erased exactly when the first word
    that is Y or N is Y and the next such word is Y too (or the input ends right after the
    first); it is kept when N comes first in either dialogue; and when the input ends
    without an answer the handler never returns: it runs out of the turns of its loops
    however many more than the words and two they are given. *)
Theorem ctrlc_decides tid s_directory listing words more ls w :
  run tid (ctrlc s_directory listing (length words + 2 + more) words []) ls w =
    match dialogue words with
    | Erase => run tid (erase_directory s_directory listing) ls w
    | Keep => Done tt ls w
    | Forever => Blocked w
    end.
Proof. apply ctrlc_spec; [lia|done]. Qed.

(** Erasing removes exactly the entries of the directory: when every path fits the
    256-byte buffer and no call fails, afterwards no file of the listing is there and every
    other file is as before. *)
Theorem ctrlc_erases_directory tid s_directory entries ls w :
  w_sched w = [] → Forall (λ d, len s_directory + 1 + len d < 256) entries →
  ∃ w', run tid (erase_directory s_directory (Some entries)) ls w = Done tt ls w' ∧
    ∀ p, w_fs w' !! p =
      if decide (p ∈ (λ d, resolve (s_directory ++ str "/" ++ d)) <$> entries) then None else w_fs w !! p.
Proof.
  intros Hc Hl. destruct (erase_entries_spec tid s_directory entries ls w Hc Hl) as (w' & Hrun & _ & Hw).
  by exists w'.
Qed.

(** The buffer of the path name is too small: an entry whose path is 256 characters or
    longer makes the handler write past it, whatever the directory holds otherwise. *)
Theorem ctrlc_overflows tid s_directory d entries ls w :
  256 ≤ len s_directory + 1 + len d →
  run tid (erase_directory s_directory (Some (d :: entries))) ls w = Stopped Undefined w.
Proof.
  intros Hl. unfold erase_directory. cbn [erase_entries]. unfold sprintf_filepath.
  by rewrite (proj2 (Z.ltb_ge _ 256)) by (rewrite !length_app; simpl; lia).
Qed.
End properties.

(** ** Witnesses *)

Section witnesses.
#[local] Instance handler_resolution : PathResolution := λ p, p.

Definition handler_world : World :=
  {| w_fs := {[ str "d//f" := str "x"; str "g" := str "y" ]}; w_now := 0; w_rand := []; w_sched := [] |}.

Lemma ctrlc_erases_directory_witness :
  ∃ w', run 1 (erase_directory (str "d/") (Some [str "f"])) ∅ handler_world = Done tt ∅ w' ∧
    w_fs w' !! str "d//f" = None ∧ w_fs w' !! str "g" = Some (str "y").
Proof.
  destruct (ctrlc_erases_directory 1 (str "d/") [str "f"] ∅ handler_world) as (w' & Hrun & Hw).
  - done.
  - apply (bool_decide_unpack _). by vm_compute.
  - exists w'. split; [exact Hrun|]. split; rewrite Hw; by vm_compute.
Defined.

Lemma ctrlc_overflows_witness :
  run 1 (erase_directory (repeat "d"%char 200) (Some [repeat "f"%char 60])) ∅ handler_world
    = Stopped Undefined handler_world.
Proof. apply ctrlc_overflows. rewrite !repeat_length. lia. Defined.

(** A terminal that hangs up after the first Y has the directory erased unasked. *)
Example eof_confirms : dialogue [str "Y"] = Erase.
Proof. by vm_compute. Qed.
End witnesses.
