(* ===== verification/DispatcherProps.v ===== *)
(** * Properties of the dispatcher

    What the dispatcher promises for every backend: a connection is served as its byte
    stream says, every connection accepted is watched and gets a thread, every readable
    descriptor is woken; and the inputs it does not survive.  The witnesses run the real
    backend behind it. *)
From S2P Require Import Prelude Stdcxx Constants WireProtocol Messages Prog ReadWrite Posix File Backend Recovery Dispatcher Threads DispatcherSpec Server.
From Stdlib Require Import ZArith Lia List Ascii String Bool FunctionalExtensionality.
From stdpp Require Import base gmap strings list fin_maps sorting relations.
#[local] Set Default Goal Selector "!".
Local Open Scope Z_scope.

Section properties.
Context {B : Type} `{BackendOps B}.
Context (tid : nat) (m_max_sockfd m_connection_timeout_seconds m_listenfd stack_bytes : Z).
Implicit Types (s : ServerDispatcher B).

(** C19. A connection is served as its byte stream: however the network cuts the bytes into
    pieces and the writes are split, the thread of a connection hands the backend the
    requests of the stream one after the other, sends exactly the responses, until one
    ends the transaction or the input stops (timeout, error or end), and then returns with
    every mutex free, the descriptor closed and no longer watched, every other connection
    as it was.  A turn per byte of input is fuel enough. *)
Theorem connection_follows_stream fd fuel s c b out :
  0 ≤ fd ≤ m_max_sockfd → 0 < m_connection_timeout_seconds → 0 < backend_getRequestHeaderLength →
  connections s !! fd = Some c → c_open c = true → Forall delivered (c_deliveries c) →
  (length (stream (c_incoming c)) < fuel)%nat →
  serve_stream tid stack_bytes (S (length (stream (c_incoming c)))) true (m_backend s)
    (stream (c_incoming c)) = Some (b, out) →
  ∃ s' c', run tid (m_processRequest m_max_sockfd m_connection_timeout_seconds stack_bytes fuel fd) ∅ s =
      Done tt ∅ s' ∧
    m_backend s' = b ∧ connections s' !! fd = Some c' ∧ c_sent c' = c_sent c ++ out ∧ c_open c' = false ∧
    m_rfds s' = m_rfds s ∖ {[fd]} ∧
    (∀ fd', fd' ≠ fd → connections s' !! fd' = connections s !! fd') ∧
    arrivals s' = arrivals s ∧ threads s' = threads s.
Proof.
  intros Hfd Ht Hh Hc Ho Hd Hf Hs.
  destruct (processRequest_spec tid m_max_sockfd m_connection_timeout_seconds stack_bytes fd fuel s c b out)
    as (l & d & Hrun); [done..|].
  eexists _, _. split; [exact Hrun|]. split; [done|]. split; [apply lookup_insert_eq|].
  do 3 (split; [done|]). split; [|done]. intros fd' Hne. by apply lookup_insert_ne.
Qed.

(** C21. Every arrival is served: with as many turns as there are connections to accept,
    each with a descriptor not in use, the accept loop has started one thread per
    descriptor up to the maximum, in order, refused the others, and watches exactly the
    descriptors in use ([all_accepted]).  So every thread indexes the vectors of mutexes
    and condition variables within their bounds.  This is so whenever the waits of the loop
    end by themselves; and when they do not, a schedule leads there on which the notifier
    ends them. *)
Theorem start_serves_arrivals s :
  0 ≤ m_listenfd ≤ m_max_sockfd → m_max_sockfd < FD_SETSIZE →
  arrivals_ok m_listenfd s → watch_ok m_listenfd s →
  let turns := length (arrivals s) in
  (∀ rest, spurious s = replicate turns true ++ rest →
     ∃ s', run tid (start m_max_sockfd m_listenfd turns) ∅ s = Done tt ∅ s' ∧ all_accepted m_max_sockfd m_listenfd s s') ∧
  ∃ s', rtc step {| pool := [start m_max_sockfd m_listenfd turns; m_notifier m_max_sockfd m_listenfd turns]; held := ∅; shared := s |}
                 {| pool := [Ret tt; Ret tt]; held := ∅; shared := s' |} ∧ all_accepted m_max_sockfd m_listenfd s s'.
Proof.
  intros Hl Hmax Ha Hw turns. split.
  - intros rest Hsp.
    destruct (wp_run _ _ _ _ _ _ (start_spec tid m_max_sockfd m_listenfd Hl s rest Ha Hw Hmax Hsp))
      as ([] & ls & s' & Hrun & -> & Hs). by exists s'.
  - destruct (start_beside_notifier m_max_sockfd m_listenfd Hl s (Ret tt) Ha Hw Hmax) as (s' & Hsteps & Hs).
    exists s'. split; [|done]. rewrite <- (bind_ret (start m_max_sockfd m_listenfd turns)). eassert (E : (λ _ : unit, Ret tt) = Ret) by (extensionality u; by destruct u). by rewrite <- E.
Qed.

(** A connection thread keeps the set given to [select] right: it removes the
    descriptor it has closed, so no closed descriptor makes [select] fail. *)
Theorem connection_keeps_watch fd fuel s c b out :
  0 ≤ fd ≤ m_max_sockfd → 0 < m_connection_timeout_seconds → 0 < backend_getRequestHeaderLength →
  connections s !! fd = Some c → c_open c = true → Forall delivered (c_deliveries c) →
  (length (stream (c_incoming c)) < fuel)%nat →
  serve_stream tid stack_bytes (S (length (stream (c_incoming c)))) true (m_backend s)
    (stream (c_incoming c)) = Some (b, out) →
  fd ≠ m_listenfd → watch_ok m_listenfd s →
  ∃ s', run tid (m_processRequest m_max_sockfd m_connection_timeout_seconds stack_bytes fuel fd) ∅ s =
      Done tt ∅ s' ∧ watch_ok m_listenfd s'.
Proof.
  intros Hfd Ht Hh Hc Ho Hd Hf Hs Hne Hw.
  destruct (processRequest_spec tid m_max_sockfd m_connection_timeout_seconds stack_bytes fd fuel s c b out)
    as (l & d & Hrun); [done..|].
  eexists. split; [exact Hrun|]. intros fd'. unfold in_use. simpl.
  rewrite elem_of_difference, elem_of_singleton, (Hw fd'). unfold in_use.
  destruct (decide (fd' = fd)) as [->|Hfd'].
  - rewrite lookup_insert_eq. split; [by intros [_ []]|]. by intros [?|(c' & [= <-] & ?)].
  - rewrite lookup_insert_ne by done. split; [by intros [? _]|by split].
Qed.

(** C22. Every readable descriptor is woken: one turn of the notifier, in a state where the
    watched descriptors are those in use and lie from the listening socket to the
    maximum, calls [notify_one] exactly once for each of them that is readable, in
    increasing order, and changes nothing else. *)
Theorem notifier_wakes_readable s :
  0 ≤ m_listenfd → watch_ok m_listenfd s →
  (∀ fd, fd ∈ m_rfds s → m_listenfd ≤ fd ≤ m_max_sockfd) →
  run tid (notifier_turn m_max_sockfd m_listenfd) ∅ s = Done tt ∅
    (set_woken (woken s ++ filter (λ fd, fd ∈ m_rfds s ∧ fd_readable m_listenfd s fd = true)
                             (seqZ m_listenfd (m_max_sockfd + 1 - m_listenfd))) s).
Proof.
  intros Hp Hw Hr.
  destruct (wp_run _ _ _ _ _ _ (notifier_turn_spec tid m_max_sockfd m_listenfd s Hp Hw Hr))
    as ([] & ls & s' & -> & -> & ->).
  do 3 f_equal. apply list_filter_iff. intros fd. unfold ready_fds. rewrite elem_of_filter. tauto.
Qed.

(** C36. A request can end the server: when a header announces more content than fits the
    stack (or the largest [int], whose successor overflows), the array declared for the
    payload is undefined behaviour, before a byte of the payload is read. *)
Theorem oversized_request_undefined fd fuel s c cl b :
  let header := take (Z.to_nat backend_getRequestHeaderLength) (stream (c_incoming c)) in
  0 ≤ fd ≤ m_max_sockfd → 0 < m_connection_timeout_seconds →
  fits stack_bytes 0 backend_getRequestHeaderLength = true →
  connections s !! fd = Some c → c_open c = true →
  (Z.to_nat backend_getRequestHeaderLength ≤ length (stream (c_incoming c)))%nat →
  alone tid (backend_getContentLength header [] true) (m_backend s) = Some (cl, b) →
  0 ≤ cl_result cl → fits stack_bytes (backend_getRequestHeaderLength + 1) (cl_result cl) = false →
  ∃ s', run tid (m_processRequest m_max_sockfd m_connection_timeout_seconds stack_bytes (S fuel) fd) ∅ s =
    Stopped Undefined s'.
Proof.
  intros header Hfd Ht Hfit Hc Ho Hlen Hcl Hpos Hbig.
  assert (Es : at_ fd s (m_backend s) c = s) by by apply at_self.
  destruct (wp_run _ _ _ _ _ _ (readSocket_spec tid m_max_sockfd m_connection_timeout_seconds fd s Hfd Ht
    (m_backend s) c backend_getRequestHeaderLength Ho)) as (r & ls & s1 & Hrun & -> & l & -> & Hr).
  destruct r as [h|]; [|lia]. destruct Hr as (-> & _ & _). rewrite Es in Hrun.
  destruct (wp_run _ _ _ _ _ _ (the_backend_spec tid fd s _ (m_backend s) (set_incoming l c) cl b Hcl))
    as (cl' & ls & s1 & Hrun' & -> & -> & ->).
  eexists. unfold m_processRequest. rewrite run_bind. cbn [connection_loop]. rewrite run_bind.
  unfold serve_request. rewrite run_bind. unfold char_array at 1.
  rewrite Hfit. unfold run at 1. cbn [andthen].
  rewrite run_bind, Hrun. cbn [andthen]. fold header. rewrite run_bind, Hrun'. cbn [andthen].
  rewrite (proj2 (Z.ltb_ge _ 0)) by done. rewrite run_bind. unfold char_array. rewrite Hbig. done.
Qed.
End properties.

(** ** Witnesses: the real backend behind the dispatcher *)

Section witnesses.
#[local] Instance served_resolution : PathResolution := λ p, p.

#[local] Instance served_order : HashOrder :=
  {| iterate K A _ _ m := map_to_list m; iterate_perm K A _ _ m := reflexivity _ |}.

#[local] Instance served_ops : BackendOps ServerBackend := server_backend_ops (str "d/").

Definition served_world : World :=
  {| w_fs := {[ str "d/f" := str "ab" ]}; w_now := 0; w_rand := [7]; w_sched := [] |}.

(** A READ of the file f, cut in pieces, and a client that then falls silent. *)
Definition read_request : bytes := default [] (generateRequest Constants.read_cmd (-1) 0 (str "f")).

Definition reading_client : Connection :=
  {| c_incoming := [Chunk (take 10 read_request); Chunk (drop 10 read_request); Silence];
     c_deliveries := [Sent 1; Sent 100]; c_sent := []; c_open := true |}.

(** A client that announces the largest content length there is. *)
Definition greedy_client : Connection :=
  {| c_incoming := [Chunk (str "WRITE 1 1 2147483647 " ++ repeat "0"%char 43)];
     c_deliveries := []; c_sent := []; c_open := true |}.

(** Listening on 3, with the two clients as 4 and 5. *)
Definition serving : ServerDispatcher ServerBackend :=
  {| m_backend := new_backend served_world; m_sockfd := 5; m_rfds := {[3; 4; 5]};
     connections := {[4 := reading_client; 5 := greedy_client]}; arrivals := [Some (6, reading_client); Some (256, greedy_client)];
     threads := [4; 5]; woken := []; spurious := [true; true] |}.

Lemma serving_stream :
  is_Some (serve_stream 1 10000 (S (length (stream (c_incoming reading_client)))) true
    (m_backend serving) (stream (c_incoming reading_client))).
Proof. vm_compute. by eexists. Qed.

Lemma serving_watch_ok : watch_ok 3 serving.
Proof.
  intros fd. unfold in_use. simpl. rewrite !elem_of_union, !elem_of_singleton. split.
  - intros [[->| ->]| ->]; [by left|right; exists reading_client|right; exists greedy_client];
      by vm_compute.
  - intros [->|(c & Hc & _)]; [by left; left|].
    apply lookup_insert_Some in Hc as [[<- _]|[_ Hc]]; [by left; right|].
    apply lookup_singleton_Some in Hc as [<- _]. by right.
Qed.

Lemma connection_follows_stream_witness :
  ∃ b out s' c', serve_stream 1 10000 (S (length (stream (c_incoming reading_client)))) true
      (m_backend serving) (stream (c_incoming reading_client)) = Some (b, out) ∧
    run 1 (m_processRequest 255 10 10000 100 4) ∅ serving = Done tt ∅ s' ∧
    m_backend s' = b ∧ connections s' !! 4 = Some c' ∧ c_sent c' = out ∧ c_open c' = false.
Proof.
  destruct serving_stream as [[b out] E].
  destruct (connection_follows_stream 1 255 10 10000 4 100 serving reading_client b out)
    as (s' & c' & Hrun & Hb & Hc & Hs & Ho & _).
  - lia.
  - lia.
  - done.
  - done.
  - done.
  - by repeat constructor.
  - vm_compute. lia.
  - exact E.
  - exists b, out, s', c'. split; [exact E|]. split; [exact Hrun|]. split; [exact Hb|]. split; [exact Hc|].
    split; [exact Hs|exact Ho].
Defined.

Lemma connection_keeps_watch_witness :
  ∃ s', run 1 (m_processRequest 255 10 10000 100 4) ∅ serving = Done tt ∅ s' ∧ watch_ok 3 s'.
Proof.
  destruct serving_stream as [[b out] E].
  apply (connection_keeps_watch 1 255 10 3 10000 4 100 serving reading_client b out).
  - lia.
  - lia.
  - done.
  - done.
  - done.
  - by repeat constructor.
  - vm_compute. lia.
  - exact E.
  - done.
  - exact serving_watch_ok.
Defined.

Lemma start_serves_arrivals_witness :
  (∃ s', run 1 (start 255 3 2) ∅ serving = Done tt ∅ s' ∧ watch_ok 3 s' ∧ threads s' = [4; 5; 6]) ∧
  ∃ s', rtc step {| pool := [start 255 3 2; m_notifier 255 3 2]; held := ∅; shared := serving |}
                 {| pool := [Ret tt; Ret tt]; held := ∅; shared := s' |} ∧ threads s' = [4; 5; 6].
Proof.
  destruct (start_serves_arrivals 1 255 3 serving) as [W1 (s2 & Hsteps & _ & _ & _ & Ht2 & _)].
  - lia.
  - by unfold FD_SETSIZE.
  - split; [apply (bool_decide_unpack _); by vm_compute|].
    repeat constructor; try (intros [?|(c & Hc & _)]; [lia|by vm_compute in Hc]); lia.
  - exact serving_watch_ok.
  - split; [|exists s2; split; [exact Hsteps|exact Ht2]].
    destruct (W1 [] eq_refl) as (s' & Hrun & Hw & _ & _ & Ht & _). exists s'. split; [exact Hrun|]. split; [exact Hw|exact Ht].
Defined.

Lemma notifier_wakes_readable_witness :
  ∃ s', run 1 (notifier_turn 255 3) ∅ serving = Done tt ∅ s' ∧ woken s' = [3; 4; 5].
Proof.
  eexists. split.
  - apply (notifier_wakes_readable 1 255 3 serving).
    + lia.
    + exact serving_watch_ok.
    + intros fd. simpl. rewrite !elem_of_union, !elem_of_singleton. lia.
  - by vm_compute.
Defined.

Lemma oversized_request_undefined_witness :
  ∃ s', run 1 (m_processRequest 255 10 8000000 1 5) ∅ serving = Stopped Undefined s'.
Proof.
  unshelve epose proof (oversized_request_undefined 1 255 10 8000000 5 0 serving greedy_client
    {| cl_result := 2147483647; cl_server_response := []; cl_transaction_in_progress := true |}
    (m_backend serving) _ _ _ _ _ _ _ _ _) as W.
  - lia.
  - lia.
  - by vm_compute.
  - done.
  - done.
  - vm_compute. lia.
  - by vm_compute.
  - done.
  - by vm_compute.
  - exact W.
Defined.
End witnesses.
