(* ===== verification/Session.v ===== *)
(** * Sessions: a client's requests through the dispatcher to the backend

    What a client sends over one connection, as the list of its requests, against what
    the backend does with them one after the other; and the abstract service of a whole
    session, which every session of the real server refines. *)
From S2P Require Import Prelude Stdcxx Constants WireProtocol Messages Prog ReadWrite Posix File Backend Recovery BackendInv BackendSteps BackendSpec CommitSpec Service Dispatcher DispatcherSpec Server.
From Stdlib Require Import ZArith Lia List Ascii String Bool.
From stdpp Require Import base gmap strings list fin_maps sorting.
#[local] Set Default Goal Selector "!".
Local Open Scope Z_scope.

(** ** Requests on the wire *)

(** The bytes a client sends for a request. *)
Definition request_bytes (req : RequestTuple) : bytes :=
  default [] (generateRequest (rq_command req) (rq_txn_id req) (rq_seq_num req) (rq_data req)).

Definition all_request_bytes (reqs : list RequestTuple) : bytes := concat (request_bytes <$> reqs).

Definition all_response_bytes (reps : list Reply) : bytes := concat (server_response <$> reps).

(** A request a client can send and the server has room for. *)
Record sendable (stack_bytes : Z) (req : RequestTuple) : Prop := {
  send_command : command_word (rq_command req) ∧ (length (rq_command req) ≤ 29)%nat;
  send_request : request_ok req;
  send_length : rq_content_len req = len (rq_data req);
  send_fits : fits stack_bytes (Constants.request_header_len + 1) (len (rq_data req)) = true
}.

Lemma request_bytes_read req :
  command_word (rq_command req) → (length (rq_command req) ≤ 29)%nat → request_ok req →
  rq_content_len req = len (rq_data req) → len (rq_data req) ≤ INT32_MAX →
  ∃ header, request_bytes req = header ++ rq_data req ∧
    Z.of_nat (length header) = Constants.request_header_len ∧ isValidRequestFormat header = true ∧
    getClientRequestAsTuple header (Some (rq_data req)) = req ∧
    rq_content_len (getClientRequestAsTuple header None) = len (rq_data req).
Proof.
  intros Hc Hl [] Hlen Hmax.
  destruct (generateRequest_spec (rq_command req) (rq_txn_id req) (rq_seq_num req) (rq_data req))
    as (h & E & Hh & Hv & Hfields); [done..|].
  exists h. unfold request_bytes. rewrite E. split; [done|]. split; [done|]. split; [done|].
  unfold getClientRequestAsTuple. rewrite Hfields. split; [|done].
  rewrite c_str_id by done. rewrite <- Hlen. by destruct req.
Qed.

Lemma request_bytes_spec stack_bytes req :
  sendable stack_bytes req →
  ∃ header, request_bytes req = header ++ rq_data req ∧
    Z.of_nat (length header) = Constants.request_header_len ∧ isValidRequestFormat header = true ∧
    getClientRequestAsTuple header (Some (rq_data req)) = req ∧
    rq_content_len (getClientRequestAsTuple header None) = len (rq_data req).
Proof.
  intros [[Hc Hl] Hreq Hlen Hf]. unfold fits in Hf. apply andb_true_iff in Hf as [Hmax _]. apply Z.ltb_lt in Hmax.
  apply request_bytes_read; [done..|lia].
Qed.

(** ** Replies *)

(** A reply that reads back as its fields. *)
Definition well_formed_reply (rep : Reply) : Prop :=
  ∃ cmd txn_id seq_num err data ip, rep = reply cmd txn_id seq_num err data ip ∧
    cmd ∈ [Constants.ack_cmd; Constants.ask_resend_cmd; Constants.error_cmd] ∧
    int32 txn_id ∧ int32 seq_num ∧ 0 ≤ Errors.getErrorCode err ≤ INT32_MAX ∧
    len data ≤ INT32_MAX ∧ nul_free data = true.

(** Its bytes: a valid header and the data. *)
Lemma well_formed_reply_spec rep :
  well_formed_reply rep →
  ∃ header cmd txn_id seq_num code data, server_response rep = header ++ data ∧
    Z.of_nat (length header) = Constants.response_header_len ∧ isValidResponseFormat header = true ∧
    response_fields header = (cmd, txn_id, seq_num, code, len data) ∧
    len data ≤ INT32_MAX ∧ nul_free data = true ∧ nul_free header = true.
Proof.
  intros (cmd & txn_id & seq_num & err & data & ip & -> & Hcmd & Ht & Hs & He & Hd & Hn).
  assert (Hword : command_word cmd ∧ (length cmd ≤ 60)%nat).
  { rewrite !elem_of_cons, elem_of_nil in Hcmd. destruct Hcmd as [->|[->|[->|[]]]]; (split; [by split|simpl; lia]). }
  destruct Hword as [Hword Hl].
  destruct (generateResponse_spec cmd txn_id seq_num err data) as (h & E & Hh & Hv & Hf); [done..|].
  exists h, cmd, txn_id, seq_num, (Errors.getErrorCode err), data. unfold reply. simpl server_response.
  rewrite E. simpl. do 6 (split; [done|]).
  by apply valid_response_nul_free.
Qed.

Lemma well_formed_reply_nul_free rep : well_formed_reply rep → nul_free (server_response rep) = true.
Proof.
  intros (h & cmd & t & q & c & d & -> & _ & _ & _ & _ & Hd & Hh)%well_formed_reply_spec.
  apply forallb_app_iff. by split.
Qed.

Section replies.
Context `{PathResolution} (m_directory : bytes).

Lemma ack_cmds cmd :
  cmd = Constants.ack_cmd ∨ cmd = Constants.ask_resend_cmd ∨ cmd = Constants.error_cmd →
  cmd ∈ [Constants.ack_cmd; Constants.ask_resend_cmd; Constants.error_cmd].
Proof. rewrite !elem_of_cons. tauto. Qed.

Lemma error_messages_nul_free :
  map_Forall (λ _ msg, nul_free msg = true) Errors.messages.
Proof. apply (bool_decide_unpack _). by vm_compute. Qed.

Lemma error_reply_wf req e : request_ok req → known_error e = true → well_formed_reply (error_reply req e).
Proof.
  intros [] He. pose proof (known_error_code e He) as [Hc Hm].
  eexists _, _, _, _, _, _. split; [done|]. split; [apply ack_cmds; tauto|]. do 4 (split; [done|]).
  destruct e as [c|]; [|done]. unfold known_error in He. apply bool_decide_eq_true in He as [msg Hmsg].
  unfold Errors.getErrorMessage. rewrite Hmsg. by apply (error_messages_nul_free c).
Qed.

Lemma ack_reply_wf req ip : request_ok req → well_formed_reply (ack_reply req ip).
Proof.
  intros []. exists Constants.ack_cmd, (rq_txn_id req), (rq_seq_num req), Errors.nil, [], ip.
  split; [done|]. split; [apply ack_cmds; tauto|]. done.
Qed.

Lemma ask_resend_reply_wf req k ip : request_ok req → int32 k → well_formed_reply (ask_resend_reply req k ip).
Proof.
  intros [] Hk. exists Constants.ask_resend_cmd, (rq_txn_id req), k, Errors.nil, [], ip.
  split; [done|]. split; [apply ack_cmds; tauto|]. done.
Qed.

Lemma new_txn_reply_wf id ip : int32 id → well_formed_reply (new_txn_reply id ip).
Proof.
  intros Hid. exists Constants.ack_cmd, id, Constants.initial_seq_num, Errors.nil, [], ip.
  split; [done|]. split; [apply ack_cmds; tauto|]. done.
Qed.

Lemma read_reply_wf req c ip :
  request_ok req → len c < INT32_MAX → well_formed_reply (read_reply req (c_str c) ip).
Proof.
  intros [] Hc. exists Constants.ack_cmd, (rq_txn_id req), (rq_seq_num req), Errors.nil, (c_str c), ip.
  split; [done|]. split; [apply ack_cmds; tauto|]. do 3 (split; [done|]).
  split; [pose proof (c_str_length c); lia|apply c_str_nul_free].
Qed.

Ltac reply_wf :=
  lazymatch goal with
  | |- well_formed_reply (error_reply _ _) => apply error_reply_wf
  | |- well_formed_reply (ack_reply _ _) => apply ack_reply_wf
  end; done.

(** Every reply of the service reads back as its fields. *)
Lemma spec_step_reply now r calmly req ip sp fs rep sp' fs' s :
  request_ok req → servable m_directory req r s → fs = files s →
  spec_step m_directory now (candidate r) calmly req ip sp fs rep sp' fs' → well_formed_reply rep.
Proof.
  intros Hreq [Hread _ Hcommit] -> Hstep. destruct Hstep as
    [Hk|c Hc Hf|e Hc He|b fs' Hc Hs Hfree Hl Hb|Hc Hs|sp' rep Hc Hw|sp' rep Hc Hw|t sp' fs' rep Hc Hw Ho
    |sp' rep Hc Hn Ha|t b sp' fs' rep Hc Hn Hact Ha Hl Hb].
  - by apply error_reply_wf.
  - apply read_reply_wf; [done|by apply Hread].
  - apply error_reply_wf; [done|]. by destruct He as [[_ ->]|[_ [->| ->]]].
  - apply new_txn_reply_wf, candidate_int32.
  - by apply error_reply_wf.
  - unfold spec_WRITE in Hw. repeat case_hyp Hw; simplify_eq; reply_wf.
  - unfold spec_COMMIT in Hw. repeat case_hyp Hw; simplify_eq.
    1: by apply ack_reply_wf. 3: by apply error_reply_wf. 1: by apply error_reply_wf.
    apply ask_resend_reply_wf; [done|]. to_prop. destruct Hreq as [_ Hq _].
    unfold int32, INT32_MIN, INT32_MAX in *. pose proof (proj1 (least_missing_spec (t_buffers t))). lia.
  - destruct Ho; reply_wf.
  - unfold spec_ABORT in Ha. repeat case_hyp Ha; simplify_eq; reply_wf.
  - unfold spec_ABORT in Ha. repeat case_hyp Ha; simplify_eq; reply_wf.
Qed.
End replies.

(** ** Sessions *)

Section session.
Context `{PathResolution} `{HashOrder} (tid : nat) (in_directory : bytes) (stack_bytes : Z).

#[local] Existing Instance server_backend_ops.
#[local] Instance the_ops : BackendOps ServerBackend := server_backend_ops (directory_name in_directory).

Implicit Types (s : ServerBackend) (reqs : list RequestTuple) (reps : list Reply).

(** The backend on a list of requests: it stops after a reply that ends the transaction. *)
Fixpoint session reqs s : option (ServerBackend * list Reply) :=
  match reqs with
  | [] => Some (s, [])
  | req :: reqs =>
      '(rep, s) ← alone tid (initializeFunctionsAndTransactions (directory_name in_directory) ;;;
                             processCommand (directory_name in_directory) req true) s;
      if transaction_in_progress rep then
        '(s, reps) ← session reqs s; Some (s, rep :: reps)
      else Some (s, [rep])
  end.

(** The dispatcher takes the requests off the stream of a client that sends them one
    after the other, and sends the replies in the same order. *)
Lemma serve_stream_session fuel reqs s s' reps :
  Forall (sendable stack_bytes) reqs → fits stack_bytes 0 Constants.request_header_len = true →
  session reqs s = Some (s', reps) → Forall (λ rep, nul_free (server_response rep) = true) reps →
  (length (all_request_bytes reqs) < fuel)%nat →
  serve_stream tid stack_bytes fuel true s (all_request_bytes reqs) = Some (s', all_response_bytes reps).
Proof.
  intros Hsend Hfit. revert fuel s reps. induction reqs as [|req reqs IH]; intros fuel s reps Hs Hnul Hfuel;
    (destruct fuel as [|fuel]; [lia|]); cbn [serve_stream session] in *.
  - simplify_eq. unfold stream_turn. change backend_getRequestHeaderLength with Constants.request_header_len.
    rewrite Hfit. done.
  - apply Forall_cons in Hsend as [Hreq Hsend].
    destruct (request_bytes_spec stack_bytes req Hreq) as (h & Eb & Hh & Hv & Ht & Hlen).
    pose proof (send_fits _ _ Hreq) as Hroom.
    assert (Eall : all_request_bytes (req :: reqs) = h ++ rq_data req ++ all_request_bytes reqs).
    { unfold all_request_bytes. simpl. by rewrite Eb, <- app_assoc. }
    rewrite Eall in *. rewrite !length_app in Hfuel.
    unfold stream_turn. change backend_getRequestHeaderLength with Constants.request_header_len.
    replace (Z.to_nat Constants.request_header_len) with (length h) by lia.
    rewrite Hfit, (proj2 (Nat.ltb_ge _ _)) by (rewrite length_app; lia).
    rewrite take_app_length, drop_app_length.
    assert (Ecl : alone tid (backend_getContentLength h [] true) s =
      Some ({| cl_result := len (rq_data req); cl_server_response := []; cl_transaction_in_progress := true |}, s)).
    { unfold alone. change (backend_getContentLength h [] true) with
        (match getContentLength h [] true with Some cl => Ret (S := ServerBackend) cl | None => Halt Uncaught end).
      unfold getContentLength. rewrite Hv, Hlen. unfold run. simpl. by rewrite decide_True. }
    rewrite Ecl. cbn [mbind option_bind cl_result cl_server_response cl_transaction_in_progress].
    rewrite (proj2 (Z.ltb_ge _ 0)) by lia. rewrite Hroom, Nat2Z.id.
    rewrite (proj2 (Nat.ltb_ge _ _)) by (rewrite length_app; lia).
    rewrite take_app_length, drop_app_length.
    change (backend_processRequest h (rq_data req) [] true) with
      (processRequest (directory_name in_directory) h (rq_data req) true).
    unfold processRequest. rewrite Ht.
    destruct (alone tid _ s) as [[rep s1]|]; [|done]. cbn [mbind option_bind] in *.
    destruct (transaction_in_progress rep) eqn:Ep.
    + destruct (session reqs s1) as [[s2 reps2]|] eqn:Es; [|done]. cbn [mbind option_bind] in Hs. injection Hs as <- <-.
      apply Forall_cons in Hnul as [Hrep Hnul]. rewrite Hrep.
      rewrite (IH Hsend fuel s1 reps2 Es Hnul); [done|]. unfold Constants.request_header_len in Hh. lia.
    + injection Hs as <- <-. apply Forall_cons in Hnul as [Hrep _]. rewrite Hrep. unfold all_response_bytes. simpl.
      by rewrite app_nil_r.
Qed.

(** ** The abstract service of a session *)

Lemma spec_step_calm m_directory now fresh (c c' : Prop) req ip sp fs rep sp' fs' :
  (c' → c) → spec_step m_directory now fresh c req ip sp fs rep sp' fs' →
  spec_step m_directory now fresh c' req ip sp fs rep sp' fs'.
Proof.
  intros Hc Hstep. destruct Hstep as
    [Hk|d Hk Hf|e Hk He|b fs' Hk Hs Hfree Hl Hb|Hk Hs|sp' rep Hk Hw|sp' rep Hk Hw|t sp' fs' rep Hk Hw Ho
    |sp' rep Hk Hn Ha|t b sp' fs' rep Hk Hn Hact Ha Hl Hb].
  - by apply step_unknown.
  - by apply step_read.
  - apply step_read_failed; [done|]. destruct He as [?|[Hn ?]]; [by left|]. right. split; [|done]. auto.
  - eapply step_new_txn; eauto.
  - by apply step_new_txn_refused.
  - by apply step_write.
  - by apply step_commit_checked.
  - eapply step_commit; [done|done|]. destruct Ho as [b fs' Hl Hb|Hn|j size fs1 fs2 Hn Hj E Hs Htr].
    + eapply co_committed; eauto.
    + apply co_not_opened. auto.
    + eapply co_not_written; eauto.
  - by apply step_abort_refused.
  - eapply step_abort; eauto.
Qed.

(** A session of the service: the requests answered one after the other, until a reply
    ends the transaction. *)
Inductive spec_session (now : Z) (calmly : Prop) (sp : Spec) (fs : gmap bytes bytes) :
    list RequestTuple → list Reply → Spec → gmap bytes bytes → Prop :=
| session_nil : spec_session now calmly sp fs [] [] sp fs
| session_last req reqs fresh rep sp' fs' :
    spec_step (directory_name in_directory) now fresh calmly req true sp fs rep sp' fs' →
    transaction_in_progress rep = false →
    spec_session now calmly sp fs (req :: reqs) [rep] sp' fs'
| session_cons req reqs fresh rep reps sp1 fs1 sp' fs' :
    spec_step (directory_name in_directory) now fresh calmly req true sp fs rep sp1 fs1 →
    transaction_in_progress rep = true →
    spec_session now calmly sp1 fs1 reqs reps sp' fs' →
    spec_session now calmly sp fs (req :: reqs) (rep :: reps) sp' fs'.

Lemma spec_session_calm now (c c' : Prop) sp fs reqs reps sp' fs' :
  (c' → c) → spec_session now c sp fs reqs reps sp' fs' → spec_session now c' sp fs reqs reps sp' fs'.
Proof.
  intros Hc. induction 1; [constructor|eapply session_last|eapply session_cons];
    eauto using spec_step_calm.
Qed.

(** The server can answer every request of the session. *)
Fixpoint all_servable reqs s : Prop :=
  match reqs with
  | [] => True
  | req :: reqs =>
      (∃ r, servable (directory_name in_directory) req r s) ∧
      ∀ rep s', alone tid (initializeFunctionsAndTransactions (directory_name in_directory) ;;;
                           processCommand (directory_name in_directory) req true) s = Some (rep, s') →
        all_servable reqs s'
  end.

Lemma initialised_alone {A} (p : prog ServerBackend A) s :
  m_initialize s = false →
  alone tid (initializeFunctionsAndTransactions (directory_name in_directory) ;;; p) s = alone tid p s.
Proof.
  intros Hi. unfold alone, initializeFunctionsAndTransactions. rewrite run_bind. unfold run at 1. simpl.
  by rewrite Hi.
Qed.

Lemma session_spec reqs s :
  backend_ok s → m_initialize s = false → Forall request_ok reqs → all_servable reqs s →
  ∃ s' reps, session reqs s = Some (s', reps) ∧ backend_ok s' ∧ m_initialize s' = false ∧
    (calm s → calm s') ∧ Forall well_formed_reply reps ∧
    spec_session (w_now (backend_world s)) (calm s) (abs s) (files s) reqs reps (abs s') (files s').
Proof.
  revert s. induction reqs as [|req reqs IH]; intros s Hok Hi Hreqs Hserve.
  - exists s, []. do 5 (split; [done|]). constructor.
  - apply Forall_cons in Hreqs as [Hreq Hreqs]. destruct Hserve as [[r Hr] Hrest].
    cbn [session]. rewrite initialised_alone in * by done.
    destruct (wp_run _ _ _ _ _ _ (processCommand_spec (directory_name in_directory) tid req true r s Hok Hreq Hr))
      as (rep & ls & s1 & Hrun & -> & Hok1 & Hnow & Hcalm & Hi1 & Hstep).
    assert (Ea : alone tid (processCommand (directory_name in_directory) req true) s = Some (rep, s1)).
    { unfold alone. rewrite Hrun. by rewrite decide_True. }
    pose proof (spec_step_reply _ _ _ _ _ _ _ _ _ _ _ _ Hreq Hr eq_refl Hstep) as Hwf.
    rewrite Ea. cbn [mbind option_bind]. destruct (transaction_in_progress rep) eqn:Ep.
    + destruct (IH s1) as (s' & reps & Hs & Hok' & Hi' & Hcalm' & Hwf' & Hspec);
        [done|congruence|done|by apply (Hrest rep)|].
      exists s', (rep :: reps). rewrite Hs. split; [done|]. split; [done|]. split; [done|].
      split; [auto|]. split; [by constructor|]. rewrite Hnow in Hspec.
      eapply session_cons; [exact Hstep|done|]. by eapply spec_session_calm.
    + exists s1, [rep]. split; [done|]. split; [done|]. split; [congruence|]. split; [done|].
      split; [by repeat constructor|]. by eapply session_last.
Qed.
End session.
