(* ===== verification/Client.v ===== *)
(** * The client

    [Client] (client.h, client.cpp): the constructor, the requests it sends, the response
    it reads and prints, over its end of a connection.  The theorems: a request goes out
    as its bytes, a response is read as its fields however the network cuts it, and the
    calls of a client against the responses of a session. *)
From S2P Require Import Prelude Stdcxx Constants WireProtocol Messages Prog ReadWrite Posix Backend BackendSteps Dispatcher DispatcherSpec Session.
From Stdlib Require Import ZArith Lia List Ascii String Bool.
From stdpp Require Import base gmap strings list fin_maps sorting.
#[local] Set Default Goal Selector "!".
Local Open Scope Z_scope.

(** The client's end of its connection, and how many of its EXPECTs have failed. *)
Record Client := {
  m_socket : Connection;
  failed_expectations : nat
}.

Definition set_socket (c : Connection) (s : Client) : Client :=
  {| m_socket := c; failed_expectations := failed_expectations s |}.

Section client.
Context (stack_bytes : Z).

Abbreviation P A := (prog Client A) (only parsing).

(** [read] and [write] on the socket. *)
Definition client_read (_ n : nat) : P (option bytes) :=
  act (λ s, let '(r, l) := next_bytes n (c_incoming (m_socket s)) in
            (r, set_socket (set_incoming l (m_socket s)) s)).

Definition client_write (buf : bytes) : P (option nat) :=
  let! r := act (λ s,
    let c := m_socket s in
    match c_deliveries c with
    | [] => (Some (Some (length buf)), set_socket (deliver buf [] c) s)
    | Sent n :: l => (Some (Some (length (sent n buf))), set_socket (deliver (sent n buf) l c) s)
    | Failed :: l => (Some None, set_socket (deliver [] l c) s)
    | PeerGone :: l => (None, s)
    end) in
  match r with
  | Some r => Ret r
  | None => Halt Killed
  end.

Definition EXPECT_TRUE (b : bool) : P unit :=
  if b then Ret tt
  else modify (λ s, {| m_socket := m_socket s; failed_expectations := S (failed_expectations s) |}).

(** [readFileDescriptor] without a timeout, or [exit(EXIT_FAILURE)]. *)
Definition read_or_exit (n : Z) : P bytes :=
  let! r := readFileDescriptor client_read (Ret true) (Z.to_nat n) in
  if r.1 <? 0 then Halt ExitFailure else Ret r.2.

(** [char array[n + 1]]: the length an array has is positive and fits the stack. *)
Definition client_array (used n : Z) : P unit :=
  if (0 <=? n) && fits stack_bytes used n then Ret tt else Halt Undefined.

(** The constructor: [socket] and [connect] succeed or the process ends. *)
Definition initializeSocket (m_sockfd : Z) : P unit :=
  if m_sockfd <? 0 then Halt ExitFailure else Ret tt.

Definition connectToServer (connected : bool) : P unit :=
  if connected then Ret tt else Halt ExitFailure.

Definition Client_ctor (m_sockfd : Z) (connected : bool) : P unit :=
  initializeSocket m_sockfd ;;; connectToServer connected.

(** [~Client] *)
Definition Client_dtor : P unit := modify (λ s, set_socket (closed (m_socket s)) s).

Definition getResponse : P ResponseTuple :=
  client_array 0 Constants.response_header_len ;;;
  let! response_header := read_or_exit Constants.response_header_len in
  EXPECT_TRUE (isValidResponseFormat response_header) ;;;
  let content_len := rs_content_len (getServerResponseAsTuple response_header []) in
  client_array (Constants.response_header_len + 1) content_len ;;;
  let! response_payload := read_or_exit content_len in
  Ret (getServerResponseAsTuple response_header response_payload).

(** [writeFileDescriptor], or [exit(EXIT_FAILURE)]. *)
Definition write_or_exit (request : bytes) : P unit :=
  let! ret := writeFileDescriptor client_write request in
  if ret <? 0 then Halt ExitFailure else Ret tt.

(** The value-initialised [ResponseTuple()]. *)
Definition empty_response : ResponseTuple :=
  {| rs_command := []; rs_txn_id := 0; rs_seq_num := 0; rs_error_code := 0; rs_content_len := 0;
     rs_data := [] |}.

(** The private [sendRequest]. *)
Definition sendRequest_ (in_command : bytes) (in_txn_id in_seq_num : Z) (in_data : bytes)
    (in_expectResponse : bool) : P ResponseTuple :=
  match generateRequest in_command in_txn_id in_seq_num in_data with
  | None => Halt Uncaught
  | Some request =>
      write_or_exit request ;;;
      if in_expectResponse then getResponse else Ret empty_response
  end.

Definition sendRequest (in_command : bytes) (in_txn_id in_seq_num : Z) (in_data : bytes) : P unit :=
  let! _ := sendRequest_ in_command in_txn_id in_seq_num in_data false in Ret tt.

Definition sendRequestGetResponse (in_command : bytes) (in_txn_id in_seq_num : Z) (in_data : bytes)
    : P ResponseTuple :=
  sendRequest_ in_command in_txn_id in_seq_num in_data true.

(** [strlen(in_raw_request) == in_raw_request_len] is asserted here and again by
    [writeFileDescriptor]. *)
Definition sendRawRequestGetResponse (in_raw_request : bytes) : P ResponseTuple :=
  assert_that (nul_free in_raw_request) ;;;
  write_or_exit in_raw_request ;;;
  getResponse.

(** The line [printResponse] prints. *)
Definition printResponse (r : ResponseTuple) : bytes :=
  rs_command r ++ str " " ++ to_string (rs_txn_id r) ++ str " " ++ to_string (rs_seq_num r) ++ str " " ++
  to_string (rs_error_code r) ++ str " " ++ to_string (rs_content_len r) ++ str " " ++ rs_data r ++
  [ascii_of_nat 10].
End client.

(** ** What is still to come on a connection read without a timeout *)

Fixpoint coming (l : list incoming) : bytes :=
  match l with
  | Chunk (c :: b) :: l => (c :: b) ++ coming l
  | Silence :: l => coming l
  | _ => []
  end.

Lemma next_bytes_coming n l :
  (0 < n)%nat →
  match next_bytes n l with
  | (Some b, l') => coming l = b ++ coming l' ∧ (length b ≤ n)%nat ∧ (b = [] → coming l = [])
  | (None, l') => coming l = [] ∧ coming l' = []
  end.
Proof.
  intros Hn. induction l as [|[[|x b]| |] l IH]; cbn [next_bytes coming].
  - split; [done|]. split; [simpl; lia|done].
  - split; [done|]. split; [simpl; lia|done].
  - split; [|split].
    + rewrite <- (take_drop n (x :: b)) at 1. rewrite <- app_assoc. f_equal. by destruct (drop n (x :: b)).
    + rewrite length_take. lia.
    + by destruct n; [lia|].
  - exact IH.
  - by split.
Qed.

Section spec.
Context (tid : nat) (stack_bytes : Z).
Implicit Types (s : Client).

Definition everywhere (s : Client) : Prop := True.

Definition with_incoming (l : list incoming) s : Client := set_socket (set_incoming l (m_socket s)) s.

Definition arriving s : bytes := coming (c_incoming (m_socket s)).

(** Reading what has come. *)
Lemma read_or_exit_spec s n :
  (Z.to_nat n ≤ length (arriving s))%nat →
  wp tid everywhere (read_or_exit n) ∅ s (λ out ls' s', ls' = ∅ ∧
    out = take (Z.to_nat n) (arriving s) ∧
    ∃ l, s' = with_incoming l s ∧ coming l = drop (Z.to_nat n) (arriving s)).
Proof.
  intros Hn. unfold read_or_exit. wp_step.
  set (I := λ k s', ∃ l, s' = with_incoming l s ∧ coming l = drop k (arriving s)).
  eapply wp_mono; [eapply (readFileDescriptor_spec _ _ tid ∅ everywhere I I (arriving s) (Z.to_nat n) False)|done|].
  - done.
  - intros off m s' (l & -> & Hl) Hoff Hm. apply wp_act; [done|done|]. cbn [m_socket with_incoming set_socket set_incoming c_incoming].
    pose proof (next_bytes_coming m l Hm) as Hspec.
    assert (Hmore : coming l ≠ []).
    { rewrite Hl. intros E%drop_nil_inv. lia. }
    destruct (next_bytes m l) as [[chunk|] l']; cbn [fst snd]; (split; [done|]); [|by destruct Hspec].
    destruct Hspec as (Hst & Hlen & Hne). split; [|split; [|split; [done|]]].
    + exists l'. split; [done|]. rewrite <- drop_drop, <- Hl, Hst. by rewrite drop_app_length.
    + rewrite <- Hl, Hst. by apply prefix_app_r.
    + intros E. by apply Hmore, Hne.
  - intros k s' Hs Hk. apply wp_ret; [done|]. by split.
  - exists (c_incoming (m_socket s)). split; [by destruct s as [[]]|done].
  - intros [ret out] ls' s' _ (-> & (l & -> & Hl) & [rest Hp] & Hret & Hend). simpl in *.
    destruct Hret as [[-> E]|[_ Hlt]]; [|by apply Hend in Hlt].
    rewrite (proj2 (Z.ltb_ge _ 0)) by lia. apply wp_ret; [done|]. split; [done|]. rewrite <- E.
    split; [by rewrite Hp, take_app_length|]. by exists l.
Qed.

(** A response read from the bytes of one. *)
Lemma getResponse_spec s header cmd txn_id seq_num code data rest :
  arriving s = header ++ data ++ rest → Z.of_nat (length header) = Constants.response_header_len →
  isValidResponseFormat header = true → response_fields header = (cmd, txn_id, seq_num, code, len data) →
  fits stack_bytes 0 Constants.response_header_len = true →
  fits stack_bytes (Constants.response_header_len + 1) (len data) = true →
  wp tid everywhere (getResponse stack_bytes) ∅ s (λ r ls' s', ls' = ∅ ∧
    r = {| rs_command := cmd; rs_txn_id := txn_id; rs_seq_num := seq_num; rs_error_code := code;
           rs_content_len := len data; rs_data := c_str data |} ∧
    ∃ l, s' = with_incoming l s ∧ coming l = rest).
Proof.
  intros Ha Hh Hv Hf Hfit1 Hfit2. unfold getResponse, client_array.
  wp_step. rewrite (proj2 (Z.leb_le 0 Constants.response_header_len)), andb_true_l, Hfit1 by done. wp_step.
  assert (Hn : Z.to_nat Constants.response_header_len = length header) by lia.
  wp_step. eapply wp_mono; [apply read_or_exit_spec; rewrite Hn, Ha, length_app; lia|done|].
  intros out ls1 s1 _ (-> & -> & l & -> & Hl). rewrite Hn, Ha in *.
  rewrite take_app_length, drop_app_length in *. cbv beta. wp_step. unfold EXPECT_TRUE. rewrite Hv. wp_step.
  unfold getServerResponseAsTuple. rewrite Hf. cbn [rs_content_len].
  wp_step. rewrite (proj2 (Z.leb_le 0 (len data))), andb_true_l, Hfit2 by lia. wp_step. wp_step.
  assert (Ha' : arriving (with_incoming l s) = data ++ rest) by exact Hl.
  eapply wp_mono; [apply read_or_exit_spec; rewrite Ha', length_app; lia|done|].
  intros out ls2 s2 _ (-> & -> & l2 & -> & Hl2). rewrite Ha', Nat2Z.id, take_app_length, drop_app_length in *.
  wp_step. split; [done|]. split; [done|]. by exists l2.
Qed.

(** Sending: the bytes of the request, whatever the sizes of the single writes. *)
Lemma write_or_exit_spec s request :
  nul_free request = true → Forall delivered (c_deliveries (m_socket s)) →
  wp tid everywhere (write_or_exit request) ∅ s (λ _ ls' s', ls' = ∅ ∧
    ∃ l, s' = set_socket (deliver request l (m_socket s)) s ∧ Forall delivered l).
Proof.
  intros Hn Hd. unfold write_or_exit. wp_step.
  set (J := λ k s', ∃ l, s' = set_socket (deliver (take k request) l (m_socket s)) s ∧ Forall delivered l).
  eapply wp_mono; [eapply (writeFileDescriptor_spec _ tid ∅ everywhere request J False)|done|].
  - done.
  - intros k s' (l & -> & Hl) Hk. unfold client_write. wp_step. apply wp_act; [done|done|].
    assert (Hdel : ∀ n l', deliver (take n (drop k request)) l' (deliver (take k request) l (m_socket s)) =
                           deliver (take (k + n) request) l' (m_socket s)).
    { intros n l'. unfold deliver. simpl. by rewrite <- app_assoc, take_take_drop. }
    cbn [m_socket set_socket c_deliveries deliver].
    destruct l as [|[n| |] l]; cbn [fst snd]; [..|by apply Forall_cons in Hl as [? _]|by apply Forall_cons in Hl as [? _]];
      (apply wp_ret; [done|]; split; [done|]).
    + pose proof (Hdel (length (drop k request)) []) as E. rewrite firstn_all in E.
      rewrite length_drop. split; [lia|]. split; [lia|]. exists []. split; [|done].
      unfold set_socket. simpl. f_equal. rewrite length_drop in E. exact E.
    + unfold sent. rewrite length_take, length_drop. split; [lia|]. split; [lia|].
      apply Forall_cons in Hl as [_ Hl]. exists l. split; [|done]. unfold set_socket. simpl. f_equal.
      rewrite Hdel. unfold deliver. f_equal. f_equal.
      destruct (decide (Nat.max 1 n ≤ length request - k)%nat); [by rewrite Nat.min_l|].
      rewrite Nat.min_r by lia. rewrite !firstn_all2 by lia. done.
  - done.
  - exists (c_deliveries (m_socket s)). split; [|done]. destruct s as [[] ?]. unfold deliver, set_socket. simpl.
    by rewrite app_nil_r.
  - intros ret ls' s' _ (-> & k & (l & -> & Hl) & Hret & HF).
    destruct Hret as [[-> ->]|[_ Hk]]; [|by destruct (HF Hk)].
    rewrite (proj2 (Z.ltb_ge _ 0)) by lia. apply wp_ret; [done|]. split; [done|]. exists l. by rewrite firstn_all.
Qed.
End spec.
