(* ===== verification/SessionProps.v ===== *)
(** * Properties of whole sessions

    The composition of the parts: client, connection, dispatcher, backend.  What a client
    sends is what the backend is asked; what the backend replies is what the client reads;
    and a session over a connection refines the abstract service. *)
From S2P Require Import Prelude Stdcxx Constants WireProtocol Messages Prog ReadWrite Posix File Backend Recovery BackendInv BackendSteps BackendSpec CommitSpec Service BackendProps Dispatcher DispatcherSpec Server Session Client.
From Stdlib Require Import ZArith Lia List Ascii String Bool.
From stdpp Require Import base gmap strings list fin_maps sorting.
#[local] Set Default Goal Selector "!".
Local Open Scope Z_scope.

(** ** A client that makes one call after the other *)

Fixpoint calls (stack_bytes : Z) (reqs : list RequestTuple) : prog Client (list ResponseTuple) :=
  match reqs with
  | [] => Ret []
  | req :: reqs =>
      let! r := sendRequestGetResponse stack_bytes (rq_command req) (rq_txn_id req) (rq_seq_num req) (rq_data req) in
      let! rs := calls stack_bytes reqs in
      Ret (r :: rs)
  end.

(** What a client reads of a reply. *)
Definition reply_tuple (rep : Reply) : ResponseTuple :=
  let n := Z.to_nat Constants.response_header_len in
  getServerResponseAsTuple (take n (server_response rep)) (drop n (server_response rep)).

(** The client has room for the reply. *)
Definition receivable (stack_bytes : Z) (rep : Reply) : Prop :=
  fits stack_bytes (Constants.response_header_len + 1)
    (len (server_response rep) - Constants.response_header_len) = true.

Section calls.
Context (tid : nat) (stack_bytes : Z).

Lemma request_bytes_nul_free req : sendable stack_bytes req → nul_free (request_bytes req) = true.
Proof.
  intros Hs. destruct (request_bytes_spec stack_bytes req Hs) as (h & -> & Hh & Hv & _).
  apply forallb_app_iff. split; [by apply valid_request_nul_free|apply Hs].
Qed.

Lemma generateRequest_bytes req :
  sendable stack_bytes req →
  generateRequest (rq_command req) (rq_txn_id req) (rq_seq_num req) (rq_data req) = Some (request_bytes req).
Proof.
  intros Hs. pose proof Hs as [[Hc Hl] [] Hlen Hf]. unfold fits in Hf. apply andb_true_iff in Hf as [Hmax _].
  apply Z.ltb_lt in Hmax. unfold request_bytes.
  destruct (generateRequest_spec (rq_command req) (rq_txn_id req) (rq_seq_num req) (rq_data req))
    as (h & -> & _); [done..|lia|done].
Qed.

Lemma call_spec req rep rest s :
  sendable stack_bytes req → well_formed_reply rep → receivable stack_bytes rep →
  fits stack_bytes 0 Constants.response_header_len = true →
  Forall delivered (c_deliveries (m_socket s)) → arriving s = server_response rep ++ rest →
  wp tid everywhere (sendRequestGetResponse stack_bytes (rq_command req) (rq_txn_id req) (rq_seq_num req) (rq_data req)) ∅ s
    (λ r ls' s', ls' = ∅ ∧ r = reply_tuple rep ∧ arriving s' = rest ∧
      c_sent (m_socket s') = c_sent (m_socket s) ++ request_bytes req ∧
      failed_expectations s' = failed_expectations s ∧ Forall delivered (c_deliveries (m_socket s'))).
Proof.
  intros Hreq Hrep Hroom Hfit Hd Ha. unfold sendRequestGetResponse, sendRequest_.
  rewrite (generateRequest_bytes _ Hreq). wp_step.
  eapply wp_mono; [apply write_or_exit_spec; [by apply request_bytes_nul_free|done]|done|].
  intros [] ls1 s1 _ (-> & l & -> & Hd'). cbv beta iota.
  destruct (well_formed_reply_spec rep Hrep) as (h & cmd & t & q & code & data & E & Hh & Hv & Hf & Hmax & Hn & Hnh).
  unfold receivable in Hroom. rewrite E, length_app in Hroom. rewrite E, <- app_assoc in Ha.
  eapply wp_mono; [eapply (getResponse_spec tid stack_bytes _ h cmd t q code data rest)|done|].
  - exact Ha.
  - done.
  - done.
  - done.
  - done.
  - by replace (len data) with (Z.of_nat (length h + length data) - Constants.response_header_len) by lia.
  - intros r ls2 s2 _ (-> & -> & l2 & -> & Hl2). split; [done|]. split; [|done].
    unfold reply_tuple. replace (Z.to_nat Constants.response_header_len) with (length h) by lia.
    rewrite E, take_app_length, drop_app_length. unfold getServerResponseAsTuple. by rewrite Hf.
Qed.

Lemma calls_spec reqs reps rest s :
  Forall (sendable stack_bytes) reqs → Forall well_formed_reply reps → Forall (receivable stack_bytes) reps →
  length reps = length reqs → fits stack_bytes 0 Constants.response_header_len = true →
  Forall delivered (c_deliveries (m_socket s)) → arriving s = all_response_bytes reps ++ rest →
  wp tid everywhere (calls stack_bytes reqs) ∅ s (λ rs ls' s', ls' = ∅ ∧ rs = reply_tuple <$> reps ∧
    c_sent (m_socket s') = c_sent (m_socket s) ++ all_request_bytes reqs ∧
    failed_expectations s' = failed_expectations s ∧ arriving s' = rest).
Proof.
  intros Hreqs. revert reps s. induction Hreqs as [|req reqs Hreq _ IH]; intros reps s Hwf Hroom Hlen Hfit Hd Ha;
    destruct reps as [|rep reps]; try done; cbn [calls].
  - apply wp_ret; [done|]. split; [done|]. split; [done|]. split; [by rewrite app_nil_r|done].
  - apply Forall_cons in Hwf as [Hrep Hwf]. apply Forall_cons in Hroom as [Hr Hroom].
    assert (E : all_response_bytes (rep :: reps) ++ rest = server_response rep ++ all_response_bytes reps ++ rest)
      by (unfold all_response_bytes; simpl; by rewrite <- app_assoc).
    eapply wp_seq; [eapply (call_spec req rep); [done..|by rewrite Ha]|].
    intros r ls1 s1 _ (-> & -> & Ha1 & Hs1 & Hf1 & Hd1).
    eapply wp_seq; [eapply (IH reps); [done|done|by simpl in Hlen; lia|done|done|exact Ha1]|].
    intros rs ls2 s2 _ (-> & -> & Hs2 & Hf2 & Ha2). apply wp_ret; [done|]. split; [done|]. split; [done|].
    split; [|split; [congruence|done]]. rewrite Hs2, Hs1, <- app_assoc. done.
Qed.
End calls.

(** ** Properties *)

Section properties.
Context `{PathResolution} `{HashOrder} (tid : nat) (in_directory : bytes) (stack_bytes : Z).

(** C2. A session over a connection refines the service: when the bytes arriving on a
    connection are those of a list of requests, in whatever pieces, the connection thread
    of the server answers them in order up to the first reply that ends the transaction,
    sends exactly the replies, closes the connection, keeps the invariant of the backend,
    and replies, state and files are those of a session of the abstract service. *)
Theorem server_session fd fuel d c reqs :
  0 ≤ fd ≤ Constants.max_sockfd → connections d !! fd = Some c → c_open c = true →
  Forall delivered (c_deliveries c) → stream (c_incoming c) = all_request_bytes reqs →
  (length (all_request_bytes reqs) < fuel)%nat →
  fits stack_bytes 0 Constants.request_header_len = true → Forall (sendable stack_bytes) reqs →
  backend_ok (m_backend d) → m_initialize (m_backend d) = false →
  all_servable tid in_directory reqs (m_backend d) →
  ∃ d' c' reps, run tid (Server_connection stack_bytes in_directory fuel fd) ∅ d = Done tt ∅ d' ∧
    connections d' !! fd = Some c' ∧ c_sent c' = c_sent c ++ all_response_bytes reps ∧ c_open c' = false ∧
    backend_ok (m_backend d') ∧ Forall well_formed_reply reps ∧
    spec_session in_directory (w_now (backend_world (m_backend d))) (calm (m_backend d))
      (abs (m_backend d)) (files (m_backend d)) reqs reps (abs (m_backend d')) (files (m_backend d')).
Proof.
  intros Hfd Hc Ho Hd Hst Hfuel Hfit Hsend Hok Hi Hserve.
  destruct (session_spec tid in_directory reqs (m_backend d) Hok Hi) as
    (s' & reps & Hs & Hok' & _ & _ & Hwf & Hspec); [|done|].
  { eapply Forall_impl; [exact Hsend|]. by intros req []. }
  destruct (processRequest_spec (H := server_backend_ops (directory_name in_directory)) tid
    Constants.max_sockfd Constants.connection_timeout_seconds stack_bytes fd fuel d c s'
    (all_response_bytes reps)) as (l & dl & Hrun);
    [exact Hfd|reflexivity|reflexivity|exact Hc|exact Ho|exact Hd|by rewrite Hst| |].
  { rewrite Hst. refine (serve_stream_session tid in_directory stack_bytes _ reqs _ s' reps Hsend Hfit Hs _ _); [|lia].
    eapply Forall_impl; [exact Hwf|]. apply well_formed_reply_nul_free. }
  eexists _, _, reps. split; [exact Hrun|]. split; [apply lookup_insert_eq|]. done.
Qed.

(** C20. The client reads what the server replied: over a connection that brings the bytes
    of the replies, in whatever pieces and after whatever delays, a client that makes the
    calls one after the other sends exactly the bytes of its requests, reads for each call
    the fields and data of its reply, and no expectation fails. *)
Theorem client_calls reqs reps s :
  Forall (sendable stack_bytes) reqs → Forall well_formed_reply reps → Forall (receivable stack_bytes) reps →
  length reps = length reqs → fits stack_bytes 0 Constants.response_header_len = true →
  Forall delivered (c_deliveries (m_socket s)) → coming (c_incoming (m_socket s)) = all_response_bytes reps →
  ∃ s', run tid (calls stack_bytes reqs) ∅ s = Done (reply_tuple <$> reps) ∅ s' ∧
    c_sent (m_socket s') = c_sent (m_socket s) ++ all_request_bytes reqs ∧
    failed_expectations s' = failed_expectations s.
Proof.
  intros Hreqs Hwf Hroom Hlen Hfit Hd Ha.
  destruct (wp_run _ _ _ _ _ _ (calls_spec tid stack_bytes reqs reps [] s Hreqs Hwf Hroom Hlen Hfit Hd
    (eq_trans Ha (eq_sym (app_nil_r _))))) as (rs & ls & s' & Hrun & -> & -> & Hs & Hf & _).
  by exists s'.
Qed.
End properties.

(** ** Witnesses *)

Section witnesses.
#[local] Existing Instance sample_resolution.

#[local] Instance session_order : HashOrder :=
  {| iterate K A _ _ m := map_to_list m; iterate_perm K A _ _ m := reflexivity _ |}.

(** A client that adds a third buffer to the sample transaction and commits it. *)
Definition session_requests : list RequestTuple :=
  [sample_request Constants.write_cmd 5 3 (str "gh"); sample_request Constants.commit_cmd 5 3 []].

Definition session_client : Connection :=
  {| c_incoming := [Chunk (take 70 (all_request_bytes session_requests));
                    Chunk (drop 70 (all_request_bytes session_requests))];
     c_deliveries := [Sent 3]; c_sent := []; c_open := true |}.

Definition session_dispatcher : ServerDispatcher ServerBackend :=
  {| m_backend := set_initialize false sample_backend; m_sockfd := 4; m_rfds := {[3; 4]};
     connections := {[4 := session_client]}; arrivals := []; threads := [4]; woken := []; spurious := [] |}.

Lemma session_sendable : Forall (sendable 10000) session_requests.
Proof.
  repeat constructor; try done; by apply sample_request_ok.
Qed.

Lemma session_servable : all_servable 1 [] session_requests (set_initialize false sample_backend).
Proof.
  split; [exists 0; by split|]. intros rep s' _. split; [|done]. exists 0. by split.
Qed.

Lemma server_session_witness :
  ∃ d' c' reps, run 1 (Server_connection 10000 [] 1000 4) ∅ session_dispatcher = Done tt ∅ d' ∧
    connections d' !! 4 = Some c' ∧ c_sent c' = all_response_bytes reps ∧ c_open c' = false ∧
    backend_ok (m_backend d').
Proof.
  unshelve epose proof (server_session 1 [] 10000 4 1000 session_dispatcher session_client session_requests
    _ _ _ _ _ _ _ _ _ _ _) as W.
  - by unfold Constants.max_sockfd.
  - done.
  - done.
  - by repeat constructor.
  - by vm_compute.
  - vm_compute. lia.
  - by vm_compute.
  - exact session_sendable.
  - by apply (ok_frame sample_backend), sample_backend_ok.
  - done.
  - exact session_servable.
  - destruct W as (d' & c' & reps & H1 & H2 & H3 & H4 & H5 & _).
    exists d', c', reps. exact (conj H1 (conj H2 (conj H3 (conj H4 H5)))).
Defined.

Definition session_replies : list Reply :=
  [ack_reply (sample_request Constants.write_cmd 5 3 (str "gh")) true;
   ask_resend_reply (sample_request Constants.commit_cmd 5 3 []) 2 true].

(** The client's end: the replies come in two pieces with a pause between them. *)
Definition session_caller : Client :=
  {| m_socket := {| c_incoming := [Chunk (take 100 (all_response_bytes session_replies)); Silence;
                                   Chunk (drop 100 (all_response_bytes session_replies))];
                    c_deliveries := [Sent 5]; c_sent := []; c_open := true |};
     failed_expectations := 0 |}.

Lemma client_calls_witness :
  ∃ s', run 1 (calls 10000 session_requests) ∅ session_caller = Done (reply_tuple <$> session_replies) ∅ s' ∧
    c_sent (m_socket s') = all_request_bytes session_requests ∧ failed_expectations s' = 0%nat.
Proof.
  apply (client_calls 1 10000 session_requests session_replies session_caller).
  - exact session_sendable.
  - repeat constructor; [apply ack_reply_wf|apply ask_resend_reply_wf; [|done]]; by apply sample_request_ok.
  - repeat constructor; by vm_compute.
  - done.
  - by vm_compute.
  - by repeat constructor.
  - by vm_compute.
Defined.
End witnesses.
