(* ===== verification/GoogleTest.v ===== *)
(** * The assertions of the test program

    The part of Google Test's headers the tests are written with: the outcomes of test
    parts (gtest-test-part.h), the comparison helpers and the EXPECT_ and ASSERT_ macros
    (gtest.h, gtest_pred_impl.h, internal/gtest-internal.h).  The compiled half of the
    library is not in the repository: the comparison of C strings, which only it defines,
    is a parameter with its documented meaning.  The texts of messages are left out. *)
From S2P Require Import Prelude Stdcxx Prog.
From Stdlib Require Import ZArith Lia List Ascii String Bool.
From stdpp Require Import base gmap strings list fin_maps sorting.
#[local] Set Default Goal Selector "!".
Local Open Scope Z_scope.

(** ** Test parts *)

Inductive Type_ := kSuccess | kNonFatalFailure | kFatalFailure.

#[export] Instance Type_eq_dec : EqDecision Type_.
Proof. solve_decision. Defined.

Record TestPartResult := {
  type_ : Type_;
  file_name_ : bytes;
  line_number_ : Z
}.

#[export] Instance TestPartResult_eq_dec : EqDecision TestPartResult.
Proof. solve_decision. Defined.

(** The constructor: a null file name becomes the empty string. *)
Definition TestPartResult_ctor (a_type : Type_) (a_file_name : option bytes) (a_line_number : Z)
    : TestPartResult :=
  {| type_ := a_type; file_name_ := default [] a_file_name; line_number_ := a_line_number |}.

Definition file_name (r : TestPartResult) : option bytes :=
  if decide (file_name_ r = []) then None else Some (c_str (file_name_ r)).

Definition passed (r : TestPartResult) : bool := bool_decide (type_ r = kSuccess).
Definition failed (r : TestPartResult) : bool := bool_decide (type_ r ≠ kSuccess).
Definition nonfatally_failed (r : TestPartResult) : bool := bool_decide (type_ r = kNonFatalFailure).
Definition fatally_failed (r : TestPartResult) : bool := bool_decide (type_ r = kFatalFailure).

(** A state that records the results of test parts, as [AssertHelper] does. *)
Class Reporter (S : Type) := report : TestPartResult → S → S.

(** ** Comparison helpers *)

Section compare.
Context {T1 T2 : Type}.

(** [CmpHelperEQ], with the [==] of the two types. *)
Definition CmpHelperEQ (eq : T1 → T2 → bool) (lhs : T1) (rhs : T2) : bool := if eq lhs rhs then true else false.

(** [EqHelper<lhs_is_null_literal>::Compare], for a right-hand side that is no pointer:
    both instances compare the same way. *)
Definition EqHelper_Compare (lhs_is_null_literal : bool) (eq : T1 → T2 → bool) (lhs : T1) (rhs : T2) : bool :=
  if lhs_is_null_literal then CmpHelperEQ eq lhs rhs else CmpHelperEQ eq lhs rhs.

(** [GTEST_IMPL_CMP_HELPER_(op_name, op)] *)
Definition GTEST_IMPL_CMP_HELPER_ (op : T1 → T2 → bool) (val1 : T1) (val2 : T2) : bool :=
  if op val1 val2 then true else false.
End compare.

(** [!=] and [>] of [int]s, [==] of two [int]s, and [==] of an [unsigned] and an [int], which
    converts the [int]. *)
Definition CmpHelperNE : Z → Z → bool := GTEST_IMPL_CMP_HELPER_ (λ a b, negb (a =? b)).
Definition CmpHelperGT : Z → Z → bool := GTEST_IMPL_CMP_HELPER_ (λ a b, b <? a).
Definition unsigned_eq (a b : Z) : bool := a =? b mod 2 ^ 32.

(** [!=] of [std::string]s and C strings. *)
Definition CmpHelperNE_string : bytes → bytes → bool :=
  GTEST_IMPL_CMP_HELPER_ (λ a b, negb (bool_decide (a = b))).

(** "Tests that s1 == s2", for C strings that are not null. *)
Class GoogleTest := {
  CmpHelperSTREQ : bytes → bytes → bool;
  CmpHelperSTREQ_spec s1 s2 : CmpHelperSTREQ s1 s2 = true ↔ c_str s1 = c_str s2
}.

(** ** Assertions

    A statement of a test body returns whether the body goes on: a failed ASSERT_ returns
    from it.  [p ;;! q] is [p] followed by the rest [q] of the body. *)
Notation "p ;;! q" := (bind p (λ go : bool, if go then q else Ret tt))
  (at level 199, right associativity, format "'[v' p ;;! '/' q ']'") : prog_scope.

Section assertions.
Context {S : Type} `{Reporter S} `{GoogleTest} (file : bytes).

Abbreviation P A := (prog S A) (only parsing).

Definition GTEST_MESSAGE_ (line : Z) (result_type : Type_) : P unit :=
  modify (report (TestPartResult_ctor result_type (Some file) line)).

Definition GTEST_NONFATAL_FAILURE_ (line : Z) : P bool :=
  GTEST_MESSAGE_ line kNonFatalFailure ;;; Ret true.

Definition GTEST_FATAL_FAILURE_ (line : Z) : P bool :=
  GTEST_MESSAGE_ line kFatalFailure ;;; Ret false.

Definition GTEST_ASSERT_ (expression : bool) (on_failure : P bool) : P bool :=
  if expression then Ret true else on_failure.

Definition GTEST_TEST_BOOLEAN_ (expression : bool) (fail : P bool) : P bool :=
  if expression then Ret true else fail.

Definition GTEST_PRED_FORMAT2_ {T1 T2} (pred_format : T1 → T2 → bool) (v1 : T1) (v2 : T2) (on_failure : P bool)
    : P bool :=
  GTEST_ASSERT_ (pred_format v1 v2) on_failure.

Definition EXPECT_PRED_FORMAT2 {T1 T2} (line : Z) (pred_format : T1 → T2 → bool) (v1 : T1) (v2 : T2) : P bool :=
  GTEST_PRED_FORMAT2_ pred_format v1 v2 (GTEST_NONFATAL_FAILURE_ line).

Definition ASSERT_PRED_FORMAT2 {T1 T2} (line : Z) (pred_format : T1 → T2 → bool) (v1 : T1) (v2 : T2) : P bool :=
  GTEST_PRED_FORMAT2_ pred_format v1 v2 (GTEST_FATAL_FAILURE_ line).

Definition EXPECT_TRUE (line : Z) (condition : bool) : P bool :=
  GTEST_TEST_BOOLEAN_ condition (GTEST_NONFATAL_FAILURE_ line).
Definition ASSERT_FALSE (line : Z) (condition : bool) : P bool :=
  GTEST_TEST_BOOLEAN_ (negb condition) (GTEST_FATAL_FAILURE_ line).

Definition EXPECT_EQ (line : Z) (val1 val2 : Z) : P bool :=
  EXPECT_PRED_FORMAT2 line (EqHelper_Compare false Z.eqb) val1 val2.
(** [EXPECT_EQ(0u, val2)]: the literal is one of null pointers. *)
Definition EXPECT_EQ_0u (line : Z) (val2 : Z) : P bool :=
  EXPECT_PRED_FORMAT2 line (EqHelper_Compare true unsigned_eq) 0 val2.
Definition EXPECT_NE (line : Z) (val1 val2 : Z) : P bool := EXPECT_PRED_FORMAT2 line CmpHelperNE val1 val2.
Definition EXPECT_GT (line : Z) (val1 val2 : Z) : P bool := EXPECT_PRED_FORMAT2 line CmpHelperGT val1 val2.
Definition ASSERT_NE (line : Z) (val1 val2 : Z) : P bool := ASSERT_PRED_FORMAT2 line CmpHelperNE val1 val2.
Definition ASSERT_NE_string (line : Z) (val1 val2 : bytes) : P bool :=
  ASSERT_PRED_FORMAT2 line CmpHelperNE_string val1 val2.
Definition EXPECT_STREQ (line : Z) (s1 s2 : bytes) : P bool :=
  EXPECT_PRED_FORMAT2 line CmpHelperSTREQ s1 s2.
End assertions.
