(* ===== verification/Scenarios.v ===== *)
(** * The tests, run against the server

    client-server-test.cpp over the modelled server: the test process holds its clients
    and calls them; what a client sends arrives at the connection thread of the server,
    which serves the requests it has received and whose responses arrive at the client.
    Requests are served one at a time, in the order the clients send them; the test whose
    clients run in parallel is given the order in which their requests arrive. *)
From S2P Require Import Prelude Stdcxx Constants WireProtocol Messages Prog ReadWrite Posix File Backend Recovery Arguments Dispatcher Server Client GoogleTest.
From Stdlib Require Import ZArith Lia List Ascii String Bool.
From stdpp Require Import base gmap strings list fin_maps sorting.
#[local] Set Default Goal Selector "!".
Local Open Scope Z_scope.

(** ** The state of a test run *)

Record Testing := {
  t_server : ServerDispatcher ServerBackend;
  t_clients : gmap Z Client;             (* by the descriptor of the server's end *)
  t_rands : list Z;                      (* future results of [rand()] in the test process *)
  t_results : list TestPartResult        (* the test parts that failed *)
}.

Definition set_server (d : ServerDispatcher ServerBackend) (t : Testing) : Testing :=
  {| t_server := d; t_clients := t_clients t; t_rands := t_rands t; t_results := t_results t |}.
Definition set_clients (cs : gmap Z Client) (t : Testing) : Testing :=
  {| t_server := t_server t; t_clients := cs; t_rands := t_rands t; t_results := t_results t |}.
Definition set_rands (l : list Z) (t : Testing) : Testing :=
  {| t_server := t_server t; t_clients := t_clients t; t_rands := l; t_results := t_results t |}.

#[export] Instance testing_reporter : Reporter Testing := λ r t,
  {| t_server := t_server t; t_clients := t_clients t; t_rands := t_rands t; t_results := t_results t ++ [r] |}.

(** A connection on which nothing has happened, and the client's end of it. *)
Definition idle : Connection := {| c_incoming := []; c_deliveries := []; c_sent := []; c_open := true |}.
Definition new_client : Client := {| m_socket := idle; failed_expectations := 0 |}.

Definition client (fd : Z) (t : Testing) : Client := default new_client (t_clients t !! fd).
Definition set_client (fd : Z) (c : Client) (t : Testing) : Testing := set_clients (<[fd := c]> (t_clients t)) t.

(** A server whose socket is set up, before any client. *)
Definition testing (d : ServerDispatcher ServerBackend) (rands : list Z) : Testing :=
  {| t_server := d; t_clients := ∅; t_rands := rands; t_results := [] |}.

Section scenarios.
Context `{PathResolution} `{HashOrder} `{GoogleTest}.

(** The server's directory, its listening socket and its stacks; the directory the tests
    erase files in (empty when they do not run on the same machine); how [std::shuffle]
    with an engine seeded by the clock permutes a vector. *)
Context (in_directory : bytes) (m_listenfd stack_bytes : Z) (g_server_directory : bytes).
Context (shuffle : list Z → list Z).

Abbreviation T A := (prog Testing A) (only parsing).

#[local] Instance server_ops : BackendOps ServerBackend := server_backend_ops (directory_name in_directory).

Definition on_server {A} (p : prog (ServerDispatcher ServerBackend) A) : T A := zoom t_server set_server p.
Definition on_client {A} (fd : Z) (p : prog Client A) : T A := zoom (client fd) (set_client fd) p.

(** ** The network between a client and the server *)

Definition server_end (fd : Z) (t : Testing) : Connection := default idle (connections (t_server t) !! fd).

(** What has been sent since the last time arrives. *)
Definition arrive (from to : Connection) : Connection :=
  match c_sent from with
  | [] => to
  | b => set_incoming (c_incoming to ++ [Chunk b]) to
  end.
Definition taken (c : Connection) : Connection :=
  {| c_incoming := c_incoming c; c_deliveries := c_deliveries c; c_sent := []; c_open := c_open c |}.

Definition to_server (fd : Z) (t : Testing) : Testing :=
  let c := m_socket (client fd t) in
  set_client fd (set_socket (taken c) (client fd t))
    (set_server (set_connection fd (arrive c (server_end fd t)) (t_server t)) t).

Definition to_client (fd : Z) (t : Testing) : Testing :=
  let c := server_end fd t in
  set_client fd (set_socket (arrive c (m_socket (client fd t))) (client fd t))
    (set_server (set_connection fd (taken c) (t_server t)) t).

(** A turn of the loop of the connection thread; a last turn is followed by what follows
    the loop. *)
Definition connection_turn (fd : Z) : T bool :=
  let! r := on_server (serve_request Constants.max_sockfd Constants.connection_timeout_seconds stack_bytes fd true) in
  match r with
  | Some true => Ret true
  | _ => on_server (close_connection fd) ;;; Ret false
  end.

(** The thread serves what has arrived.  Every turn takes at least a header. *)
Definition pending (fd : Z) (t : Testing) : bool :=
  c_open (server_end fd t) && negb (bool_decide (coming (c_incoming (server_end fd t)) = [])).

Fixpoint serve (fuel : nat) (fd : Z) : T unit :=
  match fuel with
  | O => diverge
  | S fuel =>
      let! more := reads (pending fd) in
      if more : bool then
        let! open := connection_turn fd in
        if open : bool then serve fuel fd else Ret tt
      else Ret tt
  end.

Definition serve_pending (fd : Z) : T unit :=
  modify (to_server fd) ;;;
  let! fuel := reads (λ t, S (length (coming (c_incoming (server_end fd t))))) in
  serve fuel fd ;;;
  modify (to_client fd).

(** ** The clients *)

(** The lowest descriptor above the listening socket no open connection has. *)
Fixpoint free_descriptor (fuel : nat) (fd : Z) (cs : gmap Z Connection) : Z :=
  match fuel with
  | O => fd
  | S fuel => match cs !! fd with
              | Some c => if c_open c then free_descriptor fuel (fd + 1) cs else fd
              | None => fd
              end
  end.

Definition next_descriptor (d : ServerDispatcher ServerBackend) : Z :=
  free_descriptor (size (connections d)) (m_listenfd + 1) (connections d).

(** [Client client(CLI_ARGS)]: the kernel hands the server a descriptor, and its loop,
    whose wait is over, accepts the connection. *)
Definition connect : T Z :=
  let! fd := reads (λ t, next_descriptor (t_server t)) in
  modify (set_client fd new_client) ;;;
  on_client fd (Client_ctor fd true) ;;;
  on_server (modify (λ d, set_spurious [true] (set_arrivals (arrivals d ++ [Some (fd, idle)]) d))) ;;;
  on_server (start_turn Constants.max_sockfd m_listenfd) ;;;
  Ret fd.

(** The destructor: the server reads the end of the stream, unless it has closed its end
    before. *)
Definition disconnect (fd : Z) : T unit :=
  on_client fd Client_dtor ;;;
  let! open := reads (λ t, c_open (server_end fd t)) in
  if open : bool then let! _ := connection_turn fd in Ret tt else Ret tt.

(** A block with a client of its own. *)
Definition with_client (block : Z → T unit) : T unit :=
  let! fd := connect in block fd ;;; disconnect fd.

(** [client.sendRequest], [client.getResponse]; an expectation that fails in [getResponse] is
    reported. *)
Definition send (fd : Z) (in_command : bytes) (in_txn_id in_seq_num : Z) (in_data : bytes) : T unit :=
  on_client fd (sendRequest stack_bytes in_command in_txn_id in_seq_num in_data).

Definition receive (fd : Z) : T ResponseTuple :=
  serve_pending fd ;;;
  let! before := reads (λ t, failed_expectations (client fd t)) in
  let! r := on_client fd (getResponse stack_bytes) in
  let! after := reads (λ t, failed_expectations (client fd t)) in
  (if decide (before = after) then Ret tt else GTEST_MESSAGE_ (str "client.cpp") 51 kNonFatalFailure) ;;;
  Ret r.

(** [client.sendRequestGetResponse] *)
Definition call (fd : Z) (in_command : bytes) (in_txn_id in_seq_num : Z) (in_data : bytes) : T ResponseTuple :=
  send fd in_command in_txn_id in_seq_num in_data ;;; receive fd.

(** The same with the response dropped. *)
Definition tell (fd : Z) (in_command : bytes) (in_txn_id in_seq_num : Z) (in_data : bytes) : T unit :=
  let! _ := call fd in_command in_txn_id in_seq_num in_data in Ret tt.

(** [client.sendRawRequestGetResponse]: [getResponse] after the request was written. *)
Definition call_raw (fd : Z) (in_raw_request : bytes) : T ResponseTuple :=
  on_client fd (assert_that (nul_free in_raw_request) ;;; write_or_exit in_raw_request) ;;; receive fd.

(** ** Time *)

Definition pass (ticks : Z) (s : ServerBackend) : ServerBackend :=
  let w := backend_world s in
  set_backend_world {| w_fs := w_fs w; w_now := w_now w + ticks; w_rand := w_rand w; w_sched := w_sched w |} s.

(** The timers that wake run a turn; one whose function returned is gone. *)
Fixpoint wake_timers (tms : list Timer) : prog ServerBackend (list Timer) :=
  match tms with
  | [] => Ret []
  | tm :: tms =>
      let! now := reads (λ s, w_now (backend_world s)) in
      let! asleep := (if tm_latest_timestamp tm + seconds Constants.transaction_timeout_seconds <=? now
                    then txn_timer_turn (directory_name in_directory) tm
                    else Ret (Some (tm_latest_timestamp tm))) in
      let! rest := wake_timers tms in
      Ret (match asleep with
           | Some ts => {| tm_txn_id := tm_txn_id tm; tm_latest_timestamp := ts; tm_file_name := tm_file_name tm |} :: rest
           | None => rest
           end)
  end.

Definition sleep_for (ticks : Z) : T unit :=
  on_server (the_backend (
    modify (pass ticks) ;;;
    let! tms := reads timers in
    let! tms := wake_timers tms in
    modify (set_timers tms))).

(** ** Helpers of the tests *)

Definition rand : T Z :=
  let! r := act (λ t, match t_rands t with
                      | [] => (None, t)
                      | r :: l => (Some r, set_rands l t)
                      end) in
  match r with
  | Some r => Ret r
  | None => diverge
  end.

Definition random_file_name (prefix : bytes) : T bytes :=
  let! r := rand in Ret (prefix ++ to_string r ++ str ".txt").

(** Loops: over a list, and with the value of a local variable they change. *)
Fixpoint for_in {A} (l : list A) (body : A → T unit) : T unit :=
  match l with
  | [] => Ret tt
  | x :: l => body x ;;; for_in l body
  end.

Fixpoint for_with {A B} (l : list A) (v : B) (body : A → B → T B) : T B :=
  match l with
  | [] => Ret v
  | x :: l => let! v := body x v in for_with l v body
  end.

Definition here : bytes := str "client-server-test.cpp".

Definition eraseFile (in_file_name : bytes) : T unit :=
  if decide (g_server_directory = []) then Ret tt
  else
    let file_path := g_server_directory ++ in_file_name in
    let! removed := on_server (the_backend (syscall (w_remove file_path))) in
    if removed : bool then Ret tt
    else let! _ := GTEST_FATAL_FAILURE_ here 84 in Ret tt.
End scenarios.
