(* ===== verification/TestSuite.v ===== *)
(** * The test suite

    Every TEST of client-server-test.cpp, over the test environment of Scenarios.v, and
    [RUN_ALL_TESTS].  Numbers after EXPECT_ and ASSERT_ are the lines of the source. *)
From S2P Require Import Prelude Stdcxx Constants WireProtocol Messages Prog ReadWrite Posix File Backend Recovery Arguments Dispatcher Server Client GoogleTest Scenarios.
From Stdlib Require Import ZArith Lia List Ascii String Bool.
From stdpp Require Import base gmap strings list fin_maps sorting.
#[local] Set Default Goal Selector "!".
Local Open Scope Z_scope.

Section tests.
Context `{PathResolution} `{HashOrder} `{GoogleTest}.
Context (in_directory : bytes) (m_listenfd stack_bytes : Z) (g_server_directory : bytes).

(** How [std::shuffle] with an engine seeded by the clock permutes a vector, and in which
    order the requests of clients that run in parallel arrive. *)
Context (shuffle arrival_order : list Z → list Z).

Abbreviation T A := (prog Testing A) (only parsing).
Abbreviation with_client := (with_client in_directory m_listenfd stack_bytes).
Abbreviation send := (send stack_bytes).
Abbreviation receive := (receive in_directory stack_bytes).
Abbreviation call := (call in_directory stack_bytes).
Abbreviation tell := (tell in_directory stack_bytes).
Abbreviation eraseFile := (eraseFile g_server_directory).

Import Constants.

Definition some_data : bytes := str "Here is my data that goes into file".

Definition ClientOmission_OmittedSequenceNumber : T unit :=
  with_client (λ client,
    let! file_name := random_file_name (str "File") in
    let! server_response_tuple := call client new_txn_cmd default_txn_id initial_seq_num file_name in
    let txn_id := rs_txn_id server_response_tuple in
    EXPECT_NE here 103 txn_id default_txn_id ;;!
    let num_requests := 50 in
    let! r := rand in
    let missing_seq_num := 1 + Z.rem r num_requests in
    let! expected := for_with (seqZ (initial_seq_num + 1) num_requests) [] (λ seq_num expected,
      let data := to_string seq_num in
      (if negb (missing_seq_num =? seq_num) then tell client write_cmd txn_id seq_num data else Ret tt) ;;;
      Ret (expected ++ data)) in
    let! server_response_tuple := call client commit_cmd txn_id num_requests [] in
    EXPECT_STREQ here 123 ask_resend_cmd (rs_command server_response_tuple) ;;!
    EXPECT_EQ here 125 missing_seq_num (rs_seq_num server_response_tuple) ;;!
    tell client write_cmd txn_id missing_seq_num (to_string missing_seq_num) ;;;
    let! server_response_tuple := call client commit_cmd txn_id num_requests [] in
    EXPECT_STREQ here 131 ack_cmd (rs_command server_response_tuple) ;;!
    let! server_response_tuple := call client read_cmd default_txn_id initial_seq_num file_name in
    EXPECT_STREQ here 135 (rs_data server_response_tuple) expected ;;!
    eraseFile file_name).

Definition ClientByzantine_InvalidRequestFormat : T unit :=
  with_client (λ client,
    let request := str "dsjfhaskdjfhasdfgsdkjfahsdgfkajshdgfasjdfgjkasdsjfhaskdjfhasdfgsdkjfahsdgfkajshdgfasjdfgjkasdsjfhaskdjfhasdfgsdkjfahsdgfkajshdgfasjdfgjkas" in
    ASSERT_FALSE here 148 (isValidRequestFormat request) ;;!
    let! server_response_tuple := call_raw in_directory stack_bytes client request in
    EXPECT_STREQ here 152 (rs_data server_response_tuple) (Errors.getErrorMessage Errors.InvalidMessageFormat) ;;!
    Ret tt).

Definition ClientByzantine_InvalidCommand : T unit :=
  with_client (λ client,
    let data := some_data in
    let invalid_command := str "WRRITE" in
    ASSERT_NE_string here 163 invalid_command abort_cmd ;;!
    ASSERT_NE_string here 165 invalid_command commit_cmd ;;!
    ASSERT_NE_string here 167 invalid_command new_txn_cmd ;;!
    ASSERT_NE_string here 169 invalid_command read_cmd ;;!
    ASSERT_NE_string here 171 invalid_command write_cmd ;;!
    let! server_response_tuple := call client invalid_command default_txn_id initial_seq_num data in
    EXPECT_STREQ here 175 (rs_data server_response_tuple) (Errors.getErrorMessage Errors.InvalidCommand) ;;!
    Ret tt).

Definition ClientByzantine_InvalidTransactionId : T unit :=
  with_client (λ client,
    let data := some_data in
    let! server_response_tuple := call client write_cmd default_txn_id initial_seq_num data in
    EXPECT_STREQ here 186 (rs_data server_response_tuple) (Errors.getErrorMessage Errors.InvalidTransactionId) ;;!
    Ret tt).

Definition ClientByzantine_InvalidInitialSequenceNumber : T unit :=
  with_client (λ client,
    let seq_num := 1 in
    let! file_name := random_file_name (str "File") in
    ASSERT_NE here 197 seq_num initial_seq_num ;;!
    let! server_response_tuple := call client new_txn_cmd default_txn_id seq_num file_name in
    EXPECT_STREQ here 201 (rs_data server_response_tuple) (Errors.getErrorMessage Errors.InvalidSequenceNumber) ;;!
    Ret tt).

Definition ClientByzantine_RepeatedSequenceNumber : T unit :=
  with_client (λ client,
    let data := some_data in
    let! file_name := random_file_name (str "File") in
    let! server_response_tuple := call client new_txn_cmd default_txn_id initial_seq_num file_name in
    let seq_num := initial_seq_num + 1 in
    let txn_id := rs_txn_id server_response_tuple in
    EXPECT_NE here 220 txn_id default_txn_id ;;!
    tell client write_cmd txn_id seq_num data ;;;
    let! server_response_tuple := call client write_cmd txn_id seq_num data in
    EXPECT_STREQ here 226 (rs_data server_response_tuple) (Errors.getErrorMessage Errors.RepeatedSequenceNumber) ;;!
    Ret tt).

Definition ClientByzantine_CommitWithInvalidSequenceNumber : T unit :=
  with_client (λ client,
    let data := some_data in
    let! file_name := random_file_name (str "File") in
    let! server_response_tuple := call client new_txn_cmd default_txn_id initial_seq_num file_name in
    let seq_num := initial_seq_num + 1 in
    let txn_id := rs_txn_id server_response_tuple in
    EXPECT_NE here 245 txn_id default_txn_id ;;!
    tell client write_cmd txn_id (seq_num + 1) data ;;;
    let! server_response_tuple := call client commit_cmd txn_id seq_num [] in
    EXPECT_STREQ here 251 (rs_data server_response_tuple)
      (Errors.getErrorMessage Errors.CommitWithInvalidSequenceNumber) ;;!
    Ret tt).

Definition ClientByzantine_ReadNonexistentFile : T unit :=
  with_client (λ client,
    let! server_response_tuple :=
      call client read_cmd default_txn_id initial_seq_num (str "NonexistentFile.txt") in
    EXPECT_STREQ here 260 (rs_data server_response_tuple) (Errors.getErrorMessage Errors.ErrorOpeningFile) ;;!
    Ret tt).

Definition ClientByzantine_SendPacketsOutOfOrder : T unit :=
  with_client (λ client,
    let! file_name := random_file_name (str "SendPacketsOutOfOrder") in
    let! server_response_tuple := call client new_txn_cmd default_txn_id initial_seq_num file_name in
    let txn_id := rs_txn_id server_response_tuple in
    EXPECT_NE here 277 txn_id default_txn_id ;;!
    let num_requests := 50 in
    let seq_nums := seqZ 1 num_requests in
    let expected := concat (to_string <$> seq_nums) in
    let seq_nums := shuffle seq_nums in
    for_in seq_nums (λ seq_num, tell client write_cmd txn_id seq_num (to_string seq_num)) ;;;
    tell client commit_cmd txn_id num_requests [] ;;;
    let! server_response_tuple := call client read_cmd default_txn_id initial_seq_num file_name in
    EXPECT_STREQ here 303 (rs_data server_response_tuple) expected ;;!
    eraseFile file_name).

Definition ClientByzantine_WriteToCommittedTransaction : T unit :=
  with_client (λ client1,
  with_client (λ client2,
    let data := some_data in
    let! file_name := random_file_name (str "File") in
    let! server_response_tuple := call client1 new_txn_cmd default_txn_id initial_seq_num file_name in
    let seq_num := initial_seq_num + 1 in
    let txn_id := rs_txn_id server_response_tuple in
    EXPECT_NE here 327 txn_id default_txn_id ;;!
    tell client1 write_cmd txn_id seq_num data ;;;
    tell client1 commit_cmd txn_id seq_num [] ;;;
    let! server_response_tuple := call client1 write_cmd txn_id seq_num data in
    let seq_num := seq_num + 1 in
    EXPECT_STREQ here 335 (rs_data server_response_tuple) (Errors.getErrorMessage Errors.InvalidOperation) ;;!
    let! server_response_tuple := call client2 write_cmd txn_id seq_num data in
    EXPECT_STREQ here 339 (rs_data server_response_tuple) (Errors.getErrorMessage Errors.InvalidOperation) ;;!
    eraseFile file_name)).

Definition ClientFailstop_TransactionTimeout : T unit :=
  with_client (λ client1,
    let data := some_data in
    let! file_name := random_file_name (str "File") in
    let! server_response_tuple := call client1 new_txn_cmd default_txn_id initial_seq_num file_name in
    let seq_num := initial_seq_num + 1 in
    let txn_id := rs_txn_id server_response_tuple in
    EXPECT_NE here 360 txn_id default_txn_id ;;!
    sleep_for in_directory (seconds transaction_timeout_seconds) ;;;
    with_client (λ client2,
      let! server_response_tuple := call client2 write_cmd txn_id seq_num data in
      EXPECT_STREQ here 368 (rs_data server_response_tuple) (Errors.getErrorMessage Errors.InvalidTransactionId) ;;!
      Ret tt)).

Definition NetworkFailure_LostAck : T unit :=
  with_client (λ client,
    let data := some_data in
    let! file_name := random_file_name (str "File") in
    let! server_response_tuple := call client new_txn_cmd default_txn_id initial_seq_num file_name in
    let seq_num := initial_seq_num + 1 in
    let txn_id := rs_txn_id server_response_tuple in
    EXPECT_NE here 387 txn_id default_txn_id ;;!
    tell client write_cmd txn_id seq_num data ;;;
    tell client commit_cmd txn_id seq_num [] ;;;
    let! server_response_tuple := call client commit_cmd txn_id seq_num [] in
    EXPECT_STREQ here 395 ack_cmd (rs_command server_response_tuple) ;;!
    eraseFile file_name).

Definition Client_NewTransaction : T unit :=
  with_client (λ client,
    let! file_name := random_file_name (str "File") in
    let! r := call client new_txn_cmd default_txn_id initial_seq_num file_name in
    EXPECT_STREQ here 408 ack_cmd (rs_command r) ;;!
    EXPECT_GT here 410 (rs_txn_id r) default_txn_id ;;!
    EXPECT_EQ_0u here 412 (rs_seq_num r) ;;!
    EXPECT_EQ_0u here 414 (rs_error_code r) ;;!
    EXPECT_EQ_0u here 416 (rs_content_len r) ;;!
    EXPECT_STREQ here 418 [] (rs_data r) ;;!
    Ret tt).

Definition Client_PipelinedRequests : T unit :=
  with_client (λ client,
    let! file_name := random_file_name (str "File") in
    let! server_response_tuple := call client new_txn_cmd default_txn_id initial_seq_num file_name in
    let txn_id := rs_txn_id server_response_tuple in
    EXPECT_NE here 437 txn_id default_txn_id ;;!
    let num_requests := 100 in
    let! (seq_num, expected) :=
      for_with (seqZ 0 num_requests) (initial_seq_num + 1, []) (λ _ '(seq_num, expected),
        let numbers_per_request := 15 in
        let! data := for_with (seqZ 0 numbers_per_request) [] (λ _ data,
          let! r := rand in Ret (data ++ to_string r)) in
        send client write_cmd txn_id seq_num data ;;;
        Ret (seq_num + 1, expected ++ data)) in
    for_in (seqZ 0 num_requests) (λ _, let! _ := receive client in Ret tt) ;;;
    tell client commit_cmd txn_id (seq_num - 1) [] ;;;
    let! server_response_tuple := call client read_cmd default_txn_id initial_seq_num file_name in
    EXPECT_STREQ here 466 (rs_data server_response_tuple) expected ;;!
    eraseFile file_name).

Definition Client_ReceiveAckOnCommit : T unit :=
  with_client (λ client,
    let! file_name := random_file_name (str "File") in
    let! server_response_tuple := call client new_txn_cmd default_txn_id initial_seq_num file_name in
    let seq_num := initial_seq_num + 1 in
    let txn_id := rs_txn_id server_response_tuple in
    EXPECT_NE here 485 txn_id default_txn_id ;;!
    tell client write_cmd txn_id seq_num some_data ;;;
    let! server_response_tuple := call client commit_cmd txn_id seq_num [] in
    EXPECT_STREQ here 491 ack_cmd (rs_command server_response_tuple) ;;!
    eraseFile file_name).

Definition Client_MultipleClientInteractionSameTransactionSequential : T unit :=
  with_client (λ client,
    let! file_name := random_file_name (str "File") in
    let! server_response_tuple := call client new_txn_cmd default_txn_id initial_seq_num file_name in
    let txn_id := rs_txn_id server_response_tuple in
    EXPECT_NE here 510 txn_id default_txn_id ;;!
    let num_requests := 50 in
    let! expected := for_with (reverse (seqZ 1 num_requests)) [] (λ seq_num expected,
      let! data := (let! r := rand in Ret (to_string r)) in
      with_client (λ client, tell client write_cmd txn_id seq_num data) ;;;
      Ret (data ++ expected)) in
    let! server_response_tuple := call client commit_cmd txn_id num_requests [] in
    EXPECT_STREQ here 527 ack_cmd (rs_command server_response_tuple) ;;!
    let! server_response_tuple := call client read_cmd default_txn_id initial_seq_num file_name in
    EXPECT_STREQ here 531 (rs_data server_response_tuple) expected ;;!
    eraseFile file_name).

(** The threads and the data each sends; their requests arrive in [arrival_order]. *)
Definition Client_MultipleClientInteractionSameTransactionParallel : T unit :=
  with_client (λ client,
    let! file_name := random_file_name (str "File") in
    let! server_response_tuple := call client new_txn_cmd default_txn_id initial_seq_num file_name in
    let txn_id := rs_txn_id server_response_tuple in
    EXPECT_NE here 550 txn_id default_txn_id ;;!
    let num_clients := 50 in
    let! (threads, expected) := for_with (reverse (seqZ 1 num_clients)) (∅ : gmap Z bytes, [])
      (λ seq_num '(threads, expected),
        let! data := (let! r := rand in Ret (to_string r)) in
        Ret (<[seq_num := data]> threads, data ++ expected)) in
    for_in (arrival_order (reverse (seqZ 1 num_clients))) (λ seq_num,
      with_client (λ client, tell client write_cmd txn_id seq_num (default [] (threads !! seq_num)))) ;;;
    let! server_response_tuple := call client commit_cmd txn_id num_clients [] in
    EXPECT_STREQ here 579 ack_cmd (rs_command server_response_tuple) ;;!
    let! server_response_tuple := call client read_cmd default_txn_id initial_seq_num file_name in
    EXPECT_STREQ here 583 (rs_data server_response_tuple) expected ;;!
    eraseFile file_name).

Definition Client_AbortTransaction : T unit :=
  with_client (λ client1,
  with_client (λ client2,
    let data := some_data in
    let! file_name := random_file_name (str "File") in
    let! server_response_tuple := call client1 new_txn_cmd default_txn_id initial_seq_num file_name in
    let txn_id := rs_txn_id server_response_tuple in
    EXPECT_NE here 604 txn_id default_txn_id ;;!
    let num_requests := 50 in
    for_in (seqZ (initial_seq_num + 1) (num_requests - 1)) (λ seq_num,
      tell client1 write_cmd txn_id seq_num data) ;;;
    let! server_response_tuple := call client1 abort_cmd txn_id num_requests [] in
    EXPECT_STREQ here 615 ack_cmd (rs_command server_response_tuple) ;;!
    let! server_response_tuple := call client2 commit_cmd txn_id num_requests [] in
    EXPECT_STREQ here 619 (rs_data server_response_tuple) (Errors.getErrorMessage Errors.InvalidTransactionId) ;;!
    Ret tt)).

(** ** RUN_ALL_TESTS *)

Definition all_tests : list (T unit) := [
  ClientOmission_OmittedSequenceNumber;
  ClientByzantine_InvalidRequestFormat;
  ClientByzantine_InvalidCommand;
  ClientByzantine_InvalidTransactionId;
  ClientByzantine_InvalidInitialSequenceNumber;
  ClientByzantine_RepeatedSequenceNumber;
  ClientByzantine_CommitWithInvalidSequenceNumber;
  ClientByzantine_ReadNonexistentFile;
  ClientByzantine_SendPacketsOutOfOrder;
  ClientByzantine_WriteToCommittedTransaction;
  ClientFailstop_TransactionTimeout;
  NetworkFailure_LostAck;
  Client_NewTransaction;
  Client_PipelinedRequests;
  Client_ReceiveAckOnCommit;
  Client_MultipleClientInteractionSameTransactionSequential;
  Client_MultipleClientInteractionSameTransactionParallel;
  Client_AbortTransaction ].

(** 0 when no test part failed, 1 otherwise. *)
Definition RUN_ALL_TESTS : T Z :=
  for_in all_tests id ;;;
  reads (λ t, if existsb failed (t_results t) then 1 else 0).
End tests.
