(* ===== verification/TestSuiteProps.v ===== *)
(** * The test suite passes

    Running the tests against the modelled server: every expectation of the repository's
    own tests holds of the model, which evaluates every part of the program at once - both
    ends of the connections, the codec, the patterns, the dispatcher, the backend, the
    files and the timers. *)
From S2P Require Import Prelude Stdcxx Constants WireProtocol Messages Prog ReadWrite Posix File Backend Recovery Arguments Dispatcher Server Client GoogleTest Scenarios TestSuite.
From Stdlib Require Import ZArith Lia List Ascii String Bool.
From stdpp Require Import base gmap strings list fin_maps sorting.
#[local] Set Default Goal Selector "!".
Local Open Scope Z_scope.

(** The client's call is the request followed by the wait for the response, between which
    the tests let the server run. *)
Lemma sendRequestGetResponse_split tid stack_bytes in_command in_txn_id in_seq_num in_data ls c :
  run tid (sendRequestGetResponse stack_bytes in_command in_txn_id in_seq_num in_data) ls c =
    run tid (sendRequest stack_bytes in_command in_txn_id in_seq_num in_data ;;; getResponse stack_bytes) ls c.
Proof.
  unfold sendRequestGetResponse, sendRequest, sendRequest_.
  destruct (generateRequest in_command in_txn_id in_seq_num in_data) as [request|]; [|done].
  rewrite !run_bind. by destruct (run tid (write_or_exit request) ls c).
Qed.

(** ** A machine to run the tests on

    Server and tests share it, the server directory is the working directory; [rand()]
    counts up, the shuffled vector is the reversed one, and the requests of parallel
    clients arrive as the threads are started. *)
#[local] Instance test_resolution : PathResolution := λ p, p.

#[local] Instance test_order : HashOrder :=
  {| iterate K A _ _ m := map_to_list m; iterate_perm K A _ _ m := reflexivity _ |}.

#[local] Instance test_strings : GoogleTest.
Proof.
  refine {| CmpHelperSTREQ s1 s2 := bool_decide (c_str s1 = c_str s2) |}.
  intros s1 s2. apply bool_decide_eq_true.
Defined.

Definition test_world : World :=
  {| w_fs := ∅; w_now := seconds 5; w_rand := seqZ 1000 20; w_sched := [] |}.

Definition test_machine : Testing :=
  testing (set_rfds {[3]} (new_dispatcher (new_backend test_world) [] [])) (seqZ 7 1700).

(** What a successful run leaves. *)
Definition four_logs : gset bytes :=
  {[ str "/d/" ++ m_transaction_log; str "/d/" ++ m_timeout_log;
     str "/d/" ++ m_commit_log; str "/d/" ++ m_abort_log ]}.

Definition suite_ok (o : outcome Testing Z) : bool :=
  match o with
  | Done status ls t =>
      bool_decide (status = 0) && bool_decide (ls = ∅) && bool_decide (t_results t = []) &&
      bool_decide (dom (w_fs (backend_world (m_backend (t_server t)))) = four_logs)
  | _ => false
  end.

Lemma suite_ok_spec o :
  suite_ok o = true →
  match o with
  | Done status ls t =>
      status = 0 ∧ ls = ∅ ∧ t_results t = [] ∧
      dom (w_fs (backend_world (m_backend (t_server t)))) = four_logs
  | _ => False
  end.
Proof. destruct o as [status ls t|h t|t]; simpl; [|done..]. intros H. to_prop. tauto. Qed.

(** The repository's test suite passes on the model: run from an empty directory, the
    eighteen tests of client-server-test.cpp end with status 0, no expectation fails, no
    mutex is left locked, and the only files left are the four logs. *)
Example test_suite_passes :
  match run 1 (RUN_ALL_TESTS (str "/d") 3 100000 (str "/d/") reverse id) ∅ test_machine with
  | Done status ls t =>
      status = 0 ∧ ls = ∅ ∧ t_results t = [] ∧
      dom (w_fs (backend_world (m_backend (t_server t)))) = four_logs
  | _ => False
  end.
Proof. apply suite_ok_spec. vm_compute. reflexivity. Qed.
