(* ===== verification/FloatingPoint.v ===== *)
(** * Comparing floating-point numbers

    [FloatingPoint] of Google Test (internal/gtest-internal.h), the comparison behind
    EXPECT_FLOAT_EQ and EXPECT_DOUBLE_EQ, on the bits of the numbers.  The theorem says
    what it computes: the distance, in units in the last place, of the integers the bits
    are in sign-and-magnitude. *)
From S2P Require Import Prelude.
From Stdlib Require Import ZArith Lia List Bool.
From stdpp Require Import base numbers.
#[local] Set Default Goal Selector "!".
Local Open Scope Z_scope.

(** [Bits] is an unsigned integer of [kBitCount] bits. *)
Record RawType := {
  kBitCount : Z;            (* 8 * sizeof(RawType) *)
  kFractionBitCount : Z     (* numeric_limits<RawType>::digits - 1 *)
}.

Definition float_type : RawType := {| kBitCount := 32; kFractionBitCount := 23 |}.
Definition double_type : RawType := {| kBitCount := 64; kFractionBitCount := 52 |}.

Section floating_point.
Context (R : RawType).

Definition kExponentBitCount : Z := kBitCount R - 1 - kFractionBitCount R.

(** The operators of [Bits]: results are truncated to its width. *)
Definition bits_of (z : Z) : Z := z mod 2 ^ kBitCount R.
Definition bits_not (z : Z) : Z := bits_of (Z.lnot z).

Definition kSignBitMask : Z := bits_of (Z.shiftl 1 (kBitCount R - 1)).
Definition kFractionBitMask : Z := Z.shiftr (bits_not 0) (kExponentBitCount + 1).
Definition kExponentBitMask : Z := bits_not (Z.lor kSignBitMask kFractionBitMask).
Definition kMaxUlps : Z := 4.

Definition exponent_bits (bits : Z) : Z := Z.land kExponentBitMask bits.
Definition fraction_bits (bits : Z) : Z := Z.land kFractionBitMask bits.
Definition sign_bit (bits : Z) : Z := Z.land kSignBitMask bits.

Definition is_nan (bits : Z) : bool :=
  (exponent_bits bits =? kExponentBitMask) && negb (fraction_bits bits =? 0).

Definition SignAndMagnitudeToBiased (sam : Z) : Z :=
  if negb (Z.land kSignBitMask sam =? 0) then bits_of (bits_not sam + 1)
  else Z.lor kSignBitMask sam.

Definition DistanceBetweenSignAndMagnitudeNumbers (sam1 sam2 : Z) : Z :=
  let biased1 := SignAndMagnitudeToBiased sam1 in
  let biased2 := SignAndMagnitudeToBiased sam2 in
  if biased2 <=? biased1 then bits_of (biased1 - biased2) else bits_of (biased2 - biased1).

Definition AlmostEquals (u rhs : Z) : bool :=
  if is_nan u || is_nan rhs then false
  else DistanceBetweenSignAndMagnitudeNumbers u rhs <=? kMaxUlps.

(** ** What it computes *)

(** The integer the bits denote in sign-and-magnitude. *)
Definition signed_magnitude (bits : Z) : Z :=
  if 2 ^ (kBitCount R - 1) <=? bits then - (bits - 2 ^ (kBitCount R - 1)) else bits.

Context (Hbits : 1 < kBitCount R).

Lemma two_halves : 2 ^ kBitCount R = 2 * 2 ^ (kBitCount R - 1).
Proof using Hbits. rewrite <- Z.pow_succ_r by lia. f_equal. lia. Qed.

Lemma half_pos : 0 < 2 ^ (kBitCount R - 1).
Proof using Hbits. apply Z.pow_pos_nonneg; lia. Qed.

Lemma sign_mask : kSignBitMask = 2 ^ (kBitCount R - 1).
Proof using Hbits.
  unfold kSignBitMask, bits_of. rewrite Z.shiftl_mul_pow2, Z.mul_1_l, two_halves by lia.
  apply Z.mod_small. pose proof half_pos. lia.
Qed.

(** The sign bit of a number of the width. *)
Lemma testbit_sign b :
  0 ≤ b < 2 ^ kBitCount R → Z.testbit b (kBitCount R - 1) = (2 ^ (kBitCount R - 1) <=? b).
Proof using Hbits.
  intros Hb. rewrite two_halves in Hb. pose proof half_pos. rewrite Z.testbit_odd, Z.shiftr_div_pow2 by lia.
  destruct (Z.leb_spec (2 ^ (kBitCount R - 1)) b) as [Hle|Hlt].
  - by rewrite <- (Z.div_unique b (2 ^ (kBitCount R - 1)) 1 (b - 2 ^ (kBitCount R - 1))) by lia.
  - by rewrite Z.div_small by lia.
Qed.

Lemma land_sign b :
  0 ≤ b < 2 ^ kBitCount R →
  (Z.land kSignBitMask b =? 0) = negb (2 ^ (kBitCount R - 1) <=? b).
Proof using Hbits.
  intros Hb. rewrite <- testbit_sign, sign_mask, Z.land_comm by done.
  destruct (Z.eqb_spec (Z.land b (2 ^ (kBitCount R - 1))) 0) as [E|E].
  - apply (f_equal (λ x, Z.testbit x (kBitCount R - 1))) in E.
    rewrite Z.land_spec, Z.pow2_bits_true, Z.bits_0, andb_true_r in E by lia. by rewrite E.
  - destruct (Z.testbit b (kBitCount R - 1)) eqn:Et; [done|]. exfalso. apply E. apply Z.bits_inj'. intros k Hk.
    rewrite Z.land_spec, Z.bits_0, Z.pow2_bits_eqb by lia.
    destruct (Z.eqb_spec (kBitCount R - 1) k) as [<-|]; [by rewrite Et|apply andb_false_r].
Qed.

(** The biased representation of [x] is [x] plus half the range, as the comment on
    [SignAndMagnitudeToBiased] says. *)
Lemma biased_spec b :
  0 ≤ b < 2 ^ kBitCount R →
  SignAndMagnitudeToBiased b = signed_magnitude b + 2 ^ (kBitCount R - 1).
Proof using Hbits.
  intros Hb. unfold SignAndMagnitudeToBiased, signed_magnitude. rewrite land_sign, negb_involutive by done.
  pose proof half_pos. pose proof two_halves as E2.
  destruct (Z.leb_spec (2 ^ (kBitCount R - 1)) b) as [Hle|Hlt].
  - unfold bits_not, bits_of. rewrite <- Zplus_mod_idemp_l, Zmod_mod, Zplus_mod_idemp_l.
    unfold Z.lnot. symmetry. apply Z.mod_unique with (-1); lia.
  - rewrite sign_mask. rewrite <- Z.lxor_lor; [rewrite <- Z.add_nocarry_lxor; [lia|]|];
      (apply Z.bits_inj'; intros k Hk; rewrite Z.land_spec, Z.bits_0, Z.pow2_bits_eqb by lia;
       destruct (Z.eqb_spec (kBitCount R - 1) k) as [<-|]; [|done];
       rewrite testbit_sign by done; by apply Z.leb_gt).
Qed.

Lemma signed_magnitude_bound b :
  0 ≤ b < 2 ^ kBitCount R → - 2 ^ (kBitCount R - 1) < signed_magnitude b < 2 ^ (kBitCount R - 1).
Proof using Hbits.
  intros Hb. unfold signed_magnitude. rewrite two_halves in Hb. pose proof half_pos.
  destruct (Z.leb_spec (2 ^ (kBitCount R - 1)) b); lia.
Qed.

Lemma distance_spec b1 b2 :
  0 ≤ b1 < 2 ^ kBitCount R → 0 ≤ b2 < 2 ^ kBitCount R →
  DistanceBetweenSignAndMagnitudeNumbers b1 b2 = Z.abs (signed_magnitude b1 - signed_magnitude b2).
Proof using Hbits.
  intros H1 H2. unfold DistanceBetweenSignAndMagnitudeNumbers. rewrite !biased_spec by done.
  pose proof (signed_magnitude_bound b1 H1). pose proof (signed_magnitude_bound b2 H2). pose proof two_halves.
  unfold bits_of. destruct (Z.leb_spec (signed_magnitude b2 + 2 ^ (kBitCount R - 1))
                             (signed_magnitude b1 + 2 ^ (kBitCount R - 1)));
    rewrite Z.mod_small by lia; lia.
Qed.

(** Two floating-point numbers are almost equal exactly when neither is a NaN and the
    integers their bits denote in sign-and-magnitude differ by at most four; so numbers
    equal as integers, such as +0.0 and -0.0, always are. *)
Theorem AlmostEquals_ulps b1 b2 :
  0 ≤ b1 < 2 ^ kBitCount R → 0 ≤ b2 < 2 ^ kBitCount R →
  AlmostEquals b1 b2 = true ↔
    is_nan b1 = false ∧ is_nan b2 = false ∧ Z.abs (signed_magnitude b1 - signed_magnitude b2) ≤ kMaxUlps.
Proof using Hbits.
  intros H1 H2. unfold AlmostEquals. rewrite distance_spec by done.
  destruct (is_nan b1), (is_nan b2); simpl; rewrite ?Z.leb_le; intuition done.
Qed.
End floating_point.

(** -0.0 and the next float above +0.0 but three. *)
Lemma AlmostEquals_ulps_witness : AlmostEquals float_type 0x80000000 4 = true.
Proof. apply (AlmostEquals_ulps float_type); by vm_compute. Defined.

Example nan_is_not_equal_to_itself : AlmostEquals double_type 0x7ff8000000000000 0x7ff8000000000000 = false.
Proof. reflexivity. Qed.

Example largest_double_is_almost_infinity : AlmostEquals double_type 0x7fefffffffffffff 0x7ff0000000000000 = true.
Proof. reflexivity. Qed.
