(* ===== verification/LinkedPtr.v ===== *)
(** * The shared pointer of the test framework

    [linked_ptr] (internal/gtest-linked_ptr.h), which shares the implementation of a
    parameter generator among its copies: the pointers to an object form a circular list,
    and the one that leaves it last deletes the object.  Every operation holds
    [g_linked_ptr_mutex] while it changes a circle, so it is one step here. *)
From S2P Require Import Prelude Prog ReadWrite.
From Stdlib Require Import ZArith Lia List Bool.
From stdpp Require Import base gmap list fin_maps sets.
#[local] Set Default Goal Selector "!".

(** The [linked_ptr]s of a program, by address: the [next_] of their [link_]s, their
    [value_]s ([None] is the null pointer), and the objects not deleted yet. *)
Record Links := {
  next_ : gmap positive positive;
  value_ : gmap positive (option positive);
  objects : gset positive
}.

Definition set_next (m : gmap positive positive) s : Links :=
  {| next_ := m; value_ := value_ s; objects := objects s |}.
Definition set_value (m : gmap positive (option positive)) s : Links :=
  {| next_ := next_ s; value_ := m; objects := objects s |}.
Definition set_objects (o : gset positive) s : Links :=
  {| next_ := next_ s; value_ := value_ s; objects := o |}.

Abbreviation P A := (prog Links A) (only parsing).

(** ** linked_ptr_internal *)

Definition link_next (p : positive) : P positive := deref (λ s, next_ s !! p).
Definition set_link (p n : positive) : P unit := modify (λ s, set_next (<[p := n]> (next_ s)) s).

Definition join_new (this : positive) : P unit := set_link this this.

(** The loops of [join] and [depart]: the first link from [p] on whose next is [stop];
    reaching [avoid] before it fails an assertion. *)
Fixpoint walk (fuel : nat) (stop avoid p : positive) : P positive :=
  match fuel with
  | O => diverge
  | S fuel =>
      let! n := link_next p in
      if decide (n = stop) then Ret p
      else assert_that (bool_decide (n ≠ avoid)) ;;; walk fuel stop avoid n
  end.

(** A turn of a loop per link. *)
Definition links : P nat := reads (λ s, size (next_ s)).

Definition join (this ptr : positive) : P unit :=
  let! fuel := links in
  let! p := walk fuel ptr this ptr in
  set_link p this ;;;
  set_link this ptr.

(** [true] when the link was the last of its circle. *)
Definition depart (this : positive) : P bool :=
  let! first := link_next this in
  if decide (first = this) then Ret true
  else
    let! fuel := links in
    let! p := walk fuel this first first in
    set_link p first ;;;
    Ret false.

(** ** linked_ptr *)

Definition get (p : positive) : P (option positive) := deref (λ s, value_ s !! p).
Definition set_ptr (p : positive) (v : option positive) : P unit :=
  modify (λ s, set_value (<[p := v]> (value_ s)) s).

(** [delete value_]: a null pointer is left alone, an object is deleted once. *)
Definition delete_object (v : option positive) : P unit :=
  match v with
  | None => Ret tt
  | Some o =>
      act_partial (λ s, if decide (o ∈ objects s) then Some (tt, set_objects (objects s ∖ {[o]}) s) else None)
  end.

Definition linked_ptr_depart (this : positive) : P unit :=
  let! last := depart this in
  if last : bool then let! v := get this in delete_object v else Ret tt.

Definition capture (this : positive) (ptr : option positive) : P unit :=
  set_ptr this ptr ;;; join_new this.

Definition copy (this ptr : positive) : P unit :=
  let! v := get ptr in
  set_ptr this v ;;;
  match v with
  | Some _ => join this ptr
  | None => join_new this
  end.

(** The constructors, the assignment, [reset], and the destructor, after which the pointer
    is no more. *)
Definition linked_ptr_new (this : positive) (ptr : option positive) : P unit := capture this ptr.

Definition linked_ptr_copy (this ptr : positive) : P unit :=
  assert_that (bool_decide (ptr ≠ this)) ;;; copy this ptr.

Definition linked_ptr_assign (this ptr : positive) : P unit :=
  if decide (ptr = this) then Ret tt
  else linked_ptr_depart this ;;; copy this ptr.

Definition linked_ptr_reset (this : positive) (ptr : option positive) : P unit :=
  linked_ptr_depart this ;;; capture this ptr.

Definition linked_ptr_delete (this : positive) : P unit :=
  linked_ptr_depart this ;;;
  modify (λ s, set_next (delete this (next_ s)) (set_value (delete this (value_ s)) s)).

(** Comparing: the pointers, not the objects. *)
Definition linked_ptr_eqb (p q : positive) : P bool :=
  let! v := get p in let! w := get q in Ret (bool_decide (v = w)).

(** ** Circles *)

(** The links [l] lead from [p] to [q]. *)
Fixpoint seg (m : gmap positive positive) (p : positive) (l : list positive) (q : positive) : Prop :=
  match l with
  | [] => p = q
  | x :: l => x = p ∧ ∃ n, m !! p = Some n ∧ seg m n l q
  end.

Lemma seg_app m p l1 l2 q : seg m p (l1 ++ l2) q ↔ ∃ r, seg m p l1 r ∧ seg m r l2 q.
Proof.
  revert p. induction l1 as [|x l1 IH]; intros p; simpl.
  - split; [by eauto|]. by intros (r & <- & ?).
  - setoid_rewrite IH. naive_solver.
Qed.

Lemma seg_insert m k n p l q : k ∉ l → seg m p l q → seg (<[k := n]> m) p l q.
Proof.
  revert p. induction l as [|x l IH]; intros p Hk; simpl; [done|]. intros (-> & n' & Hn & Hs).
  apply not_elem_of_cons in Hk as [Hkp Hkl]. split; [done|]. exists n'. rewrite lookup_insert_ne by done. auto.
Qed.

Lemma seg_delete m k p l q : k ∉ l → seg m p l q → seg (delete k m) p l q.
Proof.
  revert p. induction l as [|x l IH]; intros p Hk; simpl; [done|]. intros (-> & n' & Hn & Hs).
  apply not_elem_of_cons in Hk as [Hkp Hkl]. split; [done|]. exists n'. rewrite lookup_delete_ne by done. auto.
Qed.

Lemma seg_dom m p l q x : seg m p l q → x ∈ l → x ∈ dom m.
Proof.
  revert p. induction l as [|y l IH]; intros p; simpl; [by intros _ ?%elem_of_nil|].
  intros (-> & n & Hn & Hs) [->|Hx]%elem_of_cons; [by eapply elem_of_dom_2|by eapply IH].
Qed.

(** A circle has at most as many links as there are. *)
Lemma seg_length m p l q : seg m p l q → NoDup l → length l ≤ size m.
Proof.
  intros Hs Hl. rewrite <- size_dom, <- (size_list_to_set (C := gset positive)) by done.
  apply subseteq_size. intros x Hx. rewrite elem_of_list_to_set in Hx. by eapply seg_dom.
Qed.

(** [q] is [p] or holds the same object. *)
Definition mates (V : gmap positive (option positive)) (p q : positive) : Prop :=
  q = p ∨ ∃ o, V !! p = Some (Some o) ∧ V !! q = Some (Some o).

Lemma mates_shift V p q r : mates V p q → mates V q r ↔ mates V p r.
Proof. intros [->|(o & Hp & Hq)]; [done|]. split; intros [->|(o' & ? & ?)]; unfold mates; simplify_eq; eauto. Qed.

Lemma mates_sym V p q : mates V p q → mates V q p.
Proof. intros H. apply (mates_shift V p q p H). by left. Qed.

(** The circle of [p]: exactly the pointers that share its object. *)
Definition circle (m : gmap positive positive) V (p : positive) (l : list positive) : Prop :=
  seg m p (p :: l) p ∧ NoDup (p :: l) ∧ ∀ q, q ∈ p :: l ↔ mates V p q.

Definition circles (m : gmap positive positive) V : Prop := ∀ p, is_Some (V !! p) → ∃ l, circle m V p l.

Lemma circle_rotate m V p q l : circle m V p l → mates V p q → ∃ l', circle m V q l'.
Proof.
  intros (Hs & Hd & Hm) Hq. apply Hm in Hq as Hin. apply list_elem_of_split in Hin as (l1 & l2 & E). rewrite E in *.
  exists (l2 ++ l1). apply seg_app in Hs as (r & Hs1 & Hs2). assert (r = q) as -> by by destruct Hs2.
  assert (Hp : (q :: l2) ++ l1 ≡ₚ l1 ++ q :: l2) by apply Permutation_app_comm.
  split; [|split].
  - change (seg m q ((q :: l2) ++ l1) q). apply seg_app. eauto.
  - change (NoDup ((q :: l2) ++ l1)). by rewrite Hp.
  - intros r. change (r ∈ (q :: l2) ++ l1 ↔ mates V q r). by rewrite Hp, Hm, (mates_shift V p q).
Qed.

(** Changing a link outside a circle. *)
Lemma circle_insert m V p l k n : circle m V p l → ¬ mates V p k → circle (<[k := n]> m) V p l.
Proof.
  intros (Hs & Hd & Hm) Hk. split; [|by split]. apply seg_insert; [|done]. by rewrite Hm.
Qed.

(** Forgetting or adding a pointer outside a circle. *)
Lemma circle_values m V V' p l :
  circle m V p l → (∀ q, mates V p q ↔ mates V' p q) → circle m V' p l.
Proof. intros (Hs & Hd & Hm) E. split; [done|]. split; [done|]. intros q. by rewrite Hm. Qed.

(** A pointer on its own. *)
Lemma circles_new m V this v :
  circles m V → V !! this = None → (∀ o q, v = Some o → V !! q ≠ Some (Some o)) →
  circles (<[this := this]> m) (<[this := v]> V).
Proof.
  intros HV Hthis Hv p Hp. destruct (decide (p = this)) as [->|Hne].
  - exists []. split; [simpl; split; [done|exists this; by rewrite lookup_insert_eq]|].
    split; [by apply NoDup_singleton|]. intros q. rewrite list_elem_of_singleton. split; [by left|].
    intros [->|(o & Ho & Hq)]; [done|]. rewrite lookup_insert_eq in Ho. injection Ho as ->.
    destruct (decide (q = this)) as [->|Hq']; [done|]. rewrite lookup_insert_ne in Hq by done. by destruct (Hv o q).
  - rewrite lookup_insert_ne in Hp by done. destruct (HV p Hp) as [l Hl]. exists l.
    apply circle_values with V.
    + apply circle_insert; [done|]. intros [->|(o & _ & Ho)]; [done|]. congruence.
    + intros q. unfold mates. rewrite (lookup_insert_ne _ this p) by done.
      destruct (decide (q = this)) as [->|Hq]; [|by rewrite lookup_insert_ne by done].
      rewrite lookup_insert_eq. split; [by intros [->|(o & _ & Ho)]; [done|congruence]|].
      intros [->|(o & Ho & [= ->])]; [done|]. by destruct (Hv o p).
Qed.

(** A pointer joins the circle of another. *)
Lemma circles_join m V this ptr o l x :
  circles m V → V !! this = None → V !! ptr = Some (Some o) → circle m V ptr l → last (ptr :: l) = Some x →
  circles (<[this := ptr]> (<[x := this]> m)) (<[this := Some o]> V).
Proof.
  intros HV Hthis Hptr (Hs & Hd & Hm) Hx.
  apply last_Some in Hx as [l' E]. rewrite E in Hs, Hd, Hm.
  assert (Hout : this ∉ l' ++ [x]).
  { rewrite Hm. intros [->|(o' & _ & ?)]; congruence. }
  assert (Hne : ptr ≠ this) by congruence.
  assert (Hring : circle (<[this := ptr]> (<[x := this]> m)) (<[this := Some o]> V) ptr (l ++ [this])).
  { split; [|split].
    - change (seg (<[this := ptr]> (<[x := this]> m)) ptr ((ptr :: l) ++ [this]) ptr). rewrite E.
      apply seg_app. exists this. split.
      + apply seg_insert; [done|]. apply seg_app in Hs as (r & Hs & Hr). apply seg_app. exists r.
        apply NoDup_app in Hd as (_ & Hd & _). split; [apply seg_insert; [|done]; set_solver|].
        destruct Hr as (-> & n & _ & _). split; [done|]. exists this. by rewrite lookup_insert_eq.
      + split; [done|]. exists ptr. by rewrite lookup_insert_eq.
    - change (NoDup ((ptr :: l) ++ [this])). rewrite E. apply NoDup_app. split; [done|].
      split; [set_solver|apply NoDup_singleton].
    - intros q. change (q ∈ (ptr :: l) ++ [this] ↔ mates (<[this := Some o]> V) ptr q).
      rewrite E, elem_of_app, Hm, list_elem_of_singleton. unfold mates.
      rewrite (lookup_insert_ne _ this ptr) by done. rewrite Hptr.
      destruct (decide (q = this)) as [->|Hq]; [rewrite lookup_insert_eq|rewrite lookup_insert_ne by done]; naive_solver. }
  intros p Hp. destruct (decide (p ∈ (ptr :: l) ++ [this])) as [Hin|Hin].
  { destruct (circle_rotate _ _ _ p _ Hring) as [l0 ?]; [by apply Hring|by exists l0]. }
  rewrite E, elem_of_app, Hm, list_elem_of_singleton in Hin.
  assert (Hpt : p ≠ this) by tauto. rewrite lookup_insert_ne in Hp by done.
  destruct (HV p Hp) as [l0 Hl0]. exists l0. apply circle_values with V.
  - apply circle_insert; [apply circle_insert; [done|]|].
    + intros Hpx. apply Hin. left. apply mates_sym in Hpx. apply (mates_shift V ptr x p); [|done].
      apply Hm. set_solver.
    + intros [->|(o' & _ & ?)]; congruence.
  - intros q. unfold mates. rewrite (lookup_insert_ne _ this p) by done.
    destruct (decide (q = this)) as [->|Hq]; [|by rewrite lookup_insert_ne by done].
    rewrite lookup_insert_eq. split; [intros [->|(o' & _ & Ho)]; congruence|].
    intros [->|(o' & Ho & [= ->])]; [done|]. exfalso. apply Hin. left. right. eauto.
Qed.

(** A pointer leaves its circle. *)
Lemma circles_depart m V this l x :
  circles m V → circle m V this (l ++ [x]) →
  circles (<[x := default x (m !! this)]> m) (delete this V).
Proof.
  intros HV (Hs & Hd & Hm). destruct Hs as (_ & first & Hfirst & Hs). rewrite Hfirst. simpl.
  apply NoDup_cons in Hd as [Hthis Hd].
  assert (Hring : ∃ l', l ++ [x] = first :: l') by (destruct l as [|y l]; destruct Hs as [-> _]; eauto).
  destruct Hring as [l' E].
  assert (Hc : circle (<[x := first]> m) (delete this V) first l').
  { rewrite E in *. split; [|split; [done|]].
    - rewrite <- E in Hs, Hd |- *. apply seg_app in Hs as (r & Hs & Hr). apply seg_app. exists r.
      apply NoDup_app in Hd as (_ & Hd & _). split; [apply seg_insert; [|done]; set_solver|].
      destruct Hr as (-> & n & _ & _). split; [done|]. exists first. by rewrite lookup_insert_eq.
    - assert (Hf : mates V this first) by (apply Hm; right; left).
      assert (Hft : first ≠ this) by (intros ->; apply Hthis; left).
      intros q. specialize (Hm q). rewrite elem_of_cons in Hm. rewrite <- (mates_shift V this first q) in Hm by done.
      unfold mates in *. rewrite lookup_delete_ne by done.
      destruct (decide (q = this)) as [->|Hq].
      + rewrite lookup_delete_eq. split; [done|]. intros [->|(o & _ & ?)]; [done|congruence].
      + rewrite lookup_delete_ne by done. tauto. }
  intros p Hp. destruct (decide (p = this)) as [->|Hpt]; [by rewrite lookup_delete_eq in Hp; destruct Hp|].
  destruct (decide (p ∈ first :: l')) as [Hin|Hin].
  { destruct (circle_rotate _ _ _ p _ Hc) as [l0 ?]; [by apply Hc|by exists l0]. }
  rewrite lookup_delete_ne in Hp by done. destruct (HV p Hp) as [l0 Hl0]. exists l0.
  assert (Hnm : ¬ mates V p this).
  { intros Hpm. apply mates_sym, Hm in Hpm. rewrite E in Hpm. by apply elem_of_cons in Hpm as [->|?]. }
  apply circle_values with V.
  - apply circle_insert; [done|]. intros Hpx. apply Hnm.
    assert (Hx : mates V x this) by (apply mates_sym, Hm; set_solver). by apply (mates_shift V p x this).
  - intros q. unfold mates in *. rewrite (lookup_delete_ne _ this p) by done.
    destruct (decide (q = this)) as [->|Hq]; [rewrite lookup_delete_eq|by rewrite lookup_delete_ne by done].
    split; [intros H; by apply Hnm in H|]. intros [->|(o & _ & ?)]; [done|congruence].
Qed.

(** The last of its circle leaves. *)
Lemma circles_last m V this :
  circles m V → circle m V this [] → circles m (delete this V).
Proof.
  intros HV (_ & _ & Hm) p Hp. destruct (decide (p = this)) as [->|Hpt]; [by rewrite lookup_delete_eq in Hp; destruct Hp|].
  rewrite lookup_delete_ne in Hp by done. destruct (HV p Hp) as [l0 Hl0]. exists l0.
  assert (Hnm : ¬ mates V p this).
  { intros Hpm. apply mates_sym, Hm in Hpm. by apply list_elem_of_singleton in Hpm. }
  apply circle_values with V; [done|]. intros q. unfold mates in *. rewrite (lookup_delete_ne _ this p) by done.
  destruct (decide (q = this)) as [->|Hq]; [rewrite lookup_delete_eq|by rewrite lookup_delete_ne by done].
  split; [intros H; by apply Hnm in H|]. intros [->|(o & _ & ?)]; [done|congruence].
Qed.

Section spec.
Context (tid : nat) (C : Links → Prop) (HC : ∀ s, C s).

(** The loop finds the last link of the segment. *)
Lemma walk_spec fuel stop avoid p l x ls s :
  seg (next_ s) p (l ++ [x]) stop → stop ∉ l ++ [x] ∨ l ++ [x] = stop :: tail (l ++ [x]) →
  NoDup (l ++ [x]) → avoid ∉ tail (l ++ [x]) → length (l ++ [x]) ≤ fuel →
  wp tid C (walk fuel stop avoid p) ls s (λ r ls' s', r = x ∧ ls' = ls ∧ s' = s).
Proof using HC.
  revert fuel p. induction l as [|y l IH]; intros fuel p Hs Hstop Hd Ha Hf; simpl in *;
    (destruct fuel as [|fuel]; [lia|]); simpl.
  - destruct Hs as (-> & n & Hn & ->). wp_step. eapply wp_deref; [exact Hn|done|].
    rewrite decide_True by done. by apply wp_ret.
  - destruct Hs as (-> & n & Hn & Hs). wp_step. eapply wp_deref; [exact Hn|done|].
    assert (Hnl : n ∈ l ++ [x]).
    { destruct l as [|z l]; simpl in Hs |- *; destruct Hs as [-> _]; left. }
    assert (Hns : n ≠ stop).
    { intros ->. destruct Hstop as [Hstop|E]; [apply Hstop; by right|]. injection E as ->. by inversion Hd. }
    rewrite decide_False by done. wp_step. apply wp_assert; [done| |].
    + apply bool_decide_eq_true. intros ->. by apply Ha.
    + apply IH; [done| |by inversion Hd| |lia].
      * left. intros Hin. destruct Hstop as [Hstop|E]; [apply Hstop; by right|]. injection E as ->. by inversion Hd.
      * intros Hin. apply Ha. by destruct (l ++ [x]); [|right].
Qed.
End spec.

(** ** What the operations do *)

Section operations.
Context (tid : nat).
Let C : Links → Prop := λ _, True.

Lemma join_spec V this ptr o ls s :
  circles (next_ s) V → V !! this = None → V !! ptr = Some (Some o) →
  wp tid C (join this ptr) ls s (λ _ ls' s', ls' = ls ∧
    ∃ m', s' = set_next m' s ∧ circles m' (<[this := Some o]> V)).
Proof.
  intros HV Hthis Hptr. destruct (HV ptr) as [l Hl]; [by eexists|].
  destruct (last (ptr :: l)) as [x|] eqn:Ex; [|by apply last_None in Ex].
  assert (HV' := circles_join _ _ _ _ _ _ _ HV Hthis Hptr Hl Ex). destruct Hl as (Hs & Hd & Hm).
  apply last_Some in Ex as [l' E].
  assert (Hout : this ∉ ptr :: l) by (rewrite Hm; intros [->|(o' & _ & ?)]; congruence).
  unfold join, links. do 2 wp_step. wp_step.
  eapply wp_mono; [apply (walk_spec tid C (λ _, I) _ ptr this ptr l' x)|done|].
  - by rewrite <- E.
  - right. by rewrite <- E.
  - by rewrite <- E.
  - rewrite <- E. intros Hin. apply Hout. by right.
  - rewrite <- E. by eapply seg_length.
  - intros r ls' s' _ (-> & -> & ->). unfold set_link. wp_step. wp_step. wp_step. split; [done|].
    eexists. split; [|exact HV']. done.
Qed.

Lemma depart_spec V this ls s :
  circles (next_ s) V → is_Some (V !! this) →
  wp tid C (depart this) ls s (λ b ls' s', ls' = ls ∧
    ∃ m', s' = set_next m' s ∧ circles m' (delete this V) ∧ (b = true ↔ ∀ q, mates V this q → q = this)).
Proof.
  intros HV Hthis. destruct (HV this Hthis) as [l Hl]. assert (Hl0 := Hl). destruct Hl as (Hs & Hd & Hm).
  destruct Hs as (_ & first & Hfirst & Hs). unfold depart. wp_step. eapply wp_deref; [exact Hfirst|done|].
  destruct l as [|x l _] using rev_ind.
  - simpl in Hs. subst first. rewrite decide_True by done. apply wp_ret; [done|]. split; [done|].
    exists (next_ s). split; [by destruct s|]. split; [by apply circles_last|]. split; [|done].
    intros _ q Hq. apply Hm in Hq. by apply list_elem_of_singleton in Hq.
  - apply NoDup_cons in Hd as [Hn Hd].
    assert (Hf : first ∈ l ++ [x]) by (destruct l as [|y l]; destruct Hs as [-> _]; left).
    assert (Hne : first ≠ this) by (intros ->; done).
    rewrite decide_False by done. unfold links. do 2 wp_step. wp_step.
    eapply wp_mono; [apply (walk_spec tid C (λ _, I) _ this first first l x)|done|].
    + done.
    + by left.
    + done.
    + destruct l as [|y l]; destruct Hs as [-> _]; [by intros ?%elem_of_nil|]. by apply NoDup_cons in Hd as [? _].
    + by eapply seg_length.
    + intros r ls' s' _ (-> & -> & ->). unfold set_link. wp_step. wp_step. apply wp_ret; [done|]. split; [done|].
      eexists. split; [done|]. split.
      * pose proof (circles_depart _ _ _ _ _ HV Hl0) as H. by rewrite Hfirst in H.
      * split; [done|]. intros H. exfalso. apply Hne, H, Hm. by right.
Qed.

(** ** The life of the objects *)

(** [this] is the only pointer to [o]. *)
Definition sole (V : gmap positive (option positive)) (this o : positive) : Prop :=
  map_Forall (λ q v, v = Some o → q = this) V.

(** The objects left once [this] has let go of its own. *)
Definition leave (V : gmap positive (option positive)) (this : positive) (O : gset positive) : gset positive :=
  match V !! this with
  | Some (Some o) => if decide (sole V this o) then O ∖ {[o]} else O
  | _ => O
  end.

(** Every circle holds the pointers to one object, which is there. *)
Definition links_ok s : Prop :=
  circles (next_ s) (value_ s) ∧ ∀ p o, value_ s !! p = Some (Some o) → o ∈ objects s.

Lemma sole_mates V this o :
  V !! this = Some (Some o) → sole V this o ↔ ∀ q, mates V this q → q = this.
Proof.
  intros Ho. split.
  - intros Hs q [->|(o' & Ho' & Hq)]; [done|]. assert (o' = o) as -> by congruence. by apply (Hs q (Some o) Hq).
  - intros H q v Hq ->. apply H. right. eauto.
Qed.

Lemma linked_ptr_depart_spec this v ls s :
  links_ok s → value_ s !! this = Some v →
  wp tid C (linked_ptr_depart this) ls s (λ _ ls' s', ls' = ls ∧
    ∃ m', s' = set_objects (leave (value_ s) this (objects s)) (set_next m' s) ∧
      circles m' (delete this (value_ s))).
Proof.
  intros [HV HO] Hv. unfold linked_ptr_depart, leave. rewrite Hv. wp_step.
  eapply wp_mono; [apply (depart_spec (value_ s)); [done|by eexists]|done|].
  intros b ls' s' _ (-> & m' & -> & Hm' & Hb). destruct b.
  - wp_step. unfold get. eapply wp_deref; [exact Hv|done|]. destruct v as [o|]; simpl.
    + eapply wp_act_partial; [by rewrite decide_True by by eapply HO|done|done|]. split; [done|]. exists m'.
      split; [|done]. rewrite decide_True; [done|]. apply sole_mates; [done|]. by apply Hb.
    + apply wp_ret; [done|]. split; [done|]. exists m'. by destruct s.
  - apply wp_ret; [done|]. split; [done|]. exists m'. split; [|done]. destruct v as [o|]; [|by destruct s].
    rewrite decide_False; [by destruct s|]. rewrite sole_mates by done. intros H. by apply Hb in H.
Qed.

Lemma copy_spec this src w ls s :
  circles (next_ s) (delete this (value_ s)) → src ≠ this → value_ s !! src = Some w →
  wp tid C (copy this src) ls s (λ _ ls' s', ls' = ls ∧
    ∃ m', s' = set_next m' (set_value (<[this := w]> (value_ s)) s) ∧ circles m' (<[this := w]> (value_ s))).
Proof.
  intros HV Hne Hw. unfold copy, get. wp_step. eapply wp_deref; [exact Hw|done|]. unfold set_ptr. do 2 wp_step.
  pose proof (insert_delete_eq (value_ s) this w) as E. destruct w as [o|].
  - eapply wp_mono; [apply (join_spec (delete this (value_ s)) this src o)|done|].
    + done.
    + apply lookup_delete_eq.
    + by rewrite lookup_delete_ne.
    + intros [] ls' s' _ (-> & m' & -> & Hm'). split; [done|]. exists m'. by rewrite E in Hm'.
  - unfold join_new, set_link. apply wp_modify; [done..|]. split; [done|]. eexists. split; [done|]. rewrite <- E.
    apply circles_new; [done|apply lookup_delete_eq|done].
Qed.

Lemma capture_spec this v ls s :
  circles (next_ s) (delete this (value_ s)) → (∀ o q, v = Some o → q ≠ this → value_ s !! q ≠ Some (Some o)) →
  wp tid C (capture this v) ls s (λ _ ls' s', ls' = ls ∧
    ∃ m', s' = set_next m' (set_value (<[this := v]> (value_ s)) s) ∧ circles m' (<[this := v]> (value_ s))).
Proof.
  intros HV Hv. unfold capture, set_ptr. do 2 wp_step. unfold join_new, set_link. apply wp_modify; [done..|].
  split; [done|]. eexists. split; [done|]. rewrite <- (insert_delete_eq (value_ s) this v).
  apply circles_new; [done|apply lookup_delete_eq|]. intros o q -> Hq.
  destruct (decide (q = this)) as [->|Hqt]; [by rewrite lookup_delete_eq in Hq|].
  rewrite lookup_delete_ne in Hq by done. by eapply Hv.
Qed.

(** ** The operations together *)

Inductive op :=
| New (this : positive) (ptr : option positive)
| Copy (this src : positive)
| Assign (this src : positive)
| Reset (this : positive) (ptr : option positive)
| Delete (this : positive).

Definition exec (o : op) : P unit :=
  match o with
  | New this ptr => linked_ptr_new this ptr
  | Copy this src => linked_ptr_copy this src
  | Assign this src => linked_ptr_assign this src
  | Reset this ptr => linked_ptr_reset this ptr
  | Delete this => linked_ptr_delete this
  end.

(** A raw pointer is handed over once: to an object that is there and that no
    [linked_ptr] holds. *)
Definition raw s (ptr : option positive) : Prop :=
  ∀ o, ptr = Some o → o ∈ objects s ∧ ∀ q, value_ s !! q ≠ Some (Some o).

Definition op_ok s (o : op) : Prop :=
  match o with
  | New this ptr => value_ s !! this = None ∧ raw s ptr
  | Copy this src => value_ s !! this = None ∧ is_Some (value_ s !! src)
  | Assign this src => is_Some (value_ s !! this) ∧ is_Some (value_ s !! src)
  | Reset this ptr => is_Some (value_ s !! this) ∧ raw s ptr
  | Delete this => is_Some (value_ s !! this)
  end.

(** What the pointers hold and which objects are left. *)
Definition after (o : op) (V : gmap positive (option positive)) (O : gset positive) :
    gmap positive (option positive) * gset positive :=
  match o with
  | New this ptr => (<[this := ptr]> V, O)
  | Copy this src => (<[this := default None (V !! src)]> V, O)
  | Assign this src =>
      if decide (src = this) then (V, O) else (<[this := default None (V !! src)]> V, leave V this O)
  | Reset this ptr => (<[this := ptr]> V, leave V this O)
  | Delete this => (delete this V, leave V this O)
  end.

(** The objects held by others are left when [this] lets go of its own. *)
Lemma leave_held V this O p o :
  p ≠ this → V !! p = Some (Some o) → o ∈ O → o ∈ leave V this O.
Proof.
  intros Hp Hv Ho. unfold leave. destruct (V !! this) as [[o'|]|]; [|done..]. case_decide as Hs; [|done].
  apply elem_of_difference. split; [done|]. intros ->%elem_of_singleton. by apply Hp, (Hs p (Some o')).
Qed.

Lemma leave_raw V this O o : V !! this ≠ Some (Some o) → o ∈ O → o ∈ leave V this O.
Proof.
  intros Hv Ho. unfold leave. destruct (V !! this) as [[o'|]|]; [|done..]. case_decide; [|done].
  apply elem_of_difference. split; [done|]. intros ->%elem_of_singleton. done.
Qed.

Lemma op_spec o s :
  links_ok s → op_ok s o →
  wp tid C (exec o) ∅ s (λ _ ls' s', ls' = ∅ ∧ links_ok s' ∧
    (value_ s', objects s') = after o (value_ s) (objects s)).
Proof.
  intros Hok. pose proof Hok as [HV HO]. destruct o as [this ptr|this src|this src|this ptr|this]; simpl.
  - intros [Hnew Hraw]. unfold linked_ptr_new.
    eapply wp_mono; [apply capture_spec|done|]; [by rewrite delete_id|intros o q -> _; by apply Hraw|].
    intros [] ls' s' _ (-> & m' & -> & Hm'). split; [done|]. split; [|done]. split; [done|]. simpl.
    intros p o [[<- ->]|[_ Hp]]%lookup_insert_Some; [by apply Hraw|by eapply HO].
  - intros [Hnew [w Hw]]. assert (Hne : src ≠ this) by congruence. unfold linked_ptr_copy. wp_step.
    apply wp_assert; [done|by apply bool_decide_eq_true|].
    eapply wp_mono; [apply (copy_spec this src w)|done|]; [by rewrite delete_id|done|done|].
    intros [] ls' s' _ (-> & m' & -> & Hm'). split; [done|]. rewrite Hw. split; [|done]. split; [done|]. simpl.
    intros p o [[<- ->]|[_ Hp]]%lookup_insert_Some; by eapply HO.
  - intros [[v Hv] [w Hw]]. unfold linked_ptr_assign. destruct (decide (src = this)) as [->|Hne].
    { apply wp_ret; [done|]. by destruct s. }
    wp_step. eapply wp_mono; [by apply (linked_ptr_depart_spec this v)|done|].
    intros [] ls' s' _ (-> & m' & -> & Hm').
    eapply wp_mono; [by apply (copy_spec this src w)|done|].
    intros [] ls' s' _ (-> & m2 & -> & Hm2). split; [done|]. rewrite Hw. split; [|done]. split; [done|]. simpl.
    intros p o [[<- ->]|[Hp Ho]]%lookup_insert_Some.
    + apply (leave_held _ _ _ src); [done..|by eapply HO].
    + apply (leave_held _ _ _ p); [done..|by eapply HO].
  - intros [[v Hv] Hraw]. unfold linked_ptr_reset. wp_step.
    eapply wp_mono; [by apply (linked_ptr_depart_spec this v)|done|].
    intros [] ls' s' _ (-> & m' & -> & Hm').
    eapply wp_mono; [apply capture_spec|done|]; [done|intros o q -> _; by apply Hraw|].
    intros [] ls' s' _ (-> & m2 & -> & Hm2). split; [done|]. split; [|done]. split; [done|]. simpl.
    intros p o [[<- ->]|[Hp Ho]]%lookup_insert_Some; [|apply (leave_held _ _ _ p); [done..|by eapply HO]].
    destruct (Hraw o eq_refl). by apply leave_raw.
  - intros [v Hv]. unfold linked_ptr_delete. wp_step.
    eapply wp_mono; [by apply (linked_ptr_depart_spec this v)|done|].
    intros [] ls' s' _ (-> & m' & -> & Hm'). apply wp_modify; [done..|]. split; [done|]. split; [|done]. split.
    + intros p Hp. simpl in Hp. destruct (Hm' p Hp) as [l Hl]. exists l. simpl.
      assert (Hnm : ¬ mates (delete this (value_ s)) p this).
      { intros [->|(o & _ & Ho)]; [by rewrite lookup_delete_eq in Hp; destruct Hp|]. by rewrite lookup_delete_eq in Ho. }
      destruct Hl as (Hs & Hd & Hm). split; [|by split]. rewrite <- Hm in Hnm. by apply seg_delete.
    + simpl. intros p o [Hp Ho]%lookup_delete_Some. apply (leave_held _ _ _ p); [done..|by eapply HO].
Qed.

(** C39. A shared object lives exactly as long as a pointer to it: whichever operation is
    applied to the [linked_ptr]s of a program, it ends without a failed assertion or a
    second delete, every pointer is in the circle of the pointers to its object, each
    pointer holds what the operation says, and an object is deleted exactly when the
    operation takes the last pointer off it. *)
Theorem linked_ptr_counts o s :
  links_ok s → op_ok s o →
  ∃ s', run tid (exec o) ∅ s = Done tt ∅ s' ∧ links_ok s' ∧
    (value_ s', objects s') = after o (value_ s) (objects s).
Proof.
  intros Hok Ho. destruct (wp_run _ _ _ _ _ _ (op_spec o s Hok Ho)) as ([] & ls & s' & Hrun & -> & H1 & H2).
  by exists s'.
Qed.
End operations.

(** ** Witness

    A pointer takes over object 9 and a copy of it is made; then the first lets go of the
    object, and the copy goes out of scope. *)
Definition no_pointers : Links := {| next_ := ∅; value_ := ∅; objects := {[ 9%positive ]} |}.

Lemma no_pointers_ok : links_ok no_pointers.
Proof. split; [by intros p [v ?]|done]. Qed.

Lemma linked_ptr_counts_witness :
  ∃ s1 s2 s3 s4,
    run 1 (exec (New 1 (Some 9%positive))) ∅ no_pointers = Done tt ∅ s1 ∧
    run 1 (exec (Copy 2 1)) ∅ s1 = Done tt ∅ s2 ∧
    run 1 (exec (Reset 1 None)) ∅ s2 = Done tt ∅ s3 ∧ objects s3 = {[ 9%positive ]} ∧
    run 1 (exec (Delete 2)) ∅ s3 = Done tt ∅ s4 ∧ objects s4 = ∅.
Proof.
  destruct (linked_ptr_counts 1 (New 1 (Some 9%positive)) no_pointers) as (s1 & H1 & Hok1 & E1).
  { apply no_pointers_ok. }
  { split; [done|]. intros o [= <-]. split; [set_solver|done]. }
  injection E1 as V1 O1.
  destruct (linked_ptr_counts 1 (Copy 2 1) s1) as (s2 & H2 & Hok2 & E2); [done| |].
  { unfold op_ok. rewrite V1. split; [done|by eexists]. }
  injection E2 as V2 O2. rewrite V1 in V2. rewrite O1 in O2.
  destruct (linked_ptr_counts 1 (Reset 1 None) s2) as (s3 & H3 & Hok3 & E3); [done| |].
  { unfold op_ok. rewrite V2. split; [by eexists|done]. }
  injection E3 as V3 O3. rewrite V2 in V3, O3. rewrite O2 in O3.
  destruct (linked_ptr_counts 1 (Delete 2) s3) as (s4 & H4 & _ & E4); [done| |].
  { unfold op_ok. rewrite V3. by eexists. }
  injection E4 as _ O4. rewrite V3, O3 in O4.
  exists s1, s2, s3, s4. repeat split; [done..|by rewrite O3; vm_compute|done|by rewrite O4; vm_compute].
Defined.
