(* ===== verification/ParamUtil.v ===== *)
(** * Parameter generators of the test framework

    The generators of internal/gtest-param-util.h and what is done with them: the iterator
    interface, the generator of a range and of the elements of a container, and the
    registration of a test for every parameter.  [None] is undefined behaviour, a failed
    GTEST_CHECK_ (which ends the process) or a loop that does not end. *)
From S2P Require Import Prelude Stdcxx.
From Stdlib Require Import ZArith Lia List Ascii String Bool.
From stdpp Require Import base gmap strings list fin_maps.
#[local] Set Default Goal Selector "!".
Local Open Scope Z_scope.

(** ** Iterators

    [ParamIteratorInterface<T>]; a generator is known by its address.  Reading may fill a
    cache, so it changes the iterator. *)
Class ParamIteratorInterface (I T : Type) := {
  BaseGenerator : I → positive;
  Advance : I → option I;
  Clone : I → option I;
  Current : I → option (T * I);
  Equals : I → I → option bool
}.

(** [ParamIterator<T>], which owns an iterator: the prefix and the postfix increment (the
    value of the expression, then the iterator), and the comparisons; [same] says that
    both sides are the same object. *)
Section param_iterator.
Context {I T : Type} `{ParamIteratorInterface I T}.

Definition iterator_increment (impl_ : I) : option (I * I) :=
  impl_ ← Advance impl_; Some (impl_, impl_).

Definition iterator_postincrement (impl_ : I) : option (I * I) :=
  clone ← Clone impl_;
  impl_ ← Advance impl_; Some (clone, impl_).

Definition iterator_equal (same : bool) (impl_ other : I) : option bool :=
  if same then Some true else Equals impl_ other.

Definition iterator_different (same : bool) (impl_ other : I) : option bool :=
  negb <$> iterator_equal same impl_ other.

(** Copying and assigning a [ParamIterator] copies the iterator it owns. *)
Definition iterator_copy (other : I) : option I := Clone other.

Definition iterator_assign (same : bool) (impl_ other : I) : option I :=
  if same then Some impl_ else Clone other.

(** [ParamGenerator<T>]: the generator behind it is immutable and shared, so it is what its
    [Begin] and [End] make. *)
Record ParamGenerator := { generator_begin : I; generator_end : I }.

(** [for (it = generator.begin(); it != generator.end(); ++it)], reading every element. *)
Fixpoint elements_from (fuel : nat) (it end_ : I) : option (list T) :=
  match fuel with
  | O => None
  | S fuel =>
      more ← iterator_different false it end_;
      if more : bool then
        '(x, it) ← Current it;
        '(it, _) ← iterator_increment it;
        l ← elements_from fuel it end_;
        Some (x :: l)
      else Some []
  end.

(** What it takes for an iterator to run through a list: [at_ it l] says that [it] stands
    before the elements [l], and [ends it] that it is an iterator to stop at. *)
Record runs_through (at_ : I → list T → Prop) (ends : I → Prop) : Prop := {
  at_end it l end_ : at_ it l → ends end_ → Equals it end_ = Some (bool_decide (l = []));
  at_element it x l : at_ it (x :: l) → ∃ it', Current it = Some (x, it') ∧ at_ it' (x :: l);
  at_advance it x l : at_ it (x :: l) → ∃ it', Advance it = Some it' ∧ at_ it' l;
  at_clone it l : at_ it l → ∃ it', Clone it = Some it' ∧ at_ it' l;
  ends_at it : ends it → at_ it [];
  ends_clone it : ends it → ∃ it', Clone it = Some it' ∧ ends it'
}.

Lemma elements_from_spec at_ ends end_ fuel it l :
  runs_through at_ ends → ends end_ → at_ it l → (length l < fuel)%nat → elements_from fuel it end_ = Some l.
Proof.
  intros Hr He. revert fuel it. induction l as [|x l IH]; intros [|fuel] it Hat Hf; simpl in *; [lia..| |lia|];
    unfold iterator_different, iterator_equal; rewrite (at_end _ _ Hr _ _ _ Hat He); simpl; [done|].
  destruct (at_element _ _ Hr _ _ _ Hat) as (it' & -> & Hat'). simpl.
  destruct (at_advance _ _ Hr _ _ _ Hat') as (it'' & E & Hat'').
  unfold iterator_increment. rewrite E. simpl. by rewrite (IH fuel) by (done || lia).
Qed.
End param_iterator.
Arguments ParamGenerator I : clear implicits.

(** ** Range(begin, end, step) *)

Section range.
Context {T IncrementT : Type} (lt : T → T → bool) (add : T → IncrementT → option T).

(** The loop [for (T i = begin; i < end; i = static_cast<T>(i + step)) end_index++]. *)
Fixpoint end_index_loop (fuel : nat) (i end_ : T) (step : IncrementT) (end_index : Z) : option Z :=
  match fuel with
  | O => None
  | S fuel =>
      if lt i end_ then
        i ← add i step;
        if end_index =? INT32_MAX then None else end_index_loop fuel i end_ step (end_index + 1)
      else Some end_index
  end.

Definition CalculateEndIndex (fuel : nat) (begin_ end_ : T) (step : IncrementT) : option Z :=
  end_index_loop fuel begin_ end_ step 0.

Record RangeGenerator := {
  range_begin : T;
  range_end : T;
  range_step : IncrementT;
  range_end_index : Z
}.

Definition RangeGenerator_ctor (fuel : nat) (begin_ end_ : T) (step : IncrementT) : option RangeGenerator :=
  end_index ← CalculateEndIndex fuel begin_ end_ step;
  Some {| range_begin := begin_; range_end := end_; range_step := step; range_end_index := end_index |}.

Record RangeIterator := {
  range_base : positive;
  range_value : T;
  range_index : Z;
  range_iterator_step : IncrementT
}.

Definition Range_Begin (this : positive) (g : RangeGenerator) : RangeIterator :=
  {| range_base := this; range_value := range_begin g; range_index := 0; range_iterator_step := range_step g |}.

Definition Range_End (this : positive) (g : RangeGenerator) : RangeIterator :=
  {| range_base := this; range_value := range_end g; range_index := range_end_index g;
     range_iterator_step := range_step g |}.

#[export] Instance range_iterator : ParamIteratorInterface RangeIterator T := {
  BaseGenerator it := range_base it;
  Advance it :=
    value ← add (range_value it) (range_iterator_step it);
    if range_index it =? INT32_MAX then None
    else Some {| range_base := range_base it; range_value := value; range_index := range_index it + 1;
                 range_iterator_step := range_iterator_step it |};
  Clone it := Some it;
  Current it := Some (range_value it, it);
  Equals it other :=
    if decide (range_base it = range_base other)
    then Some (bool_decide (range_index it = range_index other)) else None
}.
End range.

(** ** ValuesIn(container)

    The generator keeps a copy of the elements; an iterator caches the element it has
    read, and a copy of the iterator does not take the cache over. *)
Section values_in.
Context {T : Type} (container_ : list T).

Record ValuesInIterator := {
  values_base : positive;
  values_iterator : nat;
  values_value : option T
}.

Definition ValuesIn_Begin (this : positive) : ValuesInIterator :=
  {| values_base := this; values_iterator := 0; values_value := None |}.

Definition ValuesIn_End (this : positive) : ValuesInIterator :=
  {| values_base := this; values_iterator := length container_; values_value := None |}.

#[export] Instance values_in_iterator : ParamIteratorInterface ValuesInIterator T := {
  BaseGenerator it := values_base it;
  Advance it :=
    if decide (values_iterator it < length container_)%nat
    then Some {| values_base := values_base it; values_iterator := S (values_iterator it); values_value := None |}
    else None;
  Clone it := Some {| values_base := values_base it; values_iterator := values_iterator it; values_value := None |};
  Current it :=
    match values_value it with
    | Some x => Some (x, it)
    | None =>
        x ← container_ !! values_iterator it;
        Some (x, {| values_base := values_base it; values_iterator := values_iterator it; values_value := Some x |})
    end;
  Equals it other :=
    if decide (values_base it = values_base other)
    then Some (bool_decide (values_iterator it = values_iterator other)) else None
}.

(** The iterators of a generator run through its container. *)
Definition values_at (this : positive) (it : ValuesInIterator) (l : list T) : Prop :=
  values_base it = this ∧ drop (values_iterator it) container_ = l ∧
  (values_iterator it ≤ length container_)%nat ∧
  ∀ x, values_value it = Some x → container_ !! values_iterator it = Some x.

Lemma values_in_runs_through this : runs_through (values_at this) (λ it, values_at this it []).
Proof.
  split.
  - intros it l end_ (Hb & Hl & Hle & _) (Hb' & Hl' & Hle' & _). simpl. rewrite decide_True by congruence. f_equal.
    apply (f_equal length) in Hl'. rewrite length_drop in Hl'. simpl in Hl'.
    apply bool_decide_ext. rewrite <- Hl, <- length_zero_iff_nil, length_drop. lia.
  - intros it x l (Hb & Hl & Hle & Hc).
    assert (Hx : container_ !! values_iterator it = Some x).
    { rewrite <- (Nat.add_0_r (values_iterator it)), <- lookup_drop, Hl. done. }
    simpl. destruct (values_value it) as [y|] eqn:Ey.
    + pose proof (Hc y eq_refl) as Hy. rewrite Hx in Hy. injection Hy as <-. eexists. split; [done|].
      split; [done|]. split; [done|]. split; [done|]. by rewrite Ey; intros ? [= <-].
    + rewrite Hx. eexists. split; [done|]. split; [done|]. split; [done|]. split; [done|]. simpl. by intros ? [= <-].
  - intros it x l (Hb & Hl & Hle & Hc).
    assert (Hlt : (values_iterator it < length container_)%nat).
    { apply (f_equal length) in Hl. rewrite length_drop in Hl. simpl in Hl. lia. }
    simpl. rewrite decide_True by done. eexists. split; [done|]. split; [done|]. split; [|split; [done|done]].
    simpl. by rewrite <- Nat.add_1_r, <- drop_drop, Hl.
  - intros it l (Hb & Hl & Hle & Hc). eexists. split; [done|]. by repeat split.
  - done.
  - intros it (Hb & Hl & Hle & Hc). eexists. split; [done|]. by repeat split.
Qed.

Lemma values_in_start this : values_at this (ValuesIn_Begin this) container_ ∧ values_at this (ValuesIn_End this) [].
Proof. split; (split; [done|]; split; [|split; [simpl; lia|done]]); [done|apply drop_all]. Qed.
End values_in.

(** ** Ranges of [int]s *)

#[local] Coercion Z.of_nat : nat >-> Z.

(** [static_cast<int>(i + step)]; the sum may overflow. *)
Definition int_add (i step : Z) : option Z :=
  if decide (INT32_MIN ≤ i + step ≤ INT32_MAX) then Some (i + step) else None.

Fixpoint progression (start step : Z) (n : nat) : list Z :=
  match n with
  | O => []
  | S n => start :: progression (start + step) step n
  end.

Lemma progression_spec start step n :
  progression start step n = (λ k : nat, start + k * step) <$> seq 0 n.
Proof.
  revert start. induction n as [|n IH]; intros start; [done|]. cbn [progression seq fmap list_fmap]. f_equal; [lia|].
  rewrite IH, <- fmap_S_seq, <- list_fmap_compose. apply list_fmap_ext. intros _ k _. simpl. lia.
Qed.

Lemma progression_length start step n : length (progression start step n) = n.
Proof. revert start. induction n as [|n IH]; intros start; simpl; auto. Qed.

Abbreviation IntRange := (@RangeGenerator Z Z).

Section int_range.
Context (begin_ end_ step : Z) (Hstep : 0 < step).

(** The number of elements below [end_]. *)
Definition range_size (from : Z) : nat := Z.to_nat ((end_ - from + step - 1) / step).

Lemma range_size_step from :
  range_size from = if from <? end_ then S (range_size (from + step)) else O.
Proof using Hstep.
  unfold range_size. destruct (Z.ltb_spec from end_) as [Hlt|Hle].
  - replace (end_ - from + step - 1) with (end_ - (from + step) + step - 1 + 1 * step) by lia.
    rewrite Z.div_add by lia. rewrite <- Z2Nat.inj_succ; [f_equal; lia|]. apply Z.div_pos; lia.
  - assert ((end_ - from + step - 1) / step < 1) by (apply Z.div_lt_upper_bound; lia). lia.
Qed.

Context (Hover : end_ + step - 1 ≤ INT32_MAX).

Lemma end_index_loop_spec fuel i end_index :
  INT32_MIN ≤ i → end_index + range_size i ≤ INT32_MAX → (range_size i < fuel)%nat →
  end_index_loop Z.ltb int_add fuel i end_ step end_index = Some (end_index + range_size i).
Proof using Hstep Hover.
  revert i end_index. induction fuel as [|fuel IH]; intros i end_index Hi Hn Hf; [lia|]. cbn [end_index_loop].
  rewrite range_size_step in *. destruct (Z.ltb_spec i end_) as [Hlt|Hle]; [|by rewrite Z.add_0_r].
  unfold int_add. rewrite decide_True by lia. simpl. rewrite (proj2 (Z.eqb_neq _ _)) by lia.
  rewrite IH by lia. f_equal. lia.
Qed.

(** An iterator of the range stands before the rest of the progression. *)
Definition range_at (this : positive) (it : @RangeIterator Z Z) (l : list Z) : Prop :=
  range_base it = this ∧ range_iterator_step it = step ∧ INT32_MIN ≤ range_value it ∧
  l = progression (range_value it) step (range_size (range_value it)) ∧
  range_index it + range_size (range_value it) = range_size begin_ ∧
  range_size begin_ ≤ INT32_MAX.

Lemma range_runs_through this :
  runs_through (H := range_iterator int_add) (range_at this) (λ it, range_at this it []).
Proof using Hstep Hover.
  split.
  - intros it l e (Hb & _ & _ & -> & Hn & _) (Hb' & _ & _ & He & Hn' & _). simpl. rewrite decide_True by congruence. f_equal.
    apply (f_equal length) in He. rewrite progression_length in He. simpl in He.
    apply bool_decide_ext. rewrite <- length_zero_iff_nil, progression_length. lia.
  - intros it x l (Hb & Hs & Hv & Hl & Hn & Hmax). exists it. split; [|by repeat split].
    simpl. rewrite range_size_step in Hl. destruct (Z.ltb_spec (range_value it) end_); [|done]. simpl in Hl. by simplify_eq.
  - intros it x l (Hb & Hs & Hv & Hl & Hn & Hmax). rewrite range_size_step in Hl, Hn.
    destruct (Z.ltb_spec (range_value it) end_) as [Hlt|]; [|done]. cbn [progression] in Hl. injection Hl as _ ->.
    simpl. unfold int_add. rewrite Hs, decide_True by lia. simpl. rewrite (proj2 (Z.eqb_neq _ _)) by lia.
    eexists. split; [done|]. unfold range_at. simpl. repeat split; first [done|lia].
  - intros it l Hat. by exists it.
  - done.
  - intros it Hat. by exists it.
Qed.

Lemma range_size_end : range_size end_ = 0%nat.
Proof using Hstep. unfold range_size. rewrite Z.div_small by lia. done. Qed.

Lemma range_start this g :
  INT32_MIN ≤ begin_ → INT32_MIN ≤ end_ → range_size begin_ ≤ INT32_MAX →
  range_begin g = begin_ → range_end g = end_ → range_step g = step → range_end_index g = range_size begin_ →
  range_at this (Range_Begin this g) (progression begin_ step (range_size begin_)) ∧ range_at this (Range_End this g) [].
Proof using Hstep.
  intros Hb He Hn Eb Eend Es Ei. unfold range_at. simpl. rewrite Eb, Eend, Ei, range_size_end.
  repeat split; first [done|lia].
Qed.
End int_range.

(** A range of [int]s generates what it says: for a positive step, when neither the last
    sum nor the number of elements leaves [int], the generator is built and running its
    iterators from begin to end yields begin, begin + step, ..., as long as they are below
    end - nothing when begin is not. *)
Theorem range_elements this fuel begin_ end_ step :
  let n := range_size end_ step begin_ in
  int32 begin_ → int32 end_ → 0 < step → end_ + step - 1 ≤ INT32_MAX → n ≤ INT32_MAX → (n < fuel)%nat →
  ∃ g, RangeGenerator_ctor Z.ltb int_add fuel begin_ end_ step = Some g ∧
    elements_from (H := range_iterator int_add) fuel (Range_Begin this g) (Range_End this g) =
      Some ((λ k : nat, begin_ + k * step) <$> seq 0 n).
Proof.
  intros n [Hb _] [He _] Hstep Hover Hn Hf. unfold RangeGenerator_ctor, CalculateEndIndex.
  rewrite end_index_loop_spec by (done || lia). simpl. eexists. split; [done|].
  rewrite <- progression_spec. match goal with |- elements_from _ (Range_Begin _ ?g) _ = _ =>
    destruct (range_start begin_ end_ step Hstep this g Hb He Hn) as [Hstart Hend] end; [reflexivity|reflexivity|reflexivity|simpl; lia|].
  eapply elements_from_spec; [by apply (range_runs_through begin_ end_ step Hstep Hover)|exact Hend|exact Hstart|].
  by rewrite progression_length.
Qed.

Lemma range_elements_witness :
  ∃ g, RangeGenerator_ctor Z.ltb int_add 10 2 9 3 = Some g ∧
    elements_from (H := range_iterator int_add) 10 (Range_Begin 1 g) (Range_End 1 g) = Some [2; 5; 8].
Proof.
  destruct (range_elements 1 10 2 9 3) as (g & Hg & He); [by vm_compute|by vm_compute|lia|by vm_compute|by vm_compute|vm_compute; lia|].
  by exists g.
Defined.

(** A range whose step does not get closer to its end has no end index: the loop overflows
    or runs for ever. *)
Lemma range_never_ends fuel begin_ end_ step :
  begin_ < end_ → step ≤ 0 → RangeGenerator_ctor Z.ltb int_add fuel begin_ end_ step = None.
Proof.
  intros Hlt Hstep. unfold RangeGenerator_ctor, CalculateEndIndex.
  assert (H : ∀ k, end_index_loop Z.ltb int_add fuel begin_ end_ step k = None); [|by rewrite H].
  revert begin_ Hlt. induction fuel as [|fuel IH]; intros b Hlt k; [done|]. cbn [end_index_loop].
  rewrite (proj2 (Z.ltb_lt _ _)) by done. unfold int_add. case_decide; [|done]. simpl.
  destruct (k =? INT32_MAX); [done|]. apply IH. lia.
Qed.

(** ** Registering tests

    [ParameterizedTestCaseInfo::RegisterTests]: for every test and every instantiation, the
    generator is run and a test registered for each parameter. *)

Record TestInfo := { test_case_base_name : bytes; test_base_name : bytes }.

(** An instantiation: its name, what its generator yields, and the function that names a
    parameter with its index. *)
Record InstantiationInfo (T : Type) := {
  inst_name : bytes;
  inst_generator : list T;
  inst_name_func : T → Z → bytes
}.
Arguments inst_name {T}.
Arguments inst_generator {T}.
Arguments inst_name_func {T}.

(** What [MakeAndRegisterTestInfo] is told. *)
Record Registered (T : Type) := { reg_test_case : bytes; reg_test : bytes; reg_param : T }.
Arguments reg_test_case {T}.
Arguments reg_test {T}.
Arguments reg_param {T}.

(** [isalnum] of the C locale. *)
Definition isalnum (c : ascii) : bool :=
  let n := code c in
  ((48 <=? n) && (n <=? 57)) || ((65 <=? n) && (n <=? 90)) || ((97 <=? n) && (n <=? 122)).

Definition IsValidParamName (name : bytes) : bool :=
  negb (bool_decide (name = [])) && forallb (λ c, isalnum c || bool_decide (c = "_"%char)) name.

Definition DefaultParamName {T} (param : T) (index : Z) : bytes := to_string index.

Section register.
Context {T : Type}.

Definition test_case_name (i : InstantiationInfo T) (t : TestInfo) : bytes :=
  (if decide (inst_name i = []) then [] else inst_name i ++ str "/") ++ test_case_base_name t.

Fixpoint register_params (t : TestInfo) (gen : InstantiationInfo T) (params : list T) (i : Z)
    (test_param_names : gset bytes) : option (list (Registered T)) :=
  match params with
  | [] => Some []
  | x :: params =>
      let param_name := inst_name_func gen x i in
      if negb (IsValidParamName param_name) then None
      else if decide (param_name ∈ test_param_names) then None
      else
        l ← register_params t gen params (i + 1) ({[param_name]} ∪ test_param_names);
        Some ({| reg_test_case := test_case_name gen t; reg_test := test_base_name t ++ str "/" ++ param_name;
                 reg_param := x |} :: l)
  end.

Fixpoint register_instantiations (t : TestInfo) (instantiations_ : list (InstantiationInfo T))
    : option (list (Registered T)) :=
  match instantiations_ with
  | [] => Some []
  | gen :: instantiations_ =>
      l ← register_params t gen (inst_generator gen) 0 ∅;
      l' ← register_instantiations t instantiations_;
      Some (l ++ l')
  end.

Fixpoint RegisterTests (tests_ : list TestInfo) (instantiations_ : list (InstantiationInfo T))
    : option (list (Registered T)) :=
  match tests_ with
  | [] => Some []
  | t :: tests_ =>
      l ← register_instantiations t instantiations_;
      l' ← RegisterTests tests_ instantiations_;
      Some (l ++ l')
  end.

(** ** Every parameter is registered *)

Definition registered_as (t : TestInfo) (gen : InstantiationInfo T) (i : nat) (x : T) : Registered T :=
  {| reg_test_case := test_case_name gen t;
     reg_test := test_base_name t ++ str "/" ++ inst_name_func gen x i; reg_param := x |}.

(** The names of parameters from an index on. *)
Definition names_from (gen : InstantiationInfo T) (k : nat) (params : list T) : list bytes :=
  imap (λ i x, inst_name_func gen x (Z.of_nat (k + i))) params.

Lemma names_from_cons gen k x params :
  names_from gen k (x :: params) = inst_name_func gen x (Z.of_nat k) :: names_from gen (S k) params.
Proof.
  unfold names_from. rewrite imap_cons. rewrite Nat.add_0_r. f_equal.
  apply imap_ext. intros i y _. simpl. by rewrite Nat.add_succ_r.
Qed.

Lemma register_params_spec t gen params (k : nat) names :
  register_params t gen params k names =
    if decide (Forall (λ name, IsValidParamName name = true ∧ name ∉ names) (names_from gen k params) ∧
               NoDup (names_from gen k params))
    then Some (imap (λ i x, registered_as t gen (k + i) x) params) else None.
Proof.
  revert k names. induction params as [|x params IH]; intros k names; [by rewrite decide_True by by repeat constructor|].
  rewrite names_from_cons, imap_cons, Nat.add_0_r. cbn [register_params].
  replace (Z.of_nat k + 1) with (Z.of_nat (S k)) by lia. rewrite IH.
  rewrite (imap_ext ((λ i x, registered_as t gen (k + i) x) ∘ S) (λ i x, registered_as t gen (S k + i) x) params) by
    (intros i y _; simpl; by rewrite Nat.add_succ_r).
  set (ns := names_from gen (S k) params). set (n := inst_name_func gen x (Z.of_nat k)).
  destruct (IsValidParamName n) eqn:Hv; cbn [negb]; cycle 1.
  { rewrite decide_False; [done|]. intros [[[Hn _] _]%Forall_cons _]. congruence. }
  case_decide as Hin.
  { rewrite decide_False; [done|]. intros [[[_ Hn] _]%Forall_cons _]. done. }
  case_decide as H1; cbn [mbind option_bind].
  - destruct H1 as [HF Hd]. rewrite decide_True; [done|]. split.
    + apply Forall_cons. split; [done|]. eapply Forall_impl; [exact HF|]. simpl. set_solver.
    + apply NoDup_cons. split; [|done]. intros Hn. rewrite Forall_forall in HF. destruct (HF n Hn). set_solver.
  - rewrite decide_False; [done|]. intros [[_ HF]%Forall_cons [Hn Hd]%NoDup_cons]. apply H1. split; [|done].
    rewrite Forall_forall in *. intros m Hm. destruct (HF m Hm). split; [done|]. set_solver.
Qed.

(** The names [DefaultParamName] gives are well formed and distinct. *)
Lemma to_string_valid (i : nat) : IsValidParamName (to_string (Z.of_nat i)) = true.
Proof.
  unfold IsValidParamName, to_string. rewrite (proj2 (Z.ltb_ge _ 0)) by lia. apply andb_true_iff. split.
  - apply negb_true_iff, bool_decide_eq_false. apply digits_ne. lia.
  - eapply forallb_impl; [|apply digits_forall; lia]. intros c Hc. unfold is_digit in Hc. unfold isalnum.
    by rewrite Hc.
Qed.

Lemma to_string_index_inj (i j : nat) : to_string (Z.of_nat i) = to_string (Z.of_nat j) → i = j.
Proof. intros E. apply (f_equal (digits_value 0)) in E. rewrite !digits_value_to_string in E by lia. lia. Qed.

Lemma names_from_default gen (k : nat) params :
  inst_name_func gen = DefaultParamName →
  Forall (λ name, IsValidParamName name = true) (names_from gen k params) ∧ NoDup (names_from gen k params) ∧
  ∀ j, (j < k)%nat → to_string (Z.of_nat j) ∉ names_from gen k params.
Proof.
  intros E. revert k. induction params as [|x params IH]; intros k.
  { split; [constructor|]. split; [constructor|]. intros j _ ?%elem_of_nil. done. }
  destruct (IH (S k)) as (HF & Hd & Hn). rewrite names_from_cons, E. unfold DefaultParamName.
  split; [constructor; [apply to_string_valid|done]|]. split; [constructor; [apply Hn; lia|done]|].
  intros j Hj [Ej%to_string_index_inj|Hin]%elem_of_cons; [lia|]. by apply (Hn j); [lia|].
Qed.

(** The tests one registers for an instantiation, and for all of them. *)
Definition tests_of (t : TestInfo) (gen : InstantiationInfo T) : list (Registered T) :=
  imap (registered_as t gen) (inst_generator gen).

(** The names an instantiation gives its parameters pass the checks. *)
Definition names_accepted (gen : InstantiationInfo T) : Prop :=
  Forall (λ name, IsValidParamName name = true) (names_from gen 0 (inst_generator gen)) ∧
  NoDup (names_from gen 0 (inst_generator gen)).

#[export] Instance names_accepted_dec gen : Decision (names_accepted gen).
Proof. unfold names_accepted. apply _. Defined.

Lemma register_params_all t gen :
  register_params t gen (inst_generator gen) 0 ∅ = if decide (names_accepted gen) then Some (tests_of t gen) else None.
Proof.
  change 0 with (Z.of_nat 0). rewrite register_params_spec.
  erewrite decide_ext; [reflexivity|]. unfold names_accepted. rewrite !Forall_forall.
  split; intros [Hv Hd]; (split; [|exact Hd]); intros name Hin; specialize (Hv name Hin).
  - by destruct Hv.
  - split; [exact Hv|apply not_elem_of_empty].
Qed.

Lemma register_instantiations_spec t instantiations_ :
  register_instantiations t instantiations_ =
    if decide (Forall names_accepted instantiations_) then Some (instantiations_ ≫= tests_of t) else None.
Proof.
  induction instantiations_ as [|gen l IH]; [by rewrite decide_True|]. cbn [register_instantiations].
  rewrite register_params_all, IH. destruct (decide (names_accepted gen)) as [Hg|Hg]; cbn [mbind option_bind].
  - destruct (decide (Forall _ l)) as [Hl|Hl]; cbn [mbind option_bind].
    + by rewrite decide_True by by constructor.
    + by rewrite decide_False by by intros [_ ?]%Forall_cons.
  - by rewrite decide_False by by intros [? _]%Forall_cons.
Qed.

(** What one test case registers: each test with each parameter, or the process ends, if
    there is a test and an instantiation whose names do not pass. *)
Lemma RegisterTests_spec tests_ instantiations_ :
  RegisterTests tests_ instantiations_ =
    if decide (tests_ = [] ∨ Forall names_accepted instantiations_)
    then Some (t ← tests_; instantiations_ ≫= tests_of t) else None.
Proof.
  assert (H : RegisterTests tests_ instantiations_ =
    if decide (Forall names_accepted instantiations_) then Some (t ← tests_; instantiations_ ≫= tests_of t)
    else if decide (tests_ = []) then Some [] else None).
  { induction tests_ as [|t l IH]; [simpl; by case_decide|]. cbn [RegisterTests].
    rewrite register_instantiations_spec, IH. by case_decide. }
  rewrite H. clear H. case_decide as Hn; [by rewrite decide_True by auto|].
  case_decide as Ht; [subst; by rewrite decide_True by auto|]. by rewrite decide_False by tauto.
Qed.

Lemma register_default t gen :
  inst_name_func gen = DefaultParamName →
  register_params t gen (inst_generator gen) 0 ∅ = Some (tests_of t gen).
Proof.
  intros E. change 0 with (Z.of_nat 0). rewrite register_params_spec.
  destruct (names_from_default gen 0 (inst_generator gen) E) as (HF & Hd & _).
  rewrite decide_True; [done|]. split; [|done]. eapply Forall_impl; [exact HF|]. simpl. set_solver.
Qed.

Lemma register_instantiations_default t instantiations_ :
  Forall (λ gen, inst_name_func gen = DefaultParamName) instantiations_ →
  register_instantiations t instantiations_ = Some (instantiations_ ≫= tests_of t).
Proof.
  induction 1 as [|gen l Hgen _ IH]; [done|]. cbn [register_instantiations].
  by rewrite register_default, IH.
Qed.

(** Registration is complete: when the instantiations name their parameters by index
    (the default), no check fails, and exactly one test is registered for every test,
    instantiation and generated parameter, in this order, under the name of the
    instantiation, of the test and of the index. *)
Theorem default_names_register tests_ instantiations_ :
  Forall (λ gen, inst_name_func gen = DefaultParamName) instantiations_ →
  RegisterTests tests_ instantiations_ =
    Some (t ← tests_; gen ← instantiations_;
          imap (λ i x, {| reg_test_case := test_case_name gen t;
                          reg_test := test_base_name t ++ str "/" ++ to_string (Z.of_nat i);
                          reg_param := x |}) (inst_generator gen)).
Proof.
  intros HF. transitivity (Some (t ← tests_; instantiations_ ≫= tests_of t)).
  - induction tests_ as [|t tests_ IH]; [done|]. cbn [RegisterTests].
    by rewrite register_instantiations_default, IH.
  - f_equal. induction tests_ as [|t tests_ IH]; [done|]. cbn [mbind list_bind]. rewrite IH. f_equal. clear IH.
    induction HF as [|gen l Hgen _ IH]; [done|]. cbn [mbind list_bind]. rewrite IH. f_equal.
    apply imap_ext. intros i x _. unfold registered_as. by rewrite Hgen.
Qed.
End register.

(** A generator function that names two parameters alike, and the default. *)
Definition sample_instantiation (name_func : Z → Z → bytes) : InstantiationInfo Z :=
  {| inst_name := str "Some"; inst_generator := [5; 7]; inst_name_func := name_func |}.
Definition sample_test : TestInfo := {| test_case_base_name := str "FooTest"; test_base_name := str "DoBar" |}.

Example duplicate_names_abort : RegisterTests [sample_test] [sample_instantiation (λ _ _, str "same")] = None.
Proof. reflexivity. Qed.

Lemma default_names_register_witness :
  RegisterTests [sample_test] [sample_instantiation DefaultParamName] =
    Some [ {| reg_test_case := str "Some/FooTest"; reg_test := str "DoBar/0"; reg_param := 5 |};
           {| reg_test_case := str "Some/FooTest"; reg_test := str "DoBar/1"; reg_param := 7 |} ].
Proof. rewrite default_names_register; [reflexivity|by repeat constructor]. Defined.
