(* ===== verification/CartesianProduct.v ===== *)
(** * Combining parameter generators

    [CartesianProductGenerator2] and [CartesianProductHolder2] of
    internal/gtest-param-util-generated.h, which is what Combine(g1, g2) makes: a generator
    of pairs over two arbitrary generators, of which it knows only that their iterators
    implement [ParamIteratorInterface].  The theorem says that it generates every pair,
    the first component varying slowest, whatever the two generators are. *)
From S2P Require Import Prelude Stdcxx ParamUtil.
From Stdlib Require Import ZArith Lia List Bool.
From stdpp Require Import base list.
#[local] Set Default Goal Selector "!".

Section product.
Context {I1 T1 I2 T2 : Type} `{ParamIteratorInterface I1 T1} `{ParamIteratorInterface I2 T2}.

(** [CartesianProductGenerator2::Iterator]; [begin_]s and [end_]s delimit the ranges,
    [current_]s traverse them, the value is null until it has been computed. *)
Record CartesianProductIterator2 := {
  base_ : positive;
  begin1_ : I1; end1_ : I1; current1_ : I1;
  begin2_ : I2; end2_ : I2; current2_ : I2;
  current_value_ : option (T1 * T2)
}.

(** The iterator with other traversing iterators and value. *)
Definition moved (it : CartesianProductIterator2) (c1 : I1) (c2 : I2) (v : option (T1 * T2)) : CartesianProductIterator2 :=
  {| base_ := base_ it; begin1_ := begin1_ it; end1_ := end1_ it; current1_ := c1;
     begin2_ := begin2_ it; end2_ := end2_ it; current2_ := c2; current_value_ := v |}.

Definition AtEnd (it : CartesianProductIterator2) : option bool :=
  at1 ← iterator_equal false (current1_ it) (end1_ it);
  if at1 : bool then Some true else iterator_equal false (current2_ it) (end2_ it).

Definition ComputeCurrentValue (it : CartesianProductIterator2) : option CartesianProductIterator2 :=
  at_end ← AtEnd it;
  if at_end : bool then Some it
  else
    '(x1, c1) ← Current (current1_ it);
    '(x2, c2) ← Current (current2_ it);
    Some (moved it c1 c2 (Some (x1, x2))).

(** The constructor: [base] is the generator the iterator belongs to. *)
Definition CartesianProductIterator2_ctor (base : positive) (g1 : ParamGenerator I1) (current1 : I1)
    (g2 : ParamGenerator I2) (current2 : I2) : option CartesianProductIterator2 :=
  c1 ← iterator_copy current1;
  c2 ← iterator_copy current2;
  ComputeCurrentValue
    {| base_ := base;
       begin1_ := generator_begin g1; end1_ := generator_end g1; current1_ := c1;
       begin2_ := generator_begin g2; end2_ := generator_end g2; current2_ := c2;
       current_value_ := None |}.

Definition product_Advance (it : CartesianProductIterator2) : option CartesianProductIterator2 :=
  at_end ← AtEnd it;
  if at_end : bool then None
  else
    '(c2, _) ← iterator_increment (current2_ it);
    wrapped ← iterator_equal false c2 (end2_ it);
    if wrapped : bool then
      c2 ← iterator_assign false c2 (begin2_ it);
      '(c1, _) ← iterator_increment (current1_ it);
      ComputeCurrentValue (moved it c1 c2 (current_value_ it))
    else ComputeCurrentValue (moved it (current1_ it) c2 (current_value_ it)).

(** The copy constructor computes the value again. *)
Definition product_Clone (it : CartesianProductIterator2) : option CartesianProductIterator2 :=
  b1 ← iterator_copy (begin1_ it); e1 ← iterator_copy (end1_ it); c1 ← iterator_copy (current1_ it);
  b2 ← iterator_copy (begin2_ it); e2 ← iterator_copy (end2_ it); c2 ← iterator_copy (current2_ it);
  ComputeCurrentValue
    {| base_ := base_ it; begin1_ := b1; end1_ := e1; current1_ := c1;
       begin2_ := b2; end2_ := e2; current2_ := c2; current_value_ := None |}.

Definition product_Current (it : CartesianProductIterator2) : option ((T1 * T2) * CartesianProductIterator2) :=
  v ← current_value_ it; Some (v, it).

(** Two iterators past their ends are equal however they got there. *)
Definition product_Equals (it other : CartesianProductIterator2) : option bool :=
  if decide (base_ it = base_ other) then
    at_end ← AtEnd it;
    both ← (if at_end : bool then AtEnd other else Some false);
    if both : bool then Some true
    else
      same1 ← iterator_equal false (current1_ it) (current1_ other);
      if same1 : bool then iterator_equal false (current2_ it) (current2_ other) else Some false
  else None.

#[export] Instance product_iterator : ParamIteratorInterface CartesianProductIterator2 (T1 * T2) := {
  BaseGenerator := base_;
  Advance := product_Advance;
  Clone := product_Clone;
  Current := product_Current;
  Equals := product_Equals
}.

Definition product_Begin (this : positive) (g1 : ParamGenerator I1) (g2 : ParamGenerator I2)
    : option CartesianProductIterator2 :=
  CartesianProductIterator2_ctor this g1 (generator_begin g1) g2 (generator_begin g2).

Definition product_End (this : positive) (g1 : ParamGenerator I1) (g2 : ParamGenerator I2)
    : option CartesianProductIterator2 :=
  CartesianProductIterator2_ctor this g1 (generator_end g1) g2 (generator_end g2).

(** [CartesianProductHolder2]'s conversion to the generator of pairs. *)
Definition CartesianProductHolder2 (this : positive) (g1_ : ParamGenerator I1) (g2_ : ParamGenerator I2)
    : option (ParamGenerator CartesianProductIterator2) :=
  b ← product_Begin this g1_ g2_;
  e ← product_End this g1_ g2_;
  Some {| generator_begin := b; generator_end := e |}.

(** ** It generates the pairs *)

Context (at1 : I1 → list T1 → Prop) (ends1 : I1 → Prop) (runs1 : runs_through at1 ends1).
Context (at2 : I2 → list T2 → Prop) (ends2 : I2 → Prop) (runs2 : runs_through at2 ends2).
Context (this : positive) (l1 : list T1) (l2 : list T2).

(** What is left when [r1] is left of the first range and [r2] of the second. *)
Definition remaining (r1 : list T1) (r2 : list T2) : list (T1 * T2) :=
  match r1, r2 with
  | x :: r1, _ :: _ => ((λ y, (x, y)) <$> r2) ++ list_prod r1 l2
  | _, _ => []
  end.

Lemma list_prod_nil_r {A C} (l : list A) : list_prod l (@nil C) = [].
Proof. by induction l. Qed.

Lemma remaining_all r1 : remaining r1 l2 = list_prod r1 l2.
Proof.
  destruct r1 as [|x r1]; [done|]. simpl. destruct l2 as [|y l2']; [|done]. by rewrite list_prod_nil_r.
Qed.

Lemma remaining_next x y r1 r2 :
  remaining (x :: r1) (y :: r2) = (x, y) :: (if decide (r2 = []) then remaining r1 l2 else remaining (x :: r1) r2).
Proof.
  simpl. destruct r2 as [|y' r2]; simpl; [|done]. by rewrite remaining_all.
Qed.

Record positioned (it : CartesianProductIterator2) (r1 : list T1) (r2 : list T2) : Prop := {
  pos_base : base_ it = this;
  pos_begin1 : at1 (begin1_ it) l1; pos_end1 : ends1 (end1_ it); pos_current1 : at1 (current1_ it) r1;
  pos_begin2 : at2 (begin2_ it) l2; pos_end2 : ends2 (end2_ it); pos_current2 : at2 (current2_ it) r2
}.

Definition product_at (it : CartesianProductIterator2) (l : list (T1 * T2)) : Prop :=
  ∃ r1 r2, positioned it r1 r2 ∧ l = remaining r1 r2 ∧ ∀ p l', l = p :: l' → current_value_ it = Some p.

Definition product_ends (it : CartesianProductIterator2) : Prop :=
  positioned it [] [] ∧ ends1 (current1_ it) ∧ ends2 (current2_ it).

Lemma AtEnd_spec it r1 r2 : positioned it r1 r2 → AtEnd it = Some (bool_decide (r1 = [] ∨ r2 = [])).
Proof using runs1 runs2.
  intros [_ _ He1 Hc1 _ He2 Hc2]. unfold AtEnd, iterator_equal.
  rewrite (at_end _ _ runs1 _ _ _ Hc1 He1). simpl. destruct r1 as [|x r1]; simpl; [done|].
  rewrite (at_end _ _ runs2 _ _ _ Hc2 He2). by destruct r2.
Qed.

Lemma compute_spec it r1 r2 :
  positioned it r1 r2 → ∃ it', ComputeCurrentValue it = Some it' ∧ product_at it' (remaining r1 r2).
Proof using runs1 runs2.
  intros Hp. unfold ComputeCurrentValue. rewrite (AtEnd_spec _ _ _ Hp). simpl.
  destruct r1 as [|x r1]; [by exists it; split; [|exists [], r2]|].
  destruct r2 as [|y r2]; [by exists it; split; [|exists (x :: r1), []]|].
  rewrite bool_decide_eq_false_2 by (by intros [|]). destruct Hp as [Hb Hb1 He1 Hc1 Hb2 He2 Hc2].
  destruct (at_element _ _ runs1 _ _ _ Hc1) as (c1 & -> & Hc1').
  destruct (at_element _ _ runs2 _ _ _ Hc2) as (c2 & -> & Hc2'). simpl.
  eexists. split; [done|]. exists (x :: r1), (y :: r2). split; [by constructor|]. split; [done|].
  by intros p l' [= <- _].
Qed.

Lemma ends_compute it : product_ends it → ComputeCurrentValue it = Some it.
Proof using runs1 runs2.
  intros [Hp _]. unfold ComputeCurrentValue. by rewrite (AtEnd_spec _ _ _ Hp).
Qed.

Lemma advance_spec it p l :
  product_at it (p :: l) → ∃ it', product_Advance it = Some it' ∧ product_at it' l.
Proof using runs1 runs2.
  intros (r1 & r2 & Hp & Hl & _). destruct r1 as [|x r1]; [done|]. destruct r2 as [|y r2]; [done|].
  unfold product_Advance. rewrite (AtEnd_spec _ _ _ Hp), bool_decide_eq_false_2 by (by intros [|]).
  rewrite remaining_next in Hl. injection Hl as _ ->. destruct Hp as [Hb Hb1 He1 Hc1 Hb2 He2 Hc2].
  destruct (at_advance _ _ runs2 _ _ _ Hc2) as (c2 & E2 & Hc2'). unfold iterator_increment. simpl. rewrite E2. simpl.
  unfold iterator_equal, iterator_assign. rewrite (at_end _ _ runs2 _ _ _ Hc2' He2). simpl.
  destruct r2 as [|y' r2]; simpl.
  - destruct (at_clone _ _ runs2 _ _ Hb2) as (c2' & -> & Hc2''). simpl.
    destruct (at_advance _ _ runs1 _ _ _ Hc1) as (c1 & -> & Hc1'). simpl. by apply compute_spec.
  - by apply (compute_spec _ (x :: r1) (y' :: r2)).
Qed.

Lemma equals_spec it l e :
  product_at it l → product_ends e → product_Equals it e = Some (bool_decide (l = [])).
Proof using runs1 runs2.
  intros (r1 & r2 & Hp & -> & _) (Hpe & H1 & H2). unfold product_Equals.
  rewrite decide_True by (by rewrite (pos_base _ _ _ Hp), (pos_base _ _ _ Hpe)).
  rewrite (AtEnd_spec _ _ _ Hp). simpl.
  destruct r1 as [|x r1]; simpl; [by rewrite (AtEnd_spec _ _ _ Hpe)|].
  destruct r2 as [|y r2]; simpl; [by rewrite (AtEnd_spec _ _ _ Hpe)|].
  unfold iterator_equal. by rewrite (at_end _ _ runs1 _ _ _ (pos_current1 _ _ _ Hp) H1).
Qed.

Lemma clone_spec it l : product_at it l → ∃ it', product_Clone it = Some it' ∧ product_at it' l.
Proof using runs1 runs2.
  intros (r1 & r2 & [Hb Hb1 He1 Hc1 Hb2 He2 Hc2] & -> & _). unfold product_Clone, iterator_copy.
  destruct (at_clone _ _ runs1 _ _ Hb1) as (? & -> & ?), (ends_clone _ _ runs1 _ He1) as (? & -> & ?),
    (at_clone _ _ runs1 _ _ Hc1) as (? & -> & ?), (at_clone _ _ runs2 _ _ Hb2) as (? & -> & ?),
    (ends_clone _ _ runs2 _ He2) as (? & -> & ?), (at_clone _ _ runs2 _ _ Hc2) as (? & -> & ?). simpl.
  apply compute_spec. by constructor.
Qed.

Lemma ends_clone_spec it : product_ends it → ∃ it', product_Clone it = Some it' ∧ product_ends it'.
Proof using runs1 runs2.
  pose proof (ends_at _ _ runs1). pose proof (ends_at _ _ runs2).
  intros ([Hb Hb1 He1 Hc1 Hb2 He2 Hc2] & H1' & H2'). unfold product_Clone, iterator_copy.
  destruct (at_clone _ _ runs1 _ _ Hb1) as (? & -> & ?), (ends_clone _ _ runs1 _ He1) as (? & -> & ?),
    (ends_clone _ _ runs1 _ H1') as (? & -> & ?), (at_clone _ _ runs2 _ _ Hb2) as (? & -> & ?),
    (ends_clone _ _ runs2 _ He2) as (? & -> & ?), (ends_clone _ _ runs2 _ H2') as (? & -> & ?). simpl.
  eexists. split; [apply ends_compute|]; (split; [constructor|]); simpl; auto.
Qed.

Lemma product_runs_through : runs_through product_at product_ends.
Proof using runs1 runs2.
  split.
  - apply equals_spec.
  - intros it p l Hat. exists it. split; [|done]. destruct Hat as (? & ? & _ & _ & Hv).
    simpl. unfold product_Current. by rewrite (Hv p l).
  - apply advance_spec.
  - apply clone_spec.
  - intros it [Hp _]. by exists [], [].
  - apply ends_clone_spec.
Qed.

Lemma product_start g1 g2 :
  at1 (generator_begin g1) l1 → ends1 (generator_end g1) → at2 (generator_begin g2) l2 → ends2 (generator_end g2) →
  ∃ g, CartesianProductHolder2 this g1 g2 = Some g ∧
    product_at (generator_begin g) (list_prod l1 l2) ∧ product_ends (generator_end g).
Proof using runs1 runs2.
  pose proof (ends_at _ _ runs1). pose proof (ends_at _ _ runs2). intros Hb1 He1 Hb2 He2.
  unfold CartesianProductHolder2, product_Begin, product_End, CartesianProductIterator2_ctor, iterator_copy.
  destruct (at_clone _ _ runs1 _ _ Hb1) as (c1 & -> & Hc1), (at_clone _ _ runs2 _ _ Hb2) as (c2 & -> & Hc2),
    (ends_clone _ _ runs1 _ He1) as (d1 & -> & Hd1), (ends_clone _ _ runs2 _ He2) as (d2 & -> & Hd2). simpl.
  match goal with |- context [ComputeCurrentValue ?it ≫= _] =>
    destruct (compute_spec it l1 l2) as (b & -> & Hb); [by constructor|] end. simpl.
  rewrite ends_compute; [|split; [constructor|]; simpl; auto].
  eexists. split; [done|]. simpl. rewrite <- remaining_all. split; [done|].
  split; [constructor|]; simpl; auto.
Qed.
End product.

(** Combine(g1, g2) generates the Cartesian product of what g1 and g2 generate, for any
    two generators whose iterators keep to the interface: building it succeeds, and running
    its iterators from begin to end yields every pair exactly as often as it occurs, the
    first component varying slowest; nothing when either generator is empty. *)
Theorem combine_generates_product {I1 T1 I2 T2} `{ParamIteratorInterface I1 T1} `{ParamIteratorInterface I2 T2}
    at1 ends1 at2 ends2 this l1 l2 (g1 : ParamGenerator I1) (g2 : ParamGenerator I2) fuel :
  runs_through at1 ends1 → at1 (generator_begin g1) l1 → ends1 (generator_end g1) →
  runs_through at2 ends2 → at2 (generator_begin g2) l2 → ends2 (generator_end g2) →
  length l1 * length l2 < fuel →
  ∃ g, CartesianProductHolder2 this g1 g2 = Some g ∧
    elements_from fuel (generator_begin g) (generator_end g) = Some (list_prod l1 l2).
Proof.
  intros runs1 Hb1 He1 runs2 Hb2 He2 Hf.
  destruct (product_start at1 ends1 runs1 at2 ends2 runs2 this l1 l2 g1 g2) as (g & Hg & Hat & Hends); [done..|].
  exists g. split; [done|]. eapply elements_from_spec; [by apply product_runs_through|exact Hends|exact Hat|].
  by rewrite length_prod.
Qed.

Local Open Scope Z_scope.

(** A range with the elements of a vector. *)
Lemma combine_generates_product_witness :
  ∃ g1, RangeGenerator_ctor Z.ltb int_add 10 2 9 3 = Some g1 ∧
  ∃ g, CartesianProductHolder2 (H := range_iterator int_add) (H0 := values_in_iterator [true; false]) 3
         {| generator_begin := Range_Begin 1 g1; generator_end := Range_End 1 g1 |}
         {| generator_begin := ValuesIn_Begin 2; generator_end := ValuesIn_End [true; false] 2 |} = Some g ∧
    elements_from (H := product_iterator (H := range_iterator int_add) (H0 := values_in_iterator [true; false]))
      7 (generator_begin g) (generator_end g) =
      Some [(2, true); (2, false); (5, true); (5, false); (8, true); (8, false)].
Proof.
  eexists. split; [reflexivity|].
  match goal with |- context [Range_Begin 1 ?g1] =>
    destruct (range_start 2 9 3 eq_refl 1 g1) as [Hb1 He1]; [by vm_compute..|] end.
  destruct (values_in_start [true; false] 2) as [Hb2 He2].
  eapply (combine_generates_product (H := range_iterator int_add) (H0 := values_in_iterator [true; false])
    (range_at 2 9 3 1) (λ it, range_at 2 9 3 1 it []) (values_at [true; false] 2) (λ it, values_at [true; false] 2 it [])
    3 [2; 5; 8] [true; false] _ _ 7);
    [by apply range_runs_through|exact Hb1|exact He1|apply values_in_runs_through|exact Hb2|exact He2|vm_compute; lia].
Defined.
