(* ===== verification/TypedTests.v ===== *)
(** * Type-parameterised tests of the test framework

    How internal/gtest-internal.h registers type-parameterised tests: the names of the
    tests arrive as the text between the parentheses of REGISTER_TYPED_TEST_CASE_P, cut at
    its commas, and every test is registered for every type of a list.  The compile-time
    lists of tests and types are lists here; [None] is undefined behaviour or an abort.
    VerifyRegisteredTestNames and the printed names of types are compiled elsewhere: the
    latter are a parameter. *)
From S2P Require Import Prelude Stdcxx.
From Stdlib Require Import ZArith Lia List Ascii String Bool.
From stdpp Require Import base gmap strings list fin_maps.
#[local] Set Default Goal Selector "!".

(** ** Strings: gtest-port.h *)

Definition IsSpace (ch : ascii) : bool := is_space ch.

(** [it] is the index of the iterator: the loop steps back and erases while it finds a
    space. *)
Fixpoint strip_loop (it : nat) (s : bytes) : bytes :=
  match it with
  | O => s
  | S it =>
      match s !! it with
      | Some ch => if IsSpace ch then strip_loop it (take it s ++ drop (S it) s) else s
      | None => s
      end
  end.

Definition StripTrailingSpaces (s : bytes) : bytes := strip_loop (length s) s.

(** [strchr(str, ',')]: what precedes the first comma and what follows it. *)
Fixpoint strchr_comma (s : bytes) : option (bytes * bytes) :=
  match s with
  | [] => None
  | c :: s =>
      if decide (c = ","%char) then Some ([], s)
      else '(before, rest) ← strchr_comma s; Some (c :: before, rest)
  end.

(** The text after the first comma and the spaces that follow it; null without a comma. *)
Definition SkipComma (s : bytes) : option bytes :=
  '(_, rest) ← strchr_comma s;
  Some (span IsSpace rest).2.

Definition GetPrefixUntilComma (s : bytes) : bytes :=
  match strchr_comma s with
  | None => s
  | Some (before, _) => before
  end.

(** ** The state of a type-parameterised test case *)

Record CodeLocation := { file : bytes; line : Z }.

Record TypedTestCasePState := { registered_ : bool; registered_tests_ : gmap bytes CodeLocation }.

Definition new_TypedTestCasePState : TypedTestCasePState := {| registered_ := false; registered_tests_ := ∅ |}.

(** [insert] keeps an entry that is there already. *)
Definition AddTestName (f : bytes) (l : Z) (test_name : bytes) (s : TypedTestCasePState) : option TypedTestCasePState :=
  if registered_ s then None
  else Some {| registered_ := false;
               registered_tests_ :=
                 match registered_tests_ s !! test_name with
                 | Some _ => registered_tests_ s
                 | None => <[test_name := {| file := f; line := l |}]> (registered_tests_ s)
                 end |}.

Definition TestExists (s : TypedTestCasePState) (test_name : bytes) : bool :=
  bool_decide (is_Some (registered_tests_ s !! test_name)).

Definition GetCodeLocation (s : TypedTestCasePState) (test_name : bytes) : option CodeLocation :=
  registered_tests_ s !! test_name.

(** ** Registration *)

(** What [MakeAndRegisterTestInfo] is told of a test. *)
Record TypedTestInfo := {
  typed_test_case : bytes;
  typed_test : bytes;
  type_param : bytes;
  code_location : CodeLocation
}.

Section typed.
Context {Type_ : Type} (GetTypeName : Type_ → bytes).

Definition DefaultGetName (_ : Type_) (i : Z) : bytes := to_string i.

Fixpoint GenerateNamesRecursively (GetName : Type_ → Z → bytes) (types : list Type_) (result : list bytes) (i : Z)
    : list bytes :=
  match types with
  | [] => result
  | head :: tail => GenerateNamesRecursively GetName tail (result ++ [GetName head i]) (i + 1)
  end.

Definition GenerateNames (GetName : Type_ → Z → bytes) (types : list Type_) : list bytes :=
  GenerateNamesRecursively GetName types [] 0.

(** [TypeParameterizedTest<Fixture, TestSel, Types>::Register] *)
Fixpoint TypeParameterizedTest_Register (types : list Type_) (prefix : bytes) (loc : CodeLocation)
    (case_name test_names : bytes) (index : nat) (type_names : list bytes) : option (list TypedTestInfo) :=
  match types with
  | [] => Some []
  | head :: tail =>
      name ← type_names !! index;
      rest ← TypeParameterizedTest_Register tail prefix loc case_name test_names (S index) type_names;
      Some ({| typed_test_case :=
                 prefix ++ (if decide (prefix = []) then [] else str "/") ++ case_name ++ str "/" ++ name;
               typed_test := StripTrailingSpaces (GetPrefixUntilComma test_names);
               type_param := GetTypeName head;
               code_location := loc |} :: rest)
  end.

(** [TypeParameterizedTestCase<Fixture, Tests, Types>::Register], for [tests] tests; the
    text is a null pointer when [SkipComma] found no comma. *)
Fixpoint TypeParameterizedTestCase_Register (tests : nat) (types : list Type_) (prefix : bytes)
    (state : TypedTestCasePState) (case_name : bytes) (test_names : option bytes) (type_names : list bytes)
    : option (list TypedTestInfo) :=
  match tests with
  | O => Some []
  | S tests =>
      test_names ← test_names;
      let test_name := StripTrailingSpaces (GetPrefixUntilComma test_names) in
      if TestExists state test_name then
        test_location ← GetCodeLocation state test_name;
        l ← TypeParameterizedTest_Register types prefix test_location case_name test_names 0 type_names;
        rest ← TypeParameterizedTestCase_Register tests types prefix state case_name (SkipComma test_names) type_names;
        Some (l ++ rest)
      else None
  end.
End typed.

(** ** Stripping and splitting *)

Lemma strip_loop_app s sp : forallb IsSpace sp = true →
  strip_loop (length (s ++ sp)) (s ++ sp) = strip_loop (length s) s.
Proof.
  induction sp as [|c sp IH] using rev_ind; [by rewrite app_nil_r|].
  rewrite forallb_app. intros [Hsp Hc]%andb_true_iff. simpl in Hc. rewrite andb_true_r in Hc.
  rewrite app_assoc, length_app, Nat.add_comm. simpl.
  rewrite lookup_app_r, Nat.sub_diag by lia. simpl. rewrite Hc, take_app_length, drop_ge by (rewrite length_app; simpl; lia).
  rewrite app_nil_r. by apply IH.
Qed.

Lemma strip_id s : forallb (λ c, negb (IsSpace c)) s = true → strip_loop (length s) s = s.
Proof.
  destruct s as [|c s _] using rev_ind; [done|]. rewrite forallb_app. simpl. intros [_ Hc]%andb_true_iff.
  rewrite andb_true_r in Hc. rewrite length_app, Nat.add_comm. simpl.
  rewrite lookup_app_r, Nat.sub_diag by lia. simpl. by destruct (IsSpace c).
Qed.

Lemma StripTrailingSpaces_spec s sp :
  forallb (λ c, negb (IsSpace c)) s = true → forallb IsSpace sp = true → StripTrailingSpaces (s ++ sp) = s.
Proof. intros Hs Hsp. unfold StripTrailingSpaces. rewrite strip_loop_app by done. by apply strip_id. Qed.

Definition comma_free (s : bytes) : bool := forallb (λ c, negb (bool_decide (c = ","%char))) s.

Lemma strchr_comma_spec s rest : comma_free s = true → strchr_comma (s ++ "," ::  rest)%char = Some (s, rest).
Proof.
  induction s as [|c s IH]; simpl; [done|]. intros [Hc Hs]%andb_true_iff.
  case_bool_decide; [done|]. rewrite decide_False by done. by rewrite IH.
Qed.

Lemma strchr_comma_none s : comma_free s = true → strchr_comma s = None.
Proof.
  induction s as [|c s IH]; simpl; [done|]. intros [Hc Hs]%andb_true_iff.
  case_bool_decide; [done|]. rewrite decide_False by done. by rewrite IH.
Qed.

Lemma space_comma_free sp : forallb IsSpace sp = true → comma_free sp = true.
Proof.
  unfold comma_free. rewrite !forallb_forall. intros Hsp c Hc. apply negb_true_iff, bool_decide_eq_false_2.
  intros ->. by specialize (Hsp _ Hc).
Qed.

Lemma comma_free_app s t : comma_free (s ++ t) = comma_free s && comma_free t.
Proof. apply forallb_app. Qed.

(** A name as it stands in the text: spaces may follow it, and precede the next one. *)
Record written := { w_name : bytes; w_after : bytes; w_before_next : bytes }.

Definition written_ok (w : written) : Prop :=
  comma_free (w_name w) = true ∧ forallb (λ c, negb (IsSpace c)) (w_name w) = true ∧ w_name w ≠ [] ∧
  forallb IsSpace (w_after w) = true ∧ forallb IsSpace (w_before_next w) = true.

(** The text of a list of names. *)
Fixpoint written_text (w : written) (ws : list written) : bytes :=
  w_name w ++ w_after w ++
  match ws with
  | [] => []
  | w' :: ws => "," :: w_before_next w ++ written_text w' ws
  end%char.

Lemma prefix_spec w ws :
  written_ok w → StripTrailingSpaces (GetPrefixUntilComma (written_text w ws)) = w_name w.
Proof.
  intros (Hc & Hs & _ & Ha & _). unfold GetPrefixUntilComma.
  assert (Hcf : comma_free (w_name w ++ w_after w) = true).
  { rewrite comma_free_app, Hc. by apply space_comma_free. }
  destruct ws as [|w' ws]; simpl; rewrite app_assoc.
  - rewrite app_nil_r, strchr_comma_none by done. by apply StripTrailingSpaces_spec.
  - rewrite strchr_comma_spec by done. by apply StripTrailingSpaces_spec.
Qed.

Lemma SkipComma_spec w w' ws :
  written_ok w → written_ok w' → SkipComma (written_text w (w' :: ws)) = Some (written_text w' ws).
Proof.
  intros (Hc & _ & _ & Ha & Hb) (_ & Hs' & Hne' & _ & _). unfold SkipComma. simpl.
  rewrite app_assoc, strchr_comma_spec by (rewrite comma_free_app, Hc; by apply space_comma_free).
  simpl. rewrite span_app; [done|done|].
  destruct (w_name w') as [|c name] eqn:E; [done|].
  destruct ws; simpl; rewrite E; simpl; simpl in Hs'; apply andb_true_iff in Hs' as [Hs' _]; by apply negb_true_iff.
Qed.

(** ** Everything is registered *)

Section registration.
Context {Type_ : Type} (GetTypeName : Type_ → bytes).

Lemma names_from_acc GetName (types : list Type_) result i :
  GenerateNamesRecursively GetName types result i =
    result ++ imap (λ k t, GetName t (i + Z.of_nat k)%Z) types.
Proof.
  revert result i. induction types as [|t types IH]; intros result i; simpl; [by rewrite app_nil_r|].
  rewrite IH, <- app_assoc. simpl. f_equal. f_equal; [f_equal; lia|]. apply imap_ext. intros k x _. simpl. f_equal. lia.
Qed.

Lemma zip_with_imap {A C} (f : A → Type_ → C) (g : nat → Type_ → A) (l : list Type_) :
  zip_with f (imap g l) l = imap (λ i x, f (g i x) x) l.
Proof. revert g. induction l as [|x l IH]; intros g; simpl; [done|]. f_equal. apply IH. Qed.

(** A test for one type. *)
Definition typed_info (prefix case_name test : bytes) (loc : CodeLocation) (name : bytes) (t : Type_) : TypedTestInfo :=
  {| typed_test_case := prefix ++ (if decide (prefix = []) then [] else str "/") ++ case_name ++ str "/" ++ name;
     typed_test := test; type_param := GetTypeName t; code_location := loc |}.

Lemma register_types types prefix loc case_name test_names index (names : list bytes) :
  length names = index + length types →
  TypeParameterizedTest_Register GetTypeName types prefix loc case_name test_names index names =
    Some (zip_with (typed_info prefix case_name (StripTrailingSpaces (GetPrefixUntilComma test_names)) loc)
            (drop index names) types).
Proof.
  revert index. induction types as [|t types IH]; intros index Hlen; simpl.
  - by rewrite zip_with_nil_r.
  - destruct (lookup_lt_is_Some_2 names index) as [name Hname]; [simpl in Hlen; lia|].
    rewrite Hname. simpl. rewrite IH by (simpl in *; lia). by rewrite (drop_S _ _ _ Hname).
Qed.

Lemma register_tests tests w ws types prefix state case_name (names : list bytes) (locs : list CodeLocation) :
  tests = length (w :: ws) → length names = length types → Forall written_ok (w :: ws) →
  Forall2 (λ w loc, GetCodeLocation state (w_name w) = Some loc) (w :: ws) locs →
  TypeParameterizedTestCase_Register GetTypeName tests types prefix state case_name
      (Some (written_text w ws)) names =
    Some (concat (zip_with (λ w loc, zip_with (typed_info prefix case_name (w_name w) loc) names types) (w :: ws) locs)).
Proof.
  intros Hn Hlen. revert tests w locs Hn. induction ws as [|w' ws IH]; intros [|tests] w locs [= Hn] Hok Hlocs.
  all: apply Forall_cons in Hok as [Hw Hok]; apply Forall2_cons_inv_l in Hlocs as (loc & locs' & Hloc & Hlocs & ->).
  all: cbn [TypeParameterizedTestCase_Register mbind option_bind]; unfold TestExists.
  all: rewrite prefix_spec by done; unfold GetCodeLocation in Hloc |- *; rewrite Hloc, bool_decide_eq_true_2 by done.
  all: cbn [mbind option_bind]; rewrite register_types, prefix_spec by done.
  - subst tests. by apply Forall2_nil_inv_l in Hlocs as ->.
  - rewrite SkipComma_spec; [|done|by apply Forall_cons in Hok as [? _]].
    cbn [mbind option_bind]. by rewrite (IH tests w' locs').
Qed.
End registration.

(** REGISTER_TYPED_TEST_CASE_P and INSTANTIATE_TYPED_TEST_CASE_P register every test for
    every type: when the text is a list of names without commas or spaces in them, however
    many spaces surround its commas, and every name is that of a test that was defined, one
    test is registered per name and type, in the order of the text and then of the types,
    under prefix/case/index, with the location where the name was first defined. *)
Theorem typed_tests_register {Type_} (GetTypeName : Type_ → bytes) w ws types prefix state case_name locs :
  Forall written_ok (w :: ws) →
  Forall2 (λ w loc, GetCodeLocation state (w_name w) = Some loc) (w :: ws) locs →
  TypeParameterizedTestCase_Register GetTypeName (length (w :: ws)) types prefix state case_name
      (Some (written_text w ws)) (GenerateNames (DefaultGetName (Type_ := Type_)) types) =
    Some (concat (zip_with (λ w loc,
      imap (λ i t, typed_info GetTypeName prefix case_name (w_name w) loc (to_string (Z.of_nat i)) t) types) (w :: ws) locs)).
Proof.
  intros Hok Hlocs. unfold GenerateNames. rewrite names_from_acc, (register_tests _ _ w ws _ _ _ _ _ locs); [|done|simpl; by rewrite length_imap|done|done].
  do 2 f_equal. clear. revert locs. induction (w :: ws) as [|x xs IH]; intros [|loc locs]; simpl; [done..|].
  f_equal; [|by apply IH]. apply zip_with_imap.
Qed.

Lemma typed_tests_register_witness :
  ∃ s, AddTestName (str "a.cc") 3 (str "Foo") new_TypedTestCasePState = Some s ∧
  ∃ s', AddTestName (str "a.cc") 9 (str "Bar") s = Some s' ∧
    TypeParameterizedTestCase_Register (λ b : bool, if b then str "int" else str "char") 2 [true; false]
      (str "My") s' (str "Case") (Some (str "Foo , Bar")) (GenerateNames DefaultGetName [true; false]) =
    Some (typed_info (λ b : bool, if b then str "int" else str "char") (str "My") (str "Case") (str "Foo")
            {| file := str "a.cc"; line := 3 |} (str "0") true ::
          typed_info (λ b : bool, if b then str "int" else str "char") (str "My") (str "Case") (str "Foo")
            {| file := str "a.cc"; line := 3 |} (str "1") false ::
          typed_info (λ b : bool, if b then str "int" else str "char") (str "My") (str "Case") (str "Bar")
            {| file := str "a.cc"; line := 9 |} (str "0") true ::
          typed_info (λ b : bool, if b then str "int" else str "char") (str "My") (str "Case") (str "Bar")
            {| file := str "a.cc"; line := 9 |} (str "1") false :: []).
Proof.
  eexists. split; [reflexivity|]. eexists. split; [reflexivity|].
  apply (typed_tests_register _
    {| w_name := str "Foo"; w_after := str " "; w_before_next := str " " |}
    [{| w_name := str "Bar"; w_after := []; w_before_next := [] |}] [true; false] _ _ _
    [{| file := str "a.cc"; line := 3 |}; {| file := str "a.cc"; line := 9 |}]).
  - repeat apply Forall_cons_2; [| |apply Forall_nil_2]; by repeat split.
  - repeat apply Forall2_cons_2; [| |apply Forall2_nil_2]; by vm_compute.
Defined.
