(* ===== verification/ParamRegistry.v ===== *)
(** * The registry of parameterised test cases

    [ParameterizedTestCaseRegistry] of gtest-param-util.h and the macros TEST_P and
    INSTANTIATE_TEST_CASE_P of gtest-param-test.h.  Each use of a macro looks its test case
    up by name, which creates it the first time, and adds a test or an instantiation to it;
    before the tests run, every test case registers its tests (ParamUtil).  A test case is
    a C++ class with a type of parameters: the registry holds objects of different types,
    and a lookup casts the object found down to the type of the caller. *)
From S2P Require Import Prelude Stdcxx ParamUtil TypedTests.
From Stdlib Require Import ZArith Lia List Ascii String Bool Eqdep_dec.
From stdpp Require Import base gmap strings list sets.
#[local] Set Default Goal Selector "!".
Local Open Scope Z_scope.

Section registry.
(** The test classes, told apart by [GetTypeId], and [TestCase::ParamType]. *)
Context {TestCase : Type} `{EqDecision TestCase} (ParamType : TestCase → Type).

(** ** The data *)

Record ParameterizedTestCaseInfo (C : TestCase) := {
  test_case_name_ : bytes;
  code_location_ : CodeLocation;
  tests_ : list TestInfo;
  instantiations_ : list (InstantiationInfo (ParamType C))
}.
Arguments test_case_name_ {C}.
Arguments code_location_ {C}.
Arguments tests_ {C}.
Arguments instantiations_ {C}.

(** An object behind a [ParameterizedTestCaseInfoBase*]. *)
Definition ParameterizedTestCaseInfoBase : Type := {C : TestCase & ParameterizedTestCaseInfo C}.

Definition GetTestCaseName (it : ParameterizedTestCaseInfoBase) : bytes := test_case_name_ (projT2 it).
Definition GetTestCaseTypeId (it : ParameterizedTestCaseInfoBase) : TestCase := projT1 it.

(** The constructor. *)
Definition new_ParameterizedTestCaseInfo (C : TestCase) (name : bytes) (code_location : CodeLocation) : ParameterizedTestCaseInfo C :=
  {| test_case_name_ := name; code_location_ := code_location; tests_ := []; instantiations_ := [] |}.

Definition AddTestPattern {C} (test_case_name test_base_name : bytes) (info : ParameterizedTestCaseInfo C) : ParameterizedTestCaseInfo C :=
  {| test_case_name_ := test_case_name_ info; code_location_ := code_location_ info;
     tests_ := tests_ info ++ [{| test_case_base_name := test_case_name; test_base_name := test_base_name |}];
     instantiations_ := instantiations_ info |}.

Definition AddTestCaseInstantiation {C} (inst : InstantiationInfo (ParamType C)) (info : ParameterizedTestCaseInfo C) : ParameterizedTestCaseInfo C :=
  {| test_case_name_ := test_case_name_ info; code_location_ := code_location_ info; tests_ := tests_ info;
     instantiations_ := instantiations_ info ++ [inst] |}.

(** [CheckedDowncastToActualType]: the object as one of class [C], changed; the check of
    its type fails for another class. *)
Definition downcast_update (C : TestCase) (f : ParameterizedTestCaseInfo C → ParameterizedTestCaseInfo C)
    (it : ParameterizedTestCaseInfoBase) : option ParameterizedTestCaseInfoBase :=
  match decide (projT1 it = C) with
  | left E => Some (existT C (f (eq_rect (projT1 it) ParameterizedTestCaseInfo (projT2 it) C E)))
  | right _ => None
  end.

(** ** The registry

    [test_case_infos_], whose elements are never removed: the holder returned is a
    position in it.  [None] is the end of the process. *)
Definition GetTestCasePatternHolder (C : TestCase) (test_case_name : bytes) (code_location : CodeLocation)
    (test_case_infos_ : list ParameterizedTestCaseInfoBase) : option (nat * list ParameterizedTestCaseInfoBase) :=
  match list_find (λ it, GetTestCaseName it = test_case_name) test_case_infos_ with
  | Some (i, it) =>
      if decide (GetTestCaseTypeId it ≠ C) then None
      else Some (i, test_case_infos_)
  | None =>
      Some (length test_case_infos_,
            test_case_infos_ ++ [existT C (new_ParameterizedTestCaseInfo C test_case_name code_location)])
  end.

(** A change of the object a holder points to. *)
Definition at_holder (C : TestCase) (f : ParameterizedTestCaseInfo C → ParameterizedTestCaseInfo C)
    (h : nat * list ParameterizedTestCaseInfoBase) : option (list ParameterizedTestCaseInfoBase) :=
  it ← h.2 !! h.1;
  it' ← downcast_update C f it;
  Some (<[h.1 := it']> h.2).

(** The macros, in the order in which the static initialisers of a program run. *)
Inductive declaration :=
| TEST_P (C : TestCase) (test_case_name test_name : bytes) (loc : CodeLocation)
| INSTANTIATE_TEST_CASE_P (C : TestCase) (test_case_name : bytes) (inst : InstantiationInfo (ParamType C)) (loc : CodeLocation).

Definition declare (d : declaration) (test_case_infos_ : list ParameterizedTestCaseInfoBase)
    : option (list ParameterizedTestCaseInfoBase) :=
  match d with
  | TEST_P C test_case_name test_name loc =>
      h ← GetTestCasePatternHolder C test_case_name loc test_case_infos_;
      at_holder C (AddTestPattern test_case_name test_name) h
  | INSTANTIATE_TEST_CASE_P C test_case_name inst loc =>
      h ← GetTestCasePatternHolder C test_case_name loc test_case_infos_;
      at_holder C (AddTestCaseInstantiation inst) h
  end.

Fixpoint declare_all (ds : list declaration) (test_case_infos_ : list ParameterizedTestCaseInfoBase)
    : option (list ParameterizedTestCaseInfoBase) :=
  match ds with
  | [] => Some test_case_infos_
  | d :: ds => infos ← declare d test_case_infos_; declare_all ds infos
  end.

(** [ParameterizedTestCaseRegistry::RegisterTests]: the tests registered, by class. *)
Fixpoint Registry_RegisterTests (test_case_infos_ : list ParameterizedTestCaseInfoBase)
    : option (list {C : TestCase & list (Registered (ParamType C))}) :=
  match test_case_infos_ with
  | [] => Some []
  | existT C info :: test_case_infos_ =>
      l ← RegisterTests (tests_ info) (instantiations_ info);
      l' ← Registry_RegisterTests test_case_infos_;
      Some (existT C l :: l')
  end.

(** ** What is declared for a test case *)

Definition d_class (d : declaration) : TestCase :=
  match d with TEST_P C _ _ _ | INSTANTIATE_TEST_CASE_P C _ _ _ => C end.
Definition d_name (d : declaration) : bytes :=
  match d with TEST_P _ name _ _ | INSTANTIATE_TEST_CASE_P _ name _ _ => name end.
Definition d_location (d : declaration) : CodeLocation :=
  match d with TEST_P _ _ _ loc | INSTANTIATE_TEST_CASE_P _ _ _ loc => loc end.

(** The tests with this name, and the instantiations. *)
Definition tests_named (name : bytes) (d : declaration) : list TestInfo :=
  match d with
  | TEST_P _ n test_name _ => if decide (n = name) then [{| test_case_base_name := n; test_base_name := test_name |}] else []
  | _ => []
  end.

Definition instantiations_named (C : TestCase) (name : bytes) (d : declaration) : list (InstantiationInfo (ParamType C)) :=
  match d with
  | INSTANTIATE_TEST_CASE_P C' n inst _ =>
      match decide (C' = C) with
      | left E => if decide (n = name) then [eq_rect C' (λ C, InstantiationInfo (ParamType C)) inst C E] else []
      | right _ => []
      end
  | _ => []
  end.

(** The declarations that name a test case first. *)
Fixpoint first_uses (seen : list bytes) (ds : list declaration) : list declaration :=
  match ds with
  | [] => []
  | d :: ds => if decide (d_name d ∈ seen) then first_uses seen ds else d :: first_uses (d_name d :: seen) ds
  end.

(** Declarations of one name are of one class. *)
Definition one_class_each (ds : list declaration) : Prop :=
  Forall (λ d, Forall (λ d', d_name d = d_name d' → d_class d = d_class d') ds) ds.

(** A test case with all that is declared for it. *)
Definition collected_as (ds : list declaration) (C : TestCase) (name : bytes) (loc : CodeLocation) : ParameterizedTestCaseInfoBase :=
  existT C {| test_case_name_ := name; code_location_ := loc;
              tests_ := ds ≫= tests_named name; instantiations_ := ds ≫= instantiations_named C name |}.

Definition collected (ds : list declaration) (d : declaration) : ParameterizedTestCaseInfoBase :=
  collected_as ds (d_class d) (d_name d) (d_location d).

(** ** Lookups *)

Implicit Types (ds : list declaration) (infos : list ParameterizedTestCaseInfoBase).

(** What a macro adds to its test case. *)
Definition addition (d : declaration) : ParameterizedTestCaseInfo (d_class d) → ParameterizedTestCaseInfo (d_class d) :=
  match d with
  | TEST_P _ name test_name _ => AddTestPattern name test_name
  | INSTANTIATE_TEST_CASE_P _ _ inst _ => AddTestCaseInstantiation inst
  end.

Lemma declare_eq d infos :
  declare d infos = (h ← GetTestCasePatternHolder (d_class d) (d_name d) (d_location d) infos; at_holder (d_class d) (addition d) h).
Proof. by destruct d. Qed.

Lemma declare_all_snoc ds d infos : declare_all (ds ++ [d]) infos = (infos' ← declare_all ds infos; declare d infos').
Proof.
  revert infos. induction ds as [|d' ds IH]; intros infos; simpl.
  - by destruct (declare d infos).
  - destruct (declare d' infos) as [infos'|]; [apply IH|done].
Qed.

(** The cast to the class an object has does nothing. *)
Lemma downcast_same C f (info : ParameterizedTestCaseInfo C) : downcast_update C f (existT C info) = Some (existT C (f info)).
Proof.
  unfold downcast_update. simpl. destruct (decide (C = C)) as [E|]; [|done].
  by rewrite <- (eq_rect_eq_dec (λ x y, decide (x = y)) _ info E).
Qed.

Lemma collected_addition ds d loc :
  downcast_update (d_class d) (addition d) (collected_as ds (d_class d) (d_name d) loc) =
    Some (collected_as (ds ++ [d]) (d_class d) (d_name d) loc).
Proof.
  unfold collected_as. rewrite downcast_same. do 2 f_equal. rewrite !bind_app, !bind_singleton.
  destruct d as [C name test_name loc'|C name inst loc']; simpl; unfold AddTestPattern, AddTestCaseInstantiation; simpl.
  - rewrite decide_True by done. by rewrite app_nil_r.
  - destruct (decide (C = C)) as [E|]; [|done]. destruct (decide (name = name)); [|done].
    rewrite <- (eq_rect_eq_dec (λ x y, decide (x = y)) (λ C, InstantiationInfo (ParamType C)) inst E). by rewrite app_nil_r.
Qed.

(** Other declarations do not change a test case. *)
Lemma other_tests name d : d_name d ≠ name → tests_named name d = [].
Proof. intros Hne. destruct d; simpl in *; [by rewrite decide_False|done]. Qed.

Lemma other_instantiations C name d : d_name d ≠ name → instantiations_named C name d = [].
Proof. intros Hne. destruct d as [|C' n inst loc]; simpl in *; [done|]. destruct (decide (C' = C)); [by rewrite decide_False|done]. Qed.

Lemma collected_other ds d C name loc : d_name d ≠ name → collected_as (ds ++ [d]) C name loc = collected_as ds C name loc.
Proof.
  intros Hne. unfold collected_as. by rewrite !bind_app, !bind_singleton, other_tests, other_instantiations, !app_nil_r.
Qed.

Lemma collected_none ds C name loc :
  name ∉ d_name <$> ds → collected_as ds C name loc = existT C (new_ParameterizedTestCaseInfo C name loc).
Proof.
  intros Hn. unfold collected_as, new_ParameterizedTestCaseInfo. do 2 f_equal.
  - induction ds as [|d ds IH]; [done|]. rewrite fmap_cons, not_elem_of_cons in Hn. destruct Hn as [Hd Hn].
    cbn [mbind list_bind]. by rewrite other_tests, IH.
  - induction ds as [|d ds IH]; [done|]. rewrite fmap_cons, not_elem_of_cons in Hn. destruct Hn as [Hd Hn].
    cbn [mbind list_bind]. by rewrite other_instantiations, IH.
Qed.

(** ** First uses *)

Lemma first_uses_snoc seen ds d :
  first_uses seen (ds ++ [d]) = first_uses seen ds ++ (if decide (d_name d ∈ seen ++ (d_name <$> ds)) then [] else [d]).
Proof.
  revert seen. induction ds as [|d' ds IH]; intros seen; cbn [first_uses app].
  - rewrite fmap_nil, app_nil_r. by case_decide.
  - rewrite fmap_cons, !IH. case_decide as Hs.
    + f_equal. apply decide_ext. rewrite !elem_of_app, elem_of_cons. split; [tauto|]. intros [?|[->|?]]; auto.
    + cbn [app]. do 2 f_equal. apply decide_ext. rewrite !elem_of_app, !elem_of_cons, ?elem_of_app.
      tauto.
Qed.

Lemma first_uses_names seen ds name :
  name ∈ d_name <$> first_uses seen ds ↔ name ∈ d_name <$> ds ∧ name ∉ seen.
Proof.
  revert seen. induction ds as [|d ds IH]; intros seen; cbn [first_uses].
  { rewrite fmap_nil, elem_of_nil. tauto. }
  case_decide as Hs; rewrite !fmap_cons, ?elem_of_cons, IH, ?elem_of_cons.
  - split; [tauto|]. intros [[->|?] ?]; tauto.
  - destruct (decide (name = d_name d)) as [->|]; tauto.
Qed.

Lemma first_uses_distinct seen ds : NoDup (d_name <$> first_uses seen ds).
Proof.
  revert seen. induction ds as [|d ds IH]; intros seen; simpl; [constructor|]. case_decide; [done|].
  rewrite fmap_cons. constructor; [|done]. rewrite first_uses_names, elem_of_cons. tauto.
Qed.

Lemma first_uses_sub seen ds d : d ∈ first_uses seen ds → d ∈ ds.
Proof. revert seen. induction ds as [|d' ds IH]; intros seen; simpl; [done|]. case_decide; rewrite ?elem_of_cons; naive_solver. Qed.

Lemma one_class_snoc ds d :
  one_class_each (ds ++ [d]) ↔ one_class_each ds ∧ Forall (λ e, d_name e = d_name d → d_class e = d_class d) ds.
Proof.
  unfold one_class_each. rewrite !Forall_forall. setoid_rewrite Forall_forall. setoid_rewrite elem_of_app.
  setoid_rewrite list_elem_of_singleton. split.
  - intros Hall. split; intros; apply Hall; auto.
  - intros [Hds Hd] e [He| ->] e' [He'| ->] E; [by apply Hds|by apply Hd|symmetry; by apply Hd|done].
Qed.
(** ** What the registry holds *)

Definition holding ds : list ParameterizedTestCaseInfoBase := collected ds <$> first_uses [] ds.

(** After another declaration, the one of its name is changed and no other. *)
Lemma holding_changed ds d i e :
  first_uses [] ds !! i = Some e → d_name e = d_name d →
  holding (ds ++ [d]) = <[i := collected (ds ++ [d]) e]> (holding ds).
Proof.
  intros Hi Hname. assert (Hin : d_name d ∈ d_name <$> ds).
  { rewrite <- Hname. apply list_elem_of_fmap_2, (first_uses_sub []). by eapply list_elem_of_lookup_2. }
  unfold holding. rewrite first_uses_snoc, decide_True, app_nil_r by done. apply list_eq. intros j.
  destruct (decide (j = i)) as [->|Hne].
  - rewrite list_lookup_insert_eq by (rewrite length_fmap; by eapply lookup_lt_Some). by rewrite list_lookup_fmap, Hi.
  - rewrite list_lookup_insert_ne, !list_lookup_fmap by done. destruct (first_uses [] ds !! j) as [e'|] eqn:Ej; [|done].
    simpl. f_equal. apply collected_other. intros E. apply Hne.
    apply (NoDup_lookup (d_name <$> first_uses [] ds) j i (d_name d)); [apply first_uses_distinct| |].
    + by rewrite list_lookup_fmap, Ej; simpl; rewrite E.
    + by rewrite list_lookup_fmap, Hi; simpl; rewrite Hname.
Qed.

Lemma holding_added ds d :
  d_name d ∉ d_name <$> ds → holding (ds ++ [d]) = holding ds ++ [collected (ds ++ [d]) d].
Proof.
  intros Hnew. unfold holding. rewrite first_uses_snoc, decide_False, fmap_app by done. f_equal.
  apply list_fmap_ext. intros i e He. apply collected_other. intros E. apply Hnew. rewrite E.
  apply list_elem_of_fmap_2, (first_uses_sub []). by eapply list_elem_of_lookup_2.
Qed.

(** The search by name finds the first use of the name, if there is one. *)
Lemma holding_find ds name :
  list_find (λ it, GetTestCaseName it = name) (holding ds) =
    prod_map id (collected ds) <$> list_find (λ e, d_name e = name) (first_uses [] ds).
Proof. apply list_find_fmap. Qed.

Lemma declare_found ds d i e :
  list_find (λ e, d_name e = d_name d) (first_uses [] ds) = Some (i, e) → d_class e = d_class d →
  declare d (holding ds) = Some (holding (ds ++ [d])).
Proof.
  intros Hf Hc. pose proof Hf as (Hi & Hname & _)%list_find_Some.
  rewrite declare_eq. unfold GetTestCasePatternHolder. rewrite holding_find, Hf. cbn [fmap option_fmap option_map prod_map fst snd id].
  rewrite decide_False by (intros Hn; by apply Hn). cbn [mbind option_bind]. unfold at_holder. cbn [fst snd].
  assert (holding ds !! i = Some (collected ds e)) as -> by (unfold holding; by rewrite list_lookup_fmap, Hi).
  cbn [mbind option_bind]. unfold collected at 1. rewrite Hc, Hname, collected_addition. cbn [mbind option_bind]. f_equal.
  rewrite (holding_changed ds d i e Hi Hname). unfold collected. by rewrite Hc, Hname.
Qed.

Lemma declare_new ds d : d_name d ∉ d_name <$> ds → declare d (holding ds) = Some (holding (ds ++ [d])).
Proof.
  intros Hnew. rewrite declare_eq. unfold GetTestCasePatternHolder. rewrite holding_find.
  assert (list_find (λ e, d_name e = d_name d) (first_uses [] ds) = None) as ->.
  { apply list_find_None, Forall_forall. intros e He E. apply Hnew. rewrite <- E. by apply list_elem_of_fmap_2, (first_uses_sub []). }
  cbn [fmap option_fmap option_map mbind option_bind]. unfold at_holder. cbn [fst snd].
  rewrite lookup_app_r, Nat.sub_diag by done. cbn [lookup list_lookup mbind option_bind].
  rewrite <- (collected_none ds) by done. rewrite collected_addition. cbn [mbind option_bind]. f_equal.
  rewrite holding_added by done. by rewrite insert_app_r_alt, Nat.sub_diag by done.
Qed.

(** After any declarations, in any order, the registry holds one test case for each
    name, in the order of first use, with all the tests declared for the name and all its
    instantiations, each in the order of declaration; and the process ends exactly if a
    name is used with two classes. *)
Theorem registry_collects ds :
  declare_all ds [] = if decide (one_class_each ds) then Some (holding ds) else None.
Proof.
  induction ds as [|d ds IH] using rev_ind; [by rewrite decide_True by constructor|].
  rewrite declare_all_snoc, IH. clear IH. destruct (decide (one_class_each ds)) as [Hds|Hds]; cbn [mbind option_bind].
  2: { rewrite decide_False; [done|]. by intros [? _]%one_class_snoc. }
  destruct (decide (d_name d ∈ d_name <$> ds)) as [Hin|Hnew].
  2: { rewrite declare_new, decide_True; [done| |done]. apply one_class_snoc. split; [done|]. apply Forall_forall.
    intros e He E. destruct Hnew. rewrite <- E. by apply list_elem_of_fmap_2. }
  destruct (list_find (λ e, d_name e = d_name d) (first_uses [] ds)) as [[i e]|] eqn:Hf.
  2: { exfalso. apply list_find_None in Hf. rewrite Forall_forall in Hf.
    assert (Hu : d_name d ∈ d_name <$> first_uses [] ds) by (apply first_uses_names; split; [done|apply not_elem_of_nil]).
    apply list_elem_of_fmap in Hu as (e & E & He). by apply (Hf e He). }
  pose proof Hf as (Hi & Hname & _)%list_find_Some. apply list_elem_of_lookup_2, first_uses_sub in Hi.
  destruct (decide (d_class e = d_class d)) as [Hc|Hc].
  - rewrite (declare_found ds d i e), decide_True; [done| |done..]. apply one_class_snoc. split; [done|].
    apply Forall_forall. intros e' He' E. rewrite <- Hc. unfold one_class_each in Hds. rewrite Forall_forall in Hds.
    specialize (Hds e' He'). rewrite Forall_forall in Hds. apply Hds; [done|congruence].
  - rewrite decide_False.
    + rewrite declare_eq. unfold GetTestCasePatternHolder. rewrite holding_find, Hf.
      cbn [fmap option_fmap option_map prod_map fst snd id]. by rewrite decide_True.
    + intros [_ Hall]%one_class_snoc. rewrite Forall_forall in Hall. by apply Hc, Hall.
Qed.

(** ** Registration *)

(** Where there is a test for it, every instantiation names its parameters acceptably:
    the names are well formed and distinct. *)
Definition names_pass (ds : list declaration) : Prop :=
  Forall (λ d, match d with
               | INSTANTIATE_TEST_CASE_P _ name inst _ => ds ≫= tests_named name = [] ∨ names_accepted inst
               | _ => True
               end) ds.

#[export] Instance names_pass_dec ds : Decision (names_pass ds).
Proof. apply Forall_dec. intros [|C name inst loc]; [apply _|]. apply or_dec; apply _. Defined.

Lemma instantiations_accepted C name d :
  Forall names_accepted (instantiations_named C name d) ↔
  (d_class d = C → d_name d = name →
   match d with INSTANTIATE_TEST_CASE_P _ _ inst _ => names_accepted inst | _ => True end).
Proof.
  destruct d as [C' n t loc|C' n inst loc]; simpl; [by rewrite Forall_nil|].
  destruct (decide (C' = C)) as [->|]; [|by rewrite Forall_nil]. simpl.
  case_decide; [|by rewrite Forall_nil]. rewrite Forall_singleton. tauto.
Qed.

(** With one class for each name, it is enough to look at the first uses. *)
Lemma names_pass_uses ds :
  one_class_each ds →
  names_pass ds ↔
  Forall (λ d, ds ≫= tests_named (d_name d) = [] ∨
               Forall names_accepted (ds ≫= instantiations_named (d_class d) (d_name d))) (first_uses [] ds).
Proof.
  unfold one_class_each, names_pass. rewrite !Forall_forall. setoid_rewrite Forall_forall. intros Hone. split.
  - intros Hall d Hd. destruct (decide (ds ≫= tests_named (d_name d) = [])) as [|Ht]; [by left|right].
    intros gen (e & Hgen & He)%list_elem_of_bind. revert gen Hgen.
    apply Forall_forall, instantiations_accepted. intros _ En.
    specialize (Hall e He). destruct e as [|C n inst loc]; [done|]. simpl in *. subst n. by destruct Hall.
  - intros Huses d Hd. destruct d as [|C n inst loc]; [done|].
    assert (Hin : n ∈ d_name <$> first_uses [] ds).
    { apply first_uses_names. split; [|apply not_elem_of_nil].
      exact (list_elem_of_fmap_2 d_name ds _ Hd). }
    apply list_elem_of_fmap in Hin as (e & -> & He). destruct (Huses e He) as [|Hall]; [by left|right].
    assert (Hd' : Forall names_accepted (instantiations_named (d_class e) (d_name e) (INSTANTIATE_TEST_CASE_P C (d_name e) inst loc))).
    { apply Forall_forall. intros gen Hgen. apply Hall, list_elem_of_bind. by eexists. }
    rewrite instantiations_accepted in Hd'. apply Hd'; [|done]. apply (Hone _ Hd e); [|done].
    by eapply first_uses_sub.
Qed.

(** The tests of a test case: each test with each parameter of each instantiation. *)
Definition tests_declared ds (C : TestCase) (name : bytes) : list (Registered (ParamType C)) :=
  t ← ds ≫= tests_named name; gen ← ds ≫= instantiations_named C name;
  imap (λ i x, {| reg_test_case := test_case_name gen t;
                  reg_test := test_base_name t ++ str "/" ++ inst_name_func gen x (Z.of_nat i); reg_param := x |}) (inst_generator gen).

Definition declared_for ds (d : declaration) : {C : TestCase & list (Registered (ParamType C))} :=
  existT (d_class d) (tests_declared ds (d_class d) (d_name d)).

(** Registering the test cases that hold what was declared for these. *)
Lemma register_uses ds l :
  Registry_RegisterTests (collected ds <$> l) =
    if decide (Forall (λ d, ds ≫= tests_named (d_name d) = [] ∨
                            Forall names_accepted (ds ≫= instantiations_named (d_class d) (d_name d))) l)
    then Some (declared_for ds <$> l) else None.
Proof.
  induction l as [|d l IH]; [by rewrite decide_True|]. rewrite fmap_cons. unfold collected at 1, collected_as.
  cbn [Registry_RegisterTests tests_ instantiations_]. rewrite RegisterTests_spec, IH.
  match goal with |- context [if decide ?P then Some (mbind _ _) else None] => destruct (decide P) as [Hd|Hd] end;
    cbn [mbind option_bind].
  - match goal with |- context [if decide ?P then Some (_ <$> l) else None] => destruct (decide P) as [Hl|Hl] end;
      cbn [mbind option_bind].
    + by rewrite decide_True by by constructor.
    + by rewrite decide_False by by intros [_ ?]%Forall_cons.
  - by rewrite decide_False by by intros [? _]%Forall_cons.
Qed.

(** C40. Registration is complete whatever the order of the declarations: every test declared
    for a name is registered with every parameter of every instantiation declared for it,
    before or after, under the name its instantiation gives the parameter, and nothing
    else is; a test case without tests or without instantiations registers nothing.  The
    process ends instead exactly if a name is used with two classes, or an instantiation
    of a name with tests gives a parameter a malformed name or two of them the same. *)
Theorem declared_tests_registered ds :
  declare_all ds [] ≫= Registry_RegisterTests =
    if decide (one_class_each ds ∧ names_pass ds) then Some (declared_for ds <$> first_uses [] ds) else None.
Proof.
  rewrite registry_collects. destruct (decide (one_class_each ds)) as [Hone|Hone]; cbn [mbind option_bind].
  2: { by rewrite decide_False by tauto. }
  unfold holding. rewrite register_uses. erewrite decide_ext; [reflexivity|].
  rewrite names_pass_uses by done. tauto.
Qed.
End registry.

(** ** Two test cases

    One of numbers and one of strings, with the macros mixed. *)
Inductive sample_class := NumberTest | StringTest.

#[local] Instance sample_class_eq : EqDecision sample_class.
Proof. intros x y. unfold Decision. decide equality. Defined.

Definition sample_param (C : sample_class) : Type := match C with NumberTest => Z | StringTest => bytes end.

Section sample.
Abbreviation at_line n := {| file := str "t.cc"; line := n |}.

Definition sample_inst (name : bytes) (C : sample_class) (l : list (sample_param C)) : InstantiationInfo (sample_param C) :=
  {| inst_name := name; inst_generator := l; inst_name_func := DefaultParamName |}.

Definition sample_declarations : list (declaration sample_param) :=
  [INSTANTIATE_TEST_CASE_P _ NumberTest (str "NumberTest") (sample_inst (str "Few") NumberTest [5; 7]) (at_line 1);
   TEST_P _ StringTest (str "StringTest") (str "IsShort") (at_line 2);
   TEST_P _ NumberTest (str "NumberTest") (str "IsOdd") (at_line 3);
   INSTANTIATE_TEST_CASE_P _ StringTest (str "StringTest") (sample_inst [] StringTest [str "a"]) (at_line 4)].

(** The same name for another class ends the process. *)
Example two_classes_abort :
  declare_all _ (sample_declarations ++ [TEST_P _ StringTest (str "NumberTest") (str "IsOdd") (at_line 5)]) [] = None.
Proof. by vm_compute. Qed.

Example samples_registered :
  mbind (M := option) (Registry_RegisterTests sample_param) (declare_all sample_param sample_declarations []) =
    Some [existT NumberTest
            [{| reg_test_case := str "Few/NumberTest"; reg_test := str "IsOdd/0"; reg_param := 5 |};
             {| reg_test_case := str "Few/NumberTest"; reg_test := str "IsOdd/1"; reg_param := 7 |}];
          existT StringTest [{| reg_test_case := str "StringTest"; reg_test := str "IsShort/0"; reg_param := str "a" |}]].
Proof. by vm_compute. Qed.

(** So does a name function that calls two parameters alike, once there is a test. *)
Definition alike : InstantiationInfo (sample_param NumberTest) :=
  {| inst_name := []; inst_generator := [5; 7]; inst_name_func := λ _ _, str "same" |}.

Example same_names_abort :
  mbind (M := option) (Registry_RegisterTests sample_param)
    (declare_all sample_param (sample_declarations ++ [INSTANTIATE_TEST_CASE_P _ NumberTest (str "NumberTest") alike (at_line 5)]) [])
    = None.
Proof. by vm_compute. Qed.
End sample.
