(* ===== verification/Printers.v ===== *)
(** * How the test framework prints values

    The universal printer of gtest-printers.h, which writes the operands of a failed
    comparison into its message: containers, native arrays, pairs, tuples, pointers and
    references, over the printers of their elements.  A printer is the text it writes to
    the stream; the texts of addresses, strings and types without a printer are the
    business of the standard library and of code that is compiled elsewhere, so printers
    for elements are arbitrary. *)
From S2P Require Import Prelude Stdcxx.
From Stdlib Require Import ZArith Lia List Ascii String Bool.
From stdpp Require Import base list.
#[local] Set Default Goal Selector "!".

(** [UniversalPrinter<T>::Print], and [UniversalPrint], which infers [T]. *)
Class UniversalPrinter (T : Type) := Print : T → bytes.

Definition UniversalPrint {T} `{UniversalPrinter T} (value : T) : bytes := Print value.

(** [PrintTo(bool)], and an integer's own [<<]. *)
#[export] Instance PrintTo_bool : UniversalPrinter bool := λ x, if x then str "true" else str "false".
#[export] Instance PrintTo_int : UniversalPrinter Z := to_string.

(** ** Containers *)

(** The container is what its iterators run through. *)
Record container (T : Type) := Container { elements : list T }.
Arguments Container {T} elements.
Arguments elements {T} _.

Definition kMaxCount : nat := 32.

(** The loop, and the space after it; [count] elements have been printed. *)
Fixpoint print_elements {T} `{UniversalPrinter T} (l : list T) (count : nat) : bytes :=
  match l with
  | [] => if 0 <? count then str " " else []
  | x :: l =>
      if 0 <? count then
        str "," ++
        (if count =? kMaxCount then str " ..." ++ str " "
         else str " " ++ UniversalPrint x ++ print_elements l (S count))
      else str " " ++ UniversalPrint x ++ print_elements l (S count)
  end.

#[export] Instance PrintTo_container {T} `{UniversalPrinter T} : UniversalPrinter (container T) :=
  λ c, str "{" ++ print_elements (elements c) 0 ++ str "}".

(** ** Native arrays *)

Record native_array (T : Type) := Array { array_elements : list T }.
Arguments Array {T} array_elements.
Arguments array_elements {T} _.

(** [a[0]] is printed whatever [count] is; [None] reads past the end of the array. *)
Fixpoint print_rest {T} `{UniversalPrinter T} (a : list T) (count : nat) : option bytes :=
  match count with
  | O => Some []
  | S count =>
      match a with
      | [] => None
      | x :: a => t ← print_rest a count; Some (str ", " ++ UniversalPrint x ++ t)
      end
  end.

Definition PrintRawArrayTo {T} `{UniversalPrinter T} (a : list T) (count : nat) : option bytes :=
  match a with
  | [] => None
  | x :: a => t ← print_rest a (count - 1); Some (UniversalPrint x ++ t)
  end.

Definition kThreshold : nat := 18.
Definition kChunkSize : nat := 8.

Definition UniversalPrintArray {T} `{UniversalPrinter T} (a : list T) (len : nat) : option bytes :=
  if len =? 0 then Some (str "{}")
  else
    t ← (if len <=? kThreshold then PrintRawArrayTo a len
         else
           t1 ← PrintRawArrayTo a kChunkSize;
           t2 ← PrintRawArrayTo (drop (len - kChunkSize) a) kChunkSize;
           Some (t1 ++ str ", ..., " ++ t2));
    Some (str "{ " ++ t ++ str " }").

#[export] Instance Print_array {T} `{UniversalPrinter T} : UniversalPrinter (native_array T) :=
  λ a, default [] (UniversalPrintArray (array_elements a) (length (array_elements a))).

(** ** Pairs and tuples *)

#[export] Instance PrintTo_pair {T1 T2} `{UniversalPrinter T1} `{UniversalPrinter T2} : UniversalPrinter (T1 * T2) :=
  λ value, str "(" ++ Print value.1 ++ str ", " ++ Print value.2 ++ str ")".

(** A field of a tuple, with the printers of its type. *)
Record field := Field {
  field_type : Type;
  field_printer : UniversalPrinter field_type;
  field_terse : field_type → bytes;
  field_value : field_type
}.

Abbreviation tuple := (list field).

(** [TuplePrefixPrinter<N>]: the first [N] fields; the field must exist to be compiled. *)
Fixpoint PrintPrefixTo (N : nat) (t : tuple) : option bytes :=
  match N with
  | O => Some []
  | S n =>
      before ← PrintPrefixTo n t;
      f ← t !! n;
      Some (before ++ (if 1 <? N then str ", " else []) ++ @Print (field_type f) (field_printer f) (field_value f))
  end.

Fixpoint TersePrintPrefixToStrings (N : nat) (t : tuple) (strings : list bytes) : option (list bytes) :=
  match N with
  | O => Some strings
  | S n =>
      strings ← TersePrintPrefixToStrings n t strings;
      f ← t !! n;
      Some (strings ++ [field_terse f (field_value f)])
  end.

Definition PrintTupleTo (t : tuple) : option bytes :=
  fields ← PrintPrefixTo (length t) t;
  Some (str "(" ++ fields ++ str ")").

Definition UniversalTersePrintTupleFieldsToStrings (value : tuple) : option (list bytes) :=
  TersePrintPrefixToStrings (length value) value [].

(** ** Pointers and references *)

Section addresses.
Context (print_address : positive → bytes).

(** [DefaultPrintTo] of a pointer to an object or a function. *)
Definition DefaultPrintTo_pointer (p : option positive) : bytes :=
  match p with None => str "NULL" | Some a => print_address a end.

(** A reference is printed with the address of the value. *)
Definition Print_reference {T} `{UniversalPrinter T} (address : positive) (value : T) : bytes :=
  str "@" ++ print_address address ++ str " " ++ UniversalPrint value.
End addresses.

(** [UniversalTersePrinter]: the value of a reference, the string a [char] pointer points
    to. *)
Definition TersePrint {T} `{UniversalPrinter T} (value : T) : bytes := UniversalPrint value.

Definition TersePrint_c_string (PrintStringTo : bytes → bytes) (s : option bytes) : bytes :=
  match s with None => str "NULL" | Some s => PrintStringTo (c_str s) end.

Definition PrintToString {T} `{UniversalPrinter T} (value : T) : bytes := TersePrint value.

(** ** What a container's text is *)

Section container_text.
Context {T : Type} `{UniversalPrinter T}.

(** Elements, each after a comma. *)
Fixpoint comma_separated (l : list T) : bytes :=
  match l with
  | [] => []
  | x :: l => str ", " ++ Print x ++ comma_separated l
  end.

(** What the loop prints after [count] elements. *)
Lemma print_elements_spec l count :
  0 < count → count ≤ kMaxCount →
  print_elements l count =
    (if decide (length l ≤ kMaxCount - count) then comma_separated l
     else comma_separated (take (kMaxCount - count) l) ++ str ", ...") ++ str " ".
Proof.
  revert count. induction l as [|x l IH]; intros count Hpos Hmax; cbn [print_elements].
  - rewrite (proj2 (Nat.ltb_lt _ _)) by done. rewrite decide_True by (simpl; lia). done.
  - rewrite (proj2 (Nat.ltb_lt _ _)) by done. destruct (Nat.eqb_spec count kMaxCount) as [->|Hne].
    + rewrite Nat.sub_diag, decide_False by (simpl; lia). done.
    + rewrite IH by lia. replace (kMaxCount - count) with (S (kMaxCount - S count)) by lia. simpl.
      do 3 f_equal. unfold UniversalPrint. destruct (decide (length l ≤ _)), (decide (S (length l) ≤ _)); try lia.
      * simpl. by rewrite <- !app_assoc.
      * simpl. by rewrite <- !app_assoc.
Qed.

(** The first elements of a container that has more are followed by an ellipsis. *)
Lemma container_text x l :
  Print (Container (x :: l)) =
    str "{ " ++ Print x ++
    (if decide (length (x :: l) ≤ kMaxCount) then comma_separated l
     else comma_separated (take (kMaxCount - 1) l) ++ str ", ...") ++ str " }".
Proof.
  unfold Print at 1, PrintTo_container. cbn [elements print_elements Nat.ltb Nat.leb].
  rewrite print_elements_spec by (unfold kMaxCount; lia). unfold UniversalPrint.
  change (str "{ ") with (str "{" ++ str " "). change (str " }") with (str " " ++ str "}").
  destruct (decide (length l ≤ _)), (decide (length (x :: l) ≤ _)); simpl in *; unfold kMaxCount in *; try lia;
    by rewrite <- !app_assoc.
Qed.

(** A text neither comma nor space stands in ends where either does. *)
Definition plain (s : bytes) : bool := forallb (λ c, negb (bool_decide (c = ","%char)) && negb (bool_decide (c = " "%char))) s.

Lemma plain_split u v x y (c d : ascii) :
  plain u = true → plain v = true → plain [c] = false → plain [d] = false →
  u ++ c :: x = v ++ d :: y → u = v ∧ c :: x = d :: y.
Proof.
  intros Hu Hv Hc Hd E. unfold plain in *. simpl in Hc, Hd. rewrite andb_true_r in Hc, Hd.
  pose proof (span_app _ u (c :: x) Hu Hc) as H1. pose proof (span_app _ v (d :: y) Hv Hd) as H2.
  rewrite E, H2 in H1. by simplify_eq.
Qed.

Context (Hplain : ∀ x : T, plain (Print x) = true) (Hinj : ∀ x y : T, Print x = Print y → x = y).

Lemma comma_separated_inj l l' :
  comma_separated l ++ str " }" = comma_separated l' ++ str " }" → l = l'.
Proof using Hplain Hinj.
  assert (Hhead : ∀ l : list T, ∃ c r, plain [c] = false ∧ comma_separated l ++ str " }" = c :: r).
  { intros [|z k]; do 2 eexists; (split; cycle 1; [reflexivity|reflexivity]). }
  revert l'. induction l as [|x l IH]; intros [|y l'] E; [done|by simplify_eq/=..|]. cbn [comma_separated] in E.
  rewrite <- !app_assoc in E. apply (inj (str ", " ++.)) in E.
  destruct (Hhead l) as (c & r & Hc & Ec), (Hhead l') as (d & r' & Hd & Ed).
  rewrite Ec, Ed in E. apply plain_split in E as [Exy E]; [|done..]. f_equal; [by apply Hinj|].
  apply IH. by rewrite Ec, Ed.
Qed.
End container_text.

(** The text of a container of elements whose own texts are distinct, without commas and
    spaces tells up to 32 elements apart; of longer ones it shows the first 32 and an
    ellipsis, so the texts of two of them are equal exactly when their first 32 elements
    are. *)
Theorem containers_print_apart {T} `{UniversalPrinter T} (l l' : list T) :
  (∀ x : T, plain (Print x) = true) → (∀ x y : T, Print x = Print y → x = y) →
  (length l ≤ kMaxCount → length l' ≤ kMaxCount → PrintToString (Container l) = PrintToString (Container l') → l = l') ∧
  (kMaxCount < length l → kMaxCount < length l' →
    PrintToString (Container l) = PrintToString (Container l') ↔ take kMaxCount l = take kMaxCount l').
Proof.
  intros Hplain Hinj. unfold PrintToString, TersePrint, UniversalPrint.
  assert (Hcons : ∀ (x y : T) k k', Print x ++ comma_separated k ++ str " }" = Print y ++ comma_separated k' ++ str " }" →
    x :: k = y :: k').
  { intros x y k k' E. apply (comma_separated_inj Hplain Hinj). cbn [comma_separated]. rewrite <- !app_assoc. by rewrite E. }
  split.
  - intros Hl Hl' E. destruct l as [|x l], l' as [|y l']; [done|by rewrite container_text in E|by rewrite container_text in E|].
    rewrite !container_text, !decide_True in E by done. apply (inj (str "{ " ++.)) in E. by apply Hcons.
  - intros Hl Hl'. destruct l as [|x l], l' as [|y l']; [by simpl in *; lia..|].
    rewrite !container_text, !decide_False by lia. split.
    + intros E. apply (inj (str "{ " ++.)) in E. rewrite <- !app_assoc in E.
      change (take kMaxCount (x :: l)) with (x :: take (kMaxCount - 1) l).
      change (take kMaxCount (y :: l')) with (y :: take (kMaxCount - 1) l'). apply Hcons.
      rewrite !(app_assoc (Print _)) in E. apply (inj (.++ _)) in E. by rewrite !(app_assoc (Print _)), E.
    + change (take kMaxCount (x :: l)) with (x :: take (kMaxCount - 1) l).
      change (take kMaxCount (y :: l')) with (y :: take (kMaxCount - 1) l'). intros E.
      apply (f_equal (λ k, match k with [] => [] | x :: k => Print x ++ comma_separated k end)) in E. cbv beta iota in E.
      by rewrite !(app_assoc (Print _)), E.
Qed.

(** Integers print apart. *)
Lemma to_string_plain z : plain (to_string z) = true.
Proof.
  destruct (to_string_int_field z) as (neg & ds & -> & _ & Hds & _). unfold int_field.
  assert (Hp : plain ds = true).
  { eapply forallb_impl; [|exact Hds]. intros c Hc. apply andb_true_iff.
    split; apply negb_true_iff, bool_decide_eq_false_2; by intros ->. }
  by destruct neg.
Qed.

Lemma to_string_inj x y : to_string x = to_string y → x = y.
Proof.
  destruct (to_string_int_field x) as (neg & ds & -> & _ & Hds & <-),
    (to_string_int_field y) as (neg' & ds' & -> & _ & Hds' & <-). unfold int_field.
  destruct neg, neg'; [by intros [= ->]|intros <-; done|intros ->; done|by intros ->].
Qed.

Lemma containers_print_apart_witness :
  PrintToString (Container [1; -2]%Z) = str "{ 1, -2 }" ∧
  (PrintToString (Container (seqZ 0 40)) = PrintToString (Container (seqZ 0 50)) ↔
   take kMaxCount (seqZ 0 40) = take kMaxCount (seqZ 0 50)).
Proof.
  split; [by vm_compute|].
  apply (containers_print_apart (seqZ 0 40) (seqZ 0 50)); [apply to_string_plain|apply to_string_inj| |];
    by apply Nat.ltb_lt; vm_compute.
Defined.

(** Arrays of more than 18 elements show the first and the last eight. *)
Example long_arrays_print_alike :
  PrintToString (Array (seqZ 0 19)) = str "{ 0, 1, 2, 3, 4, 5, 6, 7, ..., 11, 12, 13, 14, 15, 16, 17, 18 }".
Proof. by vm_compute. Qed.

Example tuples_print :
  PrintTupleTo [Field Z PrintTo_int TersePrint 7%Z; Field bool PrintTo_bool TersePrint true] = Some (str "(7, true)") ∧
  UniversalTersePrintTupleFieldsToStrings
    [Field Z PrintTo_int TersePrint 7%Z; Field bool PrintTo_bool TersePrint true] = Some [str "7"; str "true"].
Proof. by vm_compute. Qed.
