(* ===== verification/NativeArrays.v ===== *)
(** * Native arrays as containers

    The utilities for native arrays of internal/gtest-internal.h: comparing, searching and
    copying arrays of any dimension, and [NativeArray], which gives an array the interface
    of a container and either refers to the source or owns a copy of it.  Arrays live at
    addresses; [None] is reading past their end or using one that was deleted. *)
From S2P Require Import Prelude.
From Stdlib Require Import ZArith Lia List Bool.
From stdpp Require Import base gmap list fin_maps.
#[local] Set Default Goal Selector "!".

(** ** Comparing, searching and copying

    A value of dimension 0 is compared by its [==] and assigned by its [=]; an array of
    dimension k + 1 element by element. *)

Class ArrayEq (T U : Type) := array_eq : T → U → bool.

(** [ArrayEq(lhs, size, rhs)] *)
Fixpoint array_eq_loop {T U} `{ArrayEq T U} (lhs : list T) (size : nat) (rhs : list U) {struct size} : option bool :=
  match size with
  | O => Some true
  | S size =>
      match lhs, rhs with
      | x :: lhs, y :: rhs => if array_eq x y then array_eq_loop lhs size rhs else Some false
      | _, _ => None
      end
  end.

(** An array type has its length: [N] elements. *)
Record array (N : nat) (T : Type) := Array { contents : list T; contents_length : length contents = N }.
Arguments Array {N T} contents contents_length.
Arguments contents {N T} _.
Arguments contents_length {N T} _.

#[export] Instance ArrayEq_array {T U N} `{ArrayEq T U} : ArrayEq (array N T) (array N U) :=
  λ lhs rhs, default false (array_eq_loop (contents lhs) N (contents rhs)).

(** The index of the first element that equals [elem], that of the end without one. *)
Fixpoint ArrayAwareFind {T U} `{ArrayEq T U} (range : list T) (elem : U) : nat :=
  match range with
  | [] => 0
  | x :: range => if array_eq x elem then 0 else S (ArrayAwareFind range elem)
  end.

(** [CopyArray(from, to)]: what [*to] becomes. *)
Class CopyArray (T U : Type) := copy_array : T → U → U.

Fixpoint copy_array_loop {T U} `{CopyArray T U} (from : list T) (size : nat) (to : list U) {struct size} : option (list U) :=
  match size with
  | O => Some to
  | S size =>
      match from, to with
      | x :: from, y :: to => l ← copy_array_loop from size to; Some (copy_array x y :: l)
      | _, _ => None
      end
  end.

#[export] Instance CopyArray_array {T U N} `{CopyArray T U} : CopyArray (array N T) (array N U) :=
  λ from to,
    let l := default (contents to) (copy_array_loop (contents from) N (contents to)) in
    match decide (length l = N) with
    | left E => Array l E
    | right _ => to
    end.

(** ** NativeArray *)

Section native_array.
Context {Element : Type} `{ArrayEq Element Element} `{CopyArray Element Element}.

(** A new element before it is assigned. *)
Context (indeterminate : Element).

(** The arrays there are. *)
Abbreviation heap := (gmap positive (list Element)).

Inductive initializer := InitRef | InitCopy.

Record NativeArray := {
  array_ : positive;
  size_ : nat;
  clone_ : initializer
}.

Definition init_ref (array : positive) (a_size : nat) (h : heap) : option (NativeArray * heap) :=
  Some ({| array_ := array; size_ := a_size; clone_ := InitRef |}, h).

(** [new] finds an address that is not in use. *)
Definition init_copy (array : positive) (a_size : nat) (h : heap) : option (NativeArray * heap) :=
  source ← h !! array;
  copy ← copy_array_loop source a_size (replicate a_size indeterminate);
  let address := fresh (dom h) in
  Some ({| array_ := address; size_ := a_size; clone_ := InitCopy |}, <[address := copy]> h).

Definition initialize (i : initializer) : positive → nat → heap → option (NativeArray * heap) :=
  match i with InitRef => init_ref | InitCopy => init_copy end.

(** The two constructors, by [RelationToSourceReference] and [RelationToSourceCopy], the copy
    constructor and the destructor. *)
Definition NativeArray_ref (array : positive) (count : nat) : heap → option (NativeArray * heap) := init_ref array count.

Definition NativeArray_source_copy (array : positive) (count : nat) : heap → option (NativeArray * heap) :=
  init_copy array count.

Definition NativeArray_copy (rhs : NativeArray) : heap → option (NativeArray * heap) :=
  initialize (clone_ rhs) (array_ rhs) (size_ rhs).

Definition NativeArray_dtor (this : NativeArray) (h : heap) : option heap :=
  match clone_ this with
  | InitRef => Some h
  | InitCopy => _ ← h !! array_ this; Some (delete (array_ this) h)
  end.

(** What iterating from [begin()] to [end()] reads. *)
Definition view (this : NativeArray) (h : heap) : option (list Element) :=
  a ← h !! array_ this;
  if decide (size_ this ≤ length a) then Some (take (size_ this) a) else None.

(** [operator==] *)
Definition NativeArray_eqb (this rhs : NativeArray) (h : heap) : option bool :=
  if decide (size_ this = size_ rhs) then
    a ← h !! array_ this;
    b ← h !! array_ rhs;
    array_eq_loop a (size_ this) b
  else Some false.

(** ** What it is *)

Context `{Hdec : EqDecision Element} (copy_spec : ∀ x y, copy_array x y = x) (eq_spec : ∀ x y, array_eq x y = true ↔ x = y).

Lemma copy_array_loop_spec from size to :
  size ≤ length from → size ≤ length to →
  copy_array_loop from size to = Some (take size from ++ drop size to).
Proof using copy_spec.
  revert from to. induction size as [|size IH]; intros from to Hf Ht; [done|].
  destruct from as [|x from], to as [|y to]; simpl in *; try lia. rewrite IH by lia. simpl. by rewrite copy_spec.
Qed.

Lemma array_eq_loop_spec lhs size rhs :
  size ≤ length lhs → size ≤ length rhs →
  array_eq_loop lhs size rhs = Some (bool_decide (take size lhs = take size rhs)).
Proof using eq_spec.
  revert lhs rhs. induction size as [|size IH]; intros lhs rhs Hl Hr; [done|].
  destruct lhs as [|x lhs], rhs as [|y rhs]; simpl in *; try lia.
  destruct (array_eq x y) eqn:E.
  - apply eq_spec in E as ->. rewrite IH by lia. f_equal. apply bool_decide_ext. split; [by intros ->|by intros [= ?]].
  - rewrite bool_decide_eq_false_2; [done|]. intros [= Hxy _]. apply eq_spec in Hxy. congruence.
Qed.

Lemma init_copy_spec a count h src :
  h !! a = Some src → count ≤ length src →
  init_copy a count h =
    Some ({| array_ := fresh (dom h); size_ := count; clone_ := InitCopy |}, <[fresh (dom h) := take count src]> h).
Proof using copy_spec.
  intros Ha Hc. unfold init_copy. rewrite Ha. simpl.
  rewrite copy_array_loop_spec by (rewrite ?length_replicate; lia). simpl.
  by rewrite drop_ge, app_nil_r by (rewrite length_replicate; lia).
Qed.

Lemma fresh_lookup (h : heap) : h !! fresh (dom h) = None.
Proof. apply not_elem_of_dom, is_fresh. Qed.

Lemma view_length na h l : view na h = Some l → ∃ a, h !! array_ na = Some a ∧ size_ na ≤ length a ∧ l = take (size_ na) a.
Proof.
  unfold view. destruct (h !! array_ na) as [a|]; [|done]. simpl. case_decide; [|done]. intros [= <-]. eauto.
Qed.

Lemma eqb_spec na nb h l l' :
  view na h = Some l → view nb h = Some l' → NativeArray_eqb na nb h = Some (bool_decide (l = l')).
Proof using eq_spec.
  intros (a & Ha & Hla & ->)%view_length (b & Hb & Hlb & ->)%view_length. unfold NativeArray_eqb.
  case_decide as E; [|].
  - rewrite Ha, Hb. simpl. by rewrite array_eq_loop_spec, E by lia.
  - rewrite bool_decide_eq_false_2; [done|]. intros Ht. apply (f_equal length) in Ht. rewrite !length_take in Ht. lia.
Qed.

(** Copying makes an equal array and leaves every other one alone; a copy that owns its
    elements keeps them whatever becomes of the source, and destroying it gives back the
    heap there was before. *)
Lemma copy_owns na h l :
  view na h = Some l →
  ∃ nb h', NativeArray_copy na h = Some (nb, h') ∧ view nb h' = Some l ∧ NativeArray_eqb na nb h' = Some true ∧
    (∀ a v, h !! a = Some v → h' !! a = Some v) ∧ NativeArray_dtor nb h' = Some h ∧
    clone_ nb = clone_ na ∧
    (clone_ na = InitCopy → ∀ a src, is_Some (h !! a) → view nb (<[a := src]> h') = Some l).
Proof using Hdec copy_spec eq_spec.
  intros Hv. pose proof (view_length _ _ _ Hv) as (a & Ha & Hla & ->).
  unfold NativeArray_copy. destruct na as [addr n []]; cbn [clone_ size_ array_ initialize] in *.
  - do 2 eexists. split; [done|]. split; [done|]. split; [|split; [done|]; split; [done|]; split; [done|]; by intros [=]].
    rewrite (eqb_spec _ _ _ _ _ Hv Hv). f_equal. by apply bool_decide_eq_true_2.
  - rewrite (init_copy_spec _ _ _ _ Ha Hla). do 2 eexists. split; [done|].
    pose proof (fresh_lookup h) as Hf. assert (Hne : addr ≠ fresh (dom h)) by (intros ->; congruence).
    assert (Hview : ∀ k : heap, k !! fresh (dom h) = Some (take n a) →
      view {| array_ := fresh (dom h); size_ := n; clone_ := InitCopy |} k = Some (take n a)).
    { intros k Hk. unfold view. simpl. rewrite Hk. simpl. rewrite length_take, decide_True by lia.
      f_equal. apply take_ge. rewrite length_take. lia. }
    assert (Hnew : view {| array_ := fresh (dom h); size_ := n; clone_ := InitCopy |} (<[fresh (dom h):=take n a]> h) = Some (take n a))
      by apply Hview, lookup_insert_eq.
    split; [done|]. split.
    { rewrite (eqb_spec _ _ _ (take n a) (take n a)); [f_equal; by apply bool_decide_eq_true_2| |done].
      unfold view. simpl. rewrite lookup_insert_ne by done. rewrite Ha. simpl. by rewrite decide_True. }
    split; [|split].
    + intros a' v Ha'. rewrite lookup_insert_ne; [done|]. intros <-. congruence.
    + unfold NativeArray_dtor. simpl. rewrite lookup_insert_eq. simpl. by rewrite delete_insert_id.
    + split; [done|]. intros _ a' src [v Ha']. apply Hview.
      rewrite lookup_insert_ne by (intros ->; congruence). apply lookup_insert_eq.
Qed.
End native_array.

(** ** Arrays of arrays *)

Lemma array_ext {N T} (a b : array N T) : contents a = contents b → a = b.
Proof. destruct a as [l Hl], b as [k Hk]. simpl. intros ->. f_equal. apply (proof_irrel Hl Hk). Qed.

#[export] Instance array_eq_dec {N T} `{EqDecision T} : EqDecision (array N T).
Proof.
  intros a b. destruct (decide (contents a = contents b)) as [E|E]; [left; by apply array_ext|right; by intros ->].
Defined.

(** Comparing and copying are right in every dimension once they are for the elements. *)
Lemma array_eq_spec {N T} `{EqDecision T} `{ArrayEq T T} :
  (∀ x y : T, array_eq x y = true ↔ x = y) → ∀ a b : array N T, array_eq a b = true ↔ a = b.
Proof.
  intros Hspec a b. unfold array_eq, ArrayEq_array.
  rewrite (array_eq_loop_spec Hspec) by (rewrite contents_length; lia). simpl.
  rewrite !take_ge by (rewrite contents_length; lia). rewrite bool_decide_eq_true. split; [apply array_ext|by intros ->].
Qed.

Lemma copy_array_spec {N T} `{CopyArray T T} :
  (∀ x y : T, copy_array x y = x) → ∀ a b : array N T, copy_array a b = a.
Proof.
  intros Hspec a b. apply array_ext. unfold copy_array, CopyArray_array.
  rewrite (copy_array_loop_spec Hspec) by (rewrite contents_length; lia). cbn [default from_option].
  rewrite take_ge, drop_ge, app_nil_r by (rewrite contents_length; lia).
  destruct (decide _) as [|Hne]; [done|]. by destruct Hne; apply contents_length.
Qed.

(** A [NativeArray] copied from a source, in any dimension: its elements are those of the
    source, it does not follow the source when that changes, a copy of it is equal to it
    and owned apart, and destroying the two leaves the heap as it was. *)
Theorem native_arrays_own {N T} `{EqDecision T} `{ArrayEq T T} `{CopyArray T T} (x0 : array N T) h a src count :
  (∀ x y : T, array_eq x y = true ↔ x = y) → (∀ x y : T, copy_array x y = x) →
  h !! a = Some src → count ≤ length src →
  ∃ na h1 nb h2, NativeArray_source_copy x0 a count h = Some (na, h1) ∧ NativeArray_copy x0 na h1 = Some (nb, h2) ∧
    view na h1 = Some (take count src) ∧ NativeArray_eqb na nb h2 = Some true ∧
    (∀ src', view nb (<[a := src']> h2) = Some (take count src)) ∧
    (NativeArray_dtor nb h2 ≫= NativeArray_dtor na) = Some h.
Proof.
  intros Heq Hcopy Ha Hc. pose proof (copy_array_spec (N := N) Hcopy) as Hcopy'. pose proof (array_eq_spec (N := N) Heq) as Heq'.
  pose (ref := {| array_ := a; size_ := count; clone_ := InitCopy |}).
  assert (Href : view ref h = Some (take count src)).
  { unfold view, ref. simpl. rewrite Ha. simpl. by rewrite decide_True. }
  destruct (copy_owns x0 Hcopy' Heq' ref h _ Href) as (na & h1 & H1 & Hv1 & _ & Hkeep1 & Hd1 & Hc1 & _).
  destruct (copy_owns x0 Hcopy' Heq' na h1 _ Hv1) as (nb & h2 & H2 & Hv2 & He2 & _ & Hd2 & _ & Hsrc2).
  exists na, h1, nb, h2. do 4 (split; [done|]). split.
  - intros src'. apply Hsrc2; [by rewrite Hc1|]. eauto.
  - by rewrite Hd2.
Qed.

(** A matrix of two rows, copied twice. *)
#[local] Instance ArrayEq_Z : ArrayEq Z Z := Z.eqb.
#[local] Instance CopyArray_Z : CopyArray Z Z := λ from _, from.

Definition row (x y : Z) : array 2 Z := Array [x; y] eq_refl.

Lemma native_arrays_own_witness :
  ∃ na h1 nb h2,
    NativeArray_source_copy (row 0 0) 1 2 {[ 1%positive := [row 1 2; row 3 4] ]} = Some (na, h1) ∧
    NativeArray_copy (row 0 0) na h1 = Some (nb, h2) ∧
    view na h1 = Some [row 1 2; row 3 4] ∧ NativeArray_eqb na nb h2 = Some true ∧
    (∀ src', view nb (<[1%positive := src']> h2) = Some [row 1 2; row 3 4]) ∧
    (NativeArray_dtor nb h2 ≫= NativeArray_dtor na) = Some {[ 1%positive := [row 1 2; row 3 4] ]}.
Proof.
  apply (native_arrays_own (row 0 0) {[ 1%positive := [row 1 2; row 3 4] ]} 1 [row 1 2; row 3 4] 2);
    [apply Z.eqb_eq|done|reflexivity|simpl; lia].
Defined.
