(* ===== verification/LockOrder.v ===== *)
(** * The order in which the server takes its mutexes

    Every function of the server takes its mutexes in one order: the mutex of a descriptor,
    of a transaction, of a file, [m_member_mtx], [g_mtx]; each is released before the
    function returns, and nobody sleeps holding one but the accept loop, which blocks in
    [accept] with two.  So the threads never wait for each other's mutexes in a circle: at
    rest none is held, unless the accept loop is there with nobody to accept (Threads.v). *)
From S2P Require Import Prelude Stdcxx Constants WireProtocol Messages Prog ReadWrite Posix File Backend Recovery Dispatcher Server Threads.
From Stdlib Require Import ZArith Lia List Ascii String Bool.
From stdpp Require Import base gmap strings list fin_maps sets.
#[local] Set Default Goal Selector "!".

(** ** What a part of a program still owes *)

Section owes.
Context {S : Type} (rank : mutex → nat) (may_block : gset mutex → (S → bool) → Prop).

(** All of [h] ranks below [n]. *)
Definition below (n : nat) (h : gset mutex) : Prop := ∀ m, m ∈ h → rank m < n.

(** [p], begun with the mutexes [ms] and others that rank below [n], takes further ones in
    order and ends with those others alone. *)
Definition owes {A} (n : nat) (ms : list mutex) (p : prog S A) : Prop :=
  ∀ h, below n h → ordered rank may_block (list_to_set ms ∪ h) p (λ _ h', h' = h).

(** The rank from which a part of the program may take mutexes. *)
Fixpoint top (n : nat) (ms : list mutex) : nat :=
  match ms with
  | [] => n
  | m :: ms => Nat.max (Datatypes.S (rank m)) (top n ms)
  end.

Lemma below_top n ms h : below n h → below (top n ms) (list_to_set ms ∪ h).
Proof.
  intros Hh. induction ms as [|m ms IH]; intros m' Hm'; simpl in *.
  - apply Hh. set_solver.
  - rewrite <- (assoc_L (∪)), elem_of_union, elem_of_singleton in Hm'. destruct Hm' as [->|Hm']; [lia|].
    specialize (IH m' Hm'). simpl in IH. lia.
Qed.

Lemma below_le n n' h : n ≤ n' → below n h → below n' h.
Proof. intros Hn Hh m Hm. specialize (Hh m Hm). lia. Qed.

Lemma below_not_in n h m : below n h → n ≤ rank m → m ∉ h.
Proof. intros Hh Hn Hm. specialize (Hh m Hm). lia. Qed.

Lemma owes_le {A} n n' ms (p : prog S A) : n ≤ n' → owes n' ms p → owes n ms p.
Proof. intros Hn Hp h Hh. apply Hp. by eapply below_le. Qed.

Lemma owes_ret {A} n (a : A) : owes n [] (Ret a : prog S A).
Proof. intros h _. simpl. set_solver. Qed.

Lemma owes_halt {A} n ms h : owes n ms (Halt h : prog S A).
Proof. by intros h' _. Qed.

Lemma owes_act {A X} n (f : S → option (X * S)) (k : X → prog S A) :
  (∀ x, owes n [] (k x)) → owes n [] (Act f k).
Proof. intros Hk h Hh x. by apply Hk. Qed.

Lemma owes_wait (g : S → bool) : owes 0 [] (wait_until g).
Proof.
  intros h Hh. simpl. split; [left|set_solver].
  apply set_eq. intros m. split; [|set_solver]. intros Hm. rewrite (left_id_L ∅ (∪)) in Hm.
  specialize (Hh m Hm). lia.
Qed.

(** A wait it may make while it holds mutexes. *)
Lemma owes_block {A} ms g (q : unit → prog S A) :
  may_block (list_to_set ms) g → owes 0 ms (q tt) → owes 0 ms (bind (wait_until g) q).
Proof.
  intros Hg Hq h Hh. assert (h = ∅) as ->.
  { apply set_eq. intros m. split; [|set_solver]. intros Hm. specialize (Hh m Hm). lia. }
  specialize (Hq ∅ Hh). simpl. rewrite (right_id_L ∅ (∪)) in *. auto.
Qed.

Lemma owes_diverge {A} n ms : owes n ms (diverge : prog S A).
Proof. intros h _. simpl. auto. Qed.

(** A part that releases what it takes, then the rest. *)
Lemma owes_bind {A C} n ms (p : prog S A) (q : A → prog S C) :
  owes (top n ms) [] p → (∀ a, owes n ms (q a)) → owes n ms (bind p q).
Proof.
  intros Hp Hq h Hh. apply ordered_bind. eapply ordered_mono.
  - specialize (Hp _ (below_top n ms h Hh)). simpl in Hp. rewrite (left_id_L ∅ (∪)) in Hp. exact Hp.
  - intros a h' ->. by apply Hq.
Qed.

Lemma owes_lock {A} n ms m (q : unit → prog S A) :
  top n ms ≤ rank m → owes n (m :: ms) (q tt) → owes n ms (bind (lock m) q).
Proof.
  intros Hr Hq h Hh. simpl. split.
  - intros m' Hm'. pose proof (below_top n ms h Hh m' Hm'). lia.
  - specialize (Hq h Hh). simpl in Hq. by rewrite <- (assoc_L (∪)) in Hq.
Qed.

(** Releasing the mutex taken last, or the one before it. *)
Lemma owes_unlock {A} n ms m (q : unit → prog S A) :
  top n ms ≤ rank m → owes n ms (q tt) → owes n (m :: ms) (bind (unlock m) q).
Proof.
  intros Hr Hq h Hh. simpl. split; [set_solver|].
  replace (({[m]} ∪ list_to_set ms ∪ h) ∖ {[m]}) with (list_to_set ms ∪ h); [by apply Hq|].
  pose proof (below_not_in _ _ m (below_top n ms h Hh) Hr). set_solver.
Qed.

Lemma owes_unlock_next {A} n ms m m' (q : unit → prog S A) :
  top n ms ≤ rank m → rank m < rank m' →
  owes n (m' :: ms) (q tt) → owes n (m' :: m :: ms) (bind (unlock m) q).
Proof.
  intros Hr Hlt Hq h Hh. simpl. split; [set_solver|].
  replace (({[m']} ∪ ({[m]} ∪ list_to_set ms) ∪ h) ∖ {[m]}) with (list_to_set (m' :: ms) ∪ h); [by apply Hq|].
  assert (m ≠ m') by (intros ->; lia).
  pose proof (below_not_in _ _ m (below_top n ms h Hh) Hr). set_solver.
Qed.

Lemma owes_unlock_last n m : n ≤ rank m → owes n [m] (unlock m).
Proof.
  intros Hr h Hh. simpl. split; [set_solver|]. pose proof (below_not_in _ _ m Hh Hr). set_solver.
Qed.

(** A program that owes nothing is in order from the start. *)
Lemma owes_ordered {A} (p : prog S A) : owes 0 [] p → ordered rank may_block ∅ p (λ _ h, h = ∅).
Proof.
  intros Hp. specialize (Hp ∅). simpl in Hp. rewrite (left_id_L ∅ (∪)) in Hp. apply Hp. intros m. set_solver.
Qed.

End owes.

(** Nobody waits while holding a mutex. *)
Definition no_block {S} (h : gset mutex) (g : S → bool) : Prop := False.

(** A backend's program inside a bigger state. *)
Lemma owes_zoom {S B A} rank may_block (get : B → S) (put : S → B → B) n ms (p : prog S A) :
  owes rank no_block n ms p → owes rank may_block n ms (zoom get put p).
Proof.
  intros Hp h Hh. specialize (Hp h Hh). revert Hp. generalize (list_to_set ms ∪ h). clear Hh.
  induction p as [a|X f k IH|m k IH|m k IH|g k IH|h0]; intros h0'; simpl; try done.
  - intros Hk x. by apply IH.
  - intros [? ?]. split; [done|by apply IH].
  - intros [? ?]. split; [done|by apply IH].
  - intros [[?|[Hg|[]]] ?]; (split; [|by apply IH]); [by left|by right; left].
Qed.

(** ** The order *)

Definition mutex_rank (m : mutex) : nat :=
  match m with
  | m_fd_mtx _ => 0
  | txn_mtx _ => 1
  | m_file_mtx _ => 2
  | m_member_mtx => 3
  | g_mtx => 4
  end.

Abbreviation in_turn := (owes mutex_rank no_block).

Create HintDb order.

Ltac order_side := simpl in *; lia.

(** One rule for the head of a program; what has a lemma of its own is in the hints. *)
Ltac order_step :=
  cbv beta zeta iota;
  lazymatch goal with
  | |- owes _ _ _ _ (bind (lock _) _) => apply owes_lock; [order_side|]
  | |- owes _ _ _ (?m :: _) (bind (unlock ?m) _) => apply owes_unlock; [order_side|]
  | |- owes _ _ _ (_ :: ?m :: _) (bind (unlock ?m) _) => apply owes_unlock_next; [order_side|order_side|]
  | |- owes _ _ _ [_] (unlock _) => apply owes_unlock_last; order_side
  | |- owes _ _ _ _ (bind _ _) => apply owes_bind; [|intros ?; cbv beta]
  | |- owes _ _ _ _ (match ?x with _ => _ end) =>
      lazymatch x with context [match ?y with _ => _ end] => destruct y | _ => destruct x end
  | |- owes _ _ _ [] (Ret _) => apply owes_ret
  | |- owes _ _ _ _ (Halt _) => apply owes_halt
  | |- owes _ _ _ _ diverge => apply owes_diverge
  | |- owes _ _ _ _ (wait_until _) => apply owes_wait
  | |- owes _ _ _ _ (Act _ _) => apply owes_act; intros ?
  | |- owes _ _ _ _ (ebind _ _) => unfold ebind
  | |- owes _ _ _ _ (lift _) => unfold lift
  | |- owes _ _ _ _ (try_catch _ _) => unfold try_catch
  | |- owes _ _ _ _ (throw _) => unfold throw
  | |- owes _ _ _ _ (eret _) => unfold eret
  | |- owes _ _ _ _ (reads _) => unfold reads, act
  | |- owes _ _ _ _ (modify _) => unfold modify, act
  | |- owes _ _ _ _ (deref _) => unfold deref, act_partial
  | |- owes _ _ _ _ (act _) => unfold act
  | |- owes _ _ _ _ (act_partial _) => unfold act_partial
  | |- owes _ _ _ _ (assert_that _) => unfold assert_that
  | |- owes _ _ _ _ (syscall _) => unfold syscall
  | |- owes _ _ _ _ (syscall_reads _) => unfold syscall_reads
  | |- _ => solve [eauto with order | match goal with H : _ |- _ => apply H; solve [order_side|eauto] end]
  end.

Ltac ordering := repeat order_step.

#[export] Hint Extern 1 (_ ≤ _) => (simpl in *; lia) : order.
#[export] Hint Extern 1 (_ <= _) => (simpl in *; lia) : order.

(** ** Transfers and files *)

Section files.
Context `{PathResolution} {S : Type} `{HasWorld S}.

Lemma in_turn_read may_block n (sys_read : nat → nat → prog S (option bytes)) wait_ready len :
  (∀ off k, owes mutex_rank may_block n [] (sys_read off k)) → owes mutex_rank may_block n [] wait_ready →
  owes mutex_rank may_block n [] (readFileDescriptor sys_read wait_ready len).
Proof.
  intros Hr Hw. unfold readFileDescriptor.
  generalize (Datatypes.S len), (@nil ascii). intros fuel.
  induction fuel as [|fuel IH]; intros out; simpl; ordering.
Qed.

Lemma in_turn_write may_block n (sys_write : bytes → prog S (option nat)) buf :
  (∀ b, owes mutex_rank may_block n [] (sys_write b)) → owes mutex_rank may_block n [] (writeFileDescriptor sys_write buf).
Proof.
  intros Hw. unfold writeFileDescriptor. ordering.
  generalize (Datatypes.S (length buf)), 0. intros fuel.
  induction fuel as [|fuel IH]; intros k; simpl; ordering.
Qed.

#[local] Hint Resolve in_turn_read in_turn_write : order.

Lemma in_turn_File_write n f buf : in_turn n [] (File_write f buf : eprog S unit).
Proof. unfold File_write. ordering. apply in_turn_write. intros b. ordering. Qed.

Lemma in_turn_File_read n f : in_turn n [] (File_read f : eprog S bytes).
Proof. unfold File_read, File_getFileSize. ordering. apply in_turn_read; intros; ordering. Qed.

Lemma in_turn_with_File {A} n path flags (body : File → eprog S A) :
  n ≤ mutex_rank g_mtx → (∀ f, in_turn n [] (body f)) → in_turn n [] (with_File path flags body).
Proof. intros Hn Hb. unfold with_File, File_ctor, File_dtor. ordering. Qed.
End files.

#[export] Hint Resolve in_turn_File_write in_turn_File_read : order.
#[export] Hint Extern 4 (owes mutex_rank _ _ [] (with_File _ _ _)) =>
  (apply in_turn_with_File; [simpl in *; lia|intros ?; ordering]) : order.

(** ** The backend *)

Section backend.
Context `{PathResolution} `{HashOrder} (m_directory : bytes).

Lemma in_turn_SET_RESPONSE n c t q e d ip : in_turn n [] (SET_RESPONSE c t q e d ip).
Proof. unfold SET_RESPONSE. ordering. Qed.

Lemma in_turn_logTransaction n log t f :
  n ≤ mutex_rank g_mtx → in_turn n [] (logTransaction m_directory log t f).
Proof. intros Hn. unfold logTransaction, getFileSize. ordering. Qed.

Lemma in_turn_release n a : in_turn n [] (release_file_attributes a).
Proof. unfold release_file_attributes. ordering. Qed.

#[local] Hint Resolve in_turn_SET_RESPONSE in_turn_logTransaction in_turn_release : order.

Lemma in_turn_add n t f :
  n ≤ mutex_rank g_mtx → in_turn n [] (addNewTransaction m_directory t f).
Proof.
  intros Hn. unfold addNewTransaction, NOW, getNewFileAttributes, getFileSize, share_file_attributes, file_set,
    emplace_transaction, START_TRANSACTION_TIMER. ordering.
Qed.

Lemma in_turn_remove n t : in_turn n [] (removeTransaction t).
Proof. unfold removeTransaction, txn_get. ordering. Qed.

#[local] Hint Resolve in_turn_add in_turn_remove : order.

Lemma in_turn_timer tm : in_turn 0 [] (txn_timer_turn m_directory tm).
Proof. unfold txn_timer_turn, NOW, txn_get. ordering. Qed.

Lemma in_turn_READ req ip : in_turn 0 [] (READ m_directory req ip).
Proof. unfold READ, SET_READ, SET_ERROR. ordering. Qed.

Lemma in_turn_pick n : in_turn n [] pick_candidate.
Proof.
  unfold pick_candidate. apply owes_bind; [ordering|intros size]. generalize (Datatypes.S size). intros fuel.
  induction fuel as [|fuel IH]; simpl; unfold is_active; ordering.
Qed.

#[local] Hint Resolve in_turn_pick : order.

Lemma in_turn_NEW_TXN req ip : in_turn 0 [] (NEW_TXN m_directory req ip).
Proof. unfold NEW_TXN, SET_ERROR, SET_NEW_TXN. ordering. Qed.

Lemma in_turn_WRITE req ip : in_turn 0 [] (WRITE req ip).
Proof.
  unfold WRITE, RETURN_ERROR_IF_COMMITTED_OR_INVALID_ID, RETURN_ERROR_IF_COMMITTED_OR_ABORTED, is_committed, is_active,
    find_txn, updateTransactionTimestamp, NOW, txn_get, txn_set, SET_ERROR, SET_ACK. ordering.
Qed.

Lemma in_turn_verify n fuel txn q : in_turn n [] (verify_loop fuel txn q).
Proof. revert q. induction fuel as [|fuel IH]; intros q; simpl; unfold txn_get; ordering. Qed.

Lemma in_turn_buffers n fuel file txn q : in_turn n [] (write_buffers fuel file txn q).
Proof. revert q. induction fuel as [|fuel IH]; intros q; simpl; unfold txn_get; ordering. Qed.

#[local] Hint Resolve in_turn_verify in_turn_buffers : order.

Lemma in_turn_commit_to_file n t txn sp :
  n ≤ mutex_rank (m_file_mtx sp) → in_turn n [] (commit_to_file m_directory t txn sp).
Proof.
  intros Hn. unfold commit_to_file, file_get, loop_fuel, txn_get, File_getFileSize, file_set. ordering.
Qed.

#[local] Hint Resolve in_turn_commit_to_file : order.

Lemma in_turn_COMMIT req ip : in_turn 0 [] (COMMIT m_directory req ip).
Proof.
  unfold COMMIT, RETURN_ERROR_IF_COMMITTED_OR_ABORTED, is_committed, is_active, find_txn,
    updateTransactionTimestamp, NOW, loop_fuel, txn_get, txn_set, file_get, SET_ERROR, SET_ACK, SET_ASK_RESEND.
  ordering.
Qed.

Lemma in_turn_ABORT req ip : in_turn 0 [] (ABORT m_directory req ip).
Proof.
  unfold ABORT, RETURN_ERROR_IF_COMMITTED_OR_INVALID_ID, RETURN_ERROR_IF_COMMITTED_OR_ABORTED, is_committed, is_active,
    find_txn, txn_get, file_get, SET_ERROR, SET_ACK. ordering.
Qed.

#[local] Hint Resolve in_turn_READ in_turn_NEW_TXN in_turn_WRITE in_turn_COMMIT in_turn_ABORT : order.

Lemma in_turn_processCommand req ip : in_turn 0 [] (processCommand m_directory req ip).
Proof.
  unfold processCommand, m_command_to_function, SET_ERROR. repeat case_decide; ordering.
Qed.

Lemma in_turn_rdbuf n fuel d c : in_turn n [] (rdbuf fuel d c).
Proof. revert c. induction fuel as [|fuel IH]; intros c; simpl; ordering. Qed.

#[local] Hint Resolve in_turn_processCommand in_turn_rdbuf : order.

Lemma in_turn_load_logs n l logs : in_turn n [] (load_logs l logs).
Proof. revert l. induction logs as [|log logs IH]; intros l; simpl; unfold load_log_file; ordering. Qed.

Lemma in_turn_truncateFiles n l : in_turn n [] (truncateFiles l).
Proof. induction l as [|[f z] l IH]; simpl; unfold fileExists; ordering. Qed.

#[local] Hint Resolve in_turn_load_logs in_turn_truncateFiles : order.

Lemma in_turn_initialize : in_turn 0 [] (initializeFunctionsAndTransactions m_directory).
Proof.
  unfold initializeFunctionsAndTransactions, initializeTransactions, loadFilesAndTransactions. ordering.
  lazymatch goal with |- owes _ _ _ _ (for_each _ ?entries) => induction entries as [|[t f] rest IH] end; simpl; ordering.
Qed.

Lemma in_turn_processRequest header payload ip : in_turn 0 [] (processRequest m_directory header payload ip).
Proof.
  unfold processRequest. apply owes_bind; [apply in_turn_initialize|intros _; apply in_turn_processCommand].
Qed.
End backend.

(** ** The dispatcher *)

Section dispatcher.
Context {B : Type} `{BackendOps B}.
Context (m_max_sockfd m_connection_timeout_seconds m_listenfd stack_bytes : Z).

(** The accept loop waits for a connection while it holds two mutexes. *)
Definition accepting (h : gset mutex) (g : ServerDispatcher B → bool) : Prop :=
  h = {[g_mtx; m_fd_mtx m_listenfd]} ∧ g = connection_pending.

Abbreviation in_server := (owes mutex_rank accepting).

(** What the backend's functions do with mutexes. *)
Context (content_length_in_turn : ∀ h r ip, in_turn 0 [] (backend_getContentLength h r ip : prog B ContentLength)).
Context (request_in_turn : ∀ h p r ip, in_turn 0 [] (backend_processRequest h p r ip : prog B Reply)).

Abbreviation P A := (prog (ServerDispatcher B) A) (only parsing).

Lemma in_turn_the_backend {A} n (p : prog B A) : in_turn n [] p → in_server n [] (the_backend p).
Proof. apply owes_zoom. Qed.

Lemma in_turn_wait_ready fd : in_server 0 [] (wait_ready m_connection_timeout_seconds fd : P bool).
Proof.
  unfold wait_ready. destruct (_ <? _)%Z; [|ordering].
  change (in_server 0 [] (lock (m_fd_mtx fd) ;;; unlock (m_fd_mtx fd) ;;;
    let! ready := reads (λ s : ServerDispatcher B, from_option readable false (connections s !! fd)) in
    lock (m_fd_mtx fd) ;;; unlock (m_fd_mtx fd) ;;; Ret ready)). ordering.
Qed.

Lemma in_turn_readSocket fd len : in_server 0 [] (readSocket m_max_sockfd m_connection_timeout_seconds fd len : P _).
Proof.
  unfold readSocket, fd_index. ordering. apply in_turn_read; [|apply in_turn_wait_ready].
  intros off k. unfold sock_read. ordering.
Qed.

Lemma in_turn_writeSocket n fd response : in_server n [] (writeSocket fd response : P _).
Proof. unfold writeSocket. ordering. apply in_turn_write. intros b. unfold sock_write. ordering. Qed.

#[local] Hint Resolve in_turn_the_backend in_turn_readSocket in_turn_writeSocket : order.

Lemma in_turn_connection fuel fd :
  in_server 0 [] (m_processRequest m_max_sockfd m_connection_timeout_seconds stack_bytes fuel fd : P unit).
Proof using content_length_in_turn request_in_turn.
  unfold m_processRequest, close_connection, close_socket, FD_CLR. ordering.
  generalize true. induction fuel as [|fuel IH]; intros ip; simpl; unfold serve_request, char_array; ordering.
Qed.

Lemma in_turn_start turns : in_server 0 [] (start m_max_sockfd m_listenfd turns : P unit).
Proof using Type.
  clear request_in_turn content_length_in_turn H.
  induction turns as [|turns IH]; simpl; [ordering|].
  apply owes_bind; [|intros _; exact IH].
  unfold start_turn, fd_index, close_socket, FD_SET.
  apply owes_bind; [ordering|]. intros _. apply owes_lock; [order_side|]. rewrite begin_wait_bind.
  apply owes_bind; [ordering|]. intros w. apply owes_unlock; [order_side|]. apply owes_bind; [ordering|]. intros _.
  apply owes_lock; [order_side|]. apply owes_lock; [order_side|]. rewrite accept_bind. apply owes_block; [|ordering]. split; [simpl; set_solver|done].
Qed.

Lemma in_turn_notifier turns : in_server 0 [] (m_notifier m_max_sockfd m_listenfd turns : P unit).
Proof using Type.
  clear request_in_turn content_length_in_turn H.
  induction turns as [|turns IH]; simpl; [ordering|].
  apply owes_bind; [|intros _; exact IH].
  unfold notifier_turn. ordering. match goal with |- owes _ _ _ _ (notify_loop _ ?fds ?n ?rfds) => generalize n end.
  induction (seqZ _ _) as [|fd fds IHf]; intros n; simpl; unfold fd_index; ordering.
Qed.
End dispatcher.

(** ** The server *)

Section server.
Context `{PathResolution} `{HashOrder} (m_listenfd stack_bytes : Z).

Abbreviation State := (ServerDispatcher ServerBackend).

(** [m_txn_timer_function], for at most [fuel] turns of its loop. *)
Fixpoint m_txn_timer_function (m_directory : bytes) (fuel : nat) (tm : Timer) : prog ServerBackend unit :=
  match fuel with
  | O => Ret tt
  | S fuel =>
      let! r := txn_timer_turn m_directory tm in
      match r with
      | None => Ret tt
      | Some latest =>
          m_txn_timer_function m_directory fuel
            {| tm_txn_id := tm_txn_id tm; tm_latest_timestamp := latest; tm_file_name := tm_file_name tm |}
      end
  end.

Lemma in_turn_timer_function m_directory fuel tm : in_turn 0 [] (m_txn_timer_function m_directory fuel tm).
Proof.
  revert tm. induction fuel as [|fuel IH]; intros tm; simpl; [ordering|].
  apply owes_bind; [apply in_turn_timer|]. intros r. ordering.
Qed.

(** The threads of a server: the one that accepts connections, the notifier, one for each
    connection, one for each transaction. *)
Inductive server_thread : prog State unit → Prop :=
| main_thread turns : server_thread (Server_start m_listenfd turns)
| notifier_thread turns : server_thread (Server_notifier m_listenfd turns)
| connection_thread directory fuel fd : server_thread (Server_connection stack_bytes directory fuel fd)
| timer_thread directory fuel tm : server_thread (the_backend (m_txn_timer_function directory fuel tm)).

Lemma server_thread_in_turn p : server_thread p → owes mutex_rank (accepting m_listenfd) 0 [] p.
Proof.
  intros [turns|turns|directory fuel fd|directory fuel tm].
  - apply in_turn_start.
  - apply in_turn_notifier.
  - apply in_turn_connection.
    + intros h r ip. simpl. ordering.
    + intros h p' r ip. cbn [backend_processRequest server_backend_ops]. apply in_turn_processRequest.
  - apply in_turn_the_backend, in_turn_timer_function.
Qed.

(** The accept loop is in [accept], holding the mutexes, with nobody to accept. *)
Definition at_accept (c : process State) : Prop :=
  ∃ tid k, pool c !! tid = Some (Wait connection_pending k) ∧ arrivals (shared c) = [] ∧
    holds (held c) tid = {[g_mtx; m_fd_mtx m_listenfd]}.

(** C14. However many connections and transactions a server has and in whatever order its
    threads run, they do not end up waiting for each other's mutexes: when nobody can take a
    step, no mutex is held and every thread has finished or waits for a connection, a
    notification or the clock; or the accept loop is in [accept] with nobody to accept, where it holds two
    mutexes until somebody comes; or a thread is about to end the process, or a loop of
    the model ran out of its fuel. *)
Theorem server_at_rest (pool_ : list (prog State unit)) (s : State) c :
  Forall server_thread pool_ →
  rtc step {| pool := pool_; held := ∅; shared := s |} c → stuck c →
  at_divergence c ∨ at_fault c ∨ at_accept c ∨
    (held c = ∅ ∧ ∀ tid p, pool c !! tid = Some p → finished p ∨ waiting p (shared c)).
Proof.
  intros Hl Hsteps Hstuck.
  assert (Hord : in_order mutex_rank (accepting m_listenfd) c).
  { eapply steps_in_order; [done|]. apply start_in_order.
    eapply Forall_impl; [exact Hl|]. intros p Hp. by apply owes_ordered, server_thread_in_turn. }
  destruct (stuck_in_order _ _ c Hord Hstuck) as [[?|[?|(tid & g & k & Hp & Hg & Hh & ->)]]|?];
    [by left|by right; left| |by right; right; right].
  right; right; left. exists tid, k. split; [done|]. split; [|done].
  by apply negb_false_iff, bool_decide_eq_true in Hg.
Qed.
End server.
