(* ===== verification/RelyGuarantee.v ===== *)
(** * Rely and guarantee

    A program logic for one thread among others.  A [Protocol] says, in terms of the
    locks, the shared state and a ghost state, what holds between any two steps and what a
    thread may rely on while others run, for as long as the state is as it is assumed to
    be; [secure] goes through a thread's program action by
    action, lets the others interfere before each, and asks that the action is defined and
    that the others can rely on it.  [secure_pool] puts the threads together: a pool of
    secure threads keeps the protocol under every schedule whose states are as assumed, and
    none of its threads comes to undefined behaviour. *)
From S2P Require Import Prelude Prog Threads.
From Stdlib Require Import ZArith Lia List Bool.
From stdpp Require Import base gmap list fin_maps sets relations.
#[local] Set Default Goal Selector "!".

(** ** Protocols *)

(** The locks, the shared state and the ghost state. *)
Record config (S G : Type) := Config { c_held : locks; c_shared : S; c_ghost : G }.
Arguments Config {S G} c_held c_shared c_ghost.
Arguments c_held {S G} c.
Arguments c_shared {S G} c.
Arguments c_ghost {S G} c.

(** What threads that share a state promise each other. *)
Class Protocol (S G : Type) := {
  assumed : S → Prop;                            (* the states for which the protocol is made *)
  invariant : config S G → Prop;
  rely : nat → config S G → config S G → Prop;   (* what a thread may rely on of the others *)
  rely_refl tid c : rely tid c c;
  rely_trans tid c1 c2 c3 : rely tid c1 c2 → rely tid c2 c3 → rely tid c1 c3
}.

#[export] Instance rely_preorder {S G} `{Protocol S G} tid : PreOrder (rely tid).
Proof. split; [intros c; apply rely_refl|intros c1 c2 c3; apply rely_trans]. Qed.

Section logic.
Context {S G : Type} `{Protocol S G}.

(** The ways in which a thread may end the process, and what it may wait for. *)
Context (may_end : nat → halt → Prop) (may_wait : nat → (S → bool) → S → Prop).

(** A step of [tid] keeps the invariant and what the others rely on. *)
Definition guarantees (tid : nat) (c c' : config S G) : Prop :=
  invariant c' ∧ ∀ tid', tid' ≠ tid → rely tid' c c'.

(** ** One thread *)

(** From [c], the rest [p] of thread [tid] goes well however the others interfere, and ends
    where [Q] holds. *)
Fixpoint secure (tid : nat) {A} (p : prog S A) (c : config S G) (Q : A → config S G → Prop) : Prop :=
  ∀ c', rely tid c c' → invariant c' →
  match p with
  | Ret a => Q a c'
  | Act f k =>
      match f (c_shared c') with
      | Some (x, s') =>
          assumed s' →
          ∃ g, let c'' := Config (c_held c') s' g in guarantees tid c' c'' ∧ secure tid (k x) c'' Q
      | None => False
      end
  | Lock m k =>
      c_held c' !! m = None →
      ∃ g, let c'' := Config (<[m := tid]> (c_held c')) (c_shared c') g in
           guarantees tid c' c'' ∧ secure tid k c'' Q
  | Unlock m k =>
      c_held c' !! m = Some tid ∧
      ∃ g, let c'' := Config (delete m (c_held c')) (c_shared c') g in
           guarantees tid c' c'' ∧ secure tid k c'' Q
  | Wait g k => may_wait tid g (c_shared c') ∧ (g (c_shared c') = true → secure tid k c' Q)
  | Halt h => may_end tid h
  end.

(** Interference leaves a thread secure. *)
Lemma secure_rely tid {A} (p : prog S A) c c' Q : rely tid c c' → secure tid p c Q → secure tid p c' Q.
Proof.
  intros Hr Hp. assert (Ht : ∀ c'', rely tid c' c'' → rely tid c c'') by (intros c'' ?; by etrans).
  destruct p; intros c'' Hc Hi; exact (Hp c'' (Ht c'' Hc) Hi).
Qed.

Lemma secure_mono tid {A} (p : prog S A) c (Q Q' : A → config S G → Prop) :
  secure tid p c Q → (∀ a c', invariant c' → Q a c' → Q' a c') → secure tid p c Q'.
Proof.
  intros Hp HQ. revert c Hp. induction p as [a|X f k IH|m k IH|m k IH|g k IH|h]; intros c Hp c' Hr Hi;
    specialize (Hp c' Hr Hi); simpl in *.
  - auto.
  - destruct (f (c_shared c')) as [[x s']|]; [|done]. intros Hs. destruct (Hp Hs) as (g & Hg & Hk). exists g. split; [done|by apply IH].
  - intros Hm. destruct (Hp Hm) as (g & Hg & Hk). exists g. split; [done|by apply IH].
  - destruct Hp as (Hm & g & Hg & Hk). split; [done|]. exists g. split; [done|by apply IH].
  - destruct Hp as [Hw Hp]. split; [done|]. intros Hg. by apply IH, Hp.
  - done.
Qed.

Lemma secure_bind tid {A B} (p : prog S A) (q : A → prog S B) c Q :
  secure tid p c (λ a c', secure tid (q a) c' Q) → secure tid (bind p q) c Q.
Proof.
  revert c. induction p as [a|X f k IH|m k IH|m k IH|g k IH|h]; intros c Hp.
  - change (bind (Ret a) q) with (q a).
    assert (Hq : ∀ c', rely tid c c' → invariant c' → secure tid (q a) c' Q) by exact Hp. clear Hp.
    destruct (q a); intros c' Hr Hi; exact (Hq c' Hr Hi c' (rely_refl tid c') Hi).
  - intros c' Hr Hi. specialize (Hp c' Hr Hi). simpl in *.
    destruct (f (c_shared c')) as [[x s']|]; [|done]. intros Hs. destruct (Hp Hs) as (g & Hg & Hk). exists g. split; [done|by apply IH].
  - intros c' Hr Hi Hm. destruct (Hp c' Hr Hi Hm) as (g & Hg & Hk). exists g. split; [done|by apply IH].
  - intros c' Hr Hi. destruct (Hp c' Hr Hi) as (Hm & g & Hg & Hk). split; [done|]. exists g. split; [done|by apply IH].
  - intros c' Hr Hi. destruct (Hp c' Hr Hi) as [Hw Hk]. split; [done|]. intros Hg. by apply IH, Hk.
  - intros c' Hr Hi. exact (Hp c' Hr Hi).
Qed.

Lemma secure_seq tid {A B} (p : prog S A) (q : A → prog S B) c R Q :
  secure tid p c R → (∀ a c', invariant c' → R a c' → secure tid (q a) c' Q) → secure tid (bind p q) c Q.
Proof. intros Hp Hq. apply secure_bind. by eapply secure_mono. Qed.

(** A call that does not throw, in a [try] block. *)
Lemma secure_lift tid {A B} (p : prog S A) (q : A → eprog S B) c Q :
  secure tid p c (λ a c', secure tid (q a) c' Q) → secure tid (ebind (lift p) q) c Q.
Proof.
  intros Hp. unfold ebind, lift. do 2 apply secure_bind. eapply secure_mono; [exact Hp|].
  intros a c' _ Hq c'' Hr _. by apply (secure_rely _ _ c').
Qed.

Lemma secure_ret tid {A} (a : A) c (Q : A → config S G → Prop) :
  (∀ c', rely tid c c' → invariant c' → Q a c') → secure tid (Ret a) c Q.
Proof. done. Qed.

Lemma secure_halt tid {A} h c (Q : A → config S G → Prop) : may_end tid h → secure tid (Halt h) c Q.
Proof. by intros Hh c' _ _. Qed.

(** Waiting for ever. *)
Lemma secure_diverge tid {A} c (Q : A → config S G → Prop) :
  (∀ s, may_wait tid (λ _, false) s) → secure tid (Wait (λ _, false) (Halt Undefined)) c Q.
Proof. intros Hw c' _ _. by split. Qed.

(** Doing nothing keeps all promises, and so does looking at the state. *)
Lemma guarantees_refl tid c : invariant c → guarantees tid c c.
Proof using Type. intros Hi. split; [done|]. intros tid' _. apply rely_refl. Qed.

Lemma secure_deref tid {A X} (f : S → option X) (k : X → prog S A) c Q :
  (∀ c', rely tid c c' → invariant c' → ∃ x, f (c_shared c') = Some x ∧ secure tid (k x) c' Q) →
  secure tid (bind (deref f) k) c Q.
Proof using Type.
  intros Hk c' Hr Hi. destruct (Hk c' Hr Hi) as (x & Ex & Hx). simpl. rewrite Ex. simpl. intros _.
  exists (c_ghost c'). destruct c'. split; [by apply guarantees_refl|done].
Qed.

Lemma secure_reads tid {A X} (f : S → X) (k : X → prog S A) c Q :
  (∀ c', rely tid c c' → invariant c' → secure tid (k (f (c_shared c'))) c' Q) → secure tid (bind (reads f) k) c Q.
Proof using Type.
  intros Hk c' Hr Hi _. exists (c_ghost c'). specialize (Hk c' Hr Hi). destruct c'. split; [by apply guarantees_refl|done].
Qed.

(** A program that may be run in any state from which it can be begun. *)
Lemma secure_now tid {A} (p : prog S A) c Q :
  (∀ c', rely tid c c' → invariant c' → secure tid p c' Q) → secure tid p c Q.
Proof.
  intros Hp. destruct p; intros c' Hr Hi; exact (Hp c' Hr Hi c' (rely_refl tid c') Hi).
Qed.

(** ** Many threads *)

(** What a thread is about to do is something it may do. *)
Definition well_behaved (tid : nat) {A} (p : prog S A) (ls : locks) (s : S) : Prop :=
  match p with
  | Act f _ => f s ≠ None
  | Unlock m _ => ls !! m = Some tid
  | Wait g _ => may_wait tid g s
  | Halt h => may_end tid h
  | _ => True
  end.

Lemma secure_well_behaved tid {A} (p : prog S A) c Q :
  invariant c → secure tid p c Q → well_behaved tid p (c_held c) (c_shared c).
Proof.
  intros Hi Hp. destruct p as [a|X f k|m k|m k|g k|h]; simpl; try done; specialize (Hp c (rely_refl tid c) Hi); simpl in Hp.
  - by destruct (f (c_shared c)).
  - by destruct Hp.
  - by destruct Hp.
  - done.
Qed.

(** A step of a secure thread, to a state as assumed, leaves it secure, and keeps what the others rely on. *)
Lemma secure_step tid {A} (p : prog S A) c Q p' ls' s' :
  invariant c → secure tid p c Q → thread_step tid p (c_held c) (c_shared c) = Some (p', ls', s') → assumed s' →
  ∃ g, guarantees tid c (Config ls' s' g) ∧ secure tid p' (Config ls' s' g) Q.
Proof.
  intros Hi Hp Hs Has. destruct p as [a|X f k|m k|m k|gd k|h]; simpl in Hs; try done;
    specialize (Hp c (rely_refl tid c) Hi); simpl in Hp.
  - destruct (f (c_shared c)) as [[x s1]|]; [|done]. injection Hs as <- <- <-. by apply Hp.
  - destruct (c_held c !! m) eqn:Em; [done|]. injection Hs as <- <- <-. by apply Hp.
  - case_decide; [|done]. injection Hs as <- <- <-. by destruct Hp.
  - destruct (gd (c_shared c)) eqn:Eg; [|done]. injection Hs as <- <- <-. exists (c_ghost c).
    destruct c. split; [split; [done|intros; apply rely_refl]|by apply Hp].
Qed.

(** What the threads have achieved when they end. *)
Context (post : nat → config S G → Prop).

(** The threads [l] follow the protocol from [c] on. *)
Definition secured (l : list (prog S unit)) (c : config S G) : Prop :=
  invariant c ∧ ∀ tid p, l !! tid = Some p → secure tid p c (λ _, post tid).

Lemma step_secured c c' g :
  step_within assumed c c' → secured (pool c) (Config (held c) (shared c) g) →
  ∃ g', secured (pool c') (Config (held c') (shared c') g').
Proof.
  intros [[tid p p' ls' s' Hp Hs] Has] [Hi Hall]. pose proof (lookup_lt_Some _ _ _ Hp) as Hlt.
  destruct (secure_step tid p _ _ p' ls' s' Hi (Hall tid p Hp) Hs Has) as (g' & [Hi' Hr] & Hp').
  exists g'. split; [done|]. simpl. intros tid' q. destruct (decide (tid' = tid)) as [->|Hne].
  - rewrite list_lookup_insert_eq by done. by intros [= <-].
  - rewrite list_lookup_insert_ne by done. intros Hq. eapply secure_rely; [by apply Hr|by apply Hall].
Qed.

Lemma steps_secured c c' g :
  rtc (step_within assumed) c c' → secured (pool c) (Config (held c) (shared c) g) →
  ∃ g', secured (pool c') (Config (held c') (shared c') g').
Proof.
  intros Hsteps. revert g. induction Hsteps as [c|c c1 c' Hs _ IH]; intros g Hc; [by exists g|].
  destruct (step_secured _ _ _ Hs Hc) as [g1 Hc1]. by apply (IH g1).
Qed.

(** A pool of secure threads: under every schedule whose states are as assumed the invariant holds, every thread is well
    behaved, and those that have ended have achieved what they were to. *)
Lemma secure_pool l ls s g c :
  secured l (Config ls s g) → rtc (step_within assumed) {| pool := l; held := ls; shared := s |} c →
  ∃ g', let d := Config (held c) (shared c) g' in
    invariant d ∧ (∀ tid p, pool c !! tid = Some p → well_behaved tid p (held c) (shared c)) ∧
    ∀ tid, pool c !! tid = Some (Ret tt) → post tid d.
Proof.
  intros Hl Hsteps. destruct (steps_secured _ _ g Hsteps Hl) as (g' & Hi & Hall).
  exists g'. split; [done|]. split.
  - intros tid p Hp. exact (secure_well_behaved tid p _ _ Hi (Hall tid p Hp)).
  - intros tid Hp. exact (Hall tid _ Hp _ (rely_refl tid _) Hi).
Qed.
End logic.

(** A thread may be allowed to wait more often. *)
Lemma secure_weaken {S G} `{Protocol S G} may_end may_wait may_wait' tid {A} (p : prog S A) c Q :
  (∀ g s, may_wait tid g s → may_wait' tid g s) → secure may_end may_wait tid p c Q → secure may_end may_wait' tid p c Q.
Proof.
  intros Hw. revert c. induction p as [a|X f k IH|m k IH|m k IH|g k IH|h]; intros c Hp c' Hr Hi;
    specialize (Hp c' Hr Hi); simpl in *.
  - done.
  - destruct (f (c_shared c')) as [[x s']|]; [|done]. intros Hs. destruct (Hp Hs) as (g & Hg & Hk). exists g. split; [done|by apply IH].
  - intros Hm. destruct (Hp Hm) as (g & Hg & Hk). exists g. split; [done|by apply IH].
  - destruct Hp as (Hm & g & Hg & Hk). split; [done|]. exists g. split; [done|by apply IH].
  - destruct Hp as [Hs Hp]. split; [by apply Hw|]. intros Hg. by apply IH, Hp.
  - done.
Qed.

#[global] Arguments secure : simpl never.
