(* ===== verification/Timers.v ===== *)
(** * The clock and the timers beside other threads

    While requests are served the clock moves on, and every transaction has a detached
    thread that sleeps until its timeout, looks at the timestamp of the transaction and
    sleeps again or removes it.  What is shown of many threads is shown for as long as no
    open transaction reaches its timeout ([in_time]): timers wake, and find that their
    transaction has been used in the meantime or is over.  [Timely] says what this asks of
    a protocol; beside every such protocol the clock and the timers are secure. *)
From S2P Require Import Prelude Constants Prog Posix Backend Threads LockOrder RelyGuarantee.
From Stdlib Require Import ZArith Lia List Bool.
From stdpp Require Import base gmap list.
#[local] Set Default Goal Selector "!".
Local Open Scope Z_scope.

(** ** The threads *)

(** The clock moves. *)
Definition tick (ticks : Z) (s : ServerBackend) : ServerBackend :=
  set_backend_world (set_now (w_now (backend_world s) + ticks) (backend_world s)) s.

Fixpoint clock_thread (times : list N) : prog ServerBackend unit :=
  match times with
  | [] => Ret tt
  | ticks :: times => modify (tick (Z.of_N ticks)) ;;; clock_thread times
  end.

(** The thread that [START_TRANSACTION_TIMER] detaches as the [i]th: it begins some time
    after, and takes at most [fuel] turns. *)
Definition detached_timer `{PathResolution} (m_directory : bytes) (fuel i : nat) : prog ServerBackend unit :=
  wait_until (λ s, bool_decide (i < length (timers s))%nat) ;;;
  let! tm := reads (λ s, timers s !! i) in
  from_option (m_txn_timer_function m_directory fuel) (Ret tt) tm.

(** The clock and the first [n] timers. *)
Definition time_threads `{PathResolution} (m_directory : bytes) (fuel n : nat) (times : list N) : list (prog ServerBackend unit) :=
  clock_thread times :: (detached_timer m_directory fuel <$> seq 0 n).

(** None of them waits while it holds a mutex. *)
Lemma time_threads_in_turn `{PathResolution} m_directory fuel n times :
  Forall (owes mutex_rank no_block 0 []) (time_threads m_directory fuel n times).
Proof.
  constructor.
  - induction times as [|t times IH]; cbn [clock_thread]; ordering.
  - apply Forall_fmap, Forall_forall. intros i _. simpl. unfold detached_timer.
    apply owes_bind; [apply owes_wait|]. intros _. apply owes_bind; [ordering|].
    intros [tm|]; [|apply owes_ret]. apply in_turn_timer_function.
Qed.

(** ** No timeout is reached *)

Definition in_time (s : ServerBackend) : Prop :=
  map_Forall (λ _ t, w_now (backend_world s) < curr_timestamp t + seconds Constants.transaction_timeout_seconds) (txn_nodes s).

#[export] Instance in_time_dec s : Decision (in_time s).
Proof. unfold in_time. apply _. Defined.

(** What a thread waits for can come true. *)
Definition wakeable {S} (g : S → bool) : Prop := ∃ s, g s = true.

(** A protocol that assumes [in_time] and lets the clock move, and a thread inside
    [m_member_mtx] look at the maps: [browsing] is what it then knows. *)
Class Timely {G : Type} `{Protocol ServerBackend G} := {
  timely_time c : invariant c → in_time (c_shared c);
  timely_now tid c c' : rely tid c c' → w_now (backend_world (c_shared c)) ≤ w_now (backend_world (c_shared c'));
  timely_tick tid c ticks : invariant c → 0 ≤ ticks → assumed (tick ticks (c_shared c)) →
    guarantees tid c (Config (c_held c) (tick ticks (c_shared c)) (c_ghost c));
  browsing : nat → config ServerBackend G → Prop;
  browsing_enter tid c : invariant c → c_held c !! m_member_mtx = None →
    let c' := Config (<[m_member_mtx := tid]> (c_held c)) (c_shared c) (c_ghost c) in
    guarantees tid c c' ∧ browsing tid c';
  browsing_rely tid c c' : browsing tid c → rely tid c c' → browsing tid c' ∧
    m_txn_id_to_transaction_attributes (c_shared c') = m_txn_id_to_transaction_attributes (c_shared c);
  browsing_entry tid c id a : browsing tid c → invariant c →
    m_txn_id_to_transaction_attributes (c_shared c) !! id = Some a → is_Some (txn_nodes (c_shared c) !! a);
  browsing_leave tid c : browsing tid c → invariant c → c_held c !! m_member_mtx = Some tid ∧
    guarantees tid c (Config (delete m_member_mtx (c_held c)) (c_shared c) (c_ghost c))
}.

Section timely.
Context {G : Type} `{Timely G} `{PathResolution} (m_directory : bytes) (tid : nat).
Context (may_end : nat → halt → Prop) (may_wait : nat → (ServerBackend → bool) → ServerBackend → Prop).
Context (may_wake : ∀ g s, wakeable g → may_wait tid g s).
Implicit Types (c : config ServerBackend G).

Abbreviation sec p c Q := (secure may_end may_wait tid p c Q).
Abbreviation timeout := (seconds Constants.transaction_timeout_seconds).

Lemma clock_secure times c : sec (clock_thread times) c (λ _ _, True).
Proof using Type*.
  revert c. induction times as [|ticks times IH]; intros c; cbn [clock_thread]; [by apply secure_ret|].
  intros c' _ Hc' Has. exists (c_ghost c'). split; [by apply timely_tick; [|apply N2Z.is_nonneg|]|apply IH].
Qed.

Lemma sec_browse_end {A} (x : A) c (Q : A → config ServerBackend G → Prop) :
  browsing tid c → (∀ c', Q x c') → sec (unlock m_member_mtx ;;; Ret x) c Q.
Proof using Type*.
  intros Hb HQ c' Hr Hc'. destruct (browsing_rely _ _ _ Hb Hr) as [Hb' _].
  destruct (browsing_leave _ _ Hb' Hc') as [Hh Hg]. split; [done|]. exists (c_ghost c'). split; [done|by apply secure_ret].
Qed.

(** A timer that wakes finds its transaction gone, or used since: the time it reads is not
    later than the one at which it reads the timestamp. *)
Lemma timer_turn_secure tm c : sec (txn_timer_turn m_directory tm) c (λ _ _, True).
Proof using Type*.
  intros c1 _ Hc1. split.
  { apply may_wake. exists (tick (tm_latest_timestamp tm + timeout - w_now (backend_world (c_shared c1))) (c_shared c1)).
    apply Z.leb_le. simpl. lia. }
  intros _ c2 _ Hc2 Hfree. exists (c_ghost c2). destruct (browsing_enter tid c2 Hc2 Hfree) as [Hg Hb]. split; [exact Hg|].
  apply secure_reads. intros c3 Hr3 Hc3. destruct (browsing_rely _ _ _ Hb Hr3) as [Hb3 _]. clear dependent c1 c2.
  destruct (_ !! tm_txn_id tm) as [a|] eqn:Ea; [|by apply sec_browse_end].
  apply secure_reads. intros c4 Hr4 Hc4. destruct (browsing_rely _ _ _ Hb3 Hr4) as [Hb4 E4]. rewrite <- E4 in Ea. clear dependent c3.
  apply secure_deref. intros c5 Hr5 Hc5. destruct (browsing_rely _ _ _ Hb4 Hr5) as [Hb5 E5]. rewrite <- E5 in Ea.
  destruct (browsing_entry _ _ _ _ Hb5 Hc5 Ea) as [t Ht]. exists (curr_timestamp t). rewrite Ht. split; [done|].
  pose proof (timely_time _ Hc5 a t Ht) as Htime. cbv beta in Htime. pose proof (timely_now _ _ _ Hr5) as Hnow.
  change (the_world (c_shared c4)) with (backend_world (c_shared c4)).
  rewrite (proj2 (Z.leb_gt _ _)) by lia. by apply sec_browse_end.
Qed.

Lemma timer_function_secure fuel tm c : sec (m_txn_timer_function m_directory fuel tm) c (λ _ _, True).
Proof using Type*.
  revert tm c. induction fuel as [|fuel IH]; intros tm c; cbn [m_txn_timer_function]; [by apply secure_ret|].
  eapply secure_seq; [apply timer_turn_secure|]. intros [latest|] c' _ _; [apply IH|by apply secure_ret].
Qed.

Lemma detached_timer_secure fuel i c : sec (detached_timer m_directory fuel i) c (λ _ _, True).
Proof using Type*.
  intros c1 _ Hc1. split.
  - apply may_wake. exists (set_timers (replicate (S i) {| tm_txn_id := 0; tm_latest_timestamp := 0; tm_file_name := [] |}) (c_shared c1)).
    apply bool_decide_eq_true. simpl. rewrite length_replicate. lia.
  - intros _. apply secure_reads. intros c2 _ Hc2.
    destruct (timers (c_shared c2) !! i) as [tm|]; [apply timer_function_secure|by apply secure_ret].
Qed.

Lemma time_threads_secure fuel n times c i p :
  time_threads m_directory fuel n times !! i = Some p → sec p c (λ _ _, True).
Proof using Type*.
  destruct i as [|i]; simpl; [intros [= <-]; apply clock_secure|].
  intros (j & -> & _)%list_lookup_fmap_Some_1. apply detached_timer_secure.
Qed.
End timely.
