(* ===== verification/Races.v ===== *)
(** * Schedules

    Two schedules of the server's threads: one in which it comes to rest, to which the
    theorem on servers at rest applies, and one in which the timer of a
    transaction erases it under a WRITE that has checked it is still active. *)
From S2P Require Import Prelude Stdcxx Constants WireProtocol Messages Prog ReadWrite Posix File Backend Recovery Dispatcher Server Threads LockOrder RelyGuarantee Timers BackendProps.
From Stdlib Require Import ZArith Lia List Ascii String Bool.
From stdpp Require Import base gmap strings list fin_maps sets relations.
#[local] Set Default Goal Selector "!".
Local Open Scope Z_scope.

Section schedules.
#[local] Instance schedule_resolution : PathResolution := λ p, p.
#[local] Instance schedule_order : HashOrder :=
  {| iterate K A _ _ m := map_to_list m; iterate_perm K A _ _ m := reflexivity _ |}.

(** ** A WRITE and the timer *)

(** A server on which transaction 5 was started, with its timer asleep. *)
Definition started : ServerBackend :=
  match run 0 (processCommand [] (sample_request Constants.new_txn_cmd (-1) 0 (str "f")) true) ∅
          (new_backend {| w_fs := ∅; w_now := 0; w_rand := [5]; w_sched := [] |}) with
  | Done _ _ s => s
  | _ => new_backend sample_world
  end.

(** A connection that writes to it, the timer, and the clock. *)
Definition write_and_timer : process ServerBackend :=
  {| pool :=
       [processCommand [] (sample_request Constants.write_cmd 5 1 (str "ab")) true ;;; Ret tt;
        from_option (m_txn_timer_function [] 1) (Ret tt) (head (timers started));
        modify (tick (seconds Constants.transaction_timeout_seconds))];
     held := ∅; shared := started |}.

(** The WRITE up to where it has checked, under [m_member_mtx], that the transaction is
    neither committed nor aborted; the timeout passes and the timer takes its turn; the
    WRITE reads the clock and then updates the timestamp. *)
Definition schedule : list nat := replicate 10 0%nat ++ [2]%nat ++ replicate 22 1%nat ++ [0]%nat.

(** C18. A WRITE can use a transaction its timer has erased: after it has checked that the
    transaction is neither committed nor aborted it gives up [m_member_mtx] and goes on
    through references into the map, and the timer, which takes [m_member_mtx] only and not
    the mutex of the transaction, may erase the entry in between.  The schedule ends with
    the WRITE, still holding the transaction's mutex, about to assign to a timestamp that
    is gone. *)
Theorem timer_races_write :
  ∃ (c : process ServerBackend) a,
    rtc step write_and_timer c ∧
    m_txn_id_to_transaction_attributes started !! 5 = Some a ∧
    m_txn_id_to_transaction_attributes (shared c) !! 5 = None ∧
    held c = {[ txn_mtx a := 0%nat ]} ∧
    match pool c !! 0%nat with
    | Some (Act f _) => f (shared c) = None
    | _ => False
    end.
Proof.
  exists (after schedule write_and_timer), 2%positive.
  split; [apply after_steps; by vm_compute|]. by vm_compute.
Qed.

(** ** A server at rest *)

(** A server whose accept loop sleeps, with a connection whose peer says nothing and leaves, the timer of a
    transaction whose time has not come, and nobody else to accept. *)
Definition quiet_state : ServerDispatcher ServerBackend :=
  set_connections {[ 5 := {| c_incoming := [Silence]; c_deliveries := []; c_sent := []; c_open := true |} ]}
    (new_dispatcher started [] []).

Definition quiet_pool : list (prog (ServerDispatcher ServerBackend) unit) :=
  [Server_start 3 1; Server_notifier 3 1; Server_connection 8192 (str "d") 2 5;
   the_backend (m_txn_timer_function (str "d/") 1 {| tm_txn_id := 5; tm_latest_timestamp := 0; tm_file_name := str "f" |})].

Definition quiet : process (ServerDispatcher ServerBackend) :=
  {| pool := quiet_pool; held := ∅; shared := quiet_state |}.

Definition quiet_schedule : list nat := replicate 3 0%nat ++ replicate 4 1%nat ++ replicate 9 2%nat.

Lemma server_at_rest_witness :
  idle (after quiet_schedule quiet) = true ∧
  (at_divergence (after quiet_schedule quiet) ∨ at_fault (after quiet_schedule quiet) ∨ at_accept 3 (after quiet_schedule quiet) ∨
    (held (after quiet_schedule quiet) = ∅ ∧ ∀ tid p, pool (after quiet_schedule quiet) !! tid = Some p →
      finished p ∨ waiting p (shared (after quiet_schedule quiet)))).
Proof.
  split; [by vm_compute|].
  apply (server_at_rest 3 8192 quiet_pool quiet_state).
  - unfold quiet_pool. repeat apply Forall_cons_2; [| | | |apply Forall_nil_2]; constructor.
  - apply after_steps. by vm_compute.
  - apply idle_stuck. by vm_compute.
Defined.
End schedules.
