(* ===== verification/Sharing.v ===== *)
(** * How the server's threads share its state

    The protocol behind the mutexes of [ServerBackend] as a rely-guarantee [Protocol].
    [m_member_mtx] protects the maps and the reference counts; the mutex of a transaction
    protects its entry, but only from those who take it and then check, under both mutexes,
    that the transaction is still in the map: such a thread has pinned the entry, and
    nobody else erases it.  That check goes by the transaction's id, so the protocol also
    says that an id is never used for a second transaction.

    [viewed] is what one thread knows in the course of a command, and the rules of this
    file say how each building block of the commands changes it. *)
From S2P Require Import Prelude Stdcxx Constants WireProtocol Messages Prog ReadWrite Posix File Backend Recovery BackendInv BackendSteps BackendSpec Threads RelyGuarantee Timers.
From Stdlib Require Import ZArith Lia List Ascii String Bool.
From stdpp Require Import base gmap strings list fin_maps sorting.
#[local] Set Default Goal Selector "!".
Local Open Scope Z_scope.

(** ** Ghost state

    Who has pinned which entry, and the address every id ever had. *)
Record Ghost := { pinned : gmap positive nat; history : gmap Z positive }.

Abbreviation conf := (config ServerBackend Ghost).

(** ** The shape of the state: what [m_member_mtx] protects *)

Record Shape := {
  x_ids : gmap Z positive;                 (* the transaction of each id *)
  x_pointers : gmap positive positive;     (* the file object of each transaction *)
  x_names : gmap bytes positive;           (* the file object of each name *)
  x_objects : gmap positive (bytes * nat); (* the name and use count of each object *)
  x_next : positive;
  x_rand : list Z                          (* the results [rand] will give *)
}.

Definition identity (f : FileAttributes) : bytes * nat := (m_file_name f, use_count f).

Definition shape_of (s : ServerBackend) : Shape :=
  {| x_ids := m_txn_id_to_transaction_attributes s;
     x_pointers := sp_file_attributes <$> txn_nodes s;
     x_names := m_file_name_to_ptr_to_file_attributes s;
     x_objects := identity <$> file_nodes s;
     x_next := next_address s;
     x_rand := w_rand (backend_world s) |}.

(** What others may do while somebody holds [m_member_mtx]: change the contents of
    transactions and files, but not the shape.  Before the server is initialised they do
    not touch the files either. *)
Record quietly (s s' : ServerBackend) : Prop := {
  q_now : w_now (backend_world s) ≤ w_now (backend_world s');
  q_shape : shape_of s' = shape_of s;
  q_init : m_initialize s' = m_initialize s;
  q_data a t : txn_nodes s' !! a = Some t → txn_nodes s !! a = Some t ∨ txn_ok t;
  q_files : m_initialize s = true → w_fs (backend_world s') = w_fs (backend_world s)
}.

Lemma q_rand s s' : quietly s s' → w_rand (backend_world s') = w_rand (backend_world s).
Proof. by intros [_ [= _ _ _ _ _ E] _ _ _]. Qed.

#[export] Instance quietly_preorder : PreOrder quietly.
Proof.
  split; [intros s; split; [done..|by left|done]|].
  intros s1 s2 s3 [A0 A1 A3 A4 A5] [B0 B1 B3 B4 B5]. split; try congruence.
  - by etrans.
  - intros a t [Ha|Ht]%B4; [by apply A4|by right].
  - intros Hi. rewrite B5 by congruence. auto.
Qed.

Lemma shape_pointer s s' a t :
  shape_of s' = shape_of s → txn_nodes s' !! a = Some t →
  ∃ t', txn_nodes s !! a = Some t' ∧ sp_file_attributes t' = sp_file_attributes t.
Proof.
  intros [= _ E _ _ _ _] Ha. assert (Hs : x_pointers (shape_of s) !! a = Some (sp_file_attributes t)).
  { simpl. by rewrite <- E, lookup_fmap, Ha. }
  apply lookup_fmap_Some in Hs as (t' & Et & Ht'). eauto.
Qed.

Lemma shape_object s s' p f :
  shape_of s' = shape_of s → file_nodes s' !! p = Some f →
  ∃ f', file_nodes s !! p = Some f' ∧ identity f' = identity f.
Proof.
  intros [= _ _ _ E _ _] Hp. assert (Hs : x_objects (shape_of s) !! p = Some (identity f)).
  { simpl. by rewrite <- E, lookup_fmap, Hp. }
  apply lookup_fmap_Some in Hs as (f' & Ef & Hf'). eauto.
Qed.

Lemma holders_shape s p :
  holders (txn_nodes s) p = size (filter (λ kv, kv.2 = p) (x_pointers (shape_of s))).
Proof.
  unfold holders. simpl. rewrite map_filter_fmap, map_size_fmap. done.
Qed.

(** The invariant speaks of the shape and of the data of transactions. *)
Lemma ok_quietly extra s s' : quietly s s' → ok_but extra s → ok_but extra s'.
Proof.
  intros [_ Hs _ Hd _] [H1 H2 H3 H4 H5 H6 H7 H8 H9 H10]. pose proof (eq_sym Hs) as Hs'.
  pose proof Hs as [= E1 _ E3 _ E5 _]. split.
  - intros id a Hid. rewrite E1 in Hid. destruct (H1 _ _ Hid) as [t Ht].
    destruct (shape_pointer s' s a t Hs' Ht) as (t' & Ht' & _). by exists t'.
  - intros a t Ha. destruct (shape_pointer s s' a t Hs Ha) as (t' & Ht' & _). rewrite E1. eauto.
  - rewrite E1. eauto.
  - intros a [t Ht]. destruct (shape_pointer s s' a t Hs Ht) as (t' & Ht' & _). rewrite E5. eauto.
  - intros p [f Hf]. destruct (shape_object s s' p f Hs Hf) as (f' & Hf' & _). rewrite E5. eauto.
  - intros a t Ha. destruct (shape_pointer s s' a t Hs Ha) as (t' & Ht' & <-).
    destruct (H6 _ _ Ht') as [f Hf]. destruct (shape_object s' s _ f Hs' Hf) as (f' & Hf' & _). by exists f'.
  - intros name p. rewrite E3, H7. split; intros (f & Hf & <-).
    + destruct (shape_object s' s p f Hs' Hf) as (f' & Hf' & [= En _]). exists f'. auto.
    + destruct (shape_object s s' p f Hs Hf) as (f' & Hf' & [= En _]). exists f'. auto.
  - intros p f Hf. destruct (shape_object s s' p f Hs Hf) as (f' & Hf' & [= _ Ec]).
    rewrite holders_shape, Hs, <- holders_shape, <- Ec. eauto.
  - intros p f Hf. destruct (shape_object s s' p f Hs Hf) as (f' & Hf' & [= <- _]). eauto.
  - intros a t [Ha|Ht]%Hd; eauto.
Qed.

(** ** The protocol *)

(** The logs a server finds: none of their transactions has an id that [rand] will give
    again, even if only a part of a log can be read. *)
Definition clean_logs `{PathResolution} (w : World) : Prop :=
  ∀ log contents read e,
    log ∈ m_logs → w_fs w !! resolve log = Some contents → read `prefix_of` contents → e ∈ parse_log read →
    nul_free (le_file_name e) = true ∧ le_txn_id e ∉ candidate <$> w_rand w.

(** The ids to come are different and new. *)
Definition new_ids (w : World) (h : gmap Z positive) : Prop :=
  NoDup (candidate <$> w_rand w) ∧ ∀ id, id ∈ candidate <$> w_rand w → h !! id = None.

(** A live object with a name that is a C string. *)
Definition named_file (s : ServerBackend) (p : positive) : Prop :=
  ∃ f, file_nodes s !! p = Some f ∧ nul_free (m_file_name f) = true.

Lemma ok_named_file {extra} s a t : ok_but extra s → txn_nodes s !! a = Some t → named_file s (sp_file_attributes t).
Proof. intros Hok Ht. destruct (ok_sp _ Hok _ _ Ht) as [f Hf]. exists f. split; [done|]. by apply (ok_name _ Hok _ _ Hf). Qed.

Section protocol.
Context `{PathResolution}.

Record consistent (c : conf) : Prop := {
  con_free : c_held c !! m_member_mtx = None → backend_ok (c_shared c) ∧
    (m_initialize (c_shared c) = true →
       clean_logs (backend_world (c_shared c)) ∧ history (c_ghost c) = ∅);
  con_pin a tid : pinned (c_ghost c) !! a = Some tid → c_held c !! txn_mtx a = Some tid ∧
    ∃ id t, m_txn_id_to_transaction_attributes (c_shared c) !! id = Some a ∧
      txn_nodes (c_shared c) !! a = Some t ∧ txn_ok t ∧ named_file (c_shared c) (sp_file_attributes t);
  con_history : m_txn_id_to_transaction_attributes (c_shared c) ⊆ history (c_ghost c);
  con_rand : new_ids (backend_world (c_shared c)) (history (c_ghost c));
  con_time : in_time (c_shared c)
}.

(** What thread [tid] relies on. *)
Record respects (tid : nat) (c c' : conf) : Prop := {
  res_now : w_now (backend_world (c_shared c)) ≤ w_now (backend_world (c_shared c'));
  res_locks m : c_held c !! m = Some tid ↔ c_held c' !! m = Some tid;
  res_history : history (c_ghost c) ⊆ history (c_ghost c');
  res_init : m_initialize (c_shared c) = false → m_initialize (c_shared c') = false;
  res_member : c_held c !! m_member_mtx = Some tid →
    quietly (c_shared c) (c_shared c') ∧ history (c_ghost c') = history (c_ghost c) ∧
    pinned (c_ghost c') ⊆ pinned (c_ghost c);
  res_pins a : pinned (c_ghost c) !! a = Some tid ↔ pinned (c_ghost c') !! a = Some tid;
  res_txn a : pinned (c_ghost c) !! a = Some tid →
    txn_nodes (c_shared c') !! a = txn_nodes (c_shared c) !! a ∧
    ∀ id, m_txn_id_to_transaction_attributes (c_shared c) !! id = Some a →
      m_txn_id_to_transaction_attributes (c_shared c') !! id = Some a
}.

#[export] Program Instance backend_protocol : Protocol ServerBackend Ghost :=
  {| assumed := in_time; invariant := consistent; rely := respects |}.
Next Obligation. by intros tid c. Qed.
Next Obligation.
  intros tid c1 c2 c3 [A0 A1 A2 A3 A4 A5 A6] [B0 B1 B2 B3 B4 B5 B6]. split.
  - by etrans.
  - intros m. by rewrite A1, B1.
  - by etrans.
  - auto.
  - intros Hm. destruct (A4 Hm) as (Aq & Ah & Ap). rewrite A1 in Hm. destruct (B4 Hm) as (Bq & Bh & Bp).
    split; [by etrans|]. split; [congruence|by etrans].
  - intros a. by rewrite A5, B5.
  - intros a Ha. destruct (A6 a Ha) as [An Ai]. rewrite A5 in Ha. destruct (B6 a Ha) as [Bn Bi].
    split; [by rewrite Bn|auto].
Qed.

(** ** Steps *)

(** A step keeps what the others rely on if it is quiet, or made under [m_member_mtx], and
    leaves alone what the others have pinned. *)
Lemma respects_others tid c s' g' :
  w_now (backend_world (c_shared c)) ≤ w_now (backend_world s') →
  (c_held c !! m_member_mtx = Some tid ∨ quietly (c_shared c) s' ∧ g' = c_ghost c) →
  (m_initialize (c_shared c) = false → m_initialize s' = false) →
  history (c_ghost c) ⊆ history g' →
  (∀ a tid', tid' ≠ tid → pinned (c_ghost c) !! a = Some tid' ↔ pinned g' !! a = Some tid') →
  (∀ a tid', pinned (c_ghost c) !! a = Some tid' → tid' ≠ tid →
    txn_nodes s' !! a = txn_nodes (c_shared c) !! a ∧
    ∀ id, m_txn_id_to_transaction_attributes (c_shared c) !! id = Some a →
      m_txn_id_to_transaction_attributes s' !! id = Some a) →
  ∀ tid', tid' ≠ tid → respects tid' c (Config (c_held c) s' g').
Proof.
  intros Hnow Hm Hi Hh Hp Ht tid' Hne. split; simpl; [done|done|done|done| |by intros a; apply Hp|by intros a Ha; apply (Ht a tid')].
  intros Hm'. destruct Hm as [Hm|[Hq ->]]; [congruence|]. done.
Qed.

(** A quiet step keeps the invariant. *)
Lemma quiet_step tid c s' :
  consistent c → quietly (c_shared c) s' → in_time s' →
  (∀ a, txn_nodes s' !! a = txn_nodes (c_shared c) !! a ∨ pinned (c_ghost c) !! a = Some tid) →
  guarantees tid c (Config (c_held c) s' (c_ghost c)).
Proof.
  intros [C1 C2 C3 C4 _] Hq Htime Hn. pose proof (q_shape _ _ Hq) as Hs. pose proof Hs as [= E1 _ _ _ _ _].
  pose proof (eq_sym Hs) as Hs'. split.
  - split; simpl.
    + intros Hm. destruct (C1 Hm) as [Hok Hc]. split; [by eapply ok_quietly|]. rewrite (q_init _ _ Hq).
      intros Hi. destruct (Hc Hi) as [Hl Hh]. split; [|done]. unfold clean_logs.
      rewrite (q_files _ _ Hq Hi), (q_rand _ _ Hq). exact Hl.
    + intros a tid' Ha. destruct (C2 a tid' Ha) as (Hl & id & t & Hid & Ht & Htok & f & Hf & Hname). split; [done|].
      destruct (shape_pointer _ _ _ _ Hs' Ht) as (t' & Ht' & E). exists id, t'. rewrite E1, E.
      destruct (shape_object _ _ _ _ Hs' Hf) as (f' & Hf' & [= En _]).
      split; [done|]. split; [done|]. split; [|exists f'; by rewrite En].
      destruct (q_data _ _ Hq a t' Ht') as [Hold|?]; [by simplify_eq|done].
    + by rewrite E1.
    + unfold new_ids. by rewrite (q_rand _ _ Hq).
    + done.
  - apply respects_others; [apply (q_now _ _ Hq)|by right|by rewrite (q_init _ _ Hq)|done|done|].
    intros a tid' Ha Hne. rewrite E1. split; [|done]. destruct (Hn a) as [->|Ha']; [done|congruence].
Qed.

(** A step made under [m_member_mtx]. *)
Lemma member_step tid c s' g' :
  consistent c → c_held c !! m_member_mtx = Some tid →
  (m_initialize (c_shared c) = false → m_initialize s' = false) →
  (history (c_ghost c) ⊆ history g') →
  (∀ a tid', tid' ≠ tid → pinned (c_ghost c) !! a = Some tid' ↔ pinned g' !! a = Some tid') →
  (∀ a tid', pinned g' !! a = Some tid' →
    pinned (c_ghost c) !! a = Some tid' ∧ txn_nodes s' !! a = txn_nodes (c_shared c) !! a ∧
    (∀ id, m_txn_id_to_transaction_attributes (c_shared c) !! id = Some a →
      m_txn_id_to_transaction_attributes s' !! id = Some a) ∧
    ∀ t, txn_nodes s' !! a = Some t → named_file s' (sp_file_attributes t)) →
  m_txn_id_to_transaction_attributes s' ⊆ history g' → new_ids (backend_world s') (history g') →
  w_now (backend_world (c_shared c)) ≤ w_now (backend_world s') → in_time s' →
  guarantees tid c (Config (c_held c) s' g').
Proof.
  intros [C1 C2 C3 C4 _] Hm Hi Hh Hp Ht Hsub Hnew Hnow Htime. split.
  - split; simpl; [congruence| |done|done|done].
    intros a tid' Ha. destruct (Ht a tid' Ha) as (Ha' & Hn & Hids & Hf).
    destruct (C2 a tid' Ha') as (Hl & id & t & Hid & Ht' & Htok & _). split; [done|].
    exists id, t. rewrite Hn in *. auto.
  - apply respects_others; [done|by left|done|done|done|]. intros a tid' Ha Hne.
    destruct (Ht a tid') as (_ & ? & ? & _); [by apply Hp|done].
Qed.
End protocol.
