(* ===== verification/Views.v ===== *)
(** * What a thread knows

    A [view] is what a thread that follows the protocol of Sharing.v knows between two of
    its actions, and what the others cannot take from it: the mutexes it holds, the shape
    of the maps while it is inside [m_member_mtx], the entry it has pinned.  One rule for
    each building block of the commands says what it needs of the view and what it makes
    of it. *)
From S2P Require Import Prelude Stdcxx Constants WireProtocol Messages Prog ReadWrite Posix File Backend Recovery BackendInv BackendSteps BackendSpec Threads RelyGuarantee Timers Sharing.
From Stdlib Require Import ZArith Lia List Ascii String Bool.
From stdpp Require Import base gmap strings list fin_maps sorting.
#[local] Set Default Goal Selector "!".
Local Open Scope Z_scope.

(** What is known inside [m_member_mtx]: the shape, the object a pointer is on its way to,
    an entry nobody else has pinned, ids that have never been used. *)
Record inner := Inner {
  extra : option positive; shape : Shape; alone : option positive; spare : list Z
}.

Record view := View {
  ready : bool;                                              (* the server is initialised *)
  own : list mutex;                                          (* other mutexes held, the last taken first *)
  inside : option inner;                                     (* [m_member_mtx] is held *)
  pin : option (Z * positive * TransactionAttributes);       (* the entry pinned, its id and contents *)
  known : option (Z * positive)                              (* an id and the address it had *)
}.

Section views.
Context `{PathResolution} (tid : nat).

Record viewed (v : view) (c : conf) : Prop := {
  vw_ready : ready v = true → m_initialize (c_shared c) = false;
  vw_own m : m ∈ own v → c_held c !! m = Some tid;
  vw_in i : inside v = Some i → c_held c !! m_member_mtx = Some tid ∧
    ok_but (extra i) (c_shared c) ∧ shape_of (c_shared c) = shape i ∧
    (∀ a tid', alone i = Some a → pinned (c_ghost c) !! a = Some tid' → tid' = tid) ∧
    (∀ id, id ∈ spare i → history (c_ghost c) !! id = None ∧
       id ∉ candidate <$> w_rand (backend_world (c_shared c)));
  vw_pin id a t : pin v = Some (id, a, t) → pinned (c_ghost c) !! a = Some tid ∧
    m_txn_id_to_transaction_attributes (c_shared c) !! id = Some a ∧
    txn_nodes (c_shared c) !! a = Some t ∧ txn_ok t;
  vw_known id a : known v = Some (id, a) → history (c_ghost c) !! id = Some a
}.

(** The others cannot take it away. *)
Lemma viewed_rely v c c' : viewed v c → respects tid c c' → viewed v c'.
Proof.
  intros [V1 V2 V3 V4 V5] [_ R1 R2 R3 R4 R5 R6]. split.
  - auto.
  - intros m Hm. by apply R1, V2.
  - intros i Hin. destruct (V3 i Hin) as (Hm & Hok & Hs & Ha & Hf). destruct (R4 Hm) as (Hq & Hh & Hp).
    split; [by apply R1|]. split; [by eapply ok_quietly|]. split; [by rewrite (q_shape _ _ Hq)|]. split.
    + intros a tid' Ea Hpin. apply (Ha a tid' Ea). by eapply lookup_weaken.
    + rewrite Hh, (q_rand _ _ Hq). done.
  - intros id a t Hp. destruct (V4 id a t Hp) as (Hpin & Hid & Ht & Htok). destruct (R6 a Hpin) as [Hn Hids].
    split; [by apply R5|]. split; [auto|]. by rewrite Hn.
  - intros id a Hk. eapply lookup_weaken; [by apply V5|done].
Qed.

(** ** Rules for actions *)

Context (may_end : nat → halt → Prop).

(** A thread waits only for more results of [rand], in the loop that picks an id. *)
Definition out_of_ids (tid : nat) (g : ServerBackend → bool) (s : ServerBackend) : Prop := w_rand (backend_world s) = [].

Abbreviation sec p c Q := (secure may_end out_of_ids tid p c Q).

Lemma sec_act {A X} (f : ServerBackend → option (X * ServerBackend)) (k : X → prog ServerBackend A) v c Q :
  viewed v c →
  (∀ c', viewed v c' → consistent c' → ∃ x s', f (c_shared c') = Some (x, s') ∧ (in_time s' → ∃ g,
    guarantees tid c' (Config (c_held c') s' g) ∧ sec (k x) (Config (c_held c') s' g) Q)) →
  sec (Act f k) c Q.
Proof.
  intros Hv Hf c' Hr Hi. destruct (Hf c') as (x & s' & -> & Hk); [by eapply viewed_rely|done|exact Hk].
Qed.

(** Reading. *)
Lemma sec_get {A X} (f : ServerBackend → option X) (k : X → prog ServerBackend A) v c Q :
  viewed v c →
  (∀ c', viewed v c' → consistent c' → ∃ x, f (c_shared c') = Some x ∧ sec (k x) c' Q) →
  sec (bind (deref f) k) c Q.
Proof.
  intros Hv Hf. apply secure_deref. intros c' Hr Hc'. apply Hf; [by eapply viewed_rely|done].
Qed.

Lemma sec_reads {A X} (f : ServerBackend → X) (k : X → prog ServerBackend A) v c Q :
  viewed v c →
  (∀ c', viewed v c' → consistent c' → sec (k (f (c_shared c'))) c' Q) →
  sec (bind (reads f) k) c Q.
Proof.
  intros Hv Hf. apply secure_reads. intros c' Hr Hc'. apply Hf; [by eapply viewed_rely|done].
Qed.

(** The files and the clock. *)
Lemma viewed_files v c s' :
  viewed v c → same_but_files (c_shared c) s' → viewed v (Config (c_held c) s' (c_ghost c)).
Proof.
  intros [V1 V2 V3 V4 V5] ([w ->] & _ & Hrand & _). change (the_world (c_shared c)) with (backend_world (c_shared c)) in Hrand.
  split; [done|done| |done|done]. intros i Hin.
  destruct (V3 i Hin) as (Hm & Hok & Hs & Ha & Hf). split; [done|]. split; [by apply (ok_frame (c_shared c))|].
  split; [rewrite <- Hs; unfold shape_of; simpl in *; by rewrite Hrand|]. split; [done|]. simpl in *. by rewrite Hrand.
Qed.

Lemma sec_syscall {A X} (f : World → X * World) (k : X → prog ServerBackend A) v c Q :
  viewed v c → (∀ w, world_step w (f w).2) → ready v = true ∨ is_Some (inside v) →
  (∀ w c', viewed v c' → sec (k (f w).1) c' Q) →
  sec (bind (syscall f) k) c Q.
Proof.
  intros Hv Hf Hwhen Hk. apply (sec_act _ _ v); [done|]. intros c' Hv' Hc'.
  set (s' := set_world (f (the_world (c_shared c'))).2 (c_shared c')).
  assert (Hs : same_but_files (c_shared c') s') by apply syscall_same, Hf.
  exists (f (the_world (c_shared c'))).1, s'. split; [done|]. intros Htime. exists (c_ghost c'). split; [|by apply Hk, viewed_files].
  pose proof Hc' as [C1 C2 C3 C4 _]. pose proof Hs as (_ & Hnow & Hrand & _).
  assert (Hle : w_now (backend_world (c_shared c')) ≤ w_now (backend_world s')) by (simpl in *; lia).
  assert (Er : w_rand (backend_world s') = w_rand (backend_world (c_shared c'))) by exact Hrand.
  destruct Hwhen as [Hready|[i Hin]].
  - apply quiet_step; [done| |done|by left]. split; [done|unfold shape_of; simpl in *; by rewrite Er|done|by intros a t Ha; left|].
    rewrite (vw_ready _ _ Hv' Hready). done.
  - apply member_step; [done|by apply (vw_in _ _ Hv' i)|done|done|done| |done|by unfold new_ids; rewrite Er|done|done].
    intros a tid' Ha. destruct (C2 a tid' Ha) as (_ & id & t & _ & Ht & _ & Hf'). split; [done|]. split; [done|].
    split; [done|]. intros t' Ht'. replace t' with t; [done|]. apply (inj Some). by rewrite <- Ht, <- Ht'.
Qed.

(** A change the invariant and the shape do not notice, to nothing that is pinned. *)
Lemma viewed_quiet v c s' :
  viewed v c → quietly (c_shared c) s' → txn_nodes s' = txn_nodes (c_shared c) →
  viewed v (Config (c_held c) s' (c_ghost c)).
Proof.
  intros [V1 V2 V3 V4 V5] Hq Hn. split; simpl.
  - rewrite (q_init _ _ Hq). done.
  - done.
  - intros i Hin. destruct (V3 i Hin) as (Hm & Hok & Hs & Ha & Hf). split; [done|]. split; [by eapply ok_quietly|].
    split; [by rewrite (q_shape _ _ Hq)|]. split; [done|]. by rewrite (q_rand _ _ Hq).
  - intros id a t Hp. destruct (V4 id a t Hp) as (Hpin & Hid & Ht & Htok).
    pose proof (q_shape _ _ Hq) as [= -> _ _ _ _ _]. by rewrite Hn.
  - done.
Qed.

Lemma sec_modify {A} (f : ServerBackend → ServerBackend) (k : unit → prog ServerBackend A) v c Q :
  viewed v c → (∀ s, quietly s (f s) ∧ txn_nodes (f s) = txn_nodes s) →
  (∀ c', viewed v c' → sec (k tt) c' Q) →
  sec (bind (modify f) k) c Q.
Proof.
  intros Hv Hf Hk. apply (sec_act _ _ v); [done|]. intros c' Hv' Hc'. destruct (Hf (c_shared c')) as [Hq Hn].
  exists tt, (f (c_shared c')). split; [done|]. intros Htime. exists (c_ghost c'). split; [|by apply Hk, viewed_quiet].
  apply quiet_step; [done|done|done|]. intros a. left. by rewrite Hn.
Qed.

(** ** Rules for mutexes *)

Implicit Types (L : list mutex) (r : bool) (i : option inner) (kn : option (Z * positive)).

(** A mutex that is free. *)
Lemma lock_step c m :
  consistent c → c_held c !! m = None →
  guarantees tid c (Config (<[m := tid]> (c_held c)) (c_shared c) (c_ghost c)).
Proof.
  intros [C1 C2 C3 C4 C5] Hm. split.
  - split; simpl; [|intros a tid' Ha|done|done|done].
    + intros [Hf _]%lookup_insert_None. auto.
    + destruct (C2 a tid' Ha) as [Hl Hrest]. split; [|done]. rewrite lookup_insert_ne; [done|congruence].
  - intros tid' Hne. split; simpl; [done| |done|done|by intros _|done|done].
    intros m'. rewrite lookup_insert_Some. split; [|by intros [[-> [=]]|[_ ?]]]. intros Hm'. right. split; [congruence|done].
Qed.

Lemma sec_lock {A} m (k : unit → prog ServerBackend A) r L i p kn c Q :
  viewed (View r L i p kn) c →
  (∀ c', viewed (View r (m :: L) i p kn) c' → sec (k tt) c' Q) →
  sec (bind (lock m) k) c Q.
Proof.
  intros Hv Hk c' Hr Hc Hm. apply (viewed_rely _ _ c') in Hv as [V1 V2 V3 V4 V5]; [|done]. exists (c_ghost c').
  split; [by apply lock_step|]. apply Hk. split; simpl in *; [done| | |done|done].
  - intros m' [->|Hm']%elem_of_cons; [apply lookup_insert_eq|]. apply V2 in Hm'. rewrite lookup_insert_ne; [done|congruence].
  - intros j Hj. destruct (V3 j Hj) as [Hin Hrest]. split; [|done]. rewrite lookup_insert_ne; [done|congruence].
Qed.

(** Entering the critical section of the maps. *)
Definition entered (X : Shape) (p : option (Z * positive * TransactionAttributes)) kn : Prop :=
  (∀ id a b, kn = Some (id, a) → x_ids X !! id = Some b → b = a) ∧
  (∀ id a t, p = Some (id, a, t) → x_ids X !! id = Some a).

Lemma sec_enter {A} (k : unit → prog ServerBackend A) r L p kn c Q :
  viewed (View r L None p kn) c →
  (∀ c' X, viewed (View r L (Some (Inner None X None [])) p kn) c' → entered X p kn →
     (m_initialize (c_shared c') = true →
        clean_logs (backend_world (c_shared c')) ∧ history (c_ghost c') = ∅) → sec (k tt) c' Q) →
  sec (bind (lock m_member_mtx) k) c Q.
Proof.
  intros Hv Hk c' Hr Hc Hm. apply (viewed_rely _ _ c') in Hv as [V1 V2 V3 V4 V5]; [|done]. exists (c_ghost c').
  split; [by apply lock_step|]. destruct (con_free _ Hc Hm) as [Hok Hclean].
  apply (Hk _ (shape_of (c_shared c'))); [split; simpl in *; [done| | |done|done]|split|done].
  - intros m Hm'. apply V2 in Hm'. rewrite lookup_insert_ne; [done|congruence].
  - intros j [= <-]. split; [apply lookup_insert_eq|]. split; [done|]. split; [done|]. split; [done|].
    simpl. by intros id Hid%elem_of_nil.
  - intros id a b E Hid. specialize (V5 id a E). pose proof (lookup_weaken _ _ _ _ Hid (con_history _ Hc)). congruence.
  - intros id a t E. by apply (V4 id a t).
Qed.

(** Giving up a mutex: what the thread still holds afterwards.  A thread that leaves
    [m_member_mtx] leaves the state well formed, and initialised or as it was found. *)
Lemma unlock_step c m pins :
  consistent c → c_held c !! m = Some tid →
  (∀ a tid', pins !! a = Some tid' → txn_mtx a ≠ m) →
  (∀ a tid', tid' ≠ tid → pinned (c_ghost c) !! a = Some tid' ↔ pins !! a = Some tid') →
  (∀ a, pins !! a = Some tid → c_held c !! txn_mtx a = Some tid ∧ ∃ id t,
     m_txn_id_to_transaction_attributes (c_shared c) !! id = Some a ∧ txn_nodes (c_shared c) !! a = Some t ∧
     txn_ok t ∧ named_file (c_shared c) (sp_file_attributes t)) →
  (if decide (m = m_member_mtx) then backend_ok (c_shared c) ∧ (m_initialize (c_shared c) = true →
     clean_logs (backend_world (c_shared c)) ∧ history (c_ghost c) = ∅)
   else pins ⊆ pinned (c_ghost c)) →
  guarantees tid c (Config (delete m (c_held c)) (c_shared c) {| pinned := pins; history := history (c_ghost c) |}).
Proof.
  intros [C1 C2 C3 C4 C5] Hm Hp Hothers Hmine Hout. split.
  - split; simpl; [|intros a tid' Ha|done|done|done].
    + rewrite lookup_delete_None. intros [Hf|Hf]; [|auto].
      rewrite decide_True in Hout by done. exact Hout.
    + rewrite lookup_delete_ne by (pose proof (Hp a tid' Ha); congruence).
      destruct (decide (tid' = tid)) as [->|Hne]; [by apply Hmine|]. by apply C2, Hothers.
  - intros tid' Hne. split; simpl; [done| |done|done| |by intros a; apply Hothers|done].
    + intros m'. rewrite lookup_delete_Some. split; [|by intros [_ ?]]. intros Hm'. split; [congruence|done].
    + intros Hm'. rewrite decide_False in Hout by congruence. done.
Qed.

(** A mutex that protects no transaction. *)
Lemma sec_unlock {A} m (k : unit → prog ServerBackend A) r L i p kn c Q :
  viewed (View r (m :: L) i p kn) c →
  match m with g_mtx | m_file_mtx _ | m_fd_mtx _ => True | _ => False end → m ∉ L →
  (∀ c', viewed (View r L i p kn) c' → sec (k tt) c' Q) →
  sec (bind (unlock m) k) c Q.
Proof.
  intros Hv Hm HL Hk c' Hr Hc. apply (viewed_rely _ _ c') in Hv as [V1 V2 V3 V4 V5]; [|done].
  assert (Hown : c_held c' !! m = Some tid) by (apply V2; simpl; by left).
  split; [done|]. destruct (c_ghost c') as [pins hist] eqn:Eg. exists (c_ghost c'). split.
  - rewrite Eg. change hist with (history {| pinned := pins; history := hist |}). rewrite <- Eg.
    apply unlock_step; [done|done|by intros a ? ? <-|by rewrite Eg| |].
    + intros a Ha. apply (con_pin _ Hc). by rewrite Eg.
    + rewrite decide_False by (by intros ->). by rewrite Eg.
  - apply Hk. split; simpl in *; [done| | |by rewrite Eg|by rewrite Eg].
    + intros m' Hm'. rewrite lookup_delete_ne by (by intros <-). by apply V2, elem_of_cons; right.
    + intros j Hj. rewrite Eg. rewrite lookup_delete_ne by (by intros ->). by apply V3.
Qed.

(** The mutex of a transaction: the thread may no longer go through its entry, and inside
    [m_member_mtx] nobody else will. *)
Definition let_alone (a : positive) i : option inner :=
  j ← i; Some (Inner (extra j) (shape j) (Some a) (spare j)).

Lemma sec_unlock_txn {A} a (k : unit → prog ServerBackend A) r L i p kn c Q :
  viewed (View r (txn_mtx a :: L) i p kn) c →
  match p with Some (_, b, _) => b = a | None => True end → txn_mtx a ∉ L →
  (∀ c', viewed (View r L (let_alone a i) None kn) c' → sec (k tt) c' Q) →
  sec (bind (unlock (txn_mtx a)) k) c Q.
Proof.
  intros Hv Hpa HL Hk c' Hr Hc. apply (viewed_rely _ _ c') in Hv as [V1 V2 V3 V4 V5]; [|done].
  assert (Hown : c_held c' !! txn_mtx a = Some tid) by (apply V2; simpl; by left).
  assert (Hmine : ∀ tid', pinned (c_ghost c') !! a = Some tid' → tid' = tid).
  { intros tid' Ha. destruct (con_pin _ Hc _ _ Ha). congruence. }
  split; [done|]. exists {| pinned := delete a (pinned (c_ghost c')); history := history (c_ghost c') |}. split.
  - apply unlock_step; [done|done| | | |by rewrite decide_False by done; apply delete_subseteq].
    + intros b tid' [Hne _]%lookup_delete_Some. congruence.
    + intros b tid' Hne. rewrite lookup_delete_Some. split; [|by intros [_ ?]]. intros Hb. split; [|done].
      intros <-. by apply Hne, Hmine.
    + intros b [_ Hb]%lookup_delete_Some. by apply (con_pin _ Hc).
  - apply Hk. split; simpl in *; [done| | |done|done].
    + intros m' Hm'. rewrite lookup_delete_ne by (by intros <-). by apply V2, elem_of_cons; right.
    + destruct i as [i|]; [|done]. intros j [= <-]. destruct (V3 i eq_refl) as (Hm & Hok & Hs & _ & Hf).
      rewrite lookup_delete_ne by done. do 3 (split; [done|]). split; [|done]. simpl.
      intros b tid' [= <-]. by rewrite lookup_delete_eq.
Qed.

(** Leaving the critical section of the maps, as it was entered or with a transaction
    pinned: one in the maps whose mutex the thread holds. *)
Lemma sec_leave {A} (k : unit → prog ServerBackend A) L X al sp p kn c Q :
  viewed (View true L (Some (Inner None X al sp)) p kn) c →
  m_member_mtx ∉ L →
  (∀ c', viewed (View true L None p kn) c' → sec (k tt) c' Q) →
  sec (bind (unlock m_member_mtx) k) c Q.
Proof.
  intros Hv HL Hk c' Hr Hc. apply (viewed_rely _ _ c') in Hv as [V1 V2 V3 V4 V5]; [|done].
  destruct (V3 _ eq_refl) as (Hm & Hok & _).
  split; [done|]. exists {| pinned := pinned (c_ghost c'); history := history (c_ghost c') |}. split.
  - apply unlock_step; [done|done|done|done|by intros a Ha; apply (con_pin _ Hc)|].
    rewrite decide_True by done. split; [done|by rewrite V1].
  - apply Hk. split; simpl in *; [done| |done|done|done].
    intros m' Hm'. rewrite lookup_delete_ne by (by intros <-). by apply V2.
Qed.

Lemma sec_leave_pin {A} id a (k : unit → prog ServerBackend A) L X al sp kn c Q :
  viewed (View true L (Some (Inner None X al sp)) None kn) c →
  m_member_mtx ∉ L → txn_mtx a ∈ L → x_ids X !! id = Some a →
  (∀ c' t, txn_ok t → viewed (View true L None (Some (id, a, t)) kn) c' → sec (k tt) c' Q) →
  sec (bind (unlock m_member_mtx) k) c Q.
Proof.
  intros Hv HL Ha Hid Hk c' Hr Hc. apply (viewed_rely _ _ c') in Hv as [V1 V2 V3 V4 V5]; [|done].
  destruct (V3 _ eq_refl) as (Hm & Hok & Hs & _). simpl in *. apply V2 in Ha as Hla. rewrite <- Hs in Hid.
  destruct (ok_txn _ Hok _ _ Hid) as [t Ht]. pose proof (ok_data _ Hok _ _ Ht) as Htok.
  split; [done|]. exists {| pinned := <[a := tid]> (pinned (c_ghost c')); history := history (c_ghost c') |}. split.
  - apply unlock_step; [done|done|done| | |rewrite decide_True by done; split; [done|by rewrite V1]].
    + intros b tid' Hne. rewrite lookup_insert_Some. split; [|by intros [[_ ?]|[_ ?]]]. intros Hb. right. split; [|done].
      intros <-. destruct (con_pin _ Hc _ _ Hb). congruence.
    + intros b [[<- _]|[_ Hb]]%lookup_insert_Some; [|by apply (con_pin _ Hc)]. split; [done|].
      exists id, t. split; [done|]. split; [done|]. split; [done|]. by apply (ok_named_file _ a t Hok).
  - apply (Hk _ t Htok). split; simpl in *; [done| |done| |done].
    + intros m' Hm'. rewrite lookup_delete_ne by (by intros <-). by apply V2.
    + intros id' b t' [= <- <- <-]. by rewrite lookup_insert_eq.
Qed.

(** ** Rules for the maps *)

Lemma sec_ret {A} (x : A) v c (Q : A → conf → Prop) :
  viewed v c → (∀ c', viewed v c' → Q x c') → sec (Ret x) c Q.
Proof. intros Hv HQ. apply secure_ret. intros c' Hr Hc. apply HQ. by eapply viewed_rely. Qed.

(** What is read of the shape is what it is. *)
Lemma sec_is_active {A} id (k : bool → prog ServerBackend A) r L j p kn c Q :
  viewed (View r L (Some j) p kn) c →
  (∀ c', viewed (View r L (Some j) p kn) c' →
     sec (k (bool_decide (is_Some (x_ids (shape j) !! id)))) c' Q) →
  sec (bind (is_active id) k) c Q.
Proof.
  intros Hv Hk. apply (sec_reads _ _ _ _ _ Hv). intros c' Hv' Hc'.
  destruct (vw_in _ _ Hv' j eq_refl) as (_ & _ & Hs & _). specialize (Hk c' Hv').
  rewrite <- Hs in Hk. exact Hk.
Qed.

(** The address found is what the thread will remember of the transaction. *)
Lemma sec_find_txn {A} id a (k : positive → prog ServerBackend A) r L j p kn c Q :
  viewed (View r L (Some j) p kn) c →
  x_ids (shape j) !! id = Some a →
  (∀ c', viewed (View r L (Some j) p (Some (id, a))) c' → sec (k a) c' Q) →
  sec (bind (find_txn id) k) c Q.
Proof.
  intros Hv Hid Hk. apply (sec_get _ _ _ _ _ Hv). intros c' Hv' Hc'.
  destruct (vw_in _ _ Hv' j eq_refl) as (_ & _ & Hs & _). rewrite <- Hs in Hid. exists a. split; [done|].
  apply Hk. destruct Hv' as [V1 V2 V3 V4 V5]. split; [done|done|done|done|]. intros id' a' [= <- <-].
  by apply (lookup_weaken _ _ _ _ Hid), con_history.
Qed.

(** ** Rules for the transaction pinned *)

Lemma pinned_alive c a t :
  consistent c → pinned (c_ghost c) !! a = Some tid → txn_nodes (c_shared c) !! a = Some t →
  named_file (c_shared c) (sp_file_attributes t).
Proof.
  intros Hc Ha Ht. destruct (con_pin _ Hc _ _ Ha) as (_ & id & t' & _ & Ht' & _ & Hf). by simplify_eq.
Qed.

Lemma sec_txn_get {A X} id a t (f : TransactionAttributes → X) (k : X → prog ServerBackend A) r L i kn c Q :
  viewed (View r L i (Some (id, a, t)) kn) c →
  (∀ c', viewed (View r L i (Some (id, a, t)) kn) c' → sec (k (f t)) c' Q) →
  sec (bind (txn_get a f) k) c Q.
Proof.
  intros Hv Hk. apply (sec_get _ _ _ _ _ Hv). intros c' Hv' Hc'.
  destruct (vw_pin _ _ Hv' _ _ _ eq_refl) as (_ & _ & Ht & _). exists (f t). rewrite Ht. by split; [|apply Hk].
Qed.

Lemma put_txn_shape s a t t' :
  txn_nodes s !! a = Some t → sp_file_attributes t' = sp_file_attributes t → shape_of (put_txn a t' s) = shape_of s.
Proof.
  intros Ha E. unfold shape_of, put_txn. simpl. f_equal. rewrite fmap_insert, E. apply insert_id.
  by rewrite lookup_fmap, Ha.
Qed.

Lemma sec_txn_set {A} id a t (f : TransactionAttributes → TransactionAttributes) (k : unit → prog ServerBackend A) r L kn c Q :
  viewed (View r L None (Some (id, a, t)) kn) c →
  sp_file_attributes (f t) = sp_file_attributes t → txn_ok (f t) →
  (∀ c', viewed (View r L None (Some (id, a, f t)) kn) c' → sec (k tt) c' Q) →
  sec (bind (txn_set a f) k) c Q.
Proof.
  intros Hv Hsp Hok Hk. apply (sec_act _ _ _ _ _ Hv). intros c' Hv' Hc'.
  destruct (vw_pin _ _ Hv' _ _ _ eq_refl) as (Ha & Hid & Ht & _).
  exists tt, (put_txn a (f t) (c_shared c')). rewrite Ht. split; [done|]. intros Htime. exists (c_ghost c'). split.
  - apply quiet_step; [done| |done|].
    + split; [done|by apply put_txn_shape with t|done| |done].
      simpl. intros b t' [[<- <-]|[_ Hb]]%lookup_insert_Some; [by right|by left].
    + intros b. simpl. destruct (decide (b = a)) as [->|Hne]; [by right|left; by rewrite lookup_insert_ne].
  - apply Hk. destruct Hv' as [V1 V2 V3 V4 V5]. split; [done|done|done| |done]. simpl.
    intros id' b t' [= <- <- <-]. by rewrite lookup_insert_eq.
Qed.

(** The file object of the transaction. *)
Lemma sec_file_get {A X} id a t (f : FileAttributes → X) (k : X → prog ServerBackend A) r L i kn c Q :
  viewed (View r L i (Some (id, a, t)) kn) c →
  (∀ fa c', nul_free (m_file_name fa) = true → viewed (View r L i (Some (id, a, t)) kn) c' →
     sec (k (f fa)) c' Q) →
  sec (bind (file_get (sp_file_attributes t) f) k) c Q.
Proof.
  intros Hv Hk. apply (sec_get _ _ _ _ _ Hv). intros c' Hv' Hc'.
  destruct (vw_pin _ _ Hv' _ _ _ eq_refl) as (Ha & _ & Ht & _).
  destruct (pinned_alive _ _ _ Hc' Ha Ht) as (fa & Hfa & Hname). exists (f fa). rewrite Hfa. by split; [|apply Hk].
Qed.

Lemma put_file_quiet s p f f' :
  file_nodes s !! p = Some f → identity f' = identity f → quietly s (put_file p f' s).
Proof.
  intros Hp E. split; [done| |done|by left|done]. unfold shape_of, put_file. simpl. f_equal.
  rewrite fmap_insert, E. apply insert_id. by rewrite lookup_fmap, Hp.
Qed.

Lemma sec_file_set {A} id a t (f : FileAttributes → FileAttributes) (k : unit → prog ServerBackend A) r L i kn c Q :
  viewed (View r L i (Some (id, a, t)) kn) c →
  (∀ fa, identity (f fa) = identity fa) →
  (∀ c', viewed (View r L i (Some (id, a, t)) kn) c' → sec (k tt) c' Q) →
  sec (bind (file_set (sp_file_attributes t) f) k) c Q.
Proof.
  intros Hv Hf Hk. apply (sec_act _ _ _ _ _ Hv). intros c' Hv' Hc'.
  destruct (vw_pin _ _ Hv' _ _ _ eq_refl) as (Ha & _ & Ht & _).
  destruct (pinned_alive _ _ _ Hc' Ha Ht) as (fa & Hfa & _).
  pose proof (put_file_quiet _ _ _ (f fa) Hfa (Hf fa)) as Hq.
  exists tt, (put_file (sp_file_attributes t) (f fa) (c_shared c')). rewrite Hfa. split; [done|]. intros Htime.
  exists (c_ghost c'). split; [apply quiet_step; [done|done|done|by left]|by apply Hk, viewed_quiet].
Qed.

(** ** Rules for files

    A thread uses files once the server is initialised, or inside [m_member_mtx]. *)

Definition may_use_files (v : view) : Prop := ready v = true ∨ is_Some (inside v).

Context (may_exit : may_end tid ExitFailure).

Lemma sec_write_loop f fuel k buf v c (Q : Z → conf → Prop) :
  (length buf - k < fuel)%nat → may_use_files v → viewed v c → (∀ z c', viewed v c' → Q z c') →
  sec (write_loop (λ b, syscall (w_write (m_fd f) b)) fuel k buf) c Q.
Proof.
  intros Hfuel Hw. revert k c Hfuel. induction fuel as [|fuel IH]; intros k c Hfuel Hv HQ; simpl; [lia|].
  case_decide; [|apply (sec_ret _ v); auto].
  apply (sec_syscall _ _ v); [done|intros w; apply w_write_step|done|]. intros w c' Hv'.
  destruct (w_write (m_fd f) (drop k buf) w).1 as [n|] eqn:E; [|apply (sec_ret _ v); auto].
  apply IH; [|done..]. assert (1 ≤ n)%nat; [|lia]. unfold w_write in E. destruct (next_call w) as [r w1].
  assert (Hl : (1 ≤ length (drop k buf))%nat) by (rewrite length_drop; lia).
  destruct r as [|m|]; [injection E as <-; exact Hl|injection E as <-; by apply (transferred_pos (SysShort m))|done].
Qed.

Lemma sec_read_loop f fuel out n v c (Q : Z * bytes → conf → Prop) :
  (n - length out < fuel)%nat → may_use_files v → viewed v c → (∀ z c', viewed v c' → Q z c') →
  sec (read_loop (λ off n, syscall (w_read (m_fd f) off n)) (Ret true) fuel out n) c Q.
Proof.
  intros Hfuel Hw. revert out c Hfuel. induction fuel as [|fuel IH]; intros out c Hfuel Hv HQ; [lia|].
  cbn [read_loop]. case_decide; [|apply (sec_ret _ v); auto].
  change (bind (Ret true) ?q) with (q true). cbv beta iota.
  apply (sec_syscall _ _ v); [done|intros w; apply w_read_step|done|]. intros w c' Hv'.
  destruct (w_read _ _ _ w).1 as [[|b chunk]|]; [apply (sec_ret _ v); auto| |apply (sec_ret _ v); auto].
  apply IH; [rewrite length_app; simpl; lia|done..].
Qed.

Lemma sec_File_write f buf v c (Q : exn + unit → conf → Prop) :
  writable (m_flags f) = true → nul_free buf = true → may_use_files v → viewed v c →
  (∀ (x : exn + unit) c', (x = inr tt ∨ x = inl ErrorWritingToFile) → viewed v c' → Q x c') →
  sec (File_write f buf) c Q.
Proof.
  intros Hf Hn Hw Hv HQ. unfold File_write. rewrite Hf. unfold ebind, lift.
  do 2 apply secure_bind. unfold writeFileDescriptor, assert_that. rewrite Hn.
  apply (sec_write_loop f _ _ _ v); [lia|done|done|]. intros z c1 Hv1. apply (sec_ret _ v); [done|]. intros c2 Hv2.
  cbv beta iota. destruct (z <? 0); apply (sec_ret _ v); auto.
Qed.

Lemma sec_File_write_then {A} f buf (q : unit → eprog ServerBackend A) v c (Q : exn + A → conf → Prop) :
  writable (m_flags f) = true → nul_free buf = true → may_use_files v → viewed v c →
  (∀ c', viewed v c' → Q (inl ErrorWritingToFile) c') → (∀ c', viewed v c' → sec (q tt) c' Q) →
  sec (ebind (File_write f buf) q) c Q.
Proof.
  intros Hf Hn Hw Hv Hfail Hq. unfold ebind. apply secure_bind. apply (sec_File_write _ _ v); [done..|].
  intros x c' [-> | ->] Hv'; [by apply Hq|]. by apply (sec_ret _ v).
Qed.

(** A block with a local [File]. *)
Lemma sec_with_File {A} path flags (body : File → eprog ServerBackend A) r L i p kn c (Q : exn + A → conf → Prop) :
  let v := View r L i p kn in
  viewed v c → may_use_files v → g_mtx ∉ L →
  (∀ c', viewed v c' → Q (inl ErrorOpeningFile) c') →
  (∀ d c', viewed v c' → sec (body {| m_fd := d; m_flags := flags |}) c'
     (λ x c', viewed v c' ∧ ∀ c'', viewed v c'' → Q x c'')) →
  sec (with_File path flags body) c Q.
Proof.
  intros v Hv Hw HL Hfail Hbody. unfold with_File, ebind. apply secure_bind. unfold File_ctor.
  apply (sec_lock _ _ _ _ _ _ _ _ _ Hv). intros c1 Hv1.
  apply (sec_syscall _ _ (View r (g_mtx :: L) i p kn)); [done|intros w; apply w_open_step|exact Hw|]. intros w c2 Hv2. generalize (w_open path flags w).1. intros d.
  apply (sec_unlock g_mtx _ _ _ _ _ _ _ _ Hv2 I HL). intros c3 Hv3.
  destruct d as [d|]; (apply (sec_ret _ v); [done|]); intros c4 Hv4; cbv beta iota; [|apply (sec_ret _ v); auto].
  apply secure_bind. eapply secure_mono; [by apply Hbody|]. intros x c5 _ [Hv5 HQ]. cbv beta.
  unfold File_dtor. apply secure_bind. apply (sec_lock _ _ _ _ _ _ _ _ _ Hv5). intros c6 Hv6.
  change (unlock g_mtx : prog ServerBackend unit) with (bind (unlock g_mtx) (@Ret ServerBackend unit)).
  apply (sec_unlock g_mtx _ _ _ _ _ _ _ _ Hv6 I HL). intros c7 Hv7.
  apply (sec_ret _ _ _ _ Hv7). intros c8 Hv8. apply (sec_ret _ _ _ _ Hv8). auto.
Qed.

(** Responses: in one of the commands a server answers with. *)
Lemma sec_response cmd txn_id seq_num err data ip v c (Q : Reply → conf → Prop) :
  viewed v c → cmd ∈ [Constants.ack_cmd; Constants.ask_resend_cmd; Constants.error_cmd] →
  int32 txn_id → int32 seq_num → 0 ≤ Errors.getErrorCode err ≤ INT32_MAX → len data ≤ INT32_MAX →
  (∀ rep c', viewed v c' → Q rep c') →
  sec (SET_RESPONSE cmd txn_id seq_num err data ip) c Q.
Proof. intros Hv Hcmd Ht Hs He Hd HQ. rewrite SET_RESPONSE_reply by done. apply (sec_ret _ v); auto. Qed.

Lemma sec_error req e v c (Q : Reply → conf → Prop) :
  viewed v c → request_ok req → known_error e = true → (∀ rep c', viewed v c' → Q rep c') →
  sec (SET_ERROR req e) c Q.
Proof.
  intros Hv [Ht Hs _] He HQ. destruct (known_error_code e He).
  apply (sec_response _ _ _ _ _ _ v); [done|by do 2 right; left|done..].
Qed.

Lemma sec_ack req ip v c (Q : Reply → conf → Prop) :
  viewed v c → request_ok req → (∀ rep c', viewed v c' → Q rep c') → sec (SET_ACK req ip) c Q.
Proof.
  intros Hv [Ht Hs _] HQ. apply (sec_response _ _ _ _ _ _ v); [done|by left|done..].
Qed.
End views.

(** ** The clock and the timers *)

(** Inside [m_member_mtx], with everything as it was found. *)
Definition untouched `{PathResolution} (tid : nat) (c : conf) : Prop :=
  c_held c !! m_member_mtx = Some tid ∧ backend_ok (c_shared c) ∧
  (m_initialize (c_shared c) = true → clean_logs (backend_world (c_shared c)) ∧ history (c_ghost c) = ∅).

Lemma untouched_rely `{PathResolution} tid c c' : untouched tid c → respects tid c c' → untouched tid c'.
Proof.
  intros (Hm & Hok & Hc) Hr. destruct (res_member _ _ _ Hr Hm) as (Hq & Hh & _).
  split; [by apply (res_locks _ _ _ Hr)|]. split; [by eapply ok_quietly|]. rewrite (q_init _ _ Hq), Hh. intros Hi.
  destruct (Hc Hi) as [Hl He]. split; [|done]. unfold clean_logs. by rewrite (q_files _ _ Hq Hi), (q_rand _ _ Hq).
Qed.

#[export] Program Instance backend_timely `{PathResolution} : Timely := {| browsing := untouched |}.
Next Obligation. intros ? c Hc. apply (con_time _ Hc). Qed.
Next Obligation. intros ? tid c c' Hr. apply (res_now _ _ _ Hr). Qed.
Next Obligation.
  intros ? tid c ticks Hc Hpos Htime. apply quiet_step; [done| |done|by left].
  split; [simpl; lia|done|done|by left|done].
Qed.
Next Obligation.
  intros ? tid c Hc Hm c'. split; [by apply lock_step|]. split; [apply lookup_insert_eq|]. by apply (con_free _ Hc).
Qed.
Next Obligation.
  intros ? tid c c' Hu Hr. split; [by eapply untouched_rely|]. destruct Hu as [Hm _].
  destruct (res_member _ _ _ Hr Hm) as (Hq & _). by pose proof (q_shape _ _ Hq) as [= -> _ _ _ _ _].
Qed.
Next Obligation. intros ? tid c id a (_ & Hok & _) _ Hid. by apply (ok_txn _ Hok id). Qed.
Next Obligation.
  intros ? tid c (Hm & Hok & Hclean) Hc. split; [done|].
  replace (c_ghost c) with {| pinned := pinned (c_ghost c); history := history (c_ghost c) |} by by destruct (c_ghost c).
  apply unlock_step; [done|done|done|done|by intros a Ha; apply (con_pin _ Hc)|]. by rewrite decide_True.
Qed.
