(* ===== verification/CriticalSections.v ===== *)
(** * Changing the maps

    The rules of Views.v for what the commands do to the maps inside [m_member_mtx]:
    picking an id, adding a transaction and removing one. *)
From S2P Require Import Prelude Stdcxx Constants WireProtocol Messages Prog ReadWrite Posix File Backend Recovery BackendInv BackendSteps BackendSpec Threads RelyGuarantee Timers Sharing Views.
From Stdlib Require Import ZArith Lia List Ascii String Bool.
From stdpp Require Import base gmap strings list fin_maps sorting.
#[local] Set Default Goal Selector "!".
Local Open Scope Z_scope.

Section changes.
Context `{PathResolution} (tid : nat) (may_end : nat → halt → Prop).

Abbreviation sec p c Q := (secure may_end out_of_ids tid p c Q).

(** A change of the state inside [m_member_mtx], with the ghost state that goes with it. *)
Record changes (c : conf) (e : option positive) (s' : ServerBackend) (g' : Ghost) : Prop := {
  ch_ok : ok_but e s';
  ch_init : m_initialize s' = m_initialize (c_shared c);
  ch_history : history (c_ghost c) ⊆ history g';
  ch_others a tid' : tid' ≠ tid → pinned (c_ghost c) !! a = Some tid' ↔ pinned g' !! a = Some tid';
  ch_kept a tid' : pinned g' !! a = Some tid' →
    pinned (c_ghost c) !! a = Some tid' ∧ txn_nodes s' !! a = txn_nodes (c_shared c) !! a ∧
    ∀ id, m_txn_id_to_transaction_attributes (c_shared c) !! id = Some a →
      m_txn_id_to_transaction_attributes s' !! id = Some a;
  ch_ids : m_txn_id_to_transaction_attributes s' ⊆ history g';
  ch_new : new_ids (backend_world s') (history g');
  ch_now : w_now (backend_world s') = w_now (backend_world (c_shared c))
}.

Implicit Types (L : list mutex) (r : bool) (kn : option (Z * positive)).

(** The ids among [sp] are still unused. *)
Definition unused (sp : list Z) (s : ServerBackend) (g : Ghost) : Prop :=
  ∀ id, id ∈ sp → history g !! id = None ∧ id ∉ candidate <$> w_rand (backend_world s).

Lemma sec_change {A X} (f : ServerBackend → option (X * ServerBackend)) (k : X → prog ServerBackend A) r L j p kn c Q :
  viewed tid (View r L (Some j) p kn) c →
  (∀ c', viewed tid (View r L (Some j) p kn) c' → consistent c' → ∃ x s' g' e sp', f (c_shared c') = Some (x, s') ∧
    changes c' e s' g' ∧ unused sp' s' g' ∧
    (viewed tid (View r L (Some (Inner e (shape_of s') None sp')) None kn) (Config (c_held c') s' g') →
     sec (k x) (Config (c_held c') s' g') Q)) →
  sec (bind (act_partial f) k) c Q.
Proof.
  intros Hv Hf. apply (sec_act _ _ _ _ _ _ _ Hv). intros c' Hv' Hc'.
  destruct (Hf c' Hv' Hc') as (x & s' & g' & e & sp' & Ex & Hch & Hsp & Hk). destruct Hv' as [V1 V2 V3 V4 V5].
  destruct (V3 j eq_refl) as (Hm & _). pose proof Hch as [C1 C2 C3 C4 C5 C6 C7 C8]. exists x, s'. split; [done|]. intros Htime. exists g'. split.
  - apply member_step; [done|done|by rewrite C2|done|done| |done|done|by rewrite C8|done].
    intros a tid' Ha.
    destruct (C5 a tid' Ha) as (? & ? & ?). split; [done|]. split; [done|]. split; [done|].
    intros t. apply (ok_named_file _ a t C1).
  - apply Hk. split; simpl; [by rewrite C2|done| |done|].
    + intros i [= <-]. split; [done|]. split; [done|]. split; [done|]. by split.
    + intros id a Hid. eapply lookup_weaken; [by apply V5|done].
Qed.

(** A change that leaves ids and transactions alone. *)
Lemma changes_static c e s' :
  consistent c → ok_but e s' → m_initialize s' = m_initialize (c_shared c) →
  backend_world s' = backend_world (c_shared c) → txn_nodes s' = txn_nodes (c_shared c) →
  m_txn_id_to_transaction_attributes s' = m_txn_id_to_transaction_attributes (c_shared c) →
  changes c e s' (c_ghost c).
Proof.
  intros Hc Hok Hi Hw Hn Hids. split; [done|done|done|done| | | |by rewrite Hw].
  - intros a tid' Ha. by rewrite Hn, Hids.
  - rewrite Hids. apply (con_history _ Hc).
  - rewrite Hw. apply (con_rand _ Hc).
Qed.

(** ** Removing a transaction *)

(** The entry may be erased: the thread has pinned it, or knows that nobody has. *)
Definition mine (a : positive) (j : inner) (p : option (Z * positive * TransactionAttributes)) : Prop :=
  match p with Some (_, b, _) => b = a | None => alone j = Some a end.

Lemma mine_alone a r L j p kn c tid' :
  viewed tid (View r L (Some j) p kn) c → mine a j p → pinned (c_ghost c) !! a = Some tid' → tid' = tid.
Proof.
  intros [_ _ V3 V4 _] Hmine Ha. destruct p as [[[id b] t]|]; simpl in Hmine.
  - subst b. destruct (V4 id a t eq_refl) as [Hp _]. congruence.
  - destruct (V3 j eq_refl) as (_ & _ & _ & Hal & _). by eapply Hal.
Qed.

Lemma changes_unlinked c id a t r L j p kn :
  consistent c → viewed tid (View r L (Some j) p kn) c → extra j = None → mine a j p →
  m_txn_id_to_transaction_attributes (c_shared c) !! id = Some a → txn_nodes (c_shared c) !! a = Some t →
  changes c (Some (sp_file_attributes t)) (unlinked id a (c_shared c))
    {| pinned := delete a (pinned (c_ghost c)); history := history (c_ghost c) |}.
Proof.
  intros Hc Hv Hj Hmine Hid Ht. destruct (vw_in _ _ _ Hv j eq_refl) as (_ & Hok & _). rewrite Hj in Hok.
  split; simpl; [by apply ok_unlinked|done|done| | | |apply (con_rand _ Hc)|done].
  - intros b tid' Hne. rewrite lookup_delete_Some. split; [|by intros [_ ?]]. intros Hb. split; [|done].
    intros <-. by apply Hne, (mine_alone a r L j p kn c).
  - intros b tid' [Hne Hb]%lookup_delete_Some. split; [done|]. split; [by rewrite lookup_delete_ne|].
    intros id' Hid'. rewrite lookup_delete_ne; [done|]. intros <-. congruence.
  - etrans; [apply delete_subseteq|apply (con_history _ Hc)].
Qed.

Lemma release_released p f s :
  file_nodes s !! p = Some f →
  match file_nodes s !! p with
  | None => None
  | Some f =>
      if decide (use_count f ≤ 1)%nat then
        Some (tt, set_file_ptrs (delete (m_file_name f) (m_file_name_to_ptr_to_file_attributes s))
                    (set_file_nodes (delete p (file_nodes s)) s))
      else
        Some (tt, set_file_nodes (<[p := with_use_count (use_count f - 1) f]> (file_nodes s)) s)
  end = Some (tt, released p f s).
Proof. intros ->. unfold released. by case_decide. Qed.

Lemma released_rest p f s :
  m_initialize (released p f s) = m_initialize s ∧ backend_world (released p f s) = backend_world s ∧
  txn_nodes (released p f s) = txn_nodes s ∧
  m_txn_id_to_transaction_attributes (released p f s) = m_txn_id_to_transaction_attributes s.
Proof. unfold released. by case_decide. Qed.

Lemma sec_release {A} p (k : unit → prog ServerBackend A) r L X kn c Q :
  is_Some (x_objects X !! p) →
  viewed tid (View r L (Some (Inner (Some p) X None [])) None kn) c →
  (∀ c' X', viewed tid (View r L (Some (Inner None X' None [])) None kn) c' → sec (k tt) c' Q) →
  sec (bind (release_file_attributes p) k) c Q.
Proof.
  intros Hp Hv Hk. apply (sec_change _ _ _ _ _ _ _ _ _ Hv). intros c' Hv' Hc'.
  destruct (vw_in _ _ _ Hv' _ eq_refl) as (_ & Hok & Hs & _). simpl in *. rewrite <- Hs in Hp.
  destruct Hp as [x Hx]. apply lookup_fmap_Some in Hx as (f & _ & Hf).
  destruct (released_rest p f (c_shared c')) as (E1 & E2 & E3 & E4).
  exists tt, (released p f (c_shared c')), (c_ghost c'), None, []. split; [by apply release_released|].
  split; [by apply changes_static; [|apply ok_released|..]|]. split; [by intros id ?%elem_of_nil|].
  intros Hv1. by eapply Hk.
Qed.

Lemma sec_remove id a r L j p kn c (Q : unit → conf → Prop) :
  viewed tid (View r L (Some j) p kn) c →
  x_ids (shape j) !! id = Some a → extra j = None → mine a j p →
  (∀ c' X, viewed tid (View r L (Some (Inner None X None [])) None kn) c' → Q tt c') →
  sec (removeTransaction id) c Q.
Proof.
  intros Hv Hid Hj Hmine HQ. unfold removeTransaction. apply (sec_reads _ _ _ _ _ _ _ Hv). intros c1 Hv1 Hc1.
  destruct (vw_in _ _ _ Hv1 _ eq_refl) as (_ & _ & Hs1 & _). pose proof Hid as Hid1. rewrite <- Hs1 in Hid1. simpl in Hid1. rewrite Hid1.
  apply (sec_get _ _ _ _ _ _ _ Hv1). intros c2 Hv2 Hc2.
  destruct (vw_in _ _ _ Hv2 _ eq_refl) as (_ & Hok2 & Hs2 & _). pose proof Hid as Hid2. rewrite <- Hs2 in Hid2. simpl in Hid2.
  destruct (ok_txn _ Hok2 _ _ Hid2) as [t Ht]. exists (sp_file_attributes t). rewrite Ht. split; [done|].
  assert (Hpt : x_pointers (shape j) !! a = Some (sp_file_attributes t)) by (rewrite <- Hs2; simpl; by rewrite lookup_fmap, Ht).
  apply (sec_change _ _ _ _ _ _ _ _ _ Hv2). intros c3 Hv3 Hc3.
  destruct (vw_in _ _ _ Hv3 _ eq_refl) as (_ & Hok3 & Hs3 & _). rewrite <- Hs3 in Hpt, Hid. simpl in Hpt, Hid.
  apply lookup_fmap_Some in Hpt as (t3 & Et & Ht3). destruct (ok_sp _ Hok3 _ _ Ht3) as [f Hf].
  eexists tt, _, _, (Some (sp_file_attributes t)), []. split; [done|]. split; [rewrite <- Et; by eapply changes_unlinked|]. split; [by intros i ?%elem_of_nil|].
  intros Hv4. change (release_file_attributes (sp_file_attributes t)) with (bind (release_file_attributes (sp_file_attributes t)) Ret).
  eapply sec_release; [|exact Hv4|].
  - simpl. rewrite lookup_fmap, <- Et, Hf. by eexists.
  - intros c5 X Hv5. apply (sec_ret _ _ _ _ _ _ Hv5). intros c6 Hv6. by eapply HQ.
Qed.

(** ** Logging *)

Context (m_directory : bytes) (may_exit : may_end tid ExitFailure).

Lemma sec_log log id name r L i p kn c (Q : unit → conf → Prop) :
  let v := View r L i p kn in
  viewed tid v c → may_use_files v → g_mtx ∉ L → nul_free name = true →
  (∀ c', viewed tid v c' → Q tt c') →
  sec (logTransaction m_directory log id name) c Q.
Proof.
  intros v Hv Hw HL Hname HQ. unfold logTransaction, try_catch. apply secure_bind.
  apply (sec_with_File _ _ _ _ _ r L i p kn); [done|done|done| |].
  { intros c' Hv'. by apply (sec_ret _ _ _ v). }
  intros d c1 Hv1.
  assert (Hret : ∀ c', viewed tid v c' → viewed tid v c' ∧ ∀ c'', viewed tid v c'' → sec (Ret tt) c'' Q).
  { intros c' Hv'. split; [done|]. intros c'' Hv''. by apply (sec_ret _ _ _ v). }
  assert (Hns : nul_free (str " ") = true) by done.
  apply sec_File_write_then with (v := v); [done|apply to_string_nul_free|done|done|exact Hret|]. clear dependent c1. intros c1 Hv1.
  apply sec_File_write_then with (v := v); [done|done|done|done|exact Hret|]. clear dependent c1. intros c1 Hv1.
  apply sec_File_write_then with (v := v); [done|done|done|done|exact Hret|]. clear dependent c1. intros c1 Hv1.
  apply sec_File_write_then with (v := v); [done|done|done|done|exact Hret|]. clear dependent c1. intros c1 Hv1.
  unfold ebind, lift. do 2 apply secure_bind. unfold getFileSize, syscall_reads.
  change (reads ?f) with (bind (reads f) (@Ret ServerBackend Z)).
  apply (sec_reads _ _ _ _ _ _ _ Hv1). intros c2 Hv2 _. apply (sec_ret _ _ _ v); [done|]. intros c3 Hv3. apply (sec_ret _ _ _ v); [done|].
  intros c4 Hv4. cbv beta iota.
  apply sec_File_write_then with (v := v); [done|apply to_string_nul_free|done|done|exact Hret|].
  intros c5 Hv5. apply sec_File_write with (v := v); [done..|]. intros x c6 [-> | ->] Hv6; by apply Hret.
Qed.

(** ** Picking an id *)

Lemma sec_next_rand {A} (k : option Z → prog ServerBackend A) r L X al sp kn c Q :
  viewed tid (View r L (Some (Inner None X al sp)) None kn) c →
  (∀ x c' X', (match x with Some y => x_rand X = y :: x_rand X' | None => x_rand X = [] ∧ X' = X end) →
     viewed tid (View r L (Some (Inner None X' None (option_list (candidate <$> x)))) None kn) c' → sec (k x) c' Q) →
  sec (bind (syscall w_next_rand) k) c Q.
Proof.
  intros Hv Hk. set (f := λ s : ServerBackend, Some ((w_next_rand (the_world s)).1, set_world (w_next_rand (the_world s)).2 s)).
  change (sec (bind (act_partial f) k) c Q). apply (sec_change _ _ _ _ _ _ _ _ _ Hv).
  intros c' Hv' Hc'. destruct (vw_in _ _ _ Hv' _ eq_refl) as (Hm & Hok & Hs & _). simpl in Hok, Hs.
  destruct (con_rand _ Hc') as [Hnd Hnew].
  set (x := (w_next_rand (the_world (c_shared c'))).1). set (w := (w_next_rand (the_world (c_shared c'))).2).
  assert (Hx : new_ids w (history (c_ghost c')) ∧ ∀ id, id ∈ option_list (candidate <$> x) →
    history (c_ghost c') !! id = None ∧ id ∉ candidate <$> w_rand w).
  { subst x w. unfold w_next_rand. change (the_world (c_shared c')) with (backend_world (c_shared c')).
    destruct (w_rand (backend_world (c_shared c'))) as [|y l] eqn:Er; simpl.
    - unfold new_ids. rewrite Er. split; [done|]. by intros id ?%elem_of_nil.
    - rewrite fmap_cons in Hnd, Hnew. apply NoDup_cons in Hnd as [Hy Hnd]. split.
      + split; [done|]. intros id Hid. apply Hnew. by right.
      + intros id ->%list_elem_of_singleton. split; [apply Hnew; by left|done]. }
  destruct Hx as [Hids Hunused].
  exists x, (set_world w (c_shared c')), (c_ghost c'), None, (option_list (candidate <$> x)). split; [done|]. split.
  - split; [by apply (ok_frame (c_shared c'))|done|done|done|done|apply (con_history _ Hc')|exact Hids|].
    subst w. unfold w_next_rand. change (the_world (c_shared c')) with (backend_world (c_shared c')). simpl. by destruct (w_rand (backend_world (c_shared c'))).
  - split; [exact Hunused|]. intros Hv2. eapply Hk; [|exact Hv2]. rewrite <- Hs. subst x w. unfold w_next_rand.
    change (the_world (c_shared c')) with (backend_world (c_shared c')). unfold shape_of. simpl.
    destruct (w_rand (backend_world (c_shared c'))) as [|y l] eqn:Er; simpl; rewrite ?Er; done.
Qed.

Lemma spare_free c r L j p kn id :
  consistent c → viewed tid (View r L (Some j) p kn) c → id ∈ spare j → x_ids (shape j) !! id = None.
Proof.
  intros Hc Hv Hid. destruct (vw_in _ _ _ Hv _ eq_refl) as (_ & _ & Hs & _ & Hf). rewrite <- Hs. simpl.
  eapply lookup_weaken_None; [by apply (Hf id)|apply (con_history _ Hc)].
Qed.

(** The id picked has never been used. *)
Lemma sec_pick {A} (k : Z → prog ServerBackend A) r L X al sp kn c Q :
  viewed tid (View r L (Some (Inner None X al sp)) None kn) c →
  (∀ id c' X', int32 id → viewed tid (View r L (Some (Inner None X' None [id])) None kn) c' → sec (k id) c' Q) →
  sec (bind pick_candidate k) c Q.
Proof.
  intros Hv Hk. apply secure_bind. unfold pick_candidate. apply (sec_reads _ _ _ _ _ _ _ Hv). intros c1 Hv1 _.
  assert (Hfuel : (length (x_rand X) < S (length (w_rand (backend_world (c_shared c1)))))%nat).
  { destruct (vw_in _ _ _ Hv1 _ eq_refl) as (_ & _ & Hs & _). simpl in Hs. rewrite <- Hs. simpl. lia. }
  revert Hv1 Hfuel. generalize (S (length (w_rand (backend_world (c_shared c1))))). intros fuel. clear Hv. revert X al sp c1.
  induction fuel as [|fuel IH]; intros X al sp c1 Hv1 Hfuel; [lia|]. cbn [candidate_loop].
  apply (sec_next_rand _ _ _ _ _ _ _ _ _ Hv1). intros [x|] c2 X2 HX2 Hv2.
  2: { destruct HX2 as [Hx ->]. intros c3 Hr Hc. apply (viewed_rely _ _ _ c3) in Hv2; [|done]. split; [|done].
    destruct (vw_in _ _ _ Hv2 _ eq_refl) as (_ & _ & Hs & _). simpl in Hs. rewrite <- Hs in Hx. exact Hx. }
  apply (sec_is_active _ _ _ _ _ _ _ _ _ _ _ Hv2). intros c3 Hv3. destruct (bool_decide _).
  { eapply IH; [exact Hv3|]. rewrite HX2 in Hfuel. simpl in Hfuel. lia. }
  apply (sec_ret _ _ _ _ _ _ Hv3). intros c4 Hv4. by eapply Hk; [apply candidate_int32|].
Qed.

(** ** Adding a transaction *)

(** A pointer to the file object of a name: a copy, or the first one. *)
Definition pointed (id : Z) (sp : list Z) r L kn (x : exn + positive) (c : conf) : Prop :=
  ∃ p X, x = inr p ∧ is_Some (x_objects X !! p) ∧
    viewed tid (View r L (Some (Inner (Some p) X None (id :: sp))) None kn) c.

Lemma pointed_ret id sp r L p X kn c :
  is_Some (x_objects X !! p) →
  viewed tid (View r L (Some (Inner (Some p) X None (id :: sp))) None kn) c →
  sec (Ret (inr p) : eprog ServerBackend positive) c (pointed id sp r L kn).
Proof. intros Hp Hv. apply (sec_ret _ _ _ _ _ _ Hv). intros c' Hv'. by exists p, X. Qed.

Lemma sec_share id sp r L X al p kn c :
  is_Some (x_objects X !! p) →
  viewed tid (View r L (Some (Inner None X al (id :: sp))) None kn) c →
  sec (let? _ := lift (share_file_attributes p) in eret p) c (pointed id sp r L kn).
Proof.
  intros Hp Hv. unfold ebind, lift. do 2 apply secure_bind. unfold share_file_attributes, file_set.
  change (act_partial ?f) with (bind (act_partial f) (@Ret ServerBackend unit)).
  apply (sec_change _ _ _ _ _ _ _ _ _ Hv). intros c' Hv' Hc'.
  destruct (vw_in _ _ _ Hv' _ eq_refl) as (_ & Hok & Hs & _ & Hun). simpl in *. rewrite <- Hs in Hp.
  destruct Hp as [y Hy]. apply lookup_fmap_Some in Hy as (f & _ & Hf).
  eexists tt, (put_file p (with_use_count (S (use_count f)) f) (c_shared c')), (c_ghost c'), (Some p), (id :: sp).
  rewrite Hf. split; [done|]. split; [by apply changes_static; [|apply ok_shared|..]|]. split; [exact Hun|].
  intros Hv1. apply (sec_ret _ _ _ _ _ _ Hv1). intros c2 Hv2. apply (sec_ret _ _ _ _ _ _ Hv2). intros c3 Hv3.
  eapply pointed_ret; [|exact Hv3]. simpl. rewrite lookup_fmap, lookup_insert_eq. by eexists.
Qed.

Lemma sec_new_file id sp name r L X al kn c :
  x_names X !! name = None → nul_free name = true →
  viewed tid (View r L (Some (Inner None X al (id :: sp))) None kn) c →
  sec (getNewFileAttributes name) c (pointed id sp r L kn).
Proof.
  intros Hname Hnul Hv. unfold getNewFileAttributes. apply (sec_reads _ _ _ _ _ _ _ Hv). intros c1 Hv1 _.
  destruct (vw_in _ _ _ Hv1 _ eq_refl) as (_ & _ & Hs1 & _). simpl in Hs1. pose proof Hname as Hname1.
  rewrite <- Hs1 in Hname1. simpl in Hname1. rewrite Hname1.
  unfold ebind, lift, getFileSize, syscall_reads. do 2 apply secure_bind.
  change (reads ?f) with (bind (reads f) (@Ret ServerBackend Z)).
  apply (sec_reads _ _ _ _ _ _ _ Hv1). intros c2 Hv2 _. generalize (default 0 (w_stat name (the_world (c_shared c2)))). intros size.
  apply (sec_ret _ _ _ _ _ _ Hv2). intros c3 Hv3. apply (sec_ret _ _ _ _ _ _ Hv3). intros c4 Hv4.
  set (f := λ s : ServerBackend, Some (inr (A := exn) (next_address s), new_file name size s)).
  change (sec (bind (act_partial f) Ret) c4 (pointed id sp r L kn)).
  apply (sec_change _ _ _ _ _ _ _ _ _ Hv4). intros c5 Hv5 Hc5.
  destruct (vw_in _ _ _ Hv5 _ eq_refl) as (_ & Hok & Hs & _ & Hun). simpl in Hok, Hs, Hun. rewrite <- Hs in Hname. simpl in Hname.
  eexists _, _, (c_ghost c5), (Some (next_address (c_shared c5))), (id :: sp). split; [done|].
  split; [by apply changes_static; [|apply ok_new_file|..]|]. split; [exact Hun|].
  intros Hv6. eapply pointed_ret; [|exact Hv6]. simpl. rewrite lookup_fmap, lookup_insert_eq. by eexists.
Qed.

Lemma changes_emplaced c id sp p t r L X al kn :
  consistent c → viewed tid (View r L (Some (Inner (Some p) X al (id :: sp))) None kn) c →
  is_Some (x_objects X !! p) → sp_file_attributes t = p → txn_ok t →
  changes c None (emplaced id t (c_shared c))
    {| pinned := pinned (c_ghost c); history := <[id := next_address (c_shared c)]> (history (c_ghost c)) |}.
Proof.
  intros Hc Hv Hp Hsp Ht. pose proof (spare_free _ _ _ _ _ _ id Hc Hv) as Hfree.
  destruct (vw_in _ _ _ Hv _ eq_refl) as (_ & Hok & Hs & _ & Hun). simpl in *. rewrite <- Hs in Hp, Hfree. simpl in Hp, Hfree.
  destruct (Hun id) as [Hnone Hcand]; [by left|]. destruct (con_rand _ Hc) as [Hnd Hnew].
  destruct Hp as [y Hy]. apply lookup_fmap_Some in Hy as (f & _ & Hf).
  split; simpl; [|done| |done| | | |done].
  - apply ok_emplaced with p; [done|apply Hfree; by left|by exists f|done|done].
  - by apply insert_subseteq.
  - intros a tid' Ha. destruct (con_pin _ Hc _ _ Ha) as (_ & id' & t' & Hid' & Ht' & _).
    split; [done|]. destruct (ok_fresh _ (next_address (c_shared c)) Hok) as [Hfr _]; [lia|]. split.
    + rewrite lookup_insert_ne; [done|congruence].
    + intros i Hi. rewrite lookup_insert_ne; [done|]. intros <-. rewrite Hfree in Hi by (by left). done.
  - apply insert_mono, (con_history _ Hc).
  - split; [done|]. intros i Hi. simpl. rewrite lookup_insert_ne; [by apply Hnew|]. intros <-. done.
Qed.

Lemma sec_emplace {A} id sp p t (k : unit → prog ServerBackend A) r L X kn c Q :
  is_Some (x_objects X !! p) → sp_file_attributes t = p → txn_ok t → id ∉ sp →
  viewed tid (View r L (Some (Inner (Some p) X None (id :: sp))) None kn) c →
  (∀ c' X', viewed tid (View r L (Some (Inner None X' None sp)) None kn) c' → sec (k tt) c' Q) →
  sec (bind (emplace_transaction id t) k) c Q.
Proof.
  intros Hp Hsp Ht Hid Hv Hk. apply secure_bind. unfold emplace_transaction. apply (sec_reads _ _ _ _ _ _ _ Hv). intros c1 Hv1 Hc1.
  pose proof (spare_free _ _ _ _ _ _ id Hc1 Hv1) as Hfree. destruct (vw_in _ _ _ Hv1 _ eq_refl) as (_ & _ & Hs1 & _).
  simpl in Hfree, Hs1. rewrite <- Hs1 in Hfree. simpl in Hfree. rewrite Hfree by (by left).
  set (f := λ s : ServerBackend, Some (tt, emplaced id t s)).
  change (sec (bind (act_partial f) Ret) c1 (λ x c', sec (k x) c' Q)).
  apply (sec_change _ _ _ _ _ _ _ _ _ Hv1). intros c2 Hv2 Hc2.
  eexists _, _, _, None, sp. split; [done|]. split; [by eapply changes_emplaced|]. split.
  - intros i Hi. destruct (vw_in _ _ _ Hv2 _ eq_refl) as (_ & _ & _ & _ & Hun). destruct (Hun i) as [Hn Hc]; [by right|].
    split; [|done]. simpl. rewrite lookup_insert_ne; [done|]. by intros <-.
  - intros Hv3. apply (sec_ret _ _ _ _ _ _ Hv3). intros c4 Hv4. by eapply Hk.
Qed.

Lemma sec_add id sp name r L X al kn c (Q : exn + unit → conf → Prop) :
  viewed tid (View r L (Some (Inner None X al (id :: sp))) None kn) c →
  id ∉ sp → nul_free name = true → g_mtx ∉ L →
  (∀ c' X', viewed tid (View r L (Some (Inner None X' None sp)) None kn) c' → Q (inr tt) c') →
  sec (addNewTransaction m_directory id name) c Q.
Proof.
  intros Hv Hid Hname HL HQ. unfold addNewTransaction. apply (sec_reads _ _ _ _ _ _ _ Hv). intros c1 Hv1 Hc1.
  unfold NOW, syscall_reads. apply (sec_reads _ _ _ _ _ _ _ Hv1). intros c2 Hv2 Hc2.
  generalize (w_now (the_world (c_shared c2))). intros now. unfold ebind at 1. apply secure_bind.
  destruct (vw_in _ _ _ Hv1 _ eq_refl) as (_ & Hok1 & Hs1 & _). simpl in Hok1, Hs1.
  eapply secure_mono with (Q := pointed id sp r L kn).
  { destruct (_ !! name) as [p|] eqn:Ep.
    - eapply sec_share; [|exact Hv2]. apply (ok_ptr _ Hok1) in Ep as (f & Hf & _). rewrite <- Hs1. simpl.
      rewrite lookup_fmap, Hf. by eexists.
    - eapply sec_new_file; [|done|exact Hv2]. by rewrite <- Hs1. }
  intros x c3 _ (p & X' & -> & Hp & Hv3). unfold lift. apply secure_bind.
  eapply sec_emplace; [exact Hp|done|apply fresh_txn_ok|done|exact Hv3|]. intros c4 X4 Hv4.
  apply secure_bind. eapply sec_log; [exact Hv4|right; by eexists|exact HL|exact Hname|]. intros c5 Hv5.
  unfold START_TRANSACTION_TIMER. change (modify ?f) with (bind (modify f) (@Ret ServerBackend unit)).
  eapply sec_modify; [exact Hv5|..].
  { intros s. by split; [split; [..|intros a t Ha; left|]|]. }
  intros c6 Hv6. apply (sec_ret _ _ _ _ _ _ Hv6). intros c7 Hv7. apply (sec_ret _ _ _ _ _ _ Hv7). intros c8 Hv8. by eapply HQ.
Qed.
End changes.
