(* ===== verification/Interleaving.v ===== *)
(** * Requests under every interleaving

    Every command function follows the protocol of Sharing.v, and so does the recovery
    that precedes the first of them: whatever the schedule, no request goes through a
    reference to something that is gone, and the state is well formed whenever
    [m_member_mtx] is free. *)
From S2P Require Import Prelude Stdcxx Constants WireProtocol Messages Prog ReadWrite Posix File Backend Recovery BackendInv BackendSteps BackendSpec CommitSpec Threads RelyGuarantee Timers Sharing Views CriticalSections.
From Stdlib Require Import ZArith Lia List Ascii String Bool.
From stdpp Require Import base gmap strings list fin_maps sorting.
#[local] Set Default Goal Selector "!".
Local Open Scope Z_scope.

Section commands.
Context `{PathResolution} (tid : nat) (may_end : nat → halt → Prop) (may_exit : may_end tid ExitFailure).
Context (m_directory : bytes).

Abbreviation sec p c Q := (secure may_end out_of_ids tid p c Q).

(** Between two commands a thread holds nothing and knows that the server is initialised. *)
Definition at_rest : view := View true [] None None None.

Definition rests {A} (_ : A) (c : conf) : Prop := viewed tid at_rest c.

Lemma sec_done {A} (x : A) kn c : viewed tid (View true [] None None kn) c → sec (Ret x) c rests.
Proof.
  intros Hv. apply (sec_ret _ _ _ _ _ _ Hv). intros c' [V1 V2 V3 V4 _]. by split.
Qed.

(** ** The two checks *)

Lemma sec_check_invalid {A} id (k : option Errors.ErrorMapIterator → prog ServerBackend A) r L j p kn c Q :
  viewed tid (View r L (Some j) p kn) c →
  (∀ e c', known_error e = true → viewed tid (View r L (Some j) p kn) c' → sec (k (Some e)) c' Q) →
  (∀ a c', x_ids (shape j) !! id = Some a → viewed tid (View r L (Some j) p kn) c' → sec (k None) c' Q) →
  sec (bind (RETURN_ERROR_IF_COMMITTED_OR_INVALID_ID id) k) c Q.
Proof.
  intros Hv He Hk. apply secure_bind. unfold RETURN_ERROR_IF_COMMITTED_OR_INVALID_ID, is_committed.
  apply (sec_reads _ _ _ _ _ _ _ Hv). intros c1 Hv1 _. destruct (bool_decide _).
  { apply (sec_ret _ _ _ _ _ _ Hv1). intros c2. by apply He. }
  apply (sec_is_active _ _ _ _ _ _ _ _ _ _ _ Hv1). intros c2 Hv2. case_bool_decide as Ha.
  - apply (sec_ret _ _ _ _ _ _ Hv2). intros c3. destruct Ha as [a Ha]. by apply (Hk a).
  - apply (sec_ret _ _ _ _ _ _ Hv2). intros c3. by apply He.
Qed.

Lemma sec_check_aborted {A} id (k : option Errors.ErrorMapIterator → prog ServerBackend A) r L j p kn c Q :
  viewed tid (View r L (Some j) p kn) c →
  (∀ e c', known_error e = true → viewed tid (View r L (Some j) p kn) c' → sec (k (Some e)) c' Q) →
  (∀ a c', x_ids (shape j) !! id = Some a → viewed tid (View r L (Some j) p kn) c' → sec (k None) c' Q) →
  sec (bind (RETURN_ERROR_IF_COMMITTED_OR_ABORTED id) k) c Q.
Proof.
  intros Hv He Hk. apply secure_bind. unfold RETURN_ERROR_IF_COMMITTED_OR_ABORTED, is_committed.
  apply (sec_reads _ _ _ _ _ _ _ Hv). intros c1 Hv1 _. destruct (bool_decide _).
  { apply (sec_ret _ _ _ _ _ _ Hv1). intros c2. by apply He. }
  apply (sec_is_active _ _ _ _ _ _ _ _ _ _ _ Hv1). intros c2 Hv2. case_bool_decide as Ha.
  - apply (sec_ret _ _ _ _ _ _ Hv2). intros c3. destruct Ha as [a Ha]. by apply (Hk a).
  - apply (sec_ret _ _ _ _ _ _ Hv2). intros c3. by apply He.
Qed.

(** Refusing a request inside [m_member_mtx]. *)
Lemma sec_refuse req e X al sp kn c :
  request_ok req → known_error e = true →
  viewed tid (View true [] (Some (Inner None X al sp)) None kn) c →
  sec (let! r := SET_ERROR req e in unlock m_member_mtx ;;; Ret r) c rests.
Proof.
  intros Hreq He Hv. apply secure_bind. eapply sec_error; [exact Hv|done|done|]. intros rep c1 Hv1.
  eapply sec_leave; [exact Hv1|by apply not_elem_of_nil|]. intros c2 Hv2. by eapply sec_done.
Qed.

(** What WRITE, COMMIT and ABORT do after their first check: find the transaction, take its
    mutex, and check again.  Where they go on the id still has the address they found. *)
Lemma sec_second_check req id a X al sp kn (body : positive → prog ServerBackend Reply) c :
  request_ok req → x_ids X !! id = Some a →
  viewed tid (View true [] (Some (Inner None X al sp)) None kn) c →
  (∀ c' X', x_ids X' !! id = Some a →
     viewed tid (View true [txn_mtx a] (Some (Inner None X' None [])) None (Some (id, a))) c' →
     sec (body a) c' rests) →
  sec (let! txn := find_txn id in
       unlock m_member_mtx ;;;
       lock (txn_mtx txn) ;;;
       lock m_member_mtx ;;;
       let! error := RETURN_ERROR_IF_COMMITTED_OR_ABORTED id in
       match error with
       | Some e => let! r := SET_ERROR req e in unlock (txn_mtx txn) ;;; unlock m_member_mtx ;;; Ret r
       | None => body txn
       end) c rests.
Proof.
  intros Hreq Hid Hv Hbody. eapply sec_find_txn; [exact Hv|exact Hid|]. intros c1 Hv1.
  eapply sec_leave; [exact Hv1|by apply not_elem_of_nil|]. intros c2 Hv2.
  apply (sec_lock _ _ _ _ _ _ _ _ _ _ _ Hv2). intros c3 Hv3.
  apply (sec_enter _ _ _ _ _ _ _ _ _ Hv3). intros c4 X4 Hv4 [Hkn _] _.
  eapply sec_check_aborted; [exact Hv4| |].
  - intros e c5 He Hv5. apply secure_bind. eapply sec_error; [exact Hv5|done|done|]. intros rep c6 Hv6.
    eapply sec_unlock_txn; [exact Hv6|done|by apply not_elem_of_nil|]. intros c7 Hv7.
    eapply sec_leave; [exact Hv7|by apply not_elem_of_nil|]. intros c8 Hv8. by eapply sec_done.
  - intros b c5 Hb Hv5. simpl in Hb. rewrite (Hkn id a b eq_refl Hb) in Hb. by eapply Hbody.
Qed.

(** ** The commands *)

(** A command whose transaction is pinned ends by giving up its mutex. *)
Lemma sec_reply_pinned id a t kn (x : Reply) c :
  viewed tid (View true [txn_mtx a] None (Some (id, a, t)) kn) c →
  sec (unlock (txn_mtx a) ;;; Ret x) c rests.
Proof.
  intros Hv. eapply sec_unlock_txn; [exact Hv|done|by apply not_elem_of_nil|]. intros c1 Hv1. by eapply sec_done.
Qed.

Lemma sec_timestamp {A} id a t kn (k : unit → prog ServerBackend A) L c Q :
  txn_ok t → viewed tid (View true L None (Some (id, a, t)) kn) c →
  (∀ now c', viewed tid (View true L None (Some (id, a, with_timestamp now t)) kn) c' → sec (k tt) c' Q) →
  sec (bind (updateTransactionTimestamp a) k) c Q.
Proof.
  intros Ht Hv Hk. apply secure_bind. unfold updateTransactionTimestamp, NOW, syscall_reads.
  apply (sec_reads _ _ _ _ _ _ _ Hv). intros c1 Hv1 _.
  change (txn_set a ?f) with (bind (txn_set a f) (@Ret ServerBackend unit)).
  eapply sec_txn_set; [exact Hv1|done|by destruct Ht|]. intros c2 Hv2.
  apply (sec_ret _ _ _ _ _ _ Hv2). intros c3 Hv3. by eapply Hk.
Qed.

Lemma sec_WRITE req ip c : request_ok req → viewed tid at_rest c → sec (WRITE req ip) c rests.
Proof.
  intros Hreq Hv. unfold WRITE. apply (sec_enter _ _ _ _ _ _ _ _ _ Hv). intros c1 X1 Hv1 _ _.
  eapply sec_check_invalid; [exact Hv1|intros e c2 He Hv2; by eapply sec_refuse|].
  intros a c2 Hid Hv2. eapply sec_second_check; [done|exact Hid|exact Hv2|]. clear dependent c c1 c2.
  intros c X Hid' Hv. eapply sec_leave_pin; [exact Hv|set_solver|by left|exact Hid'|]. clear dependent c.
  intros c t Ht Hv. eapply sec_timestamp; [done|exact Hv|]. clear dependent c. intros now c Hv.
  assert (Ht1 : txn_ok (with_timestamp now t)) by by destruct Ht. revert Ht1 Hv. generalize (with_timestamp now t).
  clear t Ht. intros t Ht Hv. apply (sec_txn_get _ _ _ _ _ _ _ _ _ _ _ _ _ Hv). clear dependent c. intros c Hv.
  eapply secure_seq with (R := λ _ c', ∃ t', viewed tid (View true [txn_mtx a] None (Some (_, a, t')) _) c');
    [|intros x c' _ [t' Hv']; by eapply sec_reply_pinned].
  destruct (bool_decide _); [eapply sec_error; [exact Hv|done|done|by eauto]|].
  apply (sec_txn_get _ _ _ _ _ _ _ _ _ _ _ _ _ Hv). clear dependent c. intros c Hv.
  assert (Hput : ∀ t', sp_file_attributes t' = sp_file_attributes t → txn_ok t' → rq_seq_num req ≤ max_seq_num t' → ∀ c,
    viewed tid (View true [txn_mtx a] None (Some (rq_txn_id req, a, t')) (Some (rq_txn_id req, a))) c →
    sec (txn_set a (with_buffer (rq_seq_num req) (rq_data req)) ;;; SET_ACK req ip) c
      (λ _ c', ∃ t', viewed tid (View true [txn_mtx a] None (Some (rq_txn_id req, a, t')) (Some (rq_txn_id req, a))) c')).
  { intros t' _ [Hm Hb] Hle c0 Hv0. eapply sec_txn_set; [exact Hv0|done| |].
    - split; simpl; [done|]. intros q d [[<- <-]|[_ Hq]]%lookup_insert_Some; [by split; [|apply Hreq]|by apply Hb].
    - intros c1 Hv1. eapply sec_ack; [exact Hv1|done|]. intros rep c2 Hv2. by exists (with_buffer (rq_seq_num req) (rq_data req) t'). }
  destruct (Z.ltb_spec (max_seq_num t) (rq_seq_num req)) as [Hlt|Hge].
  - assert (Ht' : txn_ok (with_max_seq_num (rq_seq_num req) t)).
    { destruct Ht as [Hm Hb], (req_seq_num _ Hreq). split; simpl; [lia|]. intros q d Hq. destruct (Hb q d Hq). split; [lia|done]. }
    eapply sec_txn_set; [exact Hv|done|done|]. intros c1 Hv1. apply (Hput (with_max_seq_num (rq_seq_num req) t)); [done|done|simpl; lia|exact Hv1].
  - apply (Hput t); done.
Qed.

Lemma sec_ABORT req ip c : request_ok req → viewed tid at_rest c → sec (ABORT m_directory req ip) c rests.
Proof.
  intros Hreq Hv. unfold ABORT. apply (sec_enter _ _ _ _ _ _ _ _ _ Hv). intros c1 X1 Hv1 _ _.
  eapply sec_check_invalid; [exact Hv1|intros e c2 He Hv2; by eapply sec_refuse|].
  intros a c2 Hid Hv2. eapply sec_second_check; [done|exact Hid|exact Hv2|]. clear dependent c c1 c2.
  intros c X Hid' Hv. eapply sec_unlock_txn; [exact Hv|done|by apply not_elem_of_nil|]. clear dependent c. intros c Hv.
  simpl in Hv. apply (sec_get _ _ _ _ _ _ _ Hv). clear dependent c. intros c Hv Hc.
  destruct (vw_in _ _ _ Hv _ eq_refl) as (_ & Hok & Hs & _). pose proof Hid' as Hida. simpl in Hs. rewrite <- Hs in Hida. simpl in Hida.
  destruct (ok_txn _ Hok _ _ Hida) as [t Ht]. exists (sp_file_attributes t). rewrite Ht. split; [done|].
  destruct (ok_named_file _ _ _ Hok Ht) as (f & Hf & _).
  assert (Hobj : is_Some (x_objects X !! sp_file_attributes t)) by (rewrite <- Hs; simpl; rewrite lookup_fmap, Hf; by eexists).
  apply (sec_get _ _ _ _ _ _ _ Hv). clear dependent c. intros c Hv Hc.
  destruct (vw_in _ _ _ Hv _ eq_refl) as (_ & Hok & Hs & _). simpl in Hs. rewrite <- Hs in Hobj. simpl in Hobj.
  destruct Hobj as [y Hy]. apply lookup_fmap_Some in Hy as (f2 & _ & Hf2). exists (m_file_name f2). rewrite Hf2. split; [done|].
  pose proof (ok_name _ Hok _ _ Hf2) as Hname. apply secure_bind.
  eapply sec_log; [exact Hv|by left|by apply not_elem_of_nil|exact Hname|]. clear dependent c. intros c Hv.
  apply secure_bind. eapply sec_remove; [exact Hv|exact Hid'|done|done|]. clear dependent c. intros c X' Hv.
  apply secure_bind. eapply sec_ack; [exact Hv|done|]. clear dependent c. intros rep c Hv.
  eapply sec_leave; [exact Hv|by apply not_elem_of_nil|]. intros c' Hv'. by eapply sec_done.
Qed.

Lemma sec_NEW_TXN req ip c : request_ok req → viewed tid at_rest c → sec (NEW_TXN m_directory req ip) c rests.
Proof.
  intros Hreq Hv. unfold NEW_TXN. destruct (_ =? 0).
  2: { eapply sec_error; [exact Hv|done|done|done]. }
  apply (sec_enter _ _ _ _ _ _ _ _ _ Hv). intros c1 X1 Hv1 _ _.
  eapply sec_pick; [exact Hv1|]. intros id c2 X2 Hint Hv2. apply secure_bind. unfold try_catch. apply secure_bind.
  unfold ebind. apply secure_bind. eapply sec_add; [exact Hv2|by apply not_elem_of_nil|apply Hreq|by apply not_elem_of_nil|].
  intros c3 X3 Hv3. cbv beta iota. apply (sec_ret _ _ _ _ _ _ Hv3). intros c4 Hv4. cbv beta iota.
  apply (sec_ret _ _ _ _ _ _ Hv4). intros c5 Hv5. cbv beta iota. apply secure_bind.
  eapply sec_response; [exact Hv5|by left|done|done|done|done|]. intros rep c6 Hv6.
  eapply sec_leave; [exact Hv6|by apply not_elem_of_nil|]. intros c7 Hv7. by eapply sec_done.
Qed.

(** COMMIT's loops, over the contents of the transaction pinned.  Counting past the largest
    [int] ends the process. *)
Definition counts_to (n : Z) : Prop := n < INT32_MAX ∨ ∀ h, may_end tid h.

Lemma sec_increment {A} q (p : prog ServerBackend A) n c Q :
  q ≤ n → counts_to n → sec p c Q → sec (if q =? INT32_MAX then Halt Undefined else p) c Q.
Proof.
  intros Hq [Hn|Hany] Hp; [by rewrite (proj2 (Z.eqb_neq q INT32_MAX)) by lia|].
  destruct (q =? INT32_MAX); [by apply secure_halt|done].
Qed.

Lemma sec_verify_loop id a t kn fuel q c (Q : option Z → conf → Prop) :
  let v := View true [txn_mtx a] None (Some (id, a, t)) kn in
  counts_to (max_seq_num t) → viewed tid v c →
  1 ≤ q → (∀ i, 1 ≤ i < q → is_Some (buffers t !! i)) → Z.of_nat (size (buffers t)) + 1 < Z.of_nat fuel + q →
  (∀ r c', viewed tid v c' →
     match r with Some k => 1 ≤ k ≤ max_seq_num t | None => ∀ i, 1 ≤ i ≤ max_seq_num t → is_Some (buffers t !! i) end →
     Q r c') →
  sec (verify_loop fuel a q) c Q.
Proof.
  intros v Hmax. revert q c. induction fuel as [|fuel IH]; intros q c Hv Hq Hin Hsize HQ.
  { exfalso. assert (Z.to_nat (q - 1) ≤ size (buffers t))%nat; [|lia]. apply (range_size _ 1). intros i Hi. apply Hin. lia. }
  cbn [verify_loop]. apply (sec_txn_get _ _ _ _ _ _ _ _ _ _ _ _ _ Hv). intros c1 Hv1. destruct (Z.leb_spec q (max_seq_num t)).
  2: { apply (sec_ret _ _ _ _ _ _ Hv1). intros c2 Hv2. apply HQ; [done|]. intros i Hi. apply Hin. lia. }
  apply (sec_txn_get _ _ _ _ _ _ _ _ _ _ _ _ _ Hv1). intros c2 Hv2. case_bool_decide as Hqin.
  - apply sec_increment with (max_seq_num t); [done|done|]. apply IH; [done|lia| |lia|done].
    intros i Hi. destruct (decide (i = q)) as [->|]; [done|]. apply Hin. lia.
  - apply (sec_ret _ _ _ _ _ _ Hv2). intros c3 Hv3. apply HQ; [done|]. lia.
Qed.

Lemma sec_write_buffers id a t kn L f fuel q c (Q : exn + unit → conf → Prop) :
  let v := View true L None (Some (id, a, t)) kn in
  txn_ok t → counts_to (max_seq_num t) → writable (m_flags f) = true →
  (∀ i, 1 ≤ i ≤ max_seq_num t → is_Some (buffers t !! i)) → viewed tid v c →
  1 ≤ q ≤ max_seq_num t + 1 → max_seq_num t - q + 1 < Z.of_nat fuel →
  (∀ x c', viewed tid v c' → (x = inr tt ∨ x = inl ErrorWritingToFile) → Q x c') →
  sec (write_buffers fuel f a q) c Q.
Proof.
  intros v Ht Hmax Hf Hall. revert q c. induction fuel as [|fuel IH]; intros q c Hv Hq Hfuel HQ; [lia|].
  cbn [write_buffers]. apply secure_lift. change (txn_get a ?g) with (bind (txn_get a g) Ret).
  apply (sec_txn_get _ _ _ _ _ _ _ _ _ _ _ _ _ Hv). intros c1 Hv1. apply (sec_ret _ _ _ _ _ _ Hv1). intros c2 Hv2.
  destruct (Z.leb_spec q (max_seq_num t)); [|apply (sec_ret _ _ _ _ _ _ Hv2); intros; apply HQ; auto].
  apply secure_lift. change (txn_get a ?g) with (bind (txn_get a g) Ret).
  apply (sec_txn_get _ _ _ _ _ _ _ _ _ _ _ _ _ Hv2). intros c3 Hv3. apply (sec_ret _ _ _ _ _ _ Hv3). intros c4 Hv4.
  destruct (Hall q) as [d Hd]; [lia|]. rewrite Hd. destruct (txn_buffer t Ht _ _ Hd) as [_ Hn].
  apply sec_File_write_then with (v := v); [done|done|by left|done|intros; apply HQ; auto|]. intros c5 Hv5.
  apply sec_increment with (max_seq_num t); [done|done|]. apply IH; [done|lia|lia|done].
Qed.

(** The [try] block of COMMIT. *)
Lemma sec_commit_to_file id a t kn c :
  let v := View true [txn_mtx a] None (Some (id, a, t)) kn in
  txn_ok t → counts_to (max_seq_num t) → (∀ i, 1 ≤ i ≤ max_seq_num t → is_Some (buffers t !! i)) → viewed tid v c →
  sec (commit_to_file m_directory id a (sp_file_attributes t)) c (λ x c', viewed tid v c' ∧
    (x = inr tt ∨ x = inl ErrorOpeningFile ∨ x = inl ErrorWritingToFile)).
Proof.
  intros v Ht Hmax Hall Hv. unfold commit_to_file. apply (sec_lock _ _ _ _ _ _ _ _ _ _ _ Hv). intros c1 Hv1.
  eapply sec_file_get; [exact Hv1|]. intros fa c2 Hname Hv2.
  set (v' := View true (m_file_mtx (sp_file_attributes t) :: own v) None (Some (id, a, t)) kn) in *.
  eapply secure_seq with (R := λ x c', viewed tid v' c' ∧ (x = inr tt ∨ x = inl ErrorOpeningFile ∨ x = inl ErrorWritingToFile)).
  - eapply sec_with_File; [exact Hv2|by left|set_solver|intros; split; [done|auto]|]. intros d c3 Hv3.
    apply secure_lift. unfold loop_fuel. change (txn_get a ?g) with (bind (txn_get a g) Ret).
    apply (sec_txn_get _ _ _ _ _ _ _ _ _ _ _ _ _ Hv3). intros c4 Hv4. apply (sec_ret _ _ _ _ _ _ Hv4). intros c5 Hv5.
    assert (Hsize : (Z.to_nat (max_seq_num t) ≤ size (buffers t))%nat).
    { apply (range_size _ 1). intros i Hi. apply Hall. lia. }
    unfold ebind at 1. apply secure_bind. destruct (txn_max t Ht).
    eapply sec_write_buffers; [exact Ht|done|done|exact Hall|exact Hv5|unfold Constants.initial_seq_num; lia..|].
    intros x c6 Hv6 [-> | ->]; [|apply (sec_ret _ _ _ _ _ _ Hv6); intros c7 Hv7; split; [done|auto]].
    unfold lift. apply secure_bind. apply (sec_modify _ _ _ _ _ _ _ Hv6).
    { intros s. by split; [split; [..|intros b u Hb; left|]|]. }
    intros c7 Hv7. apply secure_bind. eapply sec_log; [exact Hv7|by left|set_solver|exact Hname|]. intros c8 Hv8.
    apply secure_bind. unfold File_getFileSize, syscall_reads. apply (sec_reads _ _ _ _ _ _ _ Hv8). intros c9 Hv9 _.
    destruct (w_fstat _ _) as [size|]; [|by apply secure_halt]. apply (sec_ret _ _ _ _ _ _ Hv9). intros c10 Hv10.
    change (file_set ?p ?g) with (bind (file_set p g) (@Ret ServerBackend unit)).
    eapply sec_file_set; [exact Hv10|done|]. intros c11 Hv11. apply (sec_ret _ _ _ _ _ _ Hv11). intros c12 Hv12.
    apply (sec_ret _ _ _ _ _ _ Hv12). intros c13 Hv13. split; [done|auto].
  - intros x c3 _ [Hv3 Hx]. eapply (sec_unlock _ _ (m_file_mtx _)); [exact Hv3|done|set_solver|]. intros c4 Hv4.
    apply (sec_ret _ _ _ _ _ _ Hv4). intros c5 Hv5. by split.
Qed.

(** COMMIT once every sequence number is there: the writing, and the end. *)
Lemma sec_commit_finish req ip a t kn c :
  request_ok req → txn_ok t → counts_to (max_seq_num t) →
  (∀ i, 1 ≤ i ≤ max_seq_num t → is_Some (buffers t !! i)) →
  viewed tid (View true [txn_mtx a] None (Some (rq_txn_id req, a, t)) kn) c →
  sec (let! failed := try_catch
         (let? _ := commit_to_file m_directory (rq_txn_id req) a (sp_file_attributes t) in eret None)
         (λ e, match e with
               | ErrorOpeningFile =>
                   Some (let! r := SET_ERROR req Errors.ErrorOpeningFile in Ret (Some r))
               | ErrorWritingToFile =>
                   Some (
                     let! file_name := file_get (sp_file_attributes t) m_file_name in
                     let! file_size := file_get (sp_file_attributes t) m_file_size in
                     let! _ := syscall (w_truncate file_name file_size) in
                     let! r := SET_ERROR req Errors.ErrorWritingFile in Ret (Some r))
               | _ => None
               end) in
       match failed with
       | Some r => unlock (txn_mtx a) ;;; Ret r
       | None =>
           lock m_member_mtx ;;;
           removeTransaction (rq_txn_id req) ;;;
           let! r := SET_ACK req ip in
           unlock (txn_mtx a) ;;; unlock m_member_mtx ;;; Ret r
       end) c rests.
Proof.
  intros Hreq Ht Hmax Hall Hv. set (v := View true [txn_mtx a] None (Some (rq_txn_id req, a, t)) kn).
  eapply secure_seq with (R := λ _ c', viewed tid v c').
  - unfold try_catch. apply secure_bind. unfold ebind. apply secure_bind.
    eapply secure_mono; [by eapply sec_commit_to_file|]. intros x c1 _ [Hv1 Hx]. destruct Hx as [-> |[-> | ->]].
    + apply (sec_ret _ _ _ _ _ _ Hv1). intros c2 Hv2. by apply (sec_ret _ _ _ _ _ _ Hv2).
    + apply (sec_ret _ _ _ _ _ _ Hv1). intros c2 Hv2. apply secure_bind. eapply sec_error; [exact Hv2|done|done|].
      intros rep c3 Hv3. by apply (sec_ret _ _ _ _ _ _ Hv3).
    + apply (sec_ret _ _ _ _ _ _ Hv1). intros c2 Hv2. eapply sec_file_get; [exact Hv2|]. intros f1 c3 _ Hv3.
      eapply sec_file_get; [exact Hv3|]. intros f2 c4 _ Hv4.
      apply (sec_syscall _ _ _ _ _ _ _ Hv4); [intros w; apply w_truncate_step|by left|]. intros w5 c5 Hv5.
      apply secure_bind. eapply sec_error; [exact Hv5|done|done|]. intros rep c6 Hv6. by apply (sec_ret _ _ _ _ _ _ Hv6).
  - intros [r|] c1 _ Hv1; [by eapply sec_reply_pinned|].
    apply (sec_enter _ _ _ _ _ _ _ _ _ Hv1). intros c2 X Hv2 [_ Hpin] _. apply secure_bind.
    eapply sec_remove; [exact Hv2|by eapply Hpin|done|done|]. intros c3 X3 Hv3.
    apply secure_bind. eapply sec_ack; [exact Hv3|done|]. intros rep c4 Hv4.
    eapply sec_unlock_txn; [exact Hv4|done|by apply not_elem_of_nil|]. intros c5 Hv5.
    eapply sec_leave; [exact Hv5|by apply not_elem_of_nil|]. intros c6 Hv6. by eapply sec_done.
Qed.

Lemma sec_COMMIT req ip c :
  request_ok req → counts_to (rq_seq_num req) → viewed tid at_rest c → sec (COMMIT m_directory req ip) c rests.
Proof.
  intros Hreq Hseq Hv. unfold COMMIT. apply (sec_enter _ _ _ _ _ _ _ _ _ Hv). intros c1 X1 Hv1 _ _.
  apply (sec_reads _ _ _ _ _ _ _ Hv1). intros c2 Hv2 _. destruct (bool_decide _).
  { apply secure_bind. eapply sec_ack; [exact Hv2|done|]. intros rep c3 Hv3.
    eapply sec_leave; [exact Hv3|by apply not_elem_of_nil|]. intros c4 Hv4. by eapply sec_done. }
  apply (sec_is_active _ _ _ _ _ _ _ _ _ _ _ Hv2). intros c3 Hv3. case_bool_decide as Hid; cbn [negb].
  2: { by eapply sec_refuse. }
  destruct Hid as [a Hid]. eapply sec_second_check; [done|exact Hid|exact Hv3|]. clear dependent c c1 c2 c3.
  intros c X Hid' Hv. eapply sec_leave_pin; [exact Hv|set_solver|by left|exact Hid'|]. clear dependent c.
  intros c t Ht Hv. eapply sec_timestamp; [done|exact Hv|]. clear dependent c. intros now c Hv.
  apply (sec_txn_get _ _ _ _ _ _ _ _ _ _ _ _ _ Hv). clear dependent c. intros c Hv.
  destruct (Z.ltb_spec (rq_seq_num req) (max_seq_num (with_timestamp now t))) as [Hlt|Hge].
  { apply secure_bind. eapply sec_error; [exact Hv|done|done|]. intros rep c1 Hv1. by eapply sec_reply_pinned. }
  pose proof (req_seq_num _ Hreq) as Hint. pose proof (txn_ok_promised t (rq_seq_num req) now Ht Hint Hge) as Ht'.
  eapply sec_txn_set; [exact Hv|done|exact Ht'|]. clear dependent c. intros c Hv.
  set (t' := with_max_seq_num (rq_seq_num req) (with_timestamp now t)) in *.
  apply (sec_txn_get _ _ _ _ _ _ _ _ _ _ _ _ _ Hv). clear dependent c. intros c Hv.
  unfold loop_fuel. apply (sec_txn_get _ _ _ _ _ _ _ _ _ _ _ _ _ Hv). clear dependent c. intros c Hv.
  apply secure_bind. eapply sec_verify_loop; [|exact Hv|done|intros i Hi; unfold Constants.initial_seq_num in Hi; lia|
    unfold Constants.initial_seq_num; lia|]; [done|]. clear dependent c. intros [k|] c Hv Hk.
  - apply secure_bind. destruct Hreq as [Hid0 _ _]. 
    eapply sec_response; [exact Hv|by right; left|done| |done|done|].
    + simpl in Hk. unfold int32, INT32_MIN in *. lia.
    + intros rep c1 Hv1. by eapply sec_reply_pinned.
  - by apply (sec_commit_finish req ip a t' (Some (rq_txn_id req, a)) c).
Qed.

(** READ holds no mutex; it may end the process, for instance with a file that is too large. *)
Lemma sec_READ req ip c :
  (∀ h, may_end tid h) → request_ok req → viewed tid at_rest c → sec (READ m_directory req ip) c rests.
Proof.
  intros Hany Hreq Hv. unfold READ, try_catch. apply secure_bind.
  eapply sec_with_File; [exact Hv|by left|by apply not_elem_of_nil|..].
  { intros c1 Hv1. eapply sec_error; [exact Hv1|done|done|done]. }
  intros d c1 Hv1. unfold ebind at 1. apply secure_bind. unfold File_read. cbn [m_flags]. change (readable O_RDONLY) with true. cbv beta iota.
  apply secure_lift. unfold File_getFileSize, syscall_reads. apply (sec_reads _ _ _ _ _ _ _ Hv1). intros c2 Hv2 _.
  destruct (w_fstat _ _) as [size|]; [|by apply secure_halt]. apply (sec_ret _ _ _ _ _ _ Hv2). intros c3 Hv3. cbv zeta.
  destruct ((to_int32 size <? 0) || _); [by apply secure_halt|].
  apply secure_lift. unfold readFileDescriptor. cbn [m_fd].
  eapply (sec_read_loop _ _ {| m_fd := d; m_flags := O_RDONLY |}); [| |exact Hv3|]; [simpl; lia|by left|]. intros [ret buffer] c4 Hv4.
  destruct (ret <? 0).
  - apply (sec_ret _ _ _ _ _ _ Hv4). intros c5 Hv5. apply (sec_ret _ _ _ _ _ _ Hv5). intros c6 Hv6. split; [done|].
    intros c7 Hv7. eapply sec_error; [exact Hv7|done|done|done].
  - apply (sec_ret _ _ _ _ _ _ Hv4). intros c5 Hv5. unfold lift, SET_READ, SET_RESPONSE. apply secure_bind.
    destruct (generateResponse _ _ _ _ _) as [rep|]; [|by apply secure_halt].
    apply (sec_ret _ _ _ _ _ _ Hv5). intros c6 Hv6. apply (sec_ret _ _ _ _ _ _ Hv6). intros c7 Hv7. split; [done|].
    intros c8 Hv8. by apply (sec_ret _ _ _ _ _ _ Hv8).
Qed.

(** A request the commands can be trusted with: a COMMIT below the largest [int], and READs,
    unless they may end the process. *)
Definition servable_by (req : RequestTuple) : Prop :=
  request_ok req ∧ (rq_command req = Constants.commit_cmd → counts_to (rq_seq_num req)) ∧
  (rq_command req = Constants.read_cmd → ∀ h, may_end tid h).

Lemma sec_processCommand req ip c :
  servable_by req → viewed tid at_rest c → sec (processCommand m_directory req ip) c rests.
Proof.
  intros (Hreq & Hcommit & Hread) Hv. unfold processCommand, m_command_to_function.
  case_decide; [apply sec_READ; auto|]. case_decide; [by apply sec_NEW_TXN|]. case_decide; [by apply sec_WRITE|].
  case_decide; [apply sec_COMMIT; auto|]. case_decide; [by apply sec_ABORT|].
  eapply sec_error; [exact Hv|done|done|done].
Qed.
End commands.
