(* ===== verification/InterleavedRecovery.v ===== *)
(** * Recovery under every interleaving

    The first requests a server gets race to initialise it: each looks at [m_initialize],
    takes [m_member_mtx] and looks again.  The one that finds it still set replays the
    logs; it follows the protocol of Sharing.v like every other thread, and no other
    thread touches maps or files before it is done. *)
From S2P Require Import Prelude Stdcxx Constants WireProtocol Messages Prog ReadWrite Posix File Backend Recovery BackendInv BackendSteps BackendSpec CommitSpec Threads RelyGuarantee Timers Sharing Views CriticalSections Interleaving.
From Stdlib Require Import ZArith Lia List Ascii String Bool.
From stdpp Require Import base gmap strings list fin_maps sorting.
#[local] Set Default Goal Selector "!".
Local Open Scope Z_scope.

Section recovery.
Context `{PathResolution} `{HashOrder} (tid : nat) (may_end : nat → halt → Prop) (may_exit : may_end tid ExitFailure).
Context (m_directory : bytes).

Abbreviation sec p c Q := (secure may_end out_of_ids tid p c Q).

(** ** Reading the logs *)

(** Inside [m_member_mtx], the maps of shape [X], nothing loaded yet, clean logs left. *)
Record recovering (X : Shape) (rand : list Z) (φ : gmap bytes bytes → Prop) (c : conf) : Prop := {
  rec_view : viewed tid (View false [] (Some (Inner None X None [])) None None) c;
  rec_init : m_initialize (c_shared c) = true;
  rec_logs : clean_logs (backend_world (c_shared c));
  rec_rand : w_rand (backend_world (c_shared c)) = rand;
  rec_history : history (c_ghost c) = ∅;
  rec_files : φ (w_fs (backend_world (c_shared c)))
}.

Implicit Types (φ : gmap bytes bytes → Prop) (X : Shape) (rand : list Z).

Lemma recovering_rely X rand φ c c' : recovering X rand φ c → respects tid c c' → recovering X rand φ c'.
Proof.
  intros [V1 V2 V3 V4 V5 V6] Hr. destruct (vw_in _ _ _ V1 _ eq_refl) as (Hm & _).
  destruct (res_member _ _ _ Hr Hm) as (Hq & Hh & _). pose proof (q_files _ _ Hq V2) as Hf. split.
  - by eapply viewed_rely.
  - by rewrite (q_init _ _ Hq).
  - unfold clean_logs. by rewrite Hf, (q_rand _ _ Hq).
  - by rewrite (q_rand _ _ Hq).
  - by rewrite Hh.
  - by rewrite Hf.
Qed.

(** Logs stay clean as files disappear. *)
Lemma clean_logs_fewer w w' : clean_logs w → w_fs w' ⊆ w_fs w → w_rand w' = w_rand w → clean_logs w'.
Proof.
  intros Hc Hf Hr log contents read e Hlog Hcont Hread He. rewrite Hr.
  apply (Hc log contents read e); [done|by eapply lookup_weaken|done|done].
Qed.

(** A system call that changes no file but by removing it. *)
Lemma rec_syscall {A B} (f : World → A * World) (k : A → prog ServerBackend B) X rand φ (φ' : A → gmap bytes bytes → Prop) c Q :
  recovering X rand φ c →
  (∀ w, φ (w_fs w) → world_step w (f w).2 ∧ w_fs (f w).2 ⊆ w_fs w ∧ φ' (f w).1 (w_fs (f w).2)) →
  (∀ x c', recovering X rand (φ' x) c' → sec (k x) c' Q) →
  sec (bind (syscall f) k) c Q.
Proof.
  intros Hrec Hf Hk c' Hr Hc. apply (recovering_rely _ _ _ _ c') in Hrec as [V1 V2 V3 V4 V5 V6]; [|done].
  destruct (Hf _ V6) as (Hstep & Hsub & Hφ). set (w := (f (backend_world (c_shared c'))).2) in *.
  pose proof (syscall_same f (c_shared c') Hstep) as Hs. destruct Hstep as (Hnow & Hrand & _).
  intros Htime. exists (c_ghost c'). split.
  - apply member_step; [done|by apply (vw_in _ _ _ V1 _ eq_refl)|done|done|done| |apply (con_history _ Hc)| | |exact Htime].
    + intros a tid' Ha. destruct (con_pin _ Hc a tid' Ha) as (_ & id & t & _ & Ht & _ & Hf'). split; [done|]. split; [done|].
      split; [done|]. intros t' Ht'. replace t' with t; [done|]. apply (inj Some). by rewrite <- Ht, <- Ht'.
    + unfold new_ids. change (backend_world ?s) with w at 1 2. rewrite Hrand. apply (con_rand _ Hc).
    + change (w_now (backend_world (c_shared c')) ≤ w_now w). lia.
  - apply Hk. split; [by apply viewed_files|done| |by rewrite <- V4|done|exact Hφ].
    by apply (clean_logs_fewer (backend_world (c_shared c'))).
Qed.

Lemma rec_reads {A B} (f : ServerBackend → A) (k : A → prog ServerBackend B) X rand φ c Q :
  recovering X rand φ c → (∀ c', recovering X rand φ c' → sec (k (f (c_shared c'))) c' Q) →
  sec (bind (reads f) k) c Q.
Proof.
  intros Hrec Hk c' Hr Hc. apply (recovering_rely _ _ _ _ c') in Hrec; [|done]. exists (c_ghost c').
  destruct c'. split; [split; [done|by intros tid' _]|by apply Hk].
Qed.

Lemma rec_ret {A} (x : A) X rand φ c (Q : A → conf → Prop) :
  recovering X rand φ c → (∀ c', recovering X rand φ c' → Q x c') → sec (Ret x) c Q.
Proof. intros Hrec HQ. apply secure_ret. intros c' Hr _. apply HQ. by eapply recovering_rely. Qed.

(** What has been loaded: names are C strings, ids will not come up again. *)
Definition clean_loaded rand (l : Loaded) : Prop :=
  ∀ id name, txn_ids_to_file_names l !! id = Some name → nul_free name = true ∧ id ∉ candidate <$> rand.

Lemma clean_load rand l es :
  clean_loaded rand l → (∀ e, e ∈ es → nul_free (le_file_name e) = true ∧ le_txn_id e ∉ candidate <$> rand) →
  clean_loaded rand (foldl load_entry l es).
Proof.
  revert l. induction es as [|e es IH]; intros l Hl Hes; simpl; [done|]. apply IH; [|by intros; apply Hes; right].
  intros id name. simpl. destruct (txn_ids_to_file_names l !! le_txn_id e).
  - intros [_ Hid]%lookup_delete_Some. by apply Hl.
  - intros [[<- <-]|[_ Hid]]%lookup_insert_Some; [apply Hes; by left|by apply Hl].
Qed.

Lemma w_open_read log w : world_step w (w_open log O_RDONLY w).2 ∧ w_fs (w_open log O_RDONLY w).2 = w_fs w ∧
  match (w_open log O_RDONLY w).1 with Some d => d = resolve log ∧ is_Some (w_fs w !! d) | None => True end.
Proof.
  split; [apply w_open_step|]. pose proof (w_open_spec log O_RDONLY w) as Ho.
  destruct (w_open log O_RDONLY w) as [[d|] w'] eqn:E; simpl in *; [|done].
  destruct Ho as [-> Ho]. destruct (w_fs w !! resolve log); [done|]. by destruct Ho.
Qed.

(** Whatever is read of a file is a prefix of it. *)
Lemma rec_rdbuf fuel d full contents X rand c (Q : bytes → conf → Prop) :
  let φ := λ fs : gmap bytes bytes, fs !! d = Some full in
  contents `prefix_of` full → recovering X rand φ c →
  (∀ read c', read `prefix_of` full → recovering X rand φ c' → Q read c') →
  sec (rdbuf fuel d contents) c Q.
Proof.
  intros φ. revert contents c. induction fuel as [|fuel IH]; intros contents c Hp Hrec HQ; cbn [rdbuf].
  { apply (rec_ret _ _ _ _ _ _ Hrec). auto. }
  apply (rec_syscall _ _ _ _ _ (λ x fs, φ fs ∧ match x with Some chunk => chunk `prefix_of` drop (length contents) full | None => True end) _ _ Hrec).
  { intros w Hw. cbv beta. split; [apply w_read_step|]. destruct (w_read_spec d (length contents) fuel w full Hw) as [-> Hx].
    split; [done|]. split; [done|]. by destruct (w_read _ _ _ w).1; [destruct Hx|]. }
  intros x c1 Hrec1. destruct (rec_files _ _ _ _ Hrec1) as [_ Hx].
  assert (Hrec2 : recovering X rand φ c1) by (destruct Hrec1 as [? ? ? ? ? [? _]]; by split).
  destruct x as [[|b chunk]|]; [apply (rec_ret _ _ _ _ _ _ Hrec2); auto| |apply (rec_ret _ _ _ _ _ _ Hrec2); auto].
  apply IH; [|done|done]. destruct Hp as [rest ->]. rewrite drop_app_length in Hx. by apply prefix_app.
Qed.

Abbreviation anything := (λ _ : gmap bytes bytes, True).

Lemma rec_weaken X rand φ c : recovering X rand φ c → recovering X rand anything c.
Proof. by intros [? ? ? ? ? _]; split. Qed.

(** One log: skipped, or read as far as it can be, removed, and loaded. *)
Lemma sec_load_log_file l log X rand c (Q : Loaded → conf → Prop) :
  log ∈ m_logs → clean_loaded rand l → recovering X rand anything c →
  (∀ l' c', clean_loaded rand l' → recovering X rand anything c' → Q l' c') →
  sec (load_log_file l log) c Q.
Proof.
  intros Hlog Hl Hrec HQ. unfold load_log_file.
  apply (rec_syscall _ _ _ _ _ (λ x fs, match x with Some d => d = resolve log ∧ is_Some (fs !! d) | None => True end) _ _ Hrec).
  { intros w _. cbv beta. destruct (w_open_read log w) as (Hs & Hfs & Hx). rewrite Hfs. by split. }
  intros [d|] c1 Hrec1; [|apply (rec_ret _ _ _ _ _ _ Hrec1); intros c2 Hrec2%rec_weaken; auto].
  destruct (rec_files _ _ _ _ Hrec1) as [-> [full Hfull]].
  assert (Hrec2 : recovering X rand (λ fs, fs !! resolve log = Some full) c1) by (destruct Hrec1; by split).
  clear Hrec1 Hfull. unfold syscall_reads. apply (rec_reads _ _ _ _ _ _ _ Hrec2). intros c2 Hrec3.
  apply secure_bind. eapply rec_rdbuf; [apply prefix_nil|exact Hrec3|]. intros read c3 Hread Hrec4.
  assert (Hclean : clean_loaded rand (load_log l read)).
  { apply clean_load; [done|]. intros e He. rewrite <- (rec_rand _ _ _ _ Hrec4).
    by apply (rec_logs _ _ _ _ Hrec4 log full read e Hlog (rec_files _ _ _ _ Hrec4)). }
  apply (rec_syscall _ _ _ _ _ (λ _, anything) _ _ Hrec4).
  { intros w Hw. cbv beta. split; [apply w_remove_step|]. split; [|done].
    unfold w_remove. pose proof (next_call_fs w) as E. destruct (next_call w) as [r w1]. simpl in E. rewrite <- E.
    destruct r, (w_fs w1 !! resolve log); simpl; try done; apply delete_subseteq. }
  intros [] c4 Hrec5; [|by apply secure_halt]. apply (rec_ret _ _ _ _ _ _ Hrec5). auto.
Qed.

Lemma sec_load_logs l logs X rand c (Q : Loaded → conf → Prop) :
  (∀ log, log ∈ logs → log ∈ m_logs) → clean_loaded rand l → recovering X rand anything c →
  (∀ l' c', clean_loaded rand l' → recovering X rand anything c' → Q l' c') →
  sec (load_logs l logs) c Q.
Proof.
  revert l c. induction logs as [|log logs IH]; intros l c Hlogs Hl Hrec HQ; cbn [load_logs].
  { apply (rec_ret _ _ _ _ _ _ Hrec). auto. }
  apply secure_bind. eapply sec_load_log_file; [apply Hlogs; by left|exact Hl|exact Hrec|]. intros l' c' Hl' Hrec'.
  apply IH; [|done..]. intros log' ?. apply Hlogs. by right.
Qed.

(** ** Truncating the files and restarting the transactions *)

Lemma sec_truncateFiles sizes i c (Q : unit → conf → Prop) :
  let v := View false [] (Some i) None None in
  viewed tid v c → (∀ c', viewed tid v c' → Q tt c') → sec (truncateFiles sizes) c Q.
Proof.
  intros v. revert c. induction sizes as [|[name size] sizes IH]; intros c Hv HQ; cbn [truncateFiles].
  { apply (sec_ret _ _ _ _ _ _ Hv). auto. }
  apply secure_bind. unfold fileExists, syscall_reads. change (reads ?f) with (bind (reads f) (@Ret ServerBackend bool)).
  apply (sec_reads _ _ _ _ _ _ _ Hv). intros c1 Hv1 _. generalize (bool_decide (is_Some (w_stat name (the_world (c_shared c1))))).
  intros ex. apply (sec_ret _ _ _ _ _ _ Hv1). intros c2 Hv2. apply secure_bind.
  destruct ex; [|apply (sec_ret _ _ _ _ _ _ Hv2); intros; by apply IH].
  destruct (0 <? size).
  - apply (sec_syscall _ _ _ _ _ _ _ Hv2); [intros w; apply w_truncate_step|right; by eexists|]. intros w c3 Hv3.
    destruct (w_truncate name size w).1; [|by apply secure_halt]. apply (sec_ret _ _ _ _ _ _ Hv3). intros. by apply IH.
  - apply (sec_syscall _ _ _ _ _ _ _ Hv2); [intros w; apply w_remove_step|right; by eexists|]. intros w c3 Hv3.
    destruct (w_remove name w).1; [|by apply secure_halt]. apply (sec_ret _ _ _ _ _ _ Hv3). intros. by apply IH.
Qed.

Lemma sec_add_all (l : list (Z * bytes)) X c (Q : exn + unit → conf → Prop) :
  NoDup l.*1 → Forall (λ e, nul_free e.2 = true) l →
  viewed tid (View false [] (Some (Inner None X None l.*1)) None None) c →
  (∀ c' X', viewed tid (View false [] (Some (Inner None X' None [])) None None) c' → Q (inr tt) c') →
  sec (for_each (λ '(txn_id, file_name), addNewTransaction m_directory txn_id file_name) l) c Q.
Proof.
  revert X c. induction l as [|[id name] l IH]; intros X c Hnd Hnul Hv HQ; cbn [for_each].
  { apply (sec_ret _ _ _ _ _ _ Hv). intros c' Hv'. by eapply HQ. }
  cbn [fmap list_fmap fst] in Hnd, Hv. apply NoDup_cons in Hnd as [Hid Hnd]. apply Forall_cons in Hnul as [Hname Hnul].
  unfold ebind. apply secure_bind. eapply sec_add; [exact Hv|exact Hid|exact Hname|by apply not_elem_of_nil|].
  intros c' X' Hv'. by eapply IH.
Qed.

(** From recovering to restarting: the ids loaded have never been used. *)
Lemma start_adding X rand l c :
  clean_loaded rand l → recovering X rand anything c →
  viewed tid (View false [] (Some (Inner None X None (iterate (txn_ids_to_file_names l)).*1)) None None) c.
Proof.
  intros Hl [[V1 V2 V3 V4 V5] _ _ Hr Hh _]. split; [done|done| |done|done]. intros i [= <-].
  destruct (V3 _ eq_refl) as (Hm & Hok & Hs & Ha & _). split; [done|]. split; [done|]. split; [done|]. split; [done|].
  simpl. intros id Hid. rewrite Hh, Hr. split; [apply lookup_empty|].
  apply list_elem_of_fmap in Hid as ([id' name] & -> & He). rewrite iterate_perm in He. apply elem_of_map_to_list in He.
  by apply (Hl id' name).
Qed.

Lemma sec_initializeTransactions X rand c (Q : exn + unit → conf → Prop) :
  recovering X rand anything c →
  (∀ c' X', viewed tid (View false [] (Some (Inner None X' None [])) None None) c' → Q (inr tt) c') →
  sec (initializeTransactions m_directory) c Q.
Proof.
  intros Hrec HQ. unfold initializeTransactions, loadFilesAndTransactions. apply secure_lift.
  eapply sec_load_logs; [done| |exact Hrec|].
  { intros id name. simpl. by rewrite lookup_empty. }
  intros l c1 Hl Hrec1. pose proof (start_adding _ _ _ _ Hl Hrec1) as Hv1. apply secure_lift.
  eapply sec_truncateFiles; [exact Hv1|]. intros c2 Hv2. eapply sec_add_all; [apply iterate_fst_NoDup| |exact Hv2|done].
  apply Forall_forall. intros [id name] He. rewrite iterate_perm in He. apply elem_of_map_to_list in He. by apply (Hl id name).
Qed.

(** ** Initialising *)

Lemma sec_set_initialize (k : unit → prog ServerBackend unit) X c Q :
  viewed tid (View false [] (Some (Inner None X None [])) None None) c →
  (∀ c', viewed tid (View true [] (Some (Inner None X None [])) None None) c' → sec (k tt) c' Q) →
  sec (bind (modify (set_initialize false)) k) c Q.
Proof.
  intros Hv Hk. apply (sec_act _ _ _ _ _ _ _ Hv). intros c' Hv' Hc'. pose proof Hv' as [V1 V2 V3 V4 V5].
  destruct (V3 _ eq_refl) as (Hm & Hok & Hs & Ha & Hf). exists tt, (set_initialize false (c_shared c')).
  split; [done|]. intros Htime. exists (c_ghost c'). split.
  - apply member_step; [done|done|done|done|done| |apply (con_history _ Hc')|apply (con_rand _ Hc')|done|done].
    intros a tid' Hp. split; [done|]. split; [done|]. split; [done|]. intros t. apply (ok_named_file _ a t Hok).
  - apply Hk. split; [done|done| |done|done]. intros i [= <-]. split; [done|]. split; [by apply (ok_frame (c_shared c'))|]. done.
Qed.

(** A server that others have initialised. *)
Lemma known_ready L i p kn r c : viewed tid (View r L i p kn) c → m_initialize (c_shared c) = false → viewed tid (View true L i p kn) c.
Proof. by intros [V1 V2 V3 V4 V5] Hi; split. Qed.

Lemma sec_initialize c :
  viewed tid (View false [] None None None) c →
  sec (initializeFunctionsAndTransactions m_directory) c (rests tid).
Proof.
  intros Hv. unfold initializeFunctionsAndTransactions. apply (sec_reads _ _ _ _ _ _ _ Hv). intros c1 Hv1 _.
  destruct (m_initialize (c_shared c1)) eqn:E1.
  2: { apply known_ready in Hv1; [|done]. by eapply sec_done. }
  apply (sec_enter _ _ _ _ _ _ _ _ _ Hv1). clear dependent c c1. intros c X Hv _ Hclean.
  assert (Hend : ∀ X' c', viewed tid (View true [] (Some (Inner None X' None [])) None None) c' →
    sec (unlock m_member_mtx) c' (rests tid)).
  { intros X' c' Hv'. change (unlock m_member_mtx) with (bind (unlock m_member_mtx) (@Ret ServerBackend unit)).
    eapply sec_leave; [exact Hv'|by apply not_elem_of_nil|]. intros c2 Hv2. by eapply sec_done. }
  destruct (m_initialize (c_shared c)) eqn:E.
  - destruct (Hclean eq_refl) as [Hlogs Hh].
    assert (Hrec : recovering X (w_rand (backend_world (c_shared c))) anything c) by by split.
    apply (rec_reads _ _ _ _ _ _ _ Hrec). intros c1 Hrec1. rewrite (rec_init _ _ _ _ Hrec1). apply secure_bind. apply secure_bind.
    unfold try_catch. apply secure_bind. eapply sec_initializeTransactions; [exact Hrec1|]. intros c2 X2 Hv2.
    apply (sec_ret _ _ _ _ _ _ Hv2). intros c3 Hv3.
    change (modify ?f) with (bind (modify f) (@Ret ServerBackend unit)).
    eapply sec_set_initialize; [exact Hv3|]. intros c4 Hv4. apply (sec_ret _ _ _ _ _ _ Hv4). intros c5 Hv5. by eapply Hend.
  - apply known_ready in Hv; [|done]. apply (sec_reads _ _ _ _ _ _ _ Hv). intros c1 Hv1 _.
    rewrite (vw_ready _ _ _ Hv1 eq_refl). apply secure_bind. apply (sec_ret _ _ _ _ _ _ Hv1). intros c2 Hv2. by eapply Hend.
Qed.

(** ** Requests *)

Lemma sec_processRequest header payload ip c :
  servable_by tid may_end (getClientRequestAsTuple header (Some payload)) →
  viewed tid (View false [] None None None) c →
  sec (processRequest m_directory header payload ip) c (rests tid).
Proof.
  intros Hreq Hv. unfold processRequest. apply secure_bind. eapply secure_mono; [by apply sec_initialize|].
  intros ? c1 _ Hv1. by apply sec_processCommand.
Qed.
End recovery.
