(* ===== verification/InterleavingProps.v ===== *)
(** * Many connections

    A new server whose connections serve their requests side by side: under every schedule
    no request dereferences what is gone, the state is well formed whenever nobody is
    inside [m_member_mtx], and when nothing moves any more every request has been
    answered.  Meanwhile the clock moves on, and the timers of the transactions wake and
    sleep again; what is shown is shown for schedules on which no open transaction reaches
    its timeout.  Another hypothesis is about [rand]: it does not give an id twice.  The
    last theorem shows what happens when it does. *)
From S2P Require Import Prelude Stdcxx Constants WireProtocol Messages Prog ReadWrite Posix File Backend Recovery BackendInv BackendSteps BackendSpec Threads LockOrder RelyGuarantee Timers Sharing Views Interleaving InterleavedRecovery BackendProps Races.
From Stdlib Require Import ZArith Lia List Ascii String Bool.
From stdpp Require Import base gmap strings list fin_maps sets relations.
#[local] Set Default Goal Selector "!".
Local Open Scope Z_scope.

(** ** Connections *)

(** What a connection hands to the backend: header, payload and progress flag. *)
Record Incoming := { in_header : bytes; in_payload : bytes; in_progress : bool }.

Definition tuple_of (r : Incoming) : RequestTuple := getClientRequestAsTuple (in_header r) (Some (in_payload r)).

(** Whatever bytes arrive, the numbers of a request are [int]s and its data is a C string. *)
Lemma tuple_request_ok r : request_ok (tuple_of r).
Proof. by destruct (request_tuple_typed (in_header r) (Some (in_payload r))). Qed.

Definition is_read (r : Incoming) : Prop := rq_command (tuple_of r) = Constants.read_cmd.

(** A COMMIT announces fewer than the largest [int] of sequence numbers. *)
Definition announces_less (r : Incoming) : Prop :=
  rq_command (tuple_of r) = Constants.commit_cmd → rq_seq_num (tuple_of r) < INT32_MAX.

Section connections.
Context `{PathResolution} `{HashOrder} (m_directory : bytes).

(** A connection serves its requests one after the other. *)
Fixpoint serve (l : list Incoming) : prog ServerBackend unit :=
  match l with
  | [] => Ret tt
  | r :: l => processRequest m_directory (in_header r) (in_payload r) (in_progress r) ;;; serve l
  end.

Context (conns : list (list Incoming)) (w : World).

(** The clock and the timers: of [timers_] of the transactions, for [fuel] turns. *)
Context (timers_ fuel : nat) (times : list N).

(** A new server with these connections. *)
Definition serving : process ServerBackend :=
  {| pool := (serve <$> conns) ++ time_threads m_directory fuel timers_ times; held := ∅; shared := new_backend w |}.

(** The connections that read files. *)
Definition reads_files (tid : nat) : Prop := ∃ l, conns !! tid = Some l ∧ Exists is_read l.

(** How the process may end: [exit], or in a READ, for instance of a file that is too large. *)
Definition expected_end (tid : nat) (h : halt) : Prop := h = ExitFailure ∨ reads_files tid.

(** A connection waits for results of [rand], a timer for a time that can come. *)
Definition expected_wait (tid : nat) (g : ServerBackend → bool) (s : ServerBackend) : Prop :=
  w_rand (backend_world s) = [] ∨ (length conns ≤ tid)%nat ∧ wakeable g.

Lemma serve_secure tid l c :
  Forall announces_less l → (Exists is_read l → reads_files tid) →
  viewed tid (View false [] None None None) c →
  secure expected_end out_of_ids tid (serve l) c (λ _ _, True).
Proof using Type.
  intros Hl Hreads. revert c. induction l as [|r l IH]; intros c Hv; cbn [serve]; [by apply secure_ret|].
  apply Forall_cons in Hl as [Hr Hl]. apply secure_bind.
  assert (Hserv : servable_by tid expected_end (tuple_of r)).
  { split; [apply tuple_request_ok|]. split; [intros Hc; left; by apply Hr|]. intros Hc h. right. apply Hreads. by left. }
  eapply secure_mono; [by apply sec_processRequest; [left| |]|]. intros rep c1 _ [_ V2 V3 V4 V5].
  apply IH; [done|intros; apply Hreads; by right|]. by split.
Qed.

Context (Hlogs : clean_logs w) (Hids : NoDup (candidate <$> w_rand w)) (Hconns : Forall (Forall announces_less) conns).

Lemma new_backend_consistent :
  consistent (Config ∅ (new_backend w) {| pinned := ∅; history := ∅ |}).
Proof using Hlogs Hids.
  split; simpl.
  - intros _. split; [apply new_backend_ok|done].
  - intros a tid. by rewrite lookup_empty.
  - done.
  - split; [done|]. intros id _. apply lookup_empty.
  - intros a t. simpl. by rewrite lookup_empty.
Qed.

Lemma serving_secured :
  secured expected_end expected_wait (λ _ _, True) (pool serving)
    (Config (held serving) (shared serving) {| pinned := ∅; history := ∅ |}).
Proof using Hlogs Hids Hconns.
  split; [apply new_backend_consistent|].
  intros tid p [Hp|[Hlen Hp]]%lookup_app_Some.
  - apply list_lookup_fmap_Some_1 in Hp as (l & -> & Hl). rewrite Forall_lookup in Hconns.
    apply secure_weaken with (may_wait := out_of_ids); [by left|].
    apply serve_secure; [by eapply Hconns|intros Hr; by exists l|]. split; simpl; try done. by intros m ?%elem_of_nil.
  - rewrite length_fmap in Hlen. eapply time_threads_secure; [by right|exact Hp].
Qed.

Lemma serving_follows c :
  rtc (step_within in_time) serving c →
  (∃ g, consistent (Config (held c) (shared c) g)) ∧
  ∀ tid p, pool c !! tid = Some p → well_behaved expected_end expected_wait tid p (held c) (shared c).
Proof using Hlogs Hids Hconns.
  intros Hs. destruct (secure_pool _ _ _ _ _ _ _ c serving_secured Hs) as (g & Hi & Hw & _). split; [by exists g|done].
Qed.

(** However many connections a new server has, whatever they send and however they are
    scheduled, the recovery included: no request is about to go through a reference to a
    transaction or a file object that is gone, or to release a mutex it does not hold, or
    to end the process otherwise than by [exit] or in a READ; provided [rand] gives no id
    twice, no open transaction reaches its timeout, and no COMMIT announces INT32_MAX
    sequence numbers. *)
Theorem requests_never_dangle c tid p :
  rtc (step_within in_time) serving c → pool c !! tid = Some p →
  match p with
  | Act f _ => f (shared c) ≠ None
  | Unlock m _ => held c !! m = Some tid
  | Halt h => h = ExitFailure ∨ reads_files tid
  | _ => True
  end.
Proof using Hlogs Hids Hconns.
  intros Hs Hp. destruct (serving_follows c Hs) as [_ Hw]. specialize (Hw tid p Hp). by destruct p.
Qed.


End connections.

(** ** Three connections *)

Section three.
#[local] Instance three_resolution : PathResolution := λ p, p.
#[local] Instance three_order : HashOrder :=
  {| iterate K A _ _ m := map_to_list m; iterate_perm K A _ _ m := reflexivity _ |}.

Definition incoming (cmd : bytes) (txn_id seq_num : Z) (data : bytes) : Incoming :=
  {| in_header := take (Z.to_nat Constants.request_header_len) (default [] (generateRequest cmd txn_id seq_num data));
     in_payload := data; in_progress := true |}.

(** The first starts a transaction and writes to it, the second aborts it, the third
    starts another. *)
Definition three_connections : list (list Incoming) :=
  [[incoming Constants.new_txn_cmd (-1) 0 (str "f"); incoming Constants.write_cmd 5 1 (str "ab")];
   [incoming Constants.abort_cmd 5 1 []];
   [incoming Constants.new_txn_cmd (-1) 0 (str "f")]].

Definition three_world (rands : list Z) : World :=
  {| w_fs := ∅; w_now := 0; w_rand := rands; w_sched := [] |}.

(** Their transactions have timers, and the clock moves on. *)
Definition three_times : list N := Z.to_N ∘ seconds <$> [10; 10; 2].

Definition three (rands : list Z) : process ServerBackend :=
  serving [] three_connections (three_world rands) 2 1 three_times.

(** The WRITE has found its transaction and is about to lock its mutex; the ABORT runs, then
    the other NEW_TXN; the WRITE goes on. *)
Definition preempted (rest : nat) : list nat :=
  replicate 40 0%nat ++ replicate 30 1%nat ++ replicate 26 2%nat ++ replicate rest 0%nat.

(** C17. WRITE, COMMIT and ABORT check again, after they have taken the mutex of their
    transaction, that its id is still in the map, but not that it is still the same
    transaction: if [rand] gives the id of a transaction that was aborted in the meantime
    to a new one, the check succeeds and the WRITE, holding the mutex of the old
    transaction, is about to assign through a reference into the entry that was erased. *)
Theorem reused_id_dangles :
  ∃ (c : process ServerBackend) a b,
    rtc step (three [5; 5]) c ∧ held c !! m_member_mtx = None ∧ held c !! txn_mtx a = Some 0%nat ∧
    txn_nodes (shared c) !! a = None ∧ m_txn_id_to_transaction_attributes (shared c) !! 5 = Some b ∧ a ≠ b ∧
    match pool c !! 0%nat with Some (Act f _) => f (shared c) = None | _ => False end.
Proof.
  exists (after (preempted 6) (three [5; 5])), 2%positive, 4%positive.
  split; [apply after_steps; by vm_compute|]. by vm_compute.
Qed.

(** With different ids the hypotheses of the theorems hold. *)
Lemma three_clean rands : clean_logs (three_world rands).
Proof. intros log contents read e _ Hc. simpl in Hc. by rewrite lookup_empty in Hc. Qed.

Lemma three_ids : NoDup (candidate <$> w_rand (three_world [5; 7])).
Proof. apply (bool_decide_unpack _). by vm_compute. Qed.

Lemma three_announce : Forall (Forall announces_less) three_connections.
Proof. repeat constructor; intros Hc; exfalso; revert Hc; by vm_compute. Qed.

Definition preempted_write : process ServerBackend := turns in_time (preempted 2) (three [5; 7]).

Lemma requests_never_dangle_witness :
  match pool preempted_write !! 0%nat with
  | Some (Act f _) => f (shared preempted_write) ≠ None
  | _ => False
  end.
Proof.
  pose proof (λ p, requests_never_dangle [] three_connections (three_world [5; 7]) 2 1 three_times (three_clean _)
    three_ids three_announce preempted_write 0 p (turns_within _ _ _)) as W.
  assert (E : match pool preempted_write !! 0%nat with Some (Act _ _) => True | _ => False end) by by vm_compute.
  destruct (pool preempted_write !! 0%nat) as [p|]; [|done]. specialize (W p eq_refl). by destruct p.
Defined.

(** With one result of [rand] more than they need, all three connections come to their
    end.  The timer of the transaction that is aborted wakes after 15 seconds and is over,
    that of the other, which starts after 10, sleeps. *)
Definition all_done : process ServerBackend :=
  turns in_time (replicate 40 0%nat ++ replicate 30 1%nat ++ [3]%nat ++ replicate 26 2%nat ++ replicate 6 0%nat ++
    replicate 8 4%nat ++ [3; 3]%nat ++ replicate 8 4%nat ++ replicate 8 5%nat) (three [5; 7; 9]).

(** The first timer is over, the second waits, and 22 seconds have passed. *)
Example timers_end :
  match pool all_done !! 4%nat, pool all_done !! 5%nat with Some (Ret _), Some (Wait _ _) => True | _, _ => False end ∧
  w_now (backend_world (shared all_done)) = seconds 22.
Proof. split; by vm_compute. Qed.

End three.
