(* ===== verification/InterleavedServer.v ===== *)
(** * The whole server under every interleaving

    The threads of [ServerDispatcher] around the backend's requests: the one that accepts
    connections, the notifier, the connections, and beside them the clock and the timers of
    the transactions.  The protocol of Sharing.v is lifted to
    the dispatcher's state; what the dispatcher does itself leaves the backend alone, so
    its threads follow the protocol because the requests they pass on do. *)
From S2P Require Import Prelude Stdcxx Constants WireProtocol Messages Prog ReadWrite Posix File Backend Recovery Dispatcher Server BackendInv BackendSteps BackendSpec Threads LockOrder RelyGuarantee Timers Sharing Views Interleaving InterleavedRecovery InterleavingProps.
From Stdlib Require Import ZArith Lia List Ascii String Bool.
From stdpp Require Import base gmap strings list fin_maps sets relations.
#[local] Set Default Goal Selector "!".
Local Open Scope Z_scope.

Abbreviation State := (ServerDispatcher ServerBackend).

Section server.
Context `{PathResolution} `{HashOrder}.

(** ** The protocol, lifted *)

Definition down (c : config State Ghost) : conf :=
  Config (c_held c) (m_backend (c_shared c)) (c_ghost c).

(** Thread 0 accepts connections, and nobody else does. *)
Record respects_server (tid : nat) (c c' : config State Ghost) : Prop := {
  res_backend : respects tid (down c) (down c');
  res_arrivals : tid = 0%nat → arrivals (c_shared c') = arrivals (c_shared c)
}.

#[export] Program Instance server_protocol : Protocol State Ghost :=
  {| assumed s := in_time (m_backend s); invariant c := consistent (down c); rely := respects_server |}.
Next Obligation. intros tid c. split; [exact (rely_refl (Protocol := backend_protocol) tid (down c))|done]. Qed.
Next Obligation.
  intros tid c1 c2 c3 [A1 A2] [B1 B2]. split; [exact (rely_trans (Protocol := backend_protocol) tid _ _ _ A1 B1)|].
  intros Ht. by rewrite B2, A2.
Qed.

(** A thread may wait whenever it likes and end the process any way but by going through a
    reference to something that is gone. *)
Definition any_end (tid : nat) (h : halt) : Prop := True.
Definition any_time (tid : nat) (g : State → bool) (s : State) : Prop := True.

Abbreviation sec tid p c Q := (secure any_end any_time tid p c Q).

Lemma lifted_guarantee tid c c' :
  guarantees tid (down c) (down c') → arrivals (c_shared c') = arrivals (c_shared c) → guarantees tid c c'.
Proof.
  intros [Hi Hr] Ha. split; [done|]. intros tid' Hne. split; [by apply Hr|done].
Qed.

(** A program of the backend, inside the dispatcher. *)
Lemma secure_the_backend tid {A} (p : prog ServerBackend A) may_wait c Q :
  secure any_end may_wait tid p (down c) Q →
  sec tid (the_backend p) c (λ a c', Q a (down c')).
Proof.
  unfold the_backend. revert c. induction p as [a|X f k IH|m k IH|m k IH|g k IH|h]; intros c Hp c' [Hr Ha] Hi;
    specialize (Hp (down c') Hr Hi); simpl in *.
  - done.
  - destruct (f (m_backend (c_shared c'))) as [[x b]|]; [|done]. intros Has. destruct (Hp Has) as (g & Hg & Hk). exists g.
    split; [by apply lifted_guarantee|]. by apply IH.
  - intros Hm. destruct (Hp Hm) as (g & Hg & Hk). exists g. split; [by apply lifted_guarantee|]. by apply IH.
  - destruct Hp as (Hm & g & Hg & Hk). split; [done|]. exists g. split; [by apply lifted_guarantee|]. by apply IH.
  - destruct Hp as [_ Hp]. split; [done|]. intros Hg. by apply IH, Hp.
  - done.
Qed.

(** ** What the dispatcher does itself *)

(** Holding the mutexes [L] and knowing nothing of the backend. *)
Definition holding (tid : nat) (L : list mutex) (c : config State Ghost) : Prop :=
  viewed tid (View false L None None None) (down c).

(** From [L] to [L'], leaving the backend and what arrives alone. *)
Definition outer (tid : nat) {A} (L L' : list mutex) (p : prog State A) : Prop :=
  ∀ c, holding tid L c → sec tid p c (λ _ c', holding tid L' c').

Lemma holding_rely tid L c c' : holding tid L c → respects_server tid c c' → holding tid L c'.
Proof. intros Hv [Hr _]. by eapply viewed_rely. Qed.

Section outer.
Context (tid : nat).

Lemma outer_ret {A} L (a : A) : outer tid L L (Ret a).
Proof. intros c Hv. apply secure_ret. intros c' Hr _. by eapply holding_rely. Qed.

Lemma outer_halt {A} L L' h : outer tid L L' (Halt h : prog State A).
Proof. intros c Hv. by apply secure_halt. Qed.

Lemma outer_wait L g : outer tid L L (wait_until g).
Proof.
  intros c Hv c' Hr Hi. split; [done|]. intros _. apply (outer_ret L tt). by eapply holding_rely.
Qed.

Lemma outer_diverge {A} L L' : outer tid L L' (diverge : prog State A).
Proof. intros c Hv c' Hr Hi. by split. Qed.

Lemma outer_bind {A B} L L' L'' (p : prog State A) (q : A → prog State B) :
  outer tid L L' p → (∀ a, outer tid L' L'' (q a)) → outer tid L L'' (bind p q).
Proof.
  intros Hp Hq c Hv. eapply secure_seq; [by apply Hp|]. intros a c' _ Hv'. by apply Hq.
Qed.

(** An action on the dispatcher's own fields. *)
Definition dispatcher_only {X} (f : State → option (X * State)) : Prop :=
  ∀ s, ∃ x s', f s = Some (x, s') ∧ m_backend s' = m_backend s ∧ arrivals s' = arrivals s.

Lemma outer_act {A X} L L' (f : State → option (X * State)) (k : X → prog State A) :
  dispatcher_only f → (∀ x, outer tid L L' (k x)) → outer tid L L' (Act f k).
Proof.
  intros Hf Hk c Hv c' Hr Hi. destruct (Hf (c_shared c')) as (x & s' & -> & Hb & Ha). intros _. exists (c_ghost c').
  assert (E : down (Config (c_held c') s' (c_ghost c')) = down c') by (unfold down; simpl; by rewrite Hb).
  split.
  - apply lifted_guarantee; [|done]. rewrite E. split; [done|]. intros tid' _. exact (rely_refl (Protocol := backend_protocol) tid' _).
  - apply Hk. unfold holding. rewrite E. by eapply holding_rely.
Qed.

Lemma outer_lock L m : outer tid L (m :: L) (lock m).
Proof.
  intros c Hv. apply (secure_the_backend tid (lock m) out_of_ids c (λ _ c', viewed tid (View false (m :: L) None None None) c')).
  change (lock m) with (bind (lock m) (@Ret ServerBackend unit)).
  eapply sec_lock; [exact Hv|]. intros c' Hv'. eapply sec_ret; [exact Hv'|done].
Qed.

Lemma outer_unlock L m :
  match m with g_mtx | m_fd_mtx _ => True | _ => False end → m ∉ L → outer tid (m :: L) L (unlock m).
Proof.
  intros Hm HL c Hv. apply (secure_the_backend tid (unlock m) out_of_ids c (λ _ c', viewed tid (View false L None None None) c')).
  change (unlock m) with (bind (unlock m) (@Ret ServerBackend unit)).
  eapply sec_unlock; [exact Hv|by destruct m|done|]. intros c' Hv'. eapply sec_ret; [exact Hv'|done].
Qed.

(** A backend call that needs and leaves nothing but the rest. *)
Lemma outer_the_backend {A} (p : prog ServerBackend A) :
  (∀ c, viewed tid (View false [] None None None) c →
     secure any_end out_of_ids tid p c (λ _ c', viewed tid (View false [] None None None) c')) →
  outer tid [] [] (the_backend p).
Proof.
  intros Hp c Hv. apply (secure_the_backend tid p out_of_ids c (λ _ c', viewed tid (View false [] None None None) c')).
  by apply Hp.
Qed.
End outer.

(** ** The dispatcher's functions *)

Ltac outer_step :=
  cbv beta zeta iota;
  lazymatch goal with
  | |- outer _ _ _ (bind _ _) => eapply outer_bind; [|intros ?; cbv beta]
  | |- outer _ _ _ (match ?x with _ => _ end) =>
      lazymatch x with context [match ?y with _ => _ end] => destruct y | _ => destruct x end
  | |- outer _ ?L ?L' (Ret _) => apply outer_ret
  | |- outer _ _ _ (Halt _) => apply outer_halt
  | |- outer _ _ _ diverge => apply outer_diverge
  | |- outer _ _ _ (wait_until _) => apply outer_wait
  | |- outer _ _ _ (lock _) => apply outer_lock
  | |- outer _ _ _ (unlock _) => apply outer_unlock; [exact I|set_solver]
  | |- outer _ _ _ (reads _) => apply outer_act; [intros ?; by do 2 eexists|intros ?; apply outer_ret]
  | |- outer _ _ _ (modify _) => apply outer_act; [intros ?; by do 2 eexists|intros ?; apply outer_ret]
  | |- outer _ _ _ (assert_that _) => unfold assert_that
  | |- outer _ _ _ (fd_index _ _) => unfold fd_index
  | |- outer _ _ _ (char_array _ _ _) => unfold char_array
  | |- _ => solve [eauto with outer]
  end.

Ltac outer_solve := repeat outer_step.

Create HintDb outer.

Section threads.
Context (tid : nat) (m_max_sockfd m_connection_timeout_seconds m_listenfd stack_bytes : Z) (m_directory : bytes).

#[local] Instance ops : BackendOps ServerBackend := server_backend_ops m_directory.

Lemma outer_sock_read fd n k : outer tid [] [] (sock_read fd n k : prog State _).
Proof.
  apply outer_act; [|intros x; apply outer_ret]. intros s. destruct (connections s !! fd) as [c|]; [|by do 2 eexists].
  destruct (c_open c); [|by do 2 eexists]. destruct (next_bytes k (c_incoming c)). by do 2 eexists.
Qed.

Lemma outer_sock_write fd buf : outer tid [] [] (sock_write fd buf : prog State _).
Proof.
  unfold sock_write. apply outer_bind with []; [|intros [r|]; [apply outer_ret|apply outer_halt]].
  apply outer_act; [|intros x; apply outer_ret]. intros s. destruct (connections s !! fd) as [c|]; [|by do 2 eexists].
  destruct (c_open c); [|by do 2 eexists]. destruct (c_deliveries c) as [|[n| |] l]; by do 2 eexists.
Qed.

#[local] Hint Resolve outer_sock_read outer_sock_write : outer.

Lemma outer_wait_ready fd : outer tid [] [] (wait_ready m_connection_timeout_seconds fd : prog State _).
Proof. unfold wait_ready, wait_for. outer_solve. Qed.

#[local] Hint Resolve outer_wait_ready : outer.

Lemma outer_readSocket fd len : outer tid [] [] (readSocket m_max_sockfd m_connection_timeout_seconds fd len : prog State _).
Proof.
  unfold readSocket, readFileDescriptor. apply outer_bind with []; [outer_solve|intros _].
  apply outer_bind with []; [|intros r; outer_solve]. generalize (S (Z.to_nat len)), (@nil ascii). intros fuel.
  induction fuel as [|fuel IH]; intros out; cbn [read_loop]; outer_solve.
Qed.

Lemma outer_writeSocket fd response : outer tid [] [] (writeSocket fd response : prog State _).
Proof.
  unfold writeSocket, writeFileDescriptor. destruct (0 <? len response); [|apply outer_ret].
  apply outer_bind with []; [|intros _; apply outer_ret]. apply outer_bind with []; [outer_solve|intros _].
  generalize (S (length response)), 0%nat. intros fuel.
  induction fuel as [|fuel IH]; intros k; cbn [write_loop]; outer_solve.
Qed.

Lemma outer_content_length h r ip : outer tid [] [] (the_backend (backend_getContentLength h r ip)).
Proof.
  apply outer_the_backend. intros c Hv. cbn [backend_getContentLength ops server_backend_ops].
  destruct (getContentLength h r ip); [|by apply secure_halt]. by eapply sec_ret; [exact Hv|].
Qed.

Lemma outer_request h p r ip : outer tid [] [] (the_backend (backend_processRequest h p r ip)).
Proof.
  apply outer_the_backend. intros c Hv. cbn [backend_processRequest ops server_backend_ops].
  eapply secure_mono; [apply sec_processRequest; [done| |exact Hv]|].
  - split; [exact (tuple_request_ok {| in_header := h; in_payload := p; in_progress := ip |})|]. split; [by intros _; right|done].
  - intros x c' _ [_ V2 V3 V4 V5]. by split.
Qed.

#[local] Hint Resolve outer_readSocket outer_writeSocket outer_content_length outer_request : outer.

Lemma outer_connection fuel fd :
  outer tid [] [] (m_processRequest m_max_sockfd m_connection_timeout_seconds stack_bytes fuel fd : prog State unit).
Proof.
  unfold m_processRequest, close_connection, close_socket, FD_CLR. apply outer_bind with []; [|intros _; outer_solve].
  generalize true. induction fuel as [|fuel IH]; intros ip; cbn [connection_loop]; unfold serve_request; outer_solve.
Qed.

Lemma outer_notifier : outer tid [] [] (notifier_turn m_max_sockfd m_listenfd : prog State unit).
Proof.
  unfold notifier_turn. outer_solve.
  match goal with |- outer _ _ _ (notify_loop _ ?fds ?n ?rfds) => generalize n end.
  induction (seqZ _ _) as [|fd fds IH]; intros n; cbn [notify_loop]; outer_solve.
Qed.

(** ** The thread that accepts connections *)

(** [accept] goes on when there is a connection, and there still is one when it takes it. *)
Lemma outer_accept L : outer 0 L L (accept : prog State (option Z)).
Proof.
  intros c Hv c0 Hr0 _. split; [done|]. intros Hsome. apply negb_true_iff, bool_decide_eq_false in Hsome.
  intros c' Hr Hi. rewrite <- (res_arrivals _ _ _ Hr eq_refl) in Hsome.
  assert (Hv' : holding 0 L c') by (eapply holding_rely; [|exact Hr]; by eapply holding_rely).
  assert (Hret : ∀ (a : option Z) s', m_backend s' = m_backend (c_shared c') →
    let c'' := Config (c_held c') s' (c_ghost c') in
    guarantees 0 c' c'' ∧ sec 0%nat (Ret a) c'' (λ _ c', holding 0 L c')).
  { intros a s' E c''. assert (Ed : down c'' = down c') by (unfold down, c''; simpl; by rewrite E). split.
    - split; [simpl; by rewrite Ed|]. intros tid' Hne. split; [|by intros ->]. rewrite Ed. exact (rely_refl (Protocol := backend_protocol) tid' _).
    - apply (outer_ret 0 L a). unfold holding. by rewrite Ed. }
  simpl. destruct (arrivals (c_shared c')) as [|[[fd conn]|] l]; [done| |]; intros _; exists (c_ghost c'); by apply Hret.
Qed.

Lemma outer_begin_wait L fd : m_fd_mtx fd ∉ L → outer 0 (m_fd_mtx fd :: L) L (begin_wait fd : prog State _).
Proof.
  intros HL. unfold begin_wait. apply outer_bind with (m_fd_mtx fd :: L).
  - apply outer_act; [intros ?; by do 2 eexists|intros ?; apply outer_ret].
  - intros w. apply outer_bind with L; [by apply outer_unlock|intros _; apply outer_ret].
Qed.

Lemma outer_start_turn : outer 0 [] [] (start_turn m_max_sockfd m_listenfd : prog State unit).
Proof.
  unfold start_turn. apply outer_bind with []; [outer_solve|intros _].
  apply outer_bind with [m_fd_mtx m_listenfd]; [apply outer_lock|intros _].
  apply outer_bind with []; [apply outer_begin_wait; set_solver|intros w].
  do 3 (eapply outer_bind; [outer_step|intros _]).
  eapply outer_bind; [apply outer_accept|intros fd]. unfold close_socket, FD_SET. outer_solve.
Qed.

Lemma outer_start turns : outer 0 [] [] (start m_max_sockfd m_listenfd turns : prog State unit).
Proof.
  induction turns as [|turns IH]; simpl; [apply outer_ret|].
  apply outer_bind with []; [apply outer_start_turn|intros _; exact IH].
Qed.
End threads.

(** ** The process *)

Context (m_listenfd stack_bytes : Z) (binds : bytes → Z → bool) (in_directory : bytes).

(** The thread [start] creates for the [n]th connection it accepts:
    [thread(m_processRequest, m_sockfd)]. *)
Definition nth_connection (fuel n : nat) : prog State unit :=
  wait_until (λ s, (n <? length (threads s))%nat) ;;;
  let! fd := reads (λ s, nth n (threads s) 0) in
  Server_connection stack_bytes in_directory fuel fd.

(** A server: [turns] turns of the loop that accepts connections and of the notifier, the
    first [n] connections, and [fuel] requests on each of them; the clock, and the timers of
    the first [timers_] transactions. *)
Definition server_pool (in_ipv4_address : bytes) (in_portno : Z) (turns n fuel timers_ : nat) (times : list N)
    : list (prog State unit) :=
  (Server m_listenfd binds in_ipv4_address in_portno ;;; Server_start m_listenfd turns) ::
  Server_notifier m_listenfd turns :: (nth_connection fuel <$> seq 0 n) ++
  (the_backend <$> time_threads in_directory fuel timers_ times).

Lemma outer_Server address port : outer 0 [] [] (Server m_listenfd binds address port).
Proof. unfold Server, initializeSocket, FD_SET. outer_solve. Qed.

Lemma outer_m_notifier tid turns : outer tid [] [] (Server_notifier m_listenfd turns).
Proof.
  unfold Server_notifier. induction turns as [|turns IH]; simpl; [apply outer_ret|].
  apply outer_bind with []; [apply outer_notifier|intros _; exact IH].
Qed.

Lemma outer_nth_connection tid fuel n : outer tid [] [] (nth_connection fuel n).
Proof.
  unfold nth_connection. apply outer_bind with []; [outer_solve|intros _].
  apply outer_bind with []; [outer_solve|intros fd]. apply outer_connection.
Qed.

Lemma server_pool_secure address port turns n fuel timers_ times tid p c :
  holding tid [] c →
  server_pool address port turns n fuel timers_ times !! tid = Some p → secure any_end any_time tid p c (λ _ _, True).
Proof.
  intros Hc Hp. unfold server_pool in Hp.
  assert (Htime : ∀ i q, time_threads in_directory fuel timers_ times !! i = Some q →
    secure any_end (λ _ _ _, True) tid q (down c) (λ _ _, True)) by (intros i q; by apply time_threads_secure).
  revert Htime Hp. generalize (time_threads in_directory fuel timers_ times). intros l Htime Hp.
  enough (outer tid [] [] p ∨ ∃ q, p = the_backend q ∧ secure any_end (λ _ _ _, True) tid q (down c) (λ _ _, True)) as [Ho|(q & -> & Hq)].
  { eapply secure_mono; [by apply Ho|done]. }
  { eapply secure_mono; [by eapply secure_the_backend|done]. }
  destruct tid as [|[|tid]]; simpl in Hp; [left; revert Hp..|].
  - intros [= <-]. apply outer_bind with []; [apply outer_Server|intros _; apply outer_start].
  - intros [= <-]. apply outer_m_notifier.
  - apply lookup_app_Some in Hp as [Hp|[_ Hp]].
    + left. apply list_lookup_fmap_Some_1 in Hp as (k & -> & _). apply outer_nth_connection.
    + right. apply list_lookup_fmap_Some_1 in Hp as (q & -> & Hq). exists q. split; [done|by eapply Htime].
Qed.
End server.

Section process.
Context `{PathResolution} `{HashOrder} (m_listenfd stack_bytes : Z) (binds : bytes → Z → bool) (in_directory : bytes).
Abbreviation pool_of := (server_pool m_listenfd stack_bytes binds in_directory).

(** C6. A server program under every schedule of its threads - the one that accepts
    connections, the notifier, any number of connections, each with whatever arrives on it,
    the clock and the timers of the transactions -, from its construction on and recovery
    included: no thread is about to go through a reference to a transaction or a file object
    that is gone, nor to release a mutex it does not hold; and whenever [m_member_mtx] is free the backend's state is well formed.  Hypotheses: [rand] gives no id twice, the
    logs found hold none of these ids, and no open transaction reaches its timeout. *)
Theorem server_never_dangles w network early address port turns n fuel timers_ times c :
  clean_logs w → NoDup (candidate <$> w_rand w) →
  rtc (step_within (λ s, in_time (m_backend s))) {| pool := pool_of address port turns n fuel timers_ times; held := ∅; shared := Server_state w network early |} c →
  (held c !! m_member_mtx = None → backend_ok (m_backend (shared c))) ∧
  ∀ tid p, pool c !! tid = Some p →
    match p with
    | Act f _ => f (shared c) ≠ None
    | Unlock m _ => held c !! m = Some tid
    | _ => True
    end.
Proof.
  intros Hlogs Hids Hs.
  assert (Hsec : secured any_end any_time (λ _ _, True) (pool_of address port turns n fuel timers_ times)
    (Config ∅ (Server_state w network early) {| pinned := ∅; history := ∅ |})).
  { split; [by apply (new_backend_consistent w)|]. intros tid p Hp.
    eapply server_pool_secure; [|exact Hp]. split; simpl; try done. by intros m ?%elem_of_nil. }
  destruct (secure_pool _ _ _ _ _ _ _ c Hsec Hs) as (g & Hi & Hw & _).
  split; [intros Hm; by apply (con_free _ Hi)|]. intros tid p Hp. specialize (Hw tid p Hp). by destruct p.
Qed.
End process.

(** ** Two clients *)

Section two_clients.
#[local] Existing Instances three_resolution three_order.

Definition client (l : list Incoming) : Connection :=
  {| c_incoming := (λ r, Chunk (in_header r ++ in_payload r)) <$> l;
     c_deliveries := []; c_sent := []; c_open := true |}.

(** One client starts a transaction and writes to it, another aborts it. *)
Definition two_clients : list arrival :=
  [Some (4, client [incoming Constants.new_txn_cmd (-1) 0 (str "f"); incoming Constants.write_cmd 5 1 (str "ab")]);
   Some (5, client [incoming Constants.abort_cmd 5 1 []])].

Definition two_clients_server : process (ServerDispatcher ServerBackend) :=
  {| pool := server_pool 3 100000 (λ _ _, true) [] [] 8080 2 2 3 1 [Z.to_N (seconds 14)]; held := ∅;
     shared := Server_state (three_world [5; 7]) two_clients [true; true] |}.

(** Both are accepted; the WRITE of the first has found its transaction when the second
    connection is served from beginning to end; then the WRITE goes on for [rest] steps. *)
Definition both_at_once (rest : nat) : list nat :=
  replicate 27 0%nat ++ replicate 67 2%nat ++ replicate 43 3%nat ++ replicate rest 2%nat.

Definition overtaken : process (ServerDispatcher ServerBackend) :=
  turns (λ s, in_time (m_backend s)) (both_at_once 6) two_clients_server.

(** The WRITE was overtaken and answers with an error. *)
Example overtaken_reply :
  (λ c, (take 15 (drop 128 (c_sent c)), c_open c)) <$>
    connections (shared (after (both_at_once 11) two_clients_server)) !! 4 = Some (str "ERROR 5 1 212 1", false).
Proof. by vm_compute. Qed.

Lemma server_never_dangles_witness :
  backend_ok (m_backend (shared overtaken)) ∧
  match pool overtaken !! 2%nat with Some (Act f _) => f (shared overtaken) ≠ None | _ => False end.
Proof.
  destruct (server_never_dangles 3 100000 (λ _ _, true) [] (three_world [5; 7]) two_clients [true; true] [] 8080 2 2 3 1 [Z.to_N (seconds 14)] overtaken
    (three_clean _) three_ids (turns_within _ _ _)) as [W1 W2].
  split; [apply W1; by vm_compute|].
  assert (E : match pool overtaken !! 2%nat with Some (Act _ _) => True | _ => False end) by by vm_compute.
  specialize (W2 2%nat). destruct (pool overtaken !! 2%nat) as [p|]; [|done].
  specialize (W2 p eq_refl). by destruct p.
Defined.
End two_clients.

(** ** Two commits at once *)

Section two_uploads.
#[local] Existing Instances three_resolution three_order.

Definition uploader (txn_id : Z) (name data : bytes) : Connection :=
  client [incoming Constants.new_txn_cmd (-1) 0 name; incoming Constants.write_cmd txn_id 1 data;
          incoming Constants.commit_cmd txn_id 1 []].

Definition two_uploads : process (ServerDispatcher ServerBackend) :=
  {| pool := server_pool 3 100000 (λ _ _, true) [] [] 8080 2 2 4 0 []; held := ∅;
     shared := Server_state (three_world [5; 7; 9])
       [Some (4, uploader 5 (str "f") (str "abc")); Some (5, uploader 7 (str "g") (str "wxyz"))] [true; true] |}.

(** The first upload has written its id and a space to the commit log when the second runs
    from beginning to end. *)
Definition mid_log : list nat :=
  replicate 27 0%nat ++ replicate 121 2%nat ++ replicate 143 3%nat ++ replicate 30 2%nat.

(** The commands of the three responses on a connection. *)
Definition responses (fd : Z) (c : process (ServerDispatcher ServerBackend)) : list bytes :=
  let out := from_option c_sent [] (connections (shared c) !! fd) in
  (λ k, rs_command (getServerResponseAsTuple (take 128 (drop (128 * k) out)) [])) <$> seq 0 3.

Definition files_of (s : ServerBackend) : gmap bytes bytes := w_fs (backend_world s).

(** The state of a server started on the files a process has left behind. *)
Definition restarted_after (schedule : list nat) (c : process (ServerDispatcher ServerBackend)) : ServerBackend :=
  let w := backend_world (m_backend (shared (after schedule c))) in
  match run 0 (initializeFunctionsAndTransactions []) ∅ (new_backend w) with
  | Done _ _ s => s
  | _ => new_backend w
  end.

(** C16. A COMMIT writes its line of the commit log piece by piece, under the mutexes of its
    transaction and its file only, so the lines of two COMMITs of different files can mix:
    here two clients upload a file each, every request of both is acknowledged and both
    files hold their data, but the commit log reads "5 7 g 4" and "f 3"; when the server is
    started again it takes neither transaction for committed, and removes both files. *)
Theorem commits_mix_their_log_lines :
  ∃ c s,
    rtc step two_uploads c ∧
    responses 4 c = replicate 3 Constants.ack_cmd ∧ responses 5 c = replicate 3 Constants.ack_cmd ∧
    m_commits (m_backend (shared c)) = {[5; 7]} ∧
    files_of (m_backend (shared c)) !! str "f" = Some (str "abc") ∧
    files_of (m_backend (shared c)) !! str "g" = Some (str "wxyz") ∧
    files_of (m_backend (shared c)) !! m_commit_log = Some (str "5 7 g 4
f 3
") ∧
    run 0 (initializeFunctionsAndTransactions []) ∅ (new_backend (backend_world (m_backend (shared c)))) = Done tt ∅ s ∧
    files_of s !! str "f" = None ∧ files_of s !! str "g" = None.
Proof.
  exists (after mid_log two_uploads), (restarted_after mid_log two_uploads).
  split; [apply after_steps; by vm_compute|]. by vm_compute.
Qed.
End two_uploads.

(** ** A notification too late *)

Section stale_notification.
#[local] Existing Instances three_resolution three_order.

(** One client, which asks for a file; no wait ends by itself. *)
Definition one_client : process (ServerDispatcher ServerBackend) :=
  {| pool := server_pool 3 100000 (λ _ _, true) [] [] 8080 3 1 1 0 []; held := ∅;
     shared := Server_state (three_world []) [Some (4, client [incoming Constants.read_cmd (-1) 0 (str "f")])] [] |}.

(** The accept loop goes to sleep; the notifier finds the client and notifies it; before it
    has run, the notifier looks again and finds the client once more; the client is
    accepted and the loop goes to sleep; the notifier, with what it found, notifies it; it
    wakes, takes the mutexes and calls [accept]. *)
Definition stale : list nat :=
  replicate 4 0%nat ++ replicate 5 1%nat ++ replicate 4 1%nat ++ replicate 13 0%nat ++ [1%nat] ++ replicate 3 0%nat.

Definition frozen : process (ServerDispatcher ServerBackend) :=
  turns (λ s, in_time (m_backend s)) (replicate 30 2%nat) (after stale one_client).

(** C13. A notification that comes too late freezes the server: [start] waits for one
    without looking whether there is anything to accept, and calls [accept], which blocks,
    with the global mutex taken.  The notifier looks under that mutex and notifies after it
    has released it, so it can notify the loop of a client the loop has accepted in
    between.  In the end nothing moves: the loop is in [accept] with nobody to accept and
    holds the mutexes, the notifier and the connection of the only client wait for the
    global mutex, and the client has sent its request and gets no answer. *)
Theorem stale_notification_freezes :
  ∃ c, rtc step one_client c ∧ stuck c ∧
    match pool c !! 0%nat with Some (Wait g _) => ∀ s, g s = connection_pending s | _ => False end ∧
    arrivals (shared c) = [] ∧ held c = {[ g_mtx := 0%nat; m_fd_mtx 3 := 0%nat ]} ∧
    match pool c !! 1%nat with Some (Lock m _) => m = g_mtx | _ => False end ∧
    match pool c !! 2%nat with Some (Lock m _) => m = g_mtx | _ => False end ∧
    (λ k, (c_incoming k, c_sent k)) <$> connections (shared c) !! 4 = Some ([], []).
Proof.
  exists frozen. split; [|split; [apply idle_stuck; by vm_compute|by vm_compute]].
  transitivity (after stale one_client); [apply after_steps; by vm_compute|]. eapply steps_within, turns_within.
Qed.
End stale_notification.
