(* ===== verification/UploadProtocol.v ===== *)
(** * Uploads side by side: what the threads promise each other

    Many clients upload at the same time, each to a transaction of its own, some of them to
    the same file.  The protocol says more than the one of Sharing.v, of threads that do
    less: every id belongs to the thread that drew it, nobody else touches its entry; the
    mutex of a file object protects the contents of the file, which are those it had before
    and the data of the uploads committed so far, in some order, each in one piece.

    [seen] is what one thread knows in the course of its upload. *)
From S2P Require Import Prelude Stdcxx Constants WireProtocol Messages Prog ReadWrite Posix File Backend Recovery BackendInv BackendSteps BackendSpec CommitSpec Threads RelyGuarantee Timers Sharing.
From Stdlib Require Import ZArith Lia List Ascii String Bool.
From stdpp Require Import base gmap strings list fin_maps sorting.
#[local] Set Default Goal Selector "!".
Local Open Scope Z_scope.

(** What a client uploads: the pieces of a file, the numbered pieces in the order in which
    it sends them, and whether it ends with a COMMIT or an ABORT. *)
Record Upload := {
  up_name : bytes;
  up_pieces : list bytes;
  up_order : list (Z * bytes);
  up_commits : bool
}.

(** The books: the thread that drew each id, the file object whose pointer is on its way
    (inside [m_member_mtx]), and the uploads committed, in order. *)
Record Books := { owner : gmap Z nat; due : option positive; ledger : list nat }.

Abbreviation book_conf := (config ServerBackend Books).

Section protocol.
Context `{PathResolution} (m_directory : bytes).

(** The uploads, by thread, and the contents of the files before them. *)
Context (ups : list Upload) (base : bytes → bytes).

Definition name_of (tid : nat) : option bytes := up_name <$> ups !! tid.
(** Thread [tid] is to commit. *)
Definition commits (tid : nat) : Prop := ∃ u, ups !! tid = Some u ∧ up_commits u = true.

Definition data_of (tid : nat) : bytes := concat (from_option up_pieces [] (ups !! tid)).

Abbreviation names := (up_name <$> ups).

(** A file when the uploads [o] have been committed. *)
Definition expected (name : bytes) (o : list nat) : bytes :=
  base name ++ concat (data_of <$> filter (λ t, name_of t = Some name) o).

Lemma expected_mine name o tid : name_of tid = Some name → expected name (o ++ [tid]) = expected name o ++ data_of tid.
Proof.
  intros Hn. unfold expected. rewrite filter_app, filter_cons_True, filter_nil by done.
  rewrite fmap_app, concat_app, <- app_assoc. simpl. by rewrite app_nil_r.
Qed.

Lemma expected_other name o tid : name_of tid ≠ Some name → expected name (o ++ [tid]) = expected name o.
Proof. intros Hn. unfold expected. by rewrite filter_app, filter_cons_False, filter_nil, app_nil_r. Qed.

Lemma concat_perm (l l' : list bytes) : l ≡ₚ l' → length (concat l) = length (concat l').
Proof. induction 1; simpl; rewrite ?length_app in *; lia. Qed.

(** No file grows larger than all the uploads make it. *)
Lemma expected_room name o :
  NoDup o → (∀ t, t ∈ o → (t < length ups)%nat) →
  len (expected name o) ≤ len (expected name (seq 0 (length ups))).
Proof.
  intros Ho Hlt. assert (Hsub : o ⊆+ seq 0 (length ups)).
  { apply NoDup_submseteq; [done|]. intros t Ht. apply elem_of_seq. specialize (Hlt t Ht). lia. }
  apply submseteq_Permutation in Hsub as [k Hk]. unfold expected. rewrite !length_app.
  assert (E : data_of <$> filter (λ t, name_of t = Some name) (seq 0 (length ups)) ≡ₚ
    (data_of <$> filter (λ t, name_of t = Some name) o) ++ (data_of <$> filter (λ t, name_of t = Some name) k)).
  { by rewrite <- fmap_app, <- filter_app, Hk. }
  apply concat_perm in E. rewrite E, concat_app, length_app. lia.
Qed.

(** A [READ] can tell how large each of them is. *)
Definition room : Prop := ∀ n, n ∈ names → len (expected n (seq 0 (length ups))) < INT32_MAX.

(** The names are told apart by the files they denote, and are not those of the logs. *)
Record distinct_files : Prop := {
  df_names n n' : n ∈ names → n' ∈ names → target m_directory n = target m_directory n' → n = n';
  df_logs n log : n ∈ names → log ∈ [m_transaction_log; m_commit_log; m_abort_log] →
    target m_directory n ≠ resolve (m_directory ++ log);
  df_nul n : n ∈ names → nul_free n = true
}.

Abbreviation now_in s n := (contents m_directory (w_fs (backend_world s)) n) (only parsing).
Abbreviation file_in s n := (w_fs (backend_world s) !! target m_directory n) (only parsing).

Lemma file_contents s s' n : file_in s' n = file_in s n → now_in s' n = now_in s n.
Proof. unfold contents. by intros ->. Qed.

(** Files only grow. *)
Definition grown (s s' : ServerBackend) : Prop :=
  ∀ n, n ∈ names → now_in s n `prefix_of` now_in s' n ∧ (is_Some (file_in s n) → is_Some (file_in s' n)).

#[export] Instance grown_preorder : PreOrder grown.
Proof.
  split; [done|]. intros s1 s2 s3 A B n Hn. destruct (A n Hn) as [? ?], (B n Hn) as [? ?]. split; [by etrans|auto].
Qed.

Lemma same_files_grown s s' : (∀ n, n ∈ names → file_in s' n = file_in s n) → grown s s'.
Proof. intros Hf n Hn. by rewrite (file_contents _ _ _ (Hf n Hn)), (Hf n Hn). Qed.

(** ** The protocol *)

(** The results [l] of [rand] still to come, among the ids drawn and committed: they are
    new, every thread has drawn at most one, and there are enough for the others. *)
Record drawn (l : list Z) (own : gmap Z nat) (committed_ids : gset Z) : Prop := {
  dr_nodup : NoDup (candidate <$> l);
  dr_new id : id ∈ candidate <$> l → own !! id = None ∧ id ∉ committed_ids;
  dr_known id tid : own !! id = Some tid → (tid < length ups)%nat;
  dr_once id id' tid : own !! id = Some tid → own !! id' = Some tid → id = id';
  dr_enough : (length ups < length l + size own)%nat
}.

Lemma drawn_more l own commits : drawn l own commits → l ≠ [].
Proof.
  intros [_ _ Hk Ho Hn] ->. simpl in Hn. assert (Hle : (length (map_to_list own).*2 ≤ length (seq 0 (length ups)))%nat).
  { apply submseteq_length, NoDup_submseteq.
    - apply NoDup_fmap_2_strong; [|apply NoDup_map_to_list]. intros [i x] [j y] Hi Hj E. simpl in E. subst y.
      apply elem_of_map_to_list in Hi, Hj. by rewrite (Ho i j x Hi Hj).
    - intros t ([i x] & -> & Hi%elem_of_map_to_list)%list_elem_of_fmap. apply elem_of_seq. simpl. specialize (Hk i x Hi). lia. }
  rewrite length_fmap, length_seq, <- map_size_list_to_map, list_to_map_to_list in Hle; [lia|apply NoDup_fst_map_to_list].
Qed.

Lemma drawn_commits l own commits commits' :
  drawn l own commits → (∀ id, id ∈ commits' → id ∈ commits ∨ is_Some (own !! id)) → drawn l own commits'.
Proof.
  intros [H1 H2 H3 H4 H5] Hc. split; [done| |done..]. intros id Hid. destruct (H2 id Hid) as [Ho Hn]. split; [done|].
  intros Hin. destruct (Hc id Hin) as [?|[t Ht]]; [done|congruence].
Qed.

(** Drawing the next. *)
Lemma drawn_next r l own commits tid :
  drawn (r :: l) own commits → (tid < length ups)%nat → (∀ id, own !! id ≠ Some tid) →
  drawn l (<[candidate r := tid]> own) commits.
Proof.
  intros [H1 H2 H3 H4 H5] Ht Hnone. rewrite fmap_cons in H1, H2. apply NoDup_cons in H1 as [Hr H1].
  destruct (H2 (candidate r)) as [Hfresh _]; [by left|]. split.
  - done.
  - intros id Hid. destruct (H2 id) as [? ?]; [by right|]. split; [|done]. rewrite lookup_insert_ne; [done|by intros <-].
  - intros id t [[_ <-]|[_ Hid]]%lookup_insert_Some; [done|by eapply H3].
  - intros i j t. rewrite !lookup_insert_Some. intros [[<- <-]|[Hi Hi']] [[<- E]|[Hj Hj']]; [done|by destruct (Hnone j)| |by eapply H4].
    subst t. by destruct (Hnone i).
  - rewrite map_size_insert_None by done. simpl in H5. lia.
Qed.

Record tidy (c : book_conf) : Prop := {
  td_init : m_initialize (c_shared c) = false;
  td_ok : ok_but (due (c_ghost c)) (c_shared c);
  td_free : c_held c !! m_member_mtx = None → due (c_ghost c) = None;
  td_ids id a : m_txn_id_to_transaction_attributes (c_shared c) !! id = Some a → is_Some (owner (c_ghost c) !! id);
  td_rand : drawn (w_rand (backend_world (c_shared c))) (owner (c_ghost c)) (m_commits (c_shared c));
  td_calm : w_sched (backend_world (c_shared c)) = [];
  td_time : in_time (c_shared c);
  td_names p f : file_nodes (c_shared c) !! p = Some f → m_file_name f ∈ names;
  td_files n : n ∈ names →
    (∀ p, m_file_name_to_ptr_to_file_attributes (c_shared c) !! n = Some p → c_held c !! m_file_mtx p = None) →
    now_in (c_shared c) n = expected n (ledger (c_ghost c));
  td_size : room → ∀ n, n ∈ names → len (now_in (c_shared c) n) < INT32_MAX;
  td_writer p tid : c_held c !! m_file_mtx p = Some tid →
    ∃ id a t, owner (c_ghost c) !! id = Some tid ∧ m_txn_id_to_transaction_attributes (c_shared c) !! id = Some a ∧
      txn_nodes (c_shared c) !! a = Some t ∧ sp_file_attributes t = p;
  td_order : NoDup (ledger (c_ghost c)) ∧ ∀ tid, tid ∈ ledger (c_ghost c) → commits tid
}.

(** What thread [tid] relies on. *)
Record leaves (tid : nat) (c c' : book_conf) : Prop := {
  lv_locks m : c_held c !! m = Some tid ↔ c_held c' !! m = Some tid;
  lv_owner id : owner (c_ghost c) !! id = Some tid ↔ owner (c_ghost c') !! id = Some tid;
  lv_entry id : owner (c_ghost c) !! id = Some tid →
    m_txn_id_to_transaction_attributes (c_shared c') !! id = m_txn_id_to_transaction_attributes (c_shared c) !! id ∧
    (id ∈ m_commits (c_shared c') ↔ id ∈ m_commits (c_shared c)) ∧
    ∀ a t, m_txn_id_to_transaction_attributes (c_shared c) !! id = Some a → txn_nodes (c_shared c) !! a = Some t →
      txn_nodes (c_shared c') !! a = Some t ∧
      m_file_name <$> file_nodes (c_shared c') !! sp_file_attributes t =
        m_file_name <$> file_nodes (c_shared c) !! sp_file_attributes t;
  lv_member : c_held c !! m_member_mtx = Some tid →
    shape_of (c_shared c') = shape_of (c_shared c) ∧ due (c_ghost c') = due (c_ghost c);
  lv_file p n : c_held c !! m_file_mtx p = Some tid → m_file_name <$> file_nodes (c_shared c) !! p = Some n →
    m_file_name <$> file_nodes (c_shared c') !! p = Some n ∧
    file_in (c_shared c') n = file_in (c_shared c) n ∧
    expected n (ledger (c_ghost c')) = expected n (ledger (c_ghost c));
  lv_grows : grown (c_shared c) (c_shared c');
  lv_order : tid ∈ ledger (c_ghost c') ↔ tid ∈ ledger (c_ghost c);
  lv_now : w_now (backend_world (c_shared c)) ≤ w_now (backend_world (c_shared c'))
}.

#[export] Program Instance upload_protocol : Protocol ServerBackend Books :=
  {| assumed := in_time; invariant := tidy; rely := leaves |}.
Next Obligation. by intros tid c. Qed.
Next Obligation.
  intros tid c1 c2 c3 [A1 A2 A3 A4 A5 A7 A6 A8] [B1 B2 B3 B4 B5 B7 B6 B8]. split.
  - intros m. by rewrite A1, B1.
  - intros id. by rewrite A2, B2.
  - intros id Hid. destruct (A3 id Hid) as (Ai & Ac & At). rewrite A2 in Hid. destruct (B3 id Hid) as (Bi & Bc & Bt).
    split; [congruence|]. split; [by rewrite Bc|]. intros a t Ha Ht. destruct (At a t Ha Ht) as [Hn Hf].
    rewrite <- Ai in Ha. destruct (Bt a t Ha Hn) as [Hn' Hf']. split; [done|congruence].
  - intros Hm. destruct (A4 Hm) as [As Ad]. rewrite A1 in Hm. destruct (B4 Hm) as [Bs Bd]. split; congruence.
  - intros p n Hp Hn. destruct (A5 p n Hp Hn) as (An & Af & Ao). rewrite A1 in Hp.
    destruct (B5 p n Hp An) as (Bn & Bf & Bo). split; [done|]. split; congruence.
  - by etrans.
  - by rewrite B6.
  - by etrans.
Qed.

(** ** Steps *)

Lemma same_shape s s' :
  shape_of s' = shape_of s →
  m_txn_id_to_transaction_attributes s' = m_txn_id_to_transaction_attributes s ∧
  m_file_name_to_ptr_to_file_attributes s' = m_file_name_to_ptr_to_file_attributes s ∧
  (∀ p, m_file_name <$> file_nodes s' !! p = m_file_name <$> file_nodes s !! p) ∧
  w_rand (backend_world s') = w_rand (backend_world s).
Proof.
  intros [= E1 _ E3 E4 _ E6]. split; [done|]. split; [done|]. split; [|done]. intros p.
  apply (f_equal (λ m, fst <$> m !! p)) in E4. by rewrite !lookup_fmap, <- !option_fmap_compose in E4.
Qed.

(** A live object is the only one of its name. *)
Lemma only_object c p p' n :
  tidy c → m_file_name <$> file_nodes (c_shared c) !! p = Some n →
  m_file_name_to_ptr_to_file_attributes (c_shared c) !! n = Some p' → p' = p.
Proof.
  intros Hc (f & Hf & ->)%fmap_Some Hp. pose proof (ok_named _ _ _ (td_ok _ Hc) Hf). congruence.
Qed.

(** What the others see of the files. *)
Record kept_within (s s' : ServerBackend) : Prop := {
  kw_grown : grown s s';
  kw_size : room → ∀ n, n ∈ names → len (now_in s' n) < INT32_MAX
}.

Lemma same_files_within c s' :
  tidy c → (∀ n, n ∈ names → file_in s' n = file_in (c_shared c) n) → kept_within (c_shared c) s'.
Proof.
  intros Hc Hf. split; [by apply same_files_grown|]. intros Hr n Hn. rewrite (file_contents _ _ _ (Hf n Hn)).
  by apply (td_size _ Hc).
Qed.

(** A step that keeps the shape: it may change the entries of its own thread, and the file
    and the books of an object whose mutex it holds. *)
Lemma shape_step tid c s' o :
  tidy c → shape_of s' = shape_of (c_shared c) → m_initialize s' = m_initialize (c_shared c) →
  w_sched (backend_world s') = [] → w_now (backend_world (c_shared c)) ≤ w_now (backend_world s') → in_time s' →
  (∀ a t, txn_nodes s' !! a = Some t → txn_nodes (c_shared c) !! a = Some t ∨ txn_ok t ∧ ∃ id,
     owner (c_ghost c) !! id = Some tid ∧ m_txn_id_to_transaction_attributes (c_shared c) !! id = Some a) →
  (∀ id, id ∈ m_commits s' → id ∈ m_commits (c_shared c) ∨ is_Some (owner (c_ghost c) !! id)) →
  (∀ id, owner (c_ghost c) !! id ≠ Some tid → id ∈ m_commits s' ↔ id ∈ m_commits (c_shared c)) →
  (NoDup o ∧ ∀ t, t ∈ o → commits t) →
  (∀ t, t ≠ tid → t ∈ o ↔ t ∈ ledger (c_ghost c)) →
  kept_within (c_shared c) s' →
  (∀ n, n ∈ names → file_in s' n = file_in (c_shared c) n ∧ expected n o = expected n (ledger (c_ghost c)) ∨
     ∃ p, m_file_name_to_ptr_to_file_attributes (c_shared c) !! n = Some p ∧ c_held c !! m_file_mtx p = Some tid) →
  guarantees tid c (Config (c_held c) s' {| owner := owner (c_ghost c); due := due (c_ghost c); ledger := o |}).
Proof.
  intros Hc Hs Hi Hcalm Hnow Htime Hnodes Hcom Hcom' Hord Hord' [Hgrow Hsize] Hfiles. pose proof Hc as [T1 T2 T3 T4 T6 T7 T13 T8 T9 T12 T10 T11].
  destruct (same_shape _ _ Hs) as (Eids & Eptr & Eobj & Erand). split.
  - split; simpl; [congruence| |done|by rewrite Eids|by rewrite Erand; eapply drawn_commits|done|done| | |done| |done].
    + apply (ok_quietly _ (c_shared c)); [|done]. split; [done|done|done| |by rewrite T1].
      intros a t Ha. destruct (Hnodes a t Ha) as [?|[? _]]; auto.
    + intros p f Hf. specialize (Eobj p). rewrite Hf in Eobj. simpl in Eobj. symmetry in Eobj.
      apply fmap_Some in Eobj as (f' & Hf' & ->). eauto.
    + intros n Hn Hp. rewrite Eptr in Hp. destruct (Hfiles n Hn) as [[->%file_contents ->]|(p & Hp' & Hheld)]; [by apply T9|].
      rewrite (Hp p Hp') in Hheld. done.
    + intros p tid' Hp. destruct (T10 p tid' Hp) as (id & a & t & Ho & Hid & Ht & Hsp).
      destruct (shape_pointer _ _ _ _ (eq_sym Hs) Ht) as (t' & Ht' & E). exists id, a, t'. rewrite Eids, E. auto.
  - intros tid' Hne. split; simpl; [done|done| |by intros _| |done|by apply Hord'|done].
    + intros id Hid. split; [by rewrite Eids|]. split; [apply Hcom'; congruence|]. intros a t Ha Ht.
      split; [|apply Eobj]. destruct (shape_pointer _ _ _ _ (eq_sym Hs) Ht) as (t' & Ht' & _).
      destruct (Hnodes a t' Ht') as [Hold|(_ & id' & Ho & Ha')]; [congruence|].
      rewrite (ok_inj _ T2 id id' a Ha Ha') in Hid. congruence.
    + intros p n Hp Hn. rewrite Eobj. split; [done|].
      destruct (Hfiles n) as [?|(p' & Hp' & Hheld)]; [|done|].
      * apply fmap_Some in Hn as (f & Hf & ->). eauto.
      * rewrite (only_object c p p' n Hc Hn Hp') in Hheld. congruence.
Qed.

(** A step inside [m_member_mtx] that changes the maps, but not the entries of others, by a
    thread that is not inside a file. *)
Lemma map_step tid c s' own e :
  tidy c → c_held c !! m_member_mtx = Some tid → (∀ p, c_held c !! m_file_mtx p ≠ Some tid) →
  ok_but e s' → m_initialize s' = m_initialize (c_shared c) → m_commits s' = m_commits (c_shared c) →
  w_fs (backend_world s') = w_fs (backend_world (c_shared c)) → w_sched (backend_world s') = [] →
  w_now (backend_world (c_shared c)) ≤ w_now (backend_world s') → in_time s' →
  owner (c_ghost c) ⊆ own → (∀ id t, t ≠ tid → own !! id = Some t → owner (c_ghost c) !! id = Some t) →
  (∀ id a, m_txn_id_to_transaction_attributes s' !! id = Some a → is_Some (own !! id)) →
  drawn (w_rand (backend_world s')) own (m_commits s') →
  (∀ p f, file_nodes s' !! p = Some f → m_file_name f ∈ names) →
  (∀ id t0, t0 ≠ tid → owner (c_ghost c) !! id = Some t0 →
     m_txn_id_to_transaction_attributes s' !! id = m_txn_id_to_transaction_attributes (c_shared c) !! id ∧
     ∀ a t, m_txn_id_to_transaction_attributes (c_shared c) !! id = Some a → txn_nodes (c_shared c) !! a = Some t →
       txn_nodes s' !! a = Some t ∧
       m_file_name <$> file_nodes s' !! sp_file_attributes t = m_file_name <$> file_nodes (c_shared c) !! sp_file_attributes t) →
  (∀ n p, m_file_name_to_ptr_to_file_attributes (c_shared c) !! n = Some p →
     m_file_name_to_ptr_to_file_attributes s' !! n = Some p ∨ c_held c !! m_file_mtx p = None) →
  guarantees tid c (Config (c_held c) s' {| owner := own; due := e; ledger := ledger (c_ghost c) |}).
Proof.
  intros Hc Hm Hnofile Hok Hi Hcom Hfs Hcalm Hnow Htime Hsub Hown Hids Hrand Hnames Hothers Hptr.
  pose proof Hc as [T1 T2 T3 T4 T6 T7 T13 T8 T9 T12 T10 T11].
  assert (Hkept : ∀ p tid', tid' ≠ tid → c_held c !! m_file_mtx p = Some tid' → ∃ id a t,
    own !! id = Some tid' ∧ m_txn_id_to_transaction_attributes s' !! id = Some a ∧ txn_nodes s' !! a = Some t ∧
    sp_file_attributes t = p ∧ m_file_name <$> file_nodes s' !! p = m_file_name <$> file_nodes (c_shared c) !! p).
  { intros p tid' Hne Hp. destruct (T10 p tid' Hp) as (id & a & t & Ho & Hid & Ht & <-).
    destruct (Hothers id tid' Hne Ho) as [Eid Hent]. destruct (Hent a t Hid Ht) as [Ht' En]. exists id, a, t.
    rewrite Eid. split; [by eapply lookup_weaken|done]. }
  split.
  - split; simpl; [congruence|done|congruence|done|done|done|done|done| |by rewrite Hfs| |done].
    + intros n Hn Hp. rewrite Hfs. apply T9; [done|]. intros p Hnp. destruct (Hptr n p Hnp) as [?|?]; [by apply Hp|done].
    + intros p tid' Hp. destruct (Hkept p tid') as (id & a & t & ? & ? & ? & ? & _); [by intros ->; apply (Hnofile p)|done|].
      by exists id, a, t.
  - intros tid' Hne. split; simpl; [done| | |by rewrite Hm; intros [=]| |by apply same_files_grown; intros n _; rewrite Hfs|done|done].
    + intros id. split; [intros ?; by eapply lookup_weaken|by apply Hown].
    + intros id Hid. destruct (Hothers id tid' Hne Hid) as [? ?]. by rewrite Hcom.
    + intros p n Hp Hn. destruct (Hkept p tid' Hne Hp) as (_ & _ & _ & _ & _ & _ & _ & ->). by rewrite Hfs.
Qed.

(** Taking a mutex; that of a file only for an entry of one's own. *)
Lemma take_step tid c m :
  tidy c → c_held c !! m = None →
  (∀ p, m = m_file_mtx p → ∃ id a t, owner (c_ghost c) !! id = Some tid ∧
     m_txn_id_to_transaction_attributes (c_shared c) !! id = Some a ∧ txn_nodes (c_shared c) !! a = Some t ∧
     sp_file_attributes t = p) →
  guarantees tid c (Config (<[m := tid]> (c_held c)) (c_shared c) (c_ghost c)).
Proof.
  intros [T1 T2 T3 T4 T6 T7 T13 T8 T9 T12 T10 T11] Hm Hw. split.
  - split; simpl; [done|done| |done..| |done| |done].
    + intros [Hf _]%lookup_insert_None. auto.
    + intros n Hn Hp. apply T9; [done|]. intros p Hnp. by destruct (proj1 (lookup_insert_None _ _ _ _) (Hp p Hnp)).
    + intros p tid' [[-> <-]|[_ Hp]]%lookup_insert_Some; [by apply Hw|by apply T10].
  - intros tid' Hne. split; simpl; [|done..].
    intros m'. rewrite lookup_insert_Some. split; [|by intros [[-> [=]]|[_ ?]]]. intros Hm'. right. split; [congruence|done].
Qed.

(** Giving one up; that of a file only when the file is as expected. *)
Lemma give_step tid c m :
  tidy c → c_held c !! m = Some tid → (m = m_member_mtx → due (c_ghost c) = None) →
  (∀ p n, m = m_file_mtx p → n ∈ names → m_file_name_to_ptr_to_file_attributes (c_shared c) !! n = Some p →
     now_in (c_shared c) n = expected n (ledger (c_ghost c))) →
  guarantees tid c (Config (delete m (c_held c)) (c_shared c) (c_ghost c)).
Proof.
  intros [T1 T2 T3 T4 T6 T7 T13 T8 T9 T12 T10 T11] Hm Hdue Hfile. split.
  - split; simpl; [done|done| |done..| |done| |done].
    + intros [?|?]%lookup_delete_None; [by apply Hdue|auto].
    + intros n Hn Hp. destruct (m_file_name_to_ptr_to_file_attributes (c_shared c) !! n) as [p|] eqn:Ep.
      2: { apply T9; [done|]. by rewrite Ep. }
      destruct (decide (m = m_file_mtx p)) as [->|Hne]; [by eapply Hfile|]. apply T9; [done|]. rewrite Ep.
      intros p' [= <-]. specialize (Hp p eq_refl). by rewrite lookup_delete_ne in Hp.
    + intros p tid' [_ Hp]%lookup_delete_Some. by apply T10.
  - intros tid' Hne. split; simpl; [|done..].
    intros m'. rewrite lookup_delete_Some. split; [|by intros [_ ?]]. intros Hm'. split; [congruence|done].
Qed.

(** ** The clock and the timers *)

(** Inside [m_member_mtx], with no pointer on its way. *)
Definition untouched (tid : nat) (c : book_conf) : Prop :=
  c_held c !! m_member_mtx = Some tid ∧ due (c_ghost c) = None.

Lemma clock_step tid c ticks :
  tidy c → 0 ≤ ticks → in_time (tick ticks (c_shared c)) →
  guarantees tid c (Config (c_held c) (tick ticks (c_shared c)) (c_ghost c)).
Proof.
  intros Hc Hpos Htime.
  replace (c_ghost c) with {| owner := owner (c_ghost c); due := due (c_ghost c); ledger := ledger (c_ghost c) |} by by destruct (c_ghost c).
  apply shape_step; try done.
  - apply (td_calm _ Hc).
  - simpl. lia.
  - by left.
  - by left.
  - apply (td_order _ Hc).
  - by apply same_files_within.
  - by left.
Qed.

#[export] Program Instance upload_timely : Timely := {| browsing := untouched |}.
Next Obligation. intros c Hc. apply (td_time _ Hc). Qed.
Next Obligation. intros tid c c' Hr. apply (lv_now _ _ _ Hr). Qed.
Next Obligation. by apply clock_step. Qed.
Next Obligation. intros tid c Hc Hm c'. split; [by apply take_step|]. split; [apply lookup_insert_eq|by apply (td_free _ Hc)]. Qed.
Next Obligation.
  intros tid c c' [Hm Hd] Hr. destruct (lv_member _ _ _ Hr Hm) as [Hs Hd'].
  split; [split; [by apply (lv_locks _ _ _ Hr)|congruence]|]. by apply same_shape in Hs as [-> _].
Qed.
Next Obligation. intros tid c id a [_ Hd] Hc Hid. pose proof (td_ok _ Hc) as Hok. rewrite Hd in Hok. by apply (ok_txn _ Hok id). Qed.
Next Obligation. intros tid c [Hm Hd] Hc. split; [done|]. by apply give_step. Qed.

End protocol.
