(* ===== verification/UploadRules.v ===== *)
(** * Uploads side by side: rules

    What the building blocks of the commands do to what a thread knows in the course of its
    upload, under the protocol of UploadProtocol.v. *)
From S2P Require Import Prelude Stdcxx Constants WireProtocol Messages Prog ReadWrite Posix File Backend Recovery BackendInv BackendSteps BackendSpec CommitSpec Threads RelyGuarantee Timers Sharing Views CriticalSections UploadProtocol.
From Stdlib Require Import ZArith Lia List Ascii String Bool.
From stdpp Require Import base gmap strings list fin_maps sorting.
#[local] Set Default Goal Selector "!".
Local Open Scope Z_scope.

(** How far an upload is: not begun; with an id drawn; with an active transaction; with its
    data in the file and its id among the committed ones; over, with the upload committed
    or not. *)
Inductive stage :=
| Idle
| Drawn (id : Z)
| Active (id : Z) (a : positive) (t : TransactionAttributes)
| Recorded (id : Z) (a : positive) (t : TransactionAttributes)
| Over (committed : bool).

Definition entry_of (st : stage) : option (Z * positive * TransactionAttributes) :=
  match st with Active id a t | Recorded id a t => Some (id, a, t) | _ => None end.

(** The mutexes held, the shape of the maps and the pointer on its way inside
    [m_member_mtx], the stage, and inside a file whether it is open and what has been
    written to it. *)
Record sight := Sight {
  own : list mutex;
  maps : option (Shape * option positive);
  at_stage : stage;
  wrote : option (bool * bytes)
}.

Section rules.
Context `{PathResolution} (m_directory : bytes) (ups : list Upload) (base : bytes → bytes).
Context (Hfiles : distinct_files m_directory ups).
Context (tid : nat) (n : bytes) (Hn : name_of ups tid = Some n).

Abbreviation names := (up_name <$> ups).
Abbreviation now_in s n := (contents m_directory (w_fs (backend_world s)) n) (only parsing).
Abbreviation file_in s n := (w_fs (backend_world s) !! target m_directory n) (only parsing).
Abbreviation tidy := (tidy m_directory ups base).
Abbreviation leaves := (leaves m_directory ups base).
Abbreviation expected := (expected ups base).

#[local] Existing Instance upload_protocol.
Abbreviation P := (upload_protocol m_directory ups base).

Lemma n_named : n ∈ names.
Proof using Hn. apply fmap_Some in Hn as (u & Hu & ->). apply list_elem_of_fmap. exists u. split; [done|]. by eapply list_elem_of_lookup_2. Qed.

(** The entry of the thread's own transaction. *)
Definition mine (id : Z) (a : positive) (t : TransactionAttributes) (c : book_conf) : Prop :=
  owner (c_ghost c) !! id = Some tid ∧ m_txn_id_to_transaction_attributes (c_shared c) !! id = Some a ∧
  txn_nodes (c_shared c) !! a = Some t ∧ m_file_name <$> file_nodes (c_shared c) !! sp_file_attributes t = Some n.

Definition reached (st : stage) (c : book_conf) : Prop :=
  match st with
  | Idle => (∀ id, owner (c_ghost c) !! id ≠ Some tid) ∧ tid ∉ ledger (c_ghost c)
  | Drawn id => owner (c_ghost c) !! id = Some tid ∧ m_txn_id_to_transaction_attributes (c_shared c) !! id = None ∧
      (id ∉ m_commits (c_shared c)) ∧ tid ∉ ledger (c_ghost c)
  | Active id a t => mine id a t c ∧ (id ∉ m_commits (c_shared c)) ∧ tid ∉ ledger (c_ghost c)
  | Recorded id a t => mine id a t c ∧ tid ∈ ledger (c_ghost c)
  | Over true => tid ∈ ledger (c_ghost c)
  | Over false => tid ∉ ledger (c_ghost c)
  end.

Record seen (v : sight) (c : book_conf) : Prop := {
  sn_own m : c_held c !! m = Some tid ↔ m ∈ own v;
  sn_maps X e : maps v = Some (X, e) →
    c_held c !! m_member_mtx = Some tid ∧ shape_of (c_shared c) = X ∧ due (c_ghost c) = e;
  sn_stage : reached (at_stage v) c;
  sn_wrote b w : wrote v = Some (b, w) → ∃ p, c_held c !! m_file_mtx p = Some tid ∧
    m_file_name <$> file_nodes (c_shared c) !! p = Some n ∧ (b = true → is_Some (file_in (c_shared c) n)) ∧
    now_in (c_shared c) n = expected n (ledger (c_ghost c)) ++ w
}.

Lemma reached_rely st c c' : reached st c → leaves tid c c' → reached st c'.
Proof.
  intros Hst [_ R2 R3 _ _ _ R6 _]. assert (Hm : ∀ id a t, mine id a t c → mine id a t c').
  { intros id a t (Ho & Hid & Ht & Hf). destruct (R3 id Ho) as (Eid & _ & Hent). destruct (Hent a t Hid Ht) as [Ht' Ef].
    split; [by apply R2|]. rewrite Eid, Ef. done. }
  destruct st as [|id|id a t|id a t|[]]; simpl in *.
  - destruct Hst as [Hno Hord]. rewrite R6. split; [|done]. intros id Hid. by apply (Hno id), R2.
  - destruct Hst as (Ho & Hid & Hc & Hord). destruct (R3 id Ho) as (Eid & Ec & _).
    split; [by apply R2|]. rewrite Eid, Ec, R6. done.
  - destruct Hst as (Hmine & Hc & Hord). destruct (R3 id (proj1 Hmine)) as (_ & Ec & _). rewrite Ec, R6. auto.
  - rewrite R6. naive_solver.
  - by rewrite R6.
  - by rewrite R6.
Qed.

(** The others cannot take it away. *)
Lemma seen_rely v c c' : seen v c → leaves tid c c' → seen v c'.
Proof.
  intros [S1 S2 S3 S4] Hl. pose proof Hl as [R1 R2 R3 R4 R5 _ R6 _]. split.
  - intros m. by rewrite <- R1.
  - intros X e Hm. destruct (S2 X e Hm) as (Hh & Hs & Hd). destruct (R4 Hh) as [Es Ed].
    split; [by apply R1|]. by rewrite Es, Ed.
  - by eapply reached_rely.
  - intros b w Hw. destruct (S4 b w Hw) as (p & Hp & Hf & Hb & Hw'). destruct (R5 p n Hp Hf) as (Ef & Ec & Eo).
    exists p. rewrite (file_contents _ _ _ _ Ec), Ec, Eo. split; [by apply R1|done].
Qed.

(** The order in which the mutexes were taken does not matter. *)
Lemma seen_perm L L' M st W c : L ≡ₚ L' → seen (Sight L M st W) c → seen (Sight L' M st W) c.
Proof. intros Hp [S1 S2 S3 S4]. split; [|done..]. intros m. rewrite (S1 m). simpl. by rewrite Hp. Qed.

(** ** Rules for actions *)

(** Nobody ends the process, and nobody waits but for a mutex. *)
Definition never (t : nat) (h : halt) : Prop := False.
Definition no_wait (t : nat) (g : ServerBackend → bool) (s : ServerBackend) : Prop := False.

Abbreviation sec p c Q := (secure (H := P) never no_wait tid p c Q).
Implicit Types (L : list mutex) (M : option (Shape * option positive)) (st : stage) (W : option (bool * bytes)).

Lemma u_act {A X} (f : ServerBackend → option (X * ServerBackend)) (k : X → prog ServerBackend A) v c Q :
  seen v c →
  (∀ c', seen v c' → tidy c' → ∃ x s', f (c_shared c') = Some (x, s') ∧ (in_time s' → ∃ g,
    guarantees (H := P) tid c' (Config (c_held c') s' g) ∧ sec (k x) (Config (c_held c') s' g) Q)) →
  sec (Act f k) c Q.
Proof.
  intros Hv Hf c' Hr Hi. destruct (Hf c') as (x & s' & -> & Hk); [by eapply seen_rely|done|exact Hk].
Qed.

Lemma u_get {A X} (f : ServerBackend → option X) (k : X → prog ServerBackend A) v c Q :
  seen v c →
  (∀ c', seen v c' → tidy c' → ∃ x, f (c_shared c') = Some x ∧ sec (k x) c' Q) →
  sec (bind (deref f) k) c Q.
Proof.
  intros Hv Hf. apply secure_deref. intros c' Hr Hc'. apply Hf; [by eapply seen_rely|done].
Qed.

Lemma u_reads {A X} (f : ServerBackend → X) (k : X → prog ServerBackend A) v c Q :
  seen v c → (∀ c', seen v c' → tidy c' → sec (k (f (c_shared c'))) c' Q) →
  sec (bind (reads f) k) c Q.
Proof.
  intros Hv Hf. apply secure_reads. intros c' Hr Hc'. apply Hf; [by eapply seen_rely|done].
Qed.

Lemma u_ret {A} (x : A) v c (Q : A → book_conf → Prop) :
  seen v c → (∀ c', seen v c' → tidy c' → Q x c') → sec (Ret x) c Q.
Proof. intros Hv HQ. apply secure_ret. intros c' Hr Hc. apply HQ; [by eapply seen_rely|done]. Qed.

(** ** Rules for mutexes *)

Lemma seen_taken L M st W c m :
  seen (Sight L M st W) c → c_held c !! m = None →
  seen (Sight (m :: L) M st W) (Config (<[m := tid]> (c_held c)) (c_shared c) (c_ghost c)).
Proof.
  intros [S1 S2 S3 S4] Hm. split; simpl in *; [| |done|].
  - intros m'. rewrite lookup_insert_Some, elem_of_cons, <- S1. split.
    + intros [[<- _]|[_ ?]]; auto.
    + intros [->|Hm']; [by left|]. destruct (decide (m = m')) as [->|Hne]; [by left|by right].
  - intros X e HM. destruct (S2 X e HM) as [Hh ?]. split; [|done]. rewrite lookup_insert_ne; [done|congruence].
  - intros b w Hw. destruct (S4 b w Hw) as (p & Hp & ?). exists p. split; [|done]. rewrite lookup_insert_ne; [done|congruence].
Qed.

Lemma u_lock {A} m (k : unit → prog ServerBackend A) L M st W c Q :
  seen (Sight L M st W) c → match m with m_file_mtx _ => False | _ => True end →
  (∀ c', seen (Sight (m :: L) M st W) c' → sec (k tt) c' Q) →
  sec (bind (lock m) k) c Q.
Proof.
  intros Hv Hm Hk c' Hr Hc Hfree. apply (seen_rely _ _ c') in Hv; [|done]. exists (c_ghost c').
  split; [apply take_step; [done|done|by intros p ->]|]. by apply Hk, seen_taken.
Qed.

(** Entering the maps. *)
Lemma u_enter {A} (k : unit → prog ServerBackend A) L st W c Q :
  seen (Sight L None st W) c →
  (∀ c' X, seen (Sight (m_member_mtx :: L) (Some (X, None)) st W) c' → sec (k tt) c' Q) →
  sec (bind (lock m_member_mtx) k) c Q.
Proof.
  intros Hv Hk c' Hr Hc Hfree. apply (seen_rely _ _ c') in Hv; [|done]. exists (c_ghost c').
  split; [by apply take_step|]. apply (Hk _ (shape_of (c_shared c'))).
  destruct (seen_taken _ _ _ _ _ _ Hv Hfree) as [S1 _ S3 S4]. split; [done| |done|done].
  intros X e [= <- <-]. simpl. split; [apply lookup_insert_eq|]. split; [done|]. by apply (td_free _ _ _ _ Hc).
Qed.

(** The file of one's own transaction, as all the uploads before have left it. *)
Lemma u_lock_file {A} id a t (k : unit → prog ServerBackend A) L M c Q :
  seen (Sight L M (Active id a t) None) c →
  (∀ c', seen (Sight (m_file_mtx (sp_file_attributes t) :: L) M (Active id a t) (Some (false, []))) c' → sec (k tt) c' Q) →
  sec (bind (lock (m_file_mtx (sp_file_attributes t))) k) c Q.
Proof using Hn.
  intros Hv Hk c' Hr Hc Hfree. apply (seen_rely _ _ c') in Hv; [|done]. exists (c_ghost c').
  pose proof (sn_stage _ _ Hv) as ((Ho & Hid & Ht & Hf) & _). split.
  - apply take_step; [done|done|]. intros p [= <-]. by exists id, a, t.
  - apply Hk. destruct (seen_taken _ _ _ _ _ _ Hv Hfree) as [S1 S2 S3 _]. split; [done|done|done|].
    intros b w [= <- <-]. exists (sp_file_attributes t). simpl. split; [apply lookup_insert_eq|]. split; [done|]. split; [done|].
    rewrite app_nil_r. apply (td_files _ _ _ _ Hc); [apply n_named|]. intros p Hp.
    by rewrite (only_object m_directory ups base c' _ p n Hc Hf Hp).
Qed.

Lemma seen_given L M st W c m :
  seen (Sight (m :: L) M st W) c → m ∉ L → (M = None ∨ m ≠ m_member_mtx) →
  match m with m_file_mtx _ => W = None | _ => True end →
  seen (Sight L M st W) (Config (delete m (c_held c)) (c_shared c) (c_ghost c)).
Proof.
  intros [S1 S2 S3 S4] HL HM Hm. split; simpl in *; [| |done|].
  - intros m'. rewrite lookup_delete_Some, S1, elem_of_cons. split; [by intros [? [->|?]]|].
    intros Hm'. split; [by intros ->|by right].
  - intros X e E. destruct (S2 X e E) as [Hh ?]. split; [|done]. destruct HM as [->|HM]; [done|]. by rewrite lookup_delete_ne.
  - intros b w E. destruct (S4 b w E) as (p & Hp & ?). exists p. split; [|done]. rewrite lookup_delete_ne; [done|].
    intros ->. congruence.
Qed.

Lemma u_unlock {A} m (k : unit → prog ServerBackend A) L M st W c Q :
  seen (Sight (m :: L) M st W) c → match m with m_member_mtx | m_file_mtx _ => False | _ => True end → m ∉ L →
  (∀ c', seen (Sight L M st W) c' → sec (k tt) c' Q) →
  sec (bind (unlock m) k) c Q.
Proof.
  intros Hv Hm HL Hk c' Hr Hc. apply (seen_rely _ _ c') in Hv; [|done].
  assert (Hown : c_held c' !! m = Some tid) by (apply (sn_own _ _ Hv); by left). split; [done|].
  exists (c_ghost c'). split; [apply give_step; [done|done|by intros ->|by intros p ? ->]|].
  apply Hk, seen_given; [done|done|right; by intros ->|by destruct m].
Qed.

Lemma u_leave {A} (k : unit → prog ServerBackend A) L X st W c Q :
  seen (Sight (m_member_mtx :: L) (Some (X, None)) st W) c → m_member_mtx ∉ L →
  (∀ c', seen (Sight L None st W) c' → sec (k tt) c' Q) →
  sec (bind (unlock m_member_mtx) k) c Q.
Proof.
  intros Hv HL Hk c' Hr Hc. apply (seen_rely _ _ c') in Hv; [|done].
  destruct (sn_maps _ _ Hv _ _ eq_refl) as (Hown & _ & Hd). split; [done|].
  exists (c_ghost c'). split; [by apply give_step|]. destruct Hv as [S1 _ S3 S4].
  apply Hk, seen_given; [by split|done|by left|done].
Qed.

(** Leaving the file once all that was written to it is accounted for. *)
Lemma u_unlock_file {A} p (k : unit → prog ServerBackend A) L M st b c Q :
  seen (Sight (m_file_mtx p :: L) M st (Some (b, []))) c → m_file_mtx p ∉ L → (∀ q, m_file_mtx q ∉ L) →
  (∀ c', seen (Sight L M st None) c' → sec (k tt) c' Q) →
  sec (bind (unlock (m_file_mtx p)) k) c Q.
Proof.
  intros Hv HL Hother Hk c' Hr Hc. apply (seen_rely _ _ c') in Hv; [|done].
  assert (Hown : c_held c' !! m_file_mtx p = Some tid) by (apply (sn_own _ _ Hv); by left). split; [done|].
  exists (c_ghost c'). split.
  - apply give_step; [done|done|done|]. intros p' n' [= <-] Hn' Hp.
    destruct (sn_wrote _ _ Hv _ _ eq_refl) as (q & Hq & Hf & _ & Hw). rewrite app_nil_r in Hw.
    assert (q = p) as ->.
    { apply (sn_own _ _ Hv) in Hq as [[= ->]|Hq]%elem_of_cons; [done|]. by destruct (Hother q). }
    apply (ok_ptr _ (td_ok _ _ _ _ Hc)) in Hp as (f & Hp & <-). rewrite Hp in Hf. simpl in Hf. by injection Hf as ->.
  - destruct Hv as [S1 S2 S3 _]. apply Hk, seen_given; [by split|done|by right|done].
Qed.

(** ** Rules for changes others do not notice *)

Definition same_books (c : book_conf) : Books :=
  {| owner := owner (c_ghost c); due := due (c_ghost c); ledger := ledger (c_ghost c) |}.

Record unnoticed (s s' : ServerBackend) : Prop := {
  un_shape : shape_of s' = shape_of s;
  un_init : m_initialize s' = m_initialize s;
  un_nodes : txn_nodes s' = txn_nodes s;
  un_commits : m_commits s' = m_commits s;
  un_calm : w_sched (backend_world s) = [] → w_sched (backend_world s') = [];
  un_now : w_now (backend_world s') = w_now (backend_world s);
  un_files n' : n' ∈ names → file_in s' n' = file_in s n'
}.

Lemma reached_kept st c c' :
  shape_of (c_shared c') = shape_of (c_shared c) → txn_nodes (c_shared c') = txn_nodes (c_shared c) →
  m_commits (c_shared c') = m_commits (c_shared c) → owner (c_ghost c') = owner (c_ghost c) →
  ledger (c_ghost c') = ledger (c_ghost c) → reached st c → reached st c'.
Proof.
  intros (Eids & _ & Eobj & _)%same_shape En Ec Eo El. unfold reached, mine. by destruct st; rewrite ?Eids, ?Eobj, ?En, ?Ec, ?Eo, ?El.
Qed.

Lemma unnoticed_step v c s' :
  tidy c → seen v c → unnoticed (c_shared c) s' → in_time s' →
  guarantees (H := P) tid c (Config (c_held c) s' (same_books c)) ∧ seen v (Config (c_held c) s' (same_books c)).
Proof using Hn.
  intros Hc Hv [Us Ui Un Uc Uw Ut Uf] Htime. split.
  - apply shape_step; [done|done|done|by apply Uw, (td_calm _ _ _ _ Hc)|by rewrite Ut|done|..].
    + intros a t. rewrite Un. by left.
    + rewrite Uc. by left.
    + by rewrite Uc.
    + apply (td_order _ _ _ _ Hc).
    + done.
    + by apply same_files_within.
    + intros n' Hn'. left. split; [by apply Uf|done].
  - destruct Hv as [S1 S2 S3 S4]. destruct (same_shape _ _ Us) as (_ & _ & Eobj & _). split; simpl; [done| | |].
    + intros X e HM. rewrite Us. by apply S2.
    + by apply (reached_kept _ c).
    + intros b w Hw. destruct (S4 b w Hw) as (p & Hp & Hf & Hb & Hcont). exists p.
      rewrite Eobj, (file_contents _ _ _ _ (Uf n n_named)), (Uf n n_named). done.
Qed.

Lemma u_unnoticed {A X} (f : ServerBackend → X * ServerBackend) (k : X → prog ServerBackend A) v c Q :
  seen v c → (∀ s, w_sched (backend_world s) = [] → unnoticed s (f s).2) →
  (∀ s c', w_sched (backend_world s) = [] → seen v c' → sec (k (f s).1) c' Q) →
  sec (bind (act f) k) c Q.
Proof using Hn.
  intros Hv Hf Hk. apply (u_act _ _ v); [done|]. intros c' Hv' Hc'. pose proof (td_calm _ _ _ _ Hc') as Hcalm.
  exists (f (c_shared c')).1, (f (c_shared c')).2. split; [simpl; by destruct (f (c_shared c'))|]. intros Htime.
  destruct (unnoticed_step v c' (f (c_shared c')).2 Hc' Hv') as [Hg Hs]; [by apply Hf|done|].
  exists (same_books c'). split; [done|]. by apply Hk.
Qed.

(** ** Rules for one's own transaction *)

Lemma reached_mine st id a t c : entry_of st = Some (id, a, t) → reached st c → mine id a t c.
Proof. destruct st; simpl; intros [=]; simplify_eq; by intros [? _]. Qed.

Lemma u_find {A} id a t (k : positive → prog ServerBackend A) v c Q :
  seen v c → entry_of (at_stage v) = Some (id, a, t) → (∀ c', seen v c' → sec (k a) c' Q) →
  sec (bind (find_txn id) k) c Q.
Proof.
  intros Hv He Hk. apply (u_get _ _ v); [done|]. intros c' Hv' Hc'.
  destruct (reached_mine _ _ _ _ _ He (sn_stage _ _ Hv')) as (_ & Hid & _). exists a. by split; [|apply Hk].
Qed.

Lemma u_txn_get {A X} id a t (f : TransactionAttributes → X) (k : X → prog ServerBackend A) v c Q :
  seen v c → entry_of (at_stage v) = Some (id, a, t) → (∀ c', seen v c' → sec (k (f t)) c' Q) →
  sec (bind (txn_get a f) k) c Q.
Proof.
  intros Hv He Hk. apply (u_get _ _ v); [done|]. intros c' Hv' Hc'.
  destruct (reached_mine _ _ _ _ _ He (sn_stage _ _ Hv')) as (_ & _ & Ht & _). exists (f t). rewrite Ht. by split; [|apply Hk].
Qed.

Lemma u_file_get {A X} id a t (f : FileAttributes → X) (k : X → prog ServerBackend A) v c Q :
  seen v c → entry_of (at_stage v) = Some (id, a, t) →
  (∀ fa c', m_file_name fa = n → seen v c' → sec (k (f fa)) c' Q) →
  sec (bind (file_get (sp_file_attributes t) f) k) c Q.
Proof.
  intros Hv He Hk. apply (u_get _ _ v); [done|]. intros c' Hv' Hc'.
  destruct (reached_mine _ _ _ _ _ He (sn_stage _ _ Hv')) as (_ & _ & _ & Hf). apply fmap_Some in Hf as (fa & Hfa & ->).
  exists (f fa). rewrite Hfa. by split; [|apply Hk].
Qed.

Lemma u_file_set {A} id a t (f : FileAttributes → FileAttributes) (k : unit → prog ServerBackend A) v c Q :
  seen v c → entry_of (at_stage v) = Some (id, a, t) → (∀ fa, identity (f fa) = identity fa) →
  (∀ c', seen v c' → sec (k tt) c' Q) →
  sec (bind (file_set (sp_file_attributes t) f) k) c Q.
Proof using Hn.
  intros Hv He Hf Hk. apply (u_act _ _ v); [done|]. intros c' Hv' Hc'.
  destruct (reached_mine _ _ _ _ _ He (sn_stage _ _ Hv')) as (_ & _ & _ & Hfa). apply fmap_Some in Hfa as (fa & Hfa & _).
  eexists tt, (put_file (sp_file_attributes t) (f fa) (c_shared c')). rewrite Hfa. split; [done|]. intros Htime.
  destruct (unnoticed_step v c' (put_file (sp_file_attributes t) (f fa) (c_shared c')) Hc' Hv') as [Hg Hs]; [|done|].
  { pose proof (put_file_quiet _ _ _ (f fa) Hfa (Hf fa)) as Hq. by split; [apply (q_shape _ _ Hq)|..]. }
  exists (same_books c'). split; [exact Hg|by apply Hk].
Qed.

(** Only the thread itself changes the entry, before the commit. *)
Lemma u_txn_set {A} id a t (f : TransactionAttributes → TransactionAttributes) (k : unit → prog ServerBackend A) L M W c Q :
  seen (Sight L M (Active id a t) W) c →
  sp_file_attributes (f t) = sp_file_attributes t → (txn_ok t → txn_ok (f t)) →
  (∀ c', seen (Sight L M (Active id a (f t)) W) c' → sec (k tt) c' Q) →
  sec (bind (txn_set a f) k) c Q.
Proof using Hn.
  intros Hv Hsp Hok Hk. apply (u_act _ _ _ _ _ Hv). intros c' [S1 S2 S3 S4] Hc'. simpl in *.
  destruct S3 as ((Ho & Hid & Ht & Hf) & Hcom & Hord). pose proof (put_txn_shape (c_shared c') a t (f t) Ht Hsp) as Hs.
  exists tt, (put_txn a (f t) (c_shared c')). rewrite Ht. split; [done|]. intros Htime. exists (same_books c'). split.
  - apply shape_step; [done|done|done|by apply (td_calm _ _ _ _ Hc')|done|done| |by left|done|
      apply (td_order _ _ _ _ Hc')|done|by apply same_files_within|by left].
    simpl. intros b t' [[<- <-]|[_ Hb]]%lookup_insert_Some; [right|by left].
    split; [by apply Hok, (ok_data _ (td_ok _ _ _ _ Hc') a)|by exists id].
  - apply Hk. split; simpl; [done| | |done].
    + intros X e HM. rewrite Hs. by apply S2.
    + split; [|done]. split; [done|]. split; [done|]. simpl. rewrite lookup_insert_eq, Hsp. done.
Qed.

(** ** Rules for the two checks *)

Lemma u_check_invalid {A} id a t (k : option Errors.ErrorMapIterator → prog ServerBackend A) L M W c Q :
  seen (Sight L M (Active id a t) W) c →
  (∀ c', seen (Sight L M (Active id a t) W) c' → sec (k None) c' Q) →
  sec (bind (RETURN_ERROR_IF_COMMITTED_OR_INVALID_ID id) k) c Q.
Proof.
  intros Hv Hk. apply secure_bind. unfold RETURN_ERROR_IF_COMMITTED_OR_INVALID_ID, is_committed, is_active.
  apply (u_reads _ _ _ _ _ Hv). intros c1 Hv1 _. destruct (sn_stage _ _ Hv1) as (_ & Hc & _). rewrite bool_decide_eq_false_2 by done.
  apply (u_reads _ _ _ _ _ Hv1). intros c2 Hv2 _. destruct (sn_stage _ _ Hv2) as ((_ & Hid & _) & _ & _).
  rewrite bool_decide_eq_true_2 by by eexists. apply (u_ret _ _ _ _ Hv2). intros c3 Hv3 _. by apply Hk.
Qed.

Lemma u_check_aborted {A} id a t (k : option Errors.ErrorMapIterator → prog ServerBackend A) L M W c Q :
  seen (Sight L M (Active id a t) W) c →
  (∀ c', seen (Sight L M (Active id a t) W) c' → sec (k None) c' Q) →
  sec (bind (RETURN_ERROR_IF_COMMITTED_OR_ABORTED id) k) c Q.
Proof.
  intros Hv Hk. apply secure_bind. unfold RETURN_ERROR_IF_COMMITTED_OR_ABORTED, is_committed, is_active.
  apply (u_reads _ _ _ _ _ Hv). intros c1 Hv1 _. destruct (sn_stage _ _ Hv1) as (_ & Hc & _). rewrite bool_decide_eq_false_2 by done.
  apply (u_reads _ _ _ _ _ Hv1). intros c2 Hv2 _. destruct (sn_stage _ _ Hv2) as ((_ & Hid & _) & _ & _).
  rewrite bool_decide_eq_true_2 by by eexists. apply (u_ret _ _ _ _ Hv2). intros c3 Hv3 _. by apply Hk.
Qed.

(** ** Rules for files

    No call fails or falls short. *)

(** A system call that keeps the files of the uploads. *)
Definition aloof {X} (f : World → X * World) : Prop :=
  ∀ w, w_sched w = [] → w_sched (f w).2 = [] ∧ w_rand (f w).2 = w_rand w ∧ w_now (f w).2 = w_now w ∧
    ∀ n', n' ∈ names → w_fs (f w).2 !! target m_directory n' = w_fs w !! target m_directory n'.

Lemma u_syscall {A X} (f : World → X * World) (k : X → prog ServerBackend A) v c Q :
  aloof f → seen v c → (∀ w c', w_sched w = [] → seen v c' → sec (k (f w).1) c' Q) →
  sec (bind (syscall f) k) c Q.
Proof using Hn.
  intros Hf Hv Hk. apply (u_unnoticed _ _ v); [done| |].
  - intros s Hs. destruct (Hf (backend_world s) Hs) as (Ew & Er & Et & Ef).
    split; simpl; [|done|done|done|done|done|exact Ef]. unfold shape_of. simpl. by rewrite Er.
  - intros s c' Hs. by apply Hk.
Qed.

Definition log_file (log : bytes) : bytes := resolve (m_directory ++ log).

Abbreviation data_logs := [m_transaction_log; m_commit_log; m_abort_log].

Lemma open_calm path flags w :
  w_sched w = [] → has_flag O_CREAT flags = true →
  w_open path flags w = (Some (resolve path), set_fs (opened path (w_fs w)) w).
Proof.
  intros Hw Hf. unfold w_open, opened. rewrite next_call_calm by done.
  destruct (w_fs w !! resolve path); [by destruct w|by rewrite Hf].
Qed.

Lemma write_calm d buf w :
  w_sched w = [] → w_write d buf w = (Some (length buf), set_fs (alter (λ c, c ++ buf) d (w_fs w)) w).
Proof. intros Hw. unfold w_write. rewrite next_call_calm by done. simpl. by rewrite firstn_all. Qed.

Lemma open_log_aloof log : log ∈ data_logs → aloof (w_open (m_directory ++ log) log_flags).
Proof using Hfiles.
  intros Hlog w Hw. rewrite open_calm by done. simpl. do 3 (split; [done|]). intros n' Hn'.
  apply opened_ne. by apply (df_logs _ _ Hfiles).
Qed.

Lemma write_log_aloof log buf : log ∈ data_logs → aloof (w_write (log_file log) buf).
Proof using Hfiles.
  intros Hlog w Hw. rewrite write_calm by done. simpl. do 3 (split; [done|]). intros n' Hn'.
  rewrite lookup_alter_ne; [done|]. by apply not_eq_sym, (df_logs _ _ Hfiles).
Qed.

(** A buffer is written in one go. *)
Lemma u_File_write f buf v v' c (Q : exn + unit → book_conf → Prop) :
  writable (m_flags f) = true → nul_free buf = true → (buf = [] → v' = v) →
  (∀ c (k : option nat → prog ServerBackend Z) Q', seen v c →
     (∀ c', seen v' c' → sec (k (Some (length buf))) c' Q') → sec (bind (syscall (w_write (m_fd f) buf)) k) c Q') →
  seen v c → (∀ c', seen v' c' → Q (inr tt) c') → sec (File_write f buf) c Q.
Proof.
  intros Hf Hnul Hempty Hwrite Hv HQ. unfold File_write. rewrite Hf. unfold ebind, lift. do 2 apply secure_bind.
  unfold writeFileDescriptor, assert_that. rewrite Hnul.
  change (bind (Ret tt) ?q) with (q tt). cbv beta.
  match goal with |- sec _ c ?R => assert (Hend : ∀ c, seen v' c → sec (Ret (len buf)) c R) end.
  { intros c1 Hv1. apply (u_ret _ _ _ _ Hv1). intros c2 Hv2 _. apply (u_ret _ _ _ _ Hv2). intros c3 Hv3 _. cbv beta iota.
    rewrite (proj2 (Z.ltb_ge _ 0)) by lia. apply (u_ret _ _ _ _ Hv3). auto. }
  cbn [write_loop]. case_decide as Hlen.
  - rewrite drop_0. apply (Hwrite c _ _ Hv). intros c1 Hv1. cbv beta iota.
    destruct (length buf) as [|m] eqn:El; [lia|]. cbn [write_loop]. rewrite El, decide_False, decide_True by lia. by apply Hend.
  - assert (buf = []) as -> by (destruct buf; simpl in *; [done|lia]). rewrite decide_True by done.
    apply Hend. by rewrite Hempty.
Qed.

(** A block with a local [File] that can be opened. *)
Lemma u_with_File {A} path flags d (body : File → eprog ServerBackend A) L M st W W' (G : exn + A → stage → option (bool * bytes) → Prop) c (Q : exn + A → book_conf → Prop) :
  g_mtx ∉ L → seen (Sight L M st W) c →
  (∀ c (k : option bytes → prog ServerBackend (exn + File)) Q', seen (Sight (g_mtx :: L) M st W) c →
     (∀ c', seen (Sight (g_mtx :: L) M st W') c' → sec (k (Some d)) c' Q') → sec (bind (syscall (w_open path flags)) k) c Q') →
  (∀ c', seen (Sight L M st W') c' → sec (body {| m_fd := d; m_flags := flags |}) c'
     (λ x c', ∃ st' W'', G x st' W'' ∧ seen (Sight L M st' W'') c')) →
  (∀ x st' W'' c', G x st' W'' → seen (Sight L M st' W'') c' → Q x c') →
  sec (with_File path flags body) c Q.
Proof.
  intros HL Hv Hopen Hbody HQ. unfold with_File, ebind. apply secure_bind. unfold File_ctor.
  apply (u_lock g_mtx _ _ _ _ _ _ _ Hv I). intros c1 Hv1. apply (Hopen _ _ _ Hv1). intros c2 Hv2.
  apply (u_unlock g_mtx _ _ _ _ _ _ _ Hv2 I HL). intros c3 Hv3. cbv beta iota.
  apply (u_ret _ _ _ _ Hv3). intros c4 Hv4 _. cbv beta iota. apply secure_bind.
  eapply secure_mono; [by apply Hbody|]. intros x c5 _ (st' & W'' & HG & Hv5). cbv beta.
  unfold File_dtor. apply secure_bind. apply (u_lock g_mtx _ _ _ _ _ _ _ Hv5 I). intros c6 Hv6.
  change (unlock g_mtx : prog ServerBackend unit) with (bind (unlock g_mtx) (@Ret ServerBackend unit)).
  apply (u_unlock g_mtx _ _ _ _ _ _ _ Hv6 I HL). intros c7 Hv7.
  apply (u_ret _ _ _ _ Hv7). intros c8 Hv8 _. apply (u_ret _ _ _ _ Hv8). eauto.
Qed.

(** A piece of a log line. *)
Lemma u_log_piece {A} log flags buf (q : unit → eprog ServerBackend A) v c (Q : exn + A → book_conf → Prop) :
  log ∈ data_logs → writable flags = true → nul_free buf = true → seen v c →
  (∀ c', seen v c' → sec (q tt) c' Q) →
  sec (ebind (File_write {| m_fd := log_file log; m_flags := flags |} buf) q) c Q.
Proof using Hfiles Hn.
  intros Hlog Hf Hnul Hv Hq. unfold ebind. apply secure_bind. apply (u_File_write _ _ v v); [done|done|done| |done|done].
  intros c1 k Q' Hv1 Hk. apply (u_syscall _ _ v); [by apply write_log_aloof|done|]. intros w c2 Hw Hv2.
  simpl. rewrite write_calm by done. by apply Hk.
Qed.

Lemma u_log log id name L M st W c (Q : unit → book_conf → Prop) :
  log ∈ data_logs → nul_free name = true → g_mtx ∉ L → seen (Sight L M st W) c →
  (∀ c', seen (Sight L M st W) c' → Q tt c') →
  sec (logTransaction m_directory log id name) c Q.
Proof using Hfiles Hn.
  intros Hlog Hname HL Hv HQ. unfold logTransaction, try_catch. apply secure_bind.
  apply (u_with_File _ _ (log_file log) _ L M st W W (λ x st' W'', x = inr tt ∧ st' = st ∧ W'' = W)); [done|done| | |].
  - intros c1 k Q' Hv1 Hk. apply (u_syscall _ _ _ _ _ (open_log_aloof log Hlog) Hv1). intros w c2 Hw Hv2.
    rewrite open_calm by done. by apply Hk.
  - intros c1 Hv1.
    apply u_log_piece with (v := Sight L M st W); [done|done|apply to_string_nul_free|done|]. clear dependent c1. intros c1 Hv1.
    apply u_log_piece with (v := Sight L M st W); [done..|]. clear dependent c1. intros c1 Hv1.
    apply u_log_piece with (v := Sight L M st W); [done..|]. clear dependent c1. intros c1 Hv1.
    apply u_log_piece with (v := Sight L M st W); [done..|]. clear dependent c1. intros c1 Hv1.
    apply secure_lift. unfold getFileSize, syscall_reads. change (reads ?f) with (bind (reads f) (@Ret ServerBackend Z)).
    apply (u_reads _ _ _ _ _ Hv1). intros c2 Hv2 _. apply (u_ret _ _ _ _ Hv2). intros c3 Hv3 _.
    apply u_log_piece with (v := Sight L M st W); [done|done|apply to_string_nul_free|done|]. intros c4 Hv4.
    apply (u_File_write _ _ (Sight L M st W) (Sight L M st W)); [done|done|done| |done|intros c5 Hv5; by exists st, W].
    intros c5 k Q' Hv5 Hk. apply (u_syscall _ _ (Sight L M st W)); [by apply write_log_aloof|done|]. intros w c6 Hw Hv6.
    simpl. rewrite write_calm by done. by apply Hk.
  - intros x st' W'' c1 (-> & -> & ->) Hv1. apply (u_ret _ _ _ _ Hv1). auto.
Qed.

(** ** Rules for one's own file *)

Lemma own_file_within c w w' id a t :
  tidy c → reached (Active id a t) c → now_in (c_shared c) n = expected n (ledger (c_ghost c)) ++ w →
  w `prefix_of` w' → w' `prefix_of` data_of ups tid →
  kept_within m_directory ups base (c_shared c)
    (set_world (set_fs (<[target m_directory n := expected n (ledger (c_ghost c)) ++ w']> (w_fs (backend_world (c_shared c))))
       (backend_world (c_shared c))) (c_shared c)).
Proof using Hfiles Hn.
  intros Hc (_ & _ & Hord) Hnow Hw Hw'.
  assert (Hother : ∀ n' (e : bytes), n' ∈ names → n' ≠ n →
    <[target m_directory n := e]> (w_fs (backend_world (c_shared c))) !! target m_directory n' = file_in (c_shared c) n').
  { intros n' e Hn' Hne. rewrite lookup_insert_ne; [done|]. intros E. apply Hne. symmetry.
    by apply (df_names _ _ Hfiles); [apply n_named|..]. }
  split.
  - intros n' Hn'. destruct (decide (n' = n)) as [->|Hne].
    + rewrite Hnow. unfold contents. simpl. rewrite lookup_insert_eq. split; [by apply prefix_app|by eexists].
    + unfold contents. simpl. by rewrite Hother.
  - intros Hr n' Hn'. destruct (decide (n' = n)) as [->|Hne].
    + unfold contents. simpl. rewrite lookup_insert_eq. simpl. specialize (Hr n Hn').
      destruct (td_order _ _ _ _ Hc) as [Hnd Hall].
      assert (Hle : len (expected n (ledger (c_ghost c) ++ [tid])) ≤ len (expected n (seq 0 (length ups)))).
      { apply expected_room.
        - apply NoDup_app. split; [done|]. split; [by intros x Hx ->%list_elem_of_singleton|apply NoDup_singleton].
        - intros x [(u & Hu & _)%Hall| ->%list_elem_of_singleton]%elem_of_app; [by eapply lookup_lt_Some|].
          apply fmap_Some in Hn as (u & Hu & _). by eapply lookup_lt_Some. }
      rewrite (expected_mine _ _ _ _ _ Hn) in Hle. apply prefix_length in Hw'. rewrite length_app in *. lia.
    + unfold contents. simpl. rewrite Hother by done. by apply (td_size _ _ _ _ Hc).
Qed.

Lemma own_file_step c s' b w w' L M id a t (st := Active id a t) :
  tidy c → seen (Sight L M st (Some (b, w))) c → w `prefix_of` w' → w' `prefix_of` data_of ups tid →
  s' = set_world (set_fs (<[target m_directory n := expected n (ledger (c_ghost c)) ++ w']> (w_fs (backend_world (c_shared c))))
         (backend_world (c_shared c))) (c_shared c) → in_time s' →
  guarantees (H := P) tid c (Config (c_held c) s' (same_books c)) ∧
  seen (Sight L M st (Some (true, w'))) (Config (c_held c) s' (same_books c)).
Proof using Hfiles Hn.
  intros Hc [S1 S2 S3 S4] Hw Hw' -> Htime. destruct (S4 b w eq_refl) as (p & Hp & Hf & _ & Hnow).
  assert (Hptr : m_file_name_to_ptr_to_file_attributes (c_shared c) !! n = Some p).
  { pose proof Hf as (f & Hff & ->)%fmap_Some. by apply (ok_named _ _ _ (td_ok _ _ _ _ Hc)). }
  split.
  - apply shape_step; [done|done|done|apply (td_calm _ _ _ _ Hc)|done|done|by intros a' u ?; left|by left|done|
      apply (td_order _ _ _ _ Hc)|done|by apply (own_file_within c w w' id a t)|].
    intros n' Hn'. destruct (decide (n' = n)) as [->|Hne]; [right; by exists p|left]. split; [|done]. simpl.
    rewrite lookup_insert_ne; [done|]. intros E. apply Hne. symmetry. by apply (df_names _ _ Hfiles); [apply n_named|..].
  - split; [done|done|by apply (reached_kept _ c)|]. simpl. intros b' w0 [= <- <-]. exists p.
    unfold contents. simpl. rewrite lookup_insert_eq. split; [done|]. split; [done|]. split; [by eexists|done].
Qed.

Lemma u_own_syscall {A X} (f : World → X * World) b w w' (k : X → prog ServerBackend A) L M id a t c Q
    (st := Active id a t) :
  w `prefix_of` w' → w' `prefix_of` data_of ups tid → seen (Sight L M st (Some (b, w))) c →
  (∀ wd e, w_sched wd = [] → contents m_directory (w_fs wd) n = e ++ w →
     (b = true → is_Some (w_fs wd !! target m_directory n)) →
     (f wd).2 = set_fs (<[target m_directory n := e ++ w']> (w_fs wd)) wd) →
  (∀ wd c', w_sched wd = [] → seen (Sight L M st (Some (true, w'))) c' → sec (k (f wd).1) c' Q) →
  sec (bind (syscall f) k) c Q.
Proof using Hfiles Hn.
  intros Hpre Hpre' Hv Hf Hk. apply (u_act _ _ _ _ _ Hv). intros c' Hv' Hc'. pose proof (td_calm _ _ _ _ Hc') as Hcalm.
  destruct (sn_wrote _ _ Hv' _ _ eq_refl) as (p & _ & _ & Hb & Hw).
  eexists _, _. split; [done|]. change (the_world (c_shared c')) with (backend_world (c_shared c')).
  rewrite (Hf _ _ Hcalm Hw Hb). intros Htime. exists (same_books c').
  destruct (own_file_step c' _ b w w' L M id a t Hc' Hv' Hpre Hpre' eq_refl Htime) as [Hg Hs]. split; [exact Hg|]. by apply Hk.
Qed.

Lemma u_open_own {A} flags (k : option bytes → prog ServerBackend A) L M id a t c Q (st := Active id a t) :
  has_flag O_CREAT flags = true → seen (Sight L M st (Some (false, []))) c →
  (∀ c', seen (Sight L M st (Some (true, []))) c' → sec (k (Some (target m_directory n))) c' Q) →
  sec (bind (syscall (w_open (m_directory ++ n) flags)) k) c Q.
Proof using Hfiles Hn.
  intros Hf Hv Hk. apply (u_own_syscall _ false [] [] _ L M id a t); [done|apply prefix_nil|exact Hv|..].
  - intros wd e Hw He _. rewrite open_calm by done. simpl. f_equal. unfold contents, target, opened in *.
    destruct (w_fs wd !! resolve (m_directory ++ n)) as [d|] eqn:E; simpl in He; rewrite <- He; [|done].
    symmetry. by apply insert_id.
  - intros wd c' Hw Hv'. rewrite open_calm by done. by apply Hk.
Qed.

Lemma u_write_own flags buf w c L M id a t (Q : exn + unit → book_conf → Prop) (st := Active id a t) :
  writable flags = true → nul_free buf = true → (w ++ buf) `prefix_of` data_of ups tid → seen (Sight L M st (Some (true, w))) c →
  (∀ c', seen (Sight L M st (Some (true, w ++ buf))) c' → Q (inr tt) c') →
  sec (File_write {| m_fd := target m_directory n; m_flags := flags |} buf) c Q.
Proof using Hfiles Hn.
  intros Hf Hnul Hpre Hv HQ. apply (u_File_write _ _ (Sight L M st (Some (true, w))) (Sight L M st (Some (true, w ++ buf)))); [done|done| | |done|done].
  { intros ->. by rewrite app_nil_r. }
  intros c1 k Q' Hv1 Hk. apply (u_own_syscall _ true w (w ++ buf) _ L M id a t); [by apply prefix_app_r|done|exact Hv1|..].
  - intros wd e Hw He Hopen. destruct (Hopen eq_refl) as [d Hd]. simpl. rewrite write_calm by done. simpl. f_equal.
    unfold contents in He. rewrite Hd in He. simpl in He. subst d. apply map_eq. intros i.
    destruct (decide (i = target m_directory n)) as [->|Hne].
    + rewrite lookup_alter_eq, Hd, lookup_insert_eq. simpl. by rewrite app_assoc.
    + by rewrite lookup_alter_ne, lookup_insert_ne.
  - intros wd c' Hw Hv'. simpl. rewrite write_calm by done. by apply Hk.
Qed.

(** The commit: with all the data in the file, the id is recorded. *)
Lemma u_record {A} id a t (k : unit → prog ServerBackend A) L M c Q :
  commits ups tid → seen (Sight L M (Active id a t) (Some (true, data_of ups tid))) c →
  (∀ c', seen (Sight L M (Recorded id a t) (Some (true, []))) c' → sec (k tt) c' Q) →
  sec (bind (modify (λ s, set_commits ({[ id ]} ∪ m_commits s) s)) k) c Q.
Proof using Hn.
  intros Hcommits Hv Hk. apply (u_act _ _ _ _ _ Hv). intros c' [S1 S2 S3 S4] Hc'. simpl in *.
  destruct S3 as (Hmine & Hcom & Hord). pose proof Hmine as (Ho & _). destruct (S4 _ _ eq_refl) as (p & Hp & Hf & Hb & Hw).
  assert (Hptr : m_file_name_to_ptr_to_file_attributes (c_shared c') !! n = Some p).
  { pose proof Hf as (f & Hff & ->)%fmap_Some. by apply (ok_named _ _ _ (td_ok _ _ _ _ Hc')). }
  eexists tt, _. split; [done|]. intros Htime.
  exists {| owner := owner (c_ghost c'); due := due (c_ghost c'); ledger := ledger (c_ghost c') ++ [tid] |}. split.
  - apply shape_step; [done|done|done|apply (td_calm _ _ _ _ Hc')|done|done|by intros b u ?; left| | | | |by apply same_files_within|].
    + intros i. simpl. intros [->%elem_of_singleton|Hi]%elem_of_union; [right; by eexists|by left].
    + intros i Hi. simpl. rewrite elem_of_union, elem_of_singleton. split; [|auto]. by intros [->|?].
    + destruct (td_order _ _ _ _ Hc') as [Hnd Hall]. split.
      * apply NoDup_app. split; [done|]. split; [by intros x Hx ->%list_elem_of_singleton|apply NoDup_singleton].
      * by intros x [Hx| ->%list_elem_of_singleton]%elem_of_app; [apply Hall|].
    + intros x Hx. rewrite elem_of_app, list_elem_of_singleton. naive_solver.
    + intros n' Hn'. destruct (decide (n' = n)) as [->|Hne]; [right; by exists p|left]. split; [done|].
      apply expected_other. rewrite Hn. congruence.
  - apply Hk. split; simpl; [done|done| |].
    + split; [exact Hmine|]. apply elem_of_app. right. by apply list_elem_of_singleton.
    + intros b w [= <- <-]. exists p. split; [done|]. split; [done|]. split; [done|].
      by rewrite (expected_mine _ _ _ _ _ Hn), app_nil_r.
Qed.
End rules.
