(* ===== verification/UploadMaps.v ===== *)
(** * Uploads side by side: the maps

    The rules of UploadRules.v for what a thread does to the maps inside [m_member_mtx]:
    drawing an id, adding its transaction and removing it. *)
From S2P Require Import Prelude Stdcxx Constants WireProtocol Messages Prog ReadWrite Posix File Backend Recovery BackendInv BackendSteps BackendSpec CommitSpec Threads RelyGuarantee Timers Sharing Views CriticalSections UploadProtocol UploadRules.
From Stdlib Require Import ZArith Lia List Ascii String Bool.
From stdpp Require Import base gmap strings list fin_maps sorting.
#[local] Set Default Goal Selector "!".
Local Open Scope Z_scope.

Section maps.
Context `{PathResolution} (m_directory : bytes) (ups : list Upload) (base : bytes → bytes).
Context (Hfiles : distinct_files m_directory ups).
Context (tid : nat) (n : bytes) (Hn : name_of ups tid = Some n).

Abbreviation names := (up_name <$> ups).
Abbreviation tidy := (tidy m_directory ups base).
Abbreviation seen := (seen m_directory ups base tid n).
Abbreviation sec p c Q := (secure (H := upload_protocol m_directory ups base) never no_wait tid p c Q).

(** A change of the maps the protocol allows. *)
Record map_change (c : book_conf) (s' : ServerBackend) (own : gmap Z nat) (e : option positive) : Prop := {
  mc_ok : ok_but e s';
  mc_init : m_initialize s' = m_initialize (c_shared c);
  mc_commits : m_commits s' = m_commits (c_shared c);
  mc_fs : w_fs (backend_world s') = w_fs (backend_world (c_shared c));
  mc_calm : w_sched (backend_world s') = w_sched (backend_world (c_shared c));
  mc_now : w_now (backend_world s') = w_now (backend_world (c_shared c));
  mc_owner : owner (c_ghost c) ⊆ own;
  mc_mine id t : t ≠ tid → own !! id = Some t → owner (c_ghost c) !! id = Some t;
  mc_ids id a : m_txn_id_to_transaction_attributes s' !! id = Some a → is_Some (own !! id);
  mc_rand : drawn ups (w_rand (backend_world s')) own (m_commits s');
  mc_names p f : file_nodes s' !! p = Some f → m_file_name f ∈ names;
  mc_others id t0 : t0 ≠ tid → owner (c_ghost c) !! id = Some t0 →
    m_txn_id_to_transaction_attributes s' !! id = m_txn_id_to_transaction_attributes (c_shared c) !! id ∧
    ∀ a t, m_txn_id_to_transaction_attributes (c_shared c) !! id = Some a → txn_nodes (c_shared c) !! a = Some t →
      txn_nodes s' !! a = Some t ∧
      m_file_name <$> file_nodes s' !! sp_file_attributes t = m_file_name <$> file_nodes (c_shared c) !! sp_file_attributes t;
  mc_ptr n' p : m_file_name_to_ptr_to_file_attributes (c_shared c) !! n' = Some p →
    m_file_name_to_ptr_to_file_attributes s' !! n' = Some p ∨ c_held c !! m_file_mtx p = None
}.

Implicit Types (L : list mutex) (X : Shape).

Lemma u_map {A T} (f : ServerBackend → option (T * ServerBackend)) (k : T → prog ServerBackend A) L X e st c Q :
  seen (Sight L (Some (X, e)) st None) c → (∀ p, m_file_mtx p ∉ L) →
  (∀ c', seen (Sight L (Some (X, e)) st None) c' → tidy c' → ∃ x s' own e' st', f (c_shared c') = Some (x, s') ∧
     map_change c' s' own e' ∧
     let c'' := Config (c_held c') s' {| owner := own; due := e'; ledger := ledger (c_ghost c') |} in
     reached tid n st' c'' ∧ (seen (Sight L (Some (shape_of s', e')) st' None) c'' → sec (k x) c'' Q)) →
  sec (bind (act_partial f) k) c Q.
Proof.
  intros Hv HL Hf. apply (u_act _ _ _ _ _ _ _ _ _ _ Hv). intros c' Hv' Hc'.
  destruct (Hf c' Hv' Hc') as (x & s' & ow & e' & st' & Ex & [M1 M2 M3 M4 M5 M13 M6 M7 M8 M9 M10 M11 M12] & Hst & Hk).
  destruct Hv' as [S1 S2 _ _]. destruct (S2 X e eq_refl) as (Hm & _). eexists x, s'. split; [done|]. intros Htime. eexists. split.
  - apply map_step with (own := ow) (e := e'); try done.
    + intros p Hp%S1. by destruct (HL p).
    + by rewrite M5; apply (td_calm _ _ _ _ Hc').
    + by rewrite M13.
  - apply Hk. split; simpl; [done| |done|done]. intros X' e0 [= <- <-]. done.
Qed.

(** The threads of other uploads keep what they have when only the file object at [p]
    changes and keeps its name. *)
Lemma others_kept c s' :
  m_txn_id_to_transaction_attributes s' = m_txn_id_to_transaction_attributes (c_shared c) →
  txn_nodes s' = txn_nodes (c_shared c) →
  (∀ a t, txn_nodes (c_shared c) !! a = Some t →
     m_file_name <$> file_nodes s' !! sp_file_attributes t = m_file_name <$> file_nodes (c_shared c) !! sp_file_attributes t) →
  ∀ id t0, t0 ≠ tid → owner (c_ghost c) !! id = Some t0 →
    m_txn_id_to_transaction_attributes s' !! id = m_txn_id_to_transaction_attributes (c_shared c) !! id ∧
    ∀ a t, m_txn_id_to_transaction_attributes (c_shared c) !! id = Some a → txn_nodes (c_shared c) !! a = Some t →
      txn_nodes s' !! a = Some t ∧
      m_file_name <$> file_nodes s' !! sp_file_attributes t = m_file_name <$> file_nodes (c_shared c) !! sp_file_attributes t.
Proof. intros -> -> Hf id t0 _ _. split; [done|]. intros a t _ Ht. split; [done|by eapply Hf]. Qed.

(** ** Drawing an id *)

Lemma u_next_rand {A} (k : option Z → prog ServerBackend A) L X c Q :
  seen (Sight L (Some (X, None)) Idle None) c → (∀ p, m_file_mtx p ∉ L) →
  (∀ r c' X', seen (Sight L (Some (X', None)) (Drawn (candidate r)) None) c' → sec (k (Some r)) c' Q) →
  sec (bind (syscall w_next_rand) k) c Q.
Proof using Hn.
  intros Hv HL Hk.
  set (f := λ s : ServerBackend, Some ((w_next_rand (the_world s)).1, set_world (w_next_rand (the_world s)).2 s)).
  change (sec (bind (act_partial f) k) c Q). apply (u_map _ _ _ _ _ _ _ _ Hv HL). intros c' Hv' Hc'.
  pose proof (td_rand _ _ _ _ Hc') as Hd. destruct (sn_maps _ _ _ _ _ _ _ Hv' _ _ eq_refl) as (_ & Hs & Hdue).
  pose proof (td_ok _ _ _ _ Hc') as Hok. rewrite Hdue in Hok. destruct (sn_stage _ _ _ _ _ _ _ Hv') as [Hno Hord].
  unfold f, w_next_rand. change (the_world (c_shared c')) with (backend_world (c_shared c')).
  destruct (w_rand (backend_world (c_shared c'))) as [|r l] eqn:Er; simpl; [by apply drawn_more in Hd|].
  destruct (dr_new _ _ _ _ Hd (candidate r)) as [Hfresh Hcom]; [by left|].
  eexists (Some r), _, (<[candidate r := tid]> (owner (c_ghost c'))), None, (Drawn (candidate r)). split; [done|]. split.
  - split; simpl; try done.
    + by apply (ok_frame (c_shared c')).
    + by apply insert_subseteq.
    + intros id t Hne. rewrite lookup_insert_Some. intros [[_ ->]|[_ ?]]; [done|done].
    + intros id a Ha. apply lookup_insert_is_Some'. right. by apply (td_ids _ _ _ _ Hc' id a).
    + apply drawn_next; [done| |done]. apply fmap_Some in Hn as (u & Hu & _). by eapply lookup_lt_Some.
    + apply (td_names _ _ _ _ Hc').
    + auto.
  - split; [|intros Hv2; by eapply Hk]. simpl. split; [apply lookup_insert_eq|]. split; [|split; done].
    apply eq_None_not_Some. intros [a Ha]. destruct (td_ids _ _ _ _ Hc' _ _ Ha). congruence.
Qed.

Lemma u_pick {A} (k : Z → prog ServerBackend A) L X c Q :
  seen (Sight L (Some (X, None)) Idle None) c → (∀ p, m_file_mtx p ∉ L) →
  (∀ id c' X', int32 id → seen (Sight L (Some (X', None)) (Drawn id) None) c' → sec (k id) c' Q) →
  sec (bind pick_candidate k) c Q.
Proof.
  intros Hv HL Hk. apply secure_bind. unfold pick_candidate. apply (u_reads _ _ _ _ _ _ _ _ _ _ Hv). intros c1 Hv1 _.
  cbn [candidate_loop]. apply (u_next_rand _ _ _ _ _ Hv1 HL). intros r c2 X2 Hv2.
  unfold is_active. apply (u_reads _ _ _ _ _ _ _ _ _ _ Hv2). intros c3 Hv3 _.
  destruct (sn_stage _ _ _ _ _ _ _ Hv3) as (_ & Hid & _). change (Z.rem r INT32_MAX) with (candidate r).
  rewrite Hid, bool_decide_eq_false_2 by by intros [].
  apply (u_ret _ _ _ _ _ _ _ _ _ Hv3). intros c4 Hv4 _. eapply Hk; [apply candidate_int32|exact Hv4].
Qed.

(** ** Adding a transaction *)

(** A change of the file objects alone: those the transactions point to keep their names. *)
Lemma object_change c s' e :
  tidy c → ok_but e s' → m_initialize s' = m_initialize (c_shared c) → m_commits s' = m_commits (c_shared c) →
  backend_world s' = backend_world (c_shared c) → txn_nodes s' = txn_nodes (c_shared c) →
  m_txn_id_to_transaction_attributes s' = m_txn_id_to_transaction_attributes (c_shared c) →
  (∀ p f, file_nodes s' !! p = Some f → m_file_name f ∈ names) →
  (∀ a t, txn_nodes (c_shared c) !! a = Some t →
     m_file_name <$> file_nodes s' !! sp_file_attributes t = m_file_name <$> file_nodes (c_shared c) !! sp_file_attributes t) →
  (∀ n' p, m_file_name_to_ptr_to_file_attributes (c_shared c) !! n' = Some p →
     m_file_name_to_ptr_to_file_attributes s' !! n' = Some p ∨ c_held c !! m_file_mtx p = None) →
  map_change c s' (owner (c_ghost c)) e.
Proof.
  intros Hc Hok Hi Hcom Hw Hn' Hids Hnames Hkept Hptr. split; [done..|by rewrite Hw|by rewrite Hw|by rewrite Hw|done|done| | |done| |done].
  - rewrite Hids. apply (td_ids _ _ _ _ Hc).
  - rewrite Hw, Hcom. apply (td_rand _ _ _ _ Hc).
  - by apply others_kept.
Qed.

Lemma reached_objects st c c' :
  txn_nodes (c_shared c') = txn_nodes (c_shared c) →
  m_txn_id_to_transaction_attributes (c_shared c') = m_txn_id_to_transaction_attributes (c_shared c) →
  (∀ a t, txn_nodes (c_shared c) !! a = Some t →
     m_file_name <$> file_nodes (c_shared c') !! sp_file_attributes t = m_file_name <$> file_nodes (c_shared c) !! sp_file_attributes t) →
  m_commits (c_shared c') = m_commits (c_shared c) → owner (c_ghost c') = owner (c_ghost c) →
  ledger (c_ghost c') = ledger (c_ghost c) → reached tid n st c → reached tid n st c'.
Proof.
  intros En Ei Ef Ec Eo El. unfold reached, mine. rewrite En, Ei, Ec, Eo, El.
  destruct st; try done; intros ((? & ? & Ht & ?) & ?); by rewrite (Ef _ _ Ht).
Qed.

Lemma put_file_names s p f f' a t :
  file_nodes s !! p = Some f → m_file_name f' = m_file_name f → txn_nodes s !! a = Some t →
  m_file_name <$> file_nodes (put_file p f' s) !! sp_file_attributes t = m_file_name <$> file_nodes s !! sp_file_attributes t.
Proof.
  intros Hp E _. simpl. destruct (decide (sp_file_attributes t = p)) as [->|Hne].
  - by rewrite lookup_insert_eq, Hp; simpl; rewrite E.
  - by rewrite lookup_insert_ne.
Qed.

(** An object of the name of the upload. *)
Definition object_named (p : positive) (X : Shape) : Prop := fst <$> x_objects X !! p = Some n.

Lemma named_object p s : object_named p (shape_of s) ↔ m_file_name <$> file_nodes s !! p = Some n.
Proof. unfold object_named. simpl. by rewrite lookup_fmap, <- option_fmap_compose. Qed.

(** The pointer an upload gets. *)
Definition pointed_at (id : Z) L (x : exn + positive) (c : book_conf) : Prop :=
  ∃ p X, x = inr p ∧ object_named p X ∧ seen (Sight L (Some (X, Some p)) (Drawn id) None) c.

Lemma u_share id p L X c :
  object_named p X → (∀ p, m_file_mtx p ∉ L) → seen (Sight L (Some (X, None)) (Drawn id) None) c →
  sec (let? _ := lift (share_file_attributes p) in eret p) c (pointed_at id L).
Proof.
  intros Hp HL Hv. unfold ebind, lift. do 2 apply secure_bind. unfold share_file_attributes, file_set.
  change (act_partial ?f) with (bind (act_partial f) (@Ret ServerBackend unit)).
  apply (u_map _ _ _ _ _ _ _ _ Hv HL). intros c' Hv' Hc'. destruct (sn_maps _ _ _ _ _ _ _ Hv' _ _ eq_refl) as (_ & Hs & Hd).
  pose proof (td_ok _ _ _ _ Hc') as Hok. rewrite Hd in Hok. rewrite <- Hs in Hp. apply named_object in Hp.
  pose proof Hp as (f & Hf & Ef)%fmap_Some.
  eexists tt, (put_file p (with_use_count (S (use_count f)) f) (c_shared c')), (owner (c_ghost c')), (Some p), (Drawn id).
  rewrite Hf. split; [done|].
  assert (Hkept : ∀ a t, txn_nodes (c_shared c') !! a = Some t → _) by (intros a t; by apply (put_file_names _ p f (with_use_count (S (use_count f)) f))).
  split; [apply object_change; try done; [by apply ok_shared| |by left]|].
  { simpl. intros q g [[<- <-]|[_ Hq]]%lookup_insert_Some; [|by apply (td_names _ _ _ _ Hc' q g)].
    by apply (td_names _ _ _ _ Hc' p f). }
  split; [by apply (reached_objects _ c'); [..|apply (sn_stage _ _ _ _ _ _ _ Hv')]|]. intros Hv1.
  apply (u_ret _ _ _ _ _ _ _ _ _ Hv1). intros c2 Hv2 _. apply (u_ret _ _ _ _ _ _ _ _ _ Hv2). intros c3 Hv3 _.
  apply (u_ret _ _ _ _ _ _ _ _ _ Hv3). intros c4 Hv4 _. eexists p, _. split; [done|]. split; [|exact Hv4].
  apply named_object. simpl. by rewrite lookup_insert_eq, Ef.
Qed.

Lemma u_new_file id L X c :
  x_names X !! n = None → (∀ p, m_file_mtx p ∉ L) → seen (Sight L (Some (X, None)) (Drawn id) None) c →
  sec (getNewFileAttributes n) c (pointed_at id L).
Proof using Hfiles Hn.
  intros Hname HL Hv. unfold getNewFileAttributes. apply (u_reads _ _ _ _ _ _ _ _ _ _ Hv). intros c1 Hv1 _.
  destruct (sn_maps _ _ _ _ _ _ _ Hv1 _ _ eq_refl) as (_ & Hs1 & _). pose proof Hname as Hname1.
  rewrite <- Hs1 in Hname1. simpl in Hname1. rewrite Hname1. apply secure_lift. unfold getFileSize, syscall_reads.
  change (reads ?f) with (bind (reads f) (@Ret ServerBackend Z)). apply (u_reads _ _ _ _ _ _ _ _ _ _ Hv1). intros c2 Hv2 _.
  generalize (default 0 (w_stat n (the_world (c_shared c2)))). intros size.
  apply (u_ret _ _ _ _ _ _ _ _ _ Hv2). intros c3 Hv3 _.
  set (f := λ s : ServerBackend, Some (inr (A := exn) (next_address s), new_file n size s)).
  change (sec (bind (act_partial f) Ret) c3 (pointed_at id L)). apply (u_map _ _ _ _ _ _ _ _ Hv3 HL). intros c4 Hv4 Hc4.
  destruct (sn_maps _ _ _ _ _ _ _ Hv4 _ _ eq_refl) as (_ & Hs & Hd). pose proof (td_ok _ _ _ _ Hc4) as Hok. rewrite Hd in Hok.
  rewrite <- Hs in Hname. simpl in Hname. destruct (ok_fresh _ (next_address (c_shared c4)) Hok) as [_ Hfresh]; [lia|].
  assert (Hkept : ∀ a t, txn_nodes (c_shared c4) !! a = Some t →
    m_file_name <$> file_nodes (new_file n size (c_shared c4)) !! sp_file_attributes t =
    m_file_name <$> file_nodes (c_shared c4) !! sp_file_attributes t).
  { intros a t Ht. destruct (ok_sp _ Hok _ _ Ht) as [f0 Hf0]. simpl. rewrite lookup_insert_ne; [done|congruence]. }
  eexists _, _, (owner (c_ghost c4)), (Some (next_address (c_shared c4))), (Drawn id). split; [done|].
  pose proof (n_named ups tid n Hn) as Hin.
  split; [apply object_change; try done; [by apply ok_new_file; [..|by apply (df_nul _ _ Hfiles)]| |]|].
  - simpl. intros q g [[<- <-]|[_ Hq]]%lookup_insert_Some; [done|by apply (td_names _ _ _ _ Hc4 q g)].
  - simpl. intros n' p Hp. left. rewrite lookup_insert_ne; [done|congruence].
  - split; [by apply (reached_objects _ c4); [..|apply (sn_stage _ _ _ _ _ _ _ Hv4)]|]. intros Hv5.
    apply (u_ret _ _ _ _ _ _ _ _ _ Hv5). intros c5 Hv6 _. eexists _, _. split; [done|]. split; [|exact Hv6].
    apply named_object. simpl. by rewrite lookup_insert_eq.
Qed.

Lemma u_emplace {A} id p now (k : unit → prog ServerBackend A) L X c Q :
  let t := getNewTransactionAttributes p now in
  object_named p X → (∀ p, m_file_mtx p ∉ L) → seen (Sight L (Some (X, Some p)) (Drawn id) None) c →
  (∀ a c' X', seen (Sight L (Some (X', None)) (Active id a t) None) c' → sec (k tt) c' Q) →
  sec (bind (emplace_transaction id t) k) c Q.
Proof.
  intros t Hp HL Hv Hk. apply secure_bind. unfold emplace_transaction. apply (u_reads _ _ _ _ _ _ _ _ _ _ Hv). intros c1 Hv1 _.
  destruct (sn_stage _ _ _ _ _ _ _ Hv1) as (_ & Hid1 & _). rewrite Hid1.
  set (f := λ s : ServerBackend, Some (tt, emplaced id t s)).
  change (sec (bind (act_partial f) Ret) c1 (λ x c', sec (k x) c' Q)). apply (u_map _ _ _ _ _ _ _ _ Hv1 HL). intros c2 Hv2 Hc2.
  destruct (sn_maps _ _ _ _ _ _ _ Hv2 _ _ eq_refl) as (_ & Hs & Hd). pose proof (td_ok _ _ _ _ Hc2) as Hok. rewrite Hd in Hok.
  pose proof (sn_stage _ _ _ _ _ _ _ Hv2) as (Ho & Hid & Hcom & Hord). rewrite <- Hs in Hp. apply named_object in Hp.
  destruct (ok_fresh _ (next_address (c_shared c2)) Hok) as [Hfresh _]; [lia|].
  eexists tt, _, (owner (c_ghost c2)), None, (Active id (next_address (c_shared c2)) t). split; [done|]. split.
  - split; simpl; try done.
    + apply ok_emplaced with p; [done|done|by apply fmap_Some in Hp as (g & -> & _); eexists|done|apply fresh_txn_ok].
    + intros i a [[<- _]|[_ Ha]]%lookup_insert_Some; [by eexists|by apply (td_ids _ _ _ _ Hc2 i a)].
    + apply (td_rand _ _ _ _ Hc2).
    + apply (td_names _ _ _ _ Hc2).
    + intros i t0 Hne Hi. rewrite lookup_insert_ne by congruence. split; [done|]. intros a u Ha Hu.
      split; [|done]. rewrite lookup_insert_ne; [done|congruence].
    + by left.
  - split.
    + split; [|done]. split; [done|]. simpl. rewrite !lookup_insert_eq. done.
    + intros Hv3. apply (u_ret _ _ _ _ _ _ _ _ _ Hv3). intros c3 Hv4 _. by eapply Hk.
Qed.

Lemma u_add id L X c (Q : exn + unit → book_conf → Prop) :
  (∀ p, m_file_mtx p ∉ L) → g_mtx ∉ L → seen (Sight L (Some (X, None)) (Drawn id) None) c →
  (∀ a p now c' X', seen (Sight L (Some (X', None)) (Active id a (getNewTransactionAttributes p now)) None) c' → Q (inr tt) c') →
  sec (addNewTransaction m_directory id n) c Q.
Proof using Hfiles Hn.
  intros HL Hg Hv HQ. unfold addNewTransaction. apply (u_reads _ _ _ _ _ _ _ _ _ _ Hv). intros c1 Hv1 Hc1.
  unfold NOW, syscall_reads. apply (u_reads _ _ _ _ _ _ _ _ _ _ Hv1). intros c2 Hv2 Hc2.
  generalize (w_now (the_world (c_shared c2))). intros now. unfold ebind at 1. apply secure_bind.
  destruct (sn_maps _ _ _ _ _ _ _ Hv1 _ _ eq_refl) as (_ & Hs1 & _).
  eapply secure_mono with (Q := pointed_at id L).
  { destruct (_ !! n) as [p|] eqn:Ep.
    - apply u_share with X; [|done|done]. apply (ok_ptr _ (td_ok _ _ _ _ Hc1)) in Ep as (f & Hf & Ef). rewrite <- Hs1.
      apply named_object. by rewrite Hf; simpl; rewrite Ef.
    - apply u_new_file with X; [by rewrite <- Hs1|done|done]. }
  intros x c3 _ (p & X' & -> & Hp & Hv3). unfold lift. apply secure_bind.
  apply (u_emplace _ _ _ _ _ _ _ _ Hp HL Hv3). intros a c4 X4 Hv4.
  apply secure_bind. eapply u_log; [done|exact Hn|by left|apply (df_nul _ _ Hfiles), (n_named _ _ _ Hn)|exact Hg|exact Hv4|].
  intros c5 Hv5. unfold START_TRANSACTION_TIMER. change (modify ?f) with (bind (modify f) (@Ret ServerBackend unit)).
  unfold modify. apply (u_unnoticed _ _ _ _ _ Hn _ _ _ _ _ Hv5).
  { by split. }
  intros s c6 _ Hv6.
  apply (u_ret _ _ _ _ _ _ _ _ _ Hv6). intros c7 Hv7 _. apply (u_ret _ _ _ _ _ _ _ _ _ Hv7). eauto.
Qed.

(** ** Removing it *)

Lemma unlinked_change c id a t :
  tidy c → due (c_ghost c) = None → mine tid n id a t c →
  map_change c (unlinked id a (c_shared c)) (owner (c_ghost c)) (Some (sp_file_attributes t)).
Proof.
  intros Hc Hd (Ho & Hid & Ht & _). pose proof (td_ok _ _ _ _ Hc) as Hok. rewrite Hd in Hok. split; simpl; try done.
  - by apply ok_unlinked.
  - intros i b [_ Hb]%lookup_delete_Some. by apply (td_ids _ _ _ _ Hc i b).
  - apply (td_rand _ _ _ _ Hc).
  - apply (td_names _ _ _ _ Hc).
  - intros i t0 Hne Hi. rewrite lookup_delete_ne by congruence. split; [done|]. intros b u Hb Hu.
    split; [|done]. rewrite lookup_delete_ne; [done|]. intros <-.
    rewrite (ok_inj _ Hok i id a Hb Hid) in Hi. congruence.
  - by left.
Qed.

(** An object whose last pointer is destroyed is nobody's. *)
Lemma last_pointer c p f :
  tidy c → due (c_ghost c) = Some p → file_nodes (c_shared c) !! p = Some f → (use_count f ≤ 1)%nat →
  (∀ a t, txn_nodes (c_shared c) !! a = Some t → sp_file_attributes t ≠ p) ∧ c_held c !! m_file_mtx p = None.
Proof.
  intros Hc Hd Hf Hu. destruct (ok_count_but _ (td_ok _ _ _ _ Hc) p f Hf) as [Hcount _].
  rewrite Hd, pending_eq in Hcount.
  assert (Hnone : ∀ a t, txn_nodes (c_shared c) !! a = Some t → sp_file_attributes t ≠ p) by (apply holders_none; lia).
  split; [done|]. apply eq_None_not_Some. intros [t0 Hheld].
  destruct (td_writer _ _ _ _ Hc p t0 Hheld) as (id & a & t & _ & _ & Ht & E). by apply (Hnone a t).
Qed.

Lemma released_change c p f :
  tidy c → due (c_ghost c) = Some p → file_nodes (c_shared c) !! p = Some f →
  map_change c (released p f (c_shared c)) (owner (c_ghost c)) None.
Proof.
  intros Hc Hd Hf. pose proof (td_ok _ _ _ _ Hc) as Hok. rewrite Hd in Hok.
  destruct (released_rest p f (c_shared c)) as (E1 & E2 & E3 & E4).
  apply object_change; [done|by apply ok_released|done|by unfold released; case_decide|done|done|done| | |].
  - unfold released. case_decide; simpl.
    + intros q g [_ Hq]%lookup_delete_Some. by apply (td_names _ _ _ _ Hc q g).
    + intros q g [[<- <-]|[_ Hq]]%lookup_insert_Some; [by apply (td_names _ _ _ _ Hc p f)|by apply (td_names _ _ _ _ Hc q g)].
  - intros a t Ht. unfold released. case_decide as Hu; [|by apply (put_file_names _ p f _ a)].
    destruct (last_pointer c p f Hc Hd Hf Hu) as [Hnone _]. simpl. rewrite lookup_delete_ne; [done|].
    intros E. by apply (Hnone a t).
  - intros n' q Hq. unfold released. case_decide as Hu; [|by left].
    destruct (last_pointer c p f Hc Hd Hf Hu) as [_ Hfree]. destruct (decide (n' = m_file_name f)) as [->|Hne].
    + right. by rewrite (ok_named _ _ _ Hok Hf) in Hq; injection Hq as <-.
    + left. simpl. by rewrite lookup_delete_ne.
Qed.

(** The stage an upload is in when its transaction has been removed. *)
Definition ended (st : stage) : stage := Over (match st with Recorded _ _ _ => true | _ => false end).

Lemma reached_ended st id a t c c' :
  entry_of st = Some (id, a, t) → ledger (c_ghost c') = ledger (c_ghost c) →
  reached tid n st c → reached tid n (ended st) c'.
Proof. intros He Ho. destruct st; try done; unfold reached; simpl; rewrite Ho; tauto. Qed.

Lemma u_remove st id a t L X c (Q : unit → book_conf → Prop) :
  entry_of st = Some (id, a, t) →
  (∀ p, m_file_mtx p ∉ L) → seen (Sight L (Some (X, None)) st None) c →
  (∀ c' X', seen (Sight L (Some (X', None)) (ended st) None) c' → Q tt c') →
  sec (removeTransaction id) c Q.
Proof.
  intros He HL Hv HQ. unfold removeTransaction. apply (u_reads _ _ _ _ _ _ _ _ _ _ Hv). intros c1 Hv1 _.
  destruct (reached_mine _ _ _ _ _ _ _ He (sn_stage _ _ _ _ _ _ _ Hv1)) as (_ & Hid & _). rewrite Hid. clear Hid.
  apply (u_txn_get _ _ _ _ _ _ _ _ _ _ _ _ _ Hv1 He). intros c2 Hv2.
  set (f := λ s : ServerBackend, Some (tt, unlinked id a s)).
  match goal with |- sec (bind _ ?k) _ _ => change (sec (bind (act_partial f) k) c2 Q) end.
  apply (u_map _ _ _ _ _ _ _ _ Hv2 HL). intros c3 Hv3 Hc3.
  destruct (sn_maps _ _ _ _ _ _ _ Hv3 _ _ eq_refl) as (_ & Hs & Hd).
  pose proof (sn_stage _ _ _ _ _ _ _ Hv3) as Hst. pose proof (reached_mine _ _ _ _ _ _ _ He Hst) as Hmine.
  eexists tt, _, (owner (c_ghost c3)), (Some (sp_file_attributes t)), (ended st). split; [done|].
  split; [by apply unlinked_change|]. split; [by apply (reached_ended st id a t c3)|]. intros Hv4.
  assert (Hobj : object_named (sp_file_attributes t) (shape_of (unlinked id a (c_shared c3)))).
  { apply named_object. by destruct Hmine as (_ & _ & _ & Hf). }
  revert Hv4 Hobj. generalize (shape_of (unlinked id a (c_shared c3))). intros X3 Hv4 Hobj. unfold release_file_attributes.
  change (act_partial ?g) with (bind (act_partial g) (@Ret ServerBackend unit)).
  apply (u_map _ _ _ _ _ _ _ _ Hv4 HL). intros c5 Hv5 Hc5. destruct (sn_maps _ _ _ _ _ _ _ Hv5 _ _ eq_refl) as (_ & Hs5 & Hd5).
  rewrite <- Hs5 in Hobj. apply named_object in Hobj. apply fmap_Some in Hobj as (g & Hg & _).
  eexists tt, (released (sp_file_attributes t) g (c_shared c5)), (owner (c_ghost c5)), None, (ended st).
  split; [by apply release_released|]. split; [by apply released_change|].
  split; [exact (sn_stage _ _ _ _ _ _ _ Hv5)|]. intros Hv6. apply (u_ret _ _ _ _ _ _ _ _ _ Hv6). eauto.
Qed.
End maps.
