(* ===== verification/UploadThreads.v ===== *)
(** * Uploads side by side: the commands and the threads

    NEW_TXN, WRITE, COMMIT and ABORT as a thread sees them that uploads to a transaction of its
    own: under every interleaving each of them is acknowledged.  The thread sends the
    requests as the bytes a client sends, and looks at the replies as a client does. *)
From S2P Require Import Prelude Stdcxx Constants WireProtocol Messages Prog ReadWrite Posix File Backend Recovery BackendInv BackendSteps BackendSpec CommitSpec Service UploadProps Dispatcher DispatcherSpec Session Threads RelyGuarantee Timers Sharing Views CriticalSections UploadProtocol UploadRules UploadMaps.
From Stdlib Require Import ZArith Lia List Ascii String Bool.
From stdpp Require Import base gmap strings list fin_maps sorting.
#[local] Set Default Goal Selector "!".
Local Open Scope Z_scope.

Definition new_txn_request (name : bytes) : RequestTuple :=
  request Constants.new_txn_cmd Constants.default_txn_id Constants.initial_seq_num name.

Definition commit_request (id n : Z) : RequestTuple := request Constants.commit_cmd id n [].

Definition abort_request (id : Z) : RequestTuple := request Constants.abort_cmd id 1 [].

Section commands.
Context `{PathResolution} (m_directory : bytes) (ups : list Upload) (base : bytes → bytes).
Context (Hfiles : distinct_files m_directory ups).
Context (tid : nat) (n : bytes) (Hn : name_of ups tid = Some n).

Abbreviation seen := (seen m_directory ups base tid n).
Abbreviation sec p c Q := (secure (H := upload_protocol m_directory ups base) never no_wait tid p c Q).

(** Between two commands. *)
Abbreviation rest st := (Sight [] None st None).

(** ** NEW_TXN *)

Lemma u_NEW_TXN c (Q : Reply → book_conf → Prop) :
  seen (rest Idle) c →
  (∀ id a p now c', int32 id → seen (rest (Active id a (getNewTransactionAttributes p now))) c' →
     Q (new_txn_reply id true) c') →
  sec (NEW_TXN m_directory (new_txn_request n) true) c Q.
Proof using Hfiles Hn.
  intros Hv HQ. unfold NEW_TXN. cbn [rq_seq_num rq_data new_txn_request request].
  change (Constants.initial_seq_num =? 0) with true. cbv iota.
  eapply u_enter; [exact Hv|]. intros c1 X1 Hv1. eapply u_pick; [exact Hn|exact Hv1|set_solver|].
  intros id c2 X2 Hid Hv2. apply secure_bind. unfold try_catch, ebind. do 2 apply secure_bind.
  eapply u_add with (L := [m_member_mtx]); [done|exact Hn|set_solver|set_solver|exact Hv2|]. intros a p now c3 X3 Hv3. cbv beta iota.
  eapply u_ret; [exact Hv3|]. intros c4 Hv4 _. eapply u_ret; [exact Hv4|]. intros c5 Hv5 _. cbv beta iota.
  rewrite SET_NEW_TXN_reply by done. change (bind (Ret ?x) ?q) with (q x). cbv beta.
  eapply u_leave; [exact Hv5|set_solver|]. intros c6 Hv6. eapply u_ret; [exact Hv6|]. eauto.
Qed.

(** ** WRITE *)

Lemma u_timestamp {A} id a t (k : unit → prog ServerBackend A) L W c Q :
  seen (Sight L None (Active id a t) W) c →
  (∀ now c', seen (Sight L None (Active id a (with_timestamp now t)) W) c' → sec (k tt) c' Q) →
  sec (bind (updateTransactionTimestamp a) k) c Q.
Proof using Hfiles Hn.
  intros Hv Hk. apply secure_bind. unfold updateTransactionTimestamp, NOW, syscall_reads.
  eapply u_reads; [exact Hv|]. intros c1 Hv1 _.
  change (txn_set a ?f) with (bind (txn_set a f) (@Ret ServerBackend unit)).
  eapply u_txn_set; [exact Hn|exact Hv1|done|by intros []|]. intros c2 Hv2.
  eapply u_ret; [exact Hv2|]. intros c3 Hv3 _. by eapply Hk.
Qed.

(** What WRITE, COMMIT and ABORT do after their first check. *)
Lemma u_second_check req id a t (body : positive → prog ServerBackend Reply) X c Q :
  seen (Sight [m_member_mtx] (Some (X, None)) (Active id a t) None) c →
  (∀ c' X', seen (Sight [m_member_mtx; txn_mtx a] (Some (X', None)) (Active id a t) None) c' → sec (body a) c' Q) →
  sec (let! txn := find_txn id in
       unlock m_member_mtx ;;;
       lock (txn_mtx txn) ;;;
       lock m_member_mtx ;;;
       let! error := RETURN_ERROR_IF_COMMITTED_OR_ABORTED id in
       match error with
       | Some e => let! r := SET_ERROR req e in unlock (txn_mtx txn) ;;; unlock m_member_mtx ;;; Ret r
       | None => body txn
       end) c Q.
Proof using Hfiles Hn.
  intros Hv Hbody. eapply u_find; [exact Hv|done|]. intros c1 Hv1. eapply u_leave; [exact Hv1|set_solver|].
  intros c2 Hv2. eapply u_lock; [exact Hv2|done|]. intros c3 Hv3. eapply u_enter; [exact Hv3|]. intros c4 X4 Hv4.
  eapply u_check_aborted; [exact Hv4|]. intros c5 Hv5. by eapply Hbody.
Qed.

(** Where WRITE and COMMIT go on. *)
Lemma u_go_on id a t (k : unit → prog ServerBackend Reply) X c Q :
  seen (Sight [m_member_mtx; txn_mtx a] (Some (X, None)) (Active id a t) None) c →
  (∀ now c', seen (Sight [txn_mtx a] None (Active id a (with_timestamp now t)) None) c' → sec (k tt) c' Q) →
  sec (unlock m_member_mtx ;;; updateTransactionTimestamp a ;;; k tt) c Q.
Proof using Hfiles Hn.
  intros Hv Hk. eapply u_leave; [exact Hv|set_solver|]. intros c1 Hv1. eapply u_timestamp; [exact Hv1|done].
Qed.

Lemma u_WRITE id a t k d c (Q : Reply → book_conf → Prop) :
  request_ok (write_request id (k, d)) → buffers t !! k = None → seen (rest (Active id a t)) c →
  (∀ t' c', buffers t' = <[k := d]> (buffers t) → max_seq_num t' = Z.max (max_seq_num t) k →
     seen (rest (Active id a t')) c' → Q (ack_reply (write_request id (k, d)) true) c') →
  sec (WRITE (write_request id (k, d)) true) c Q.
Proof using Hfiles Hn.
  intros Hreq Hk Hv HQ. unfold WRITE. cbn [rq_txn_id rq_seq_num rq_data write_request request fst snd].
  eapply u_enter; [exact Hv|]. intros c1 X1 Hv1. eapply u_check_invalid; [exact Hv1|]. intros c2 Hv2.
  eapply u_second_check; [exact Hv2|]. intros c3 X3 Hv3.
  refine (u_go_on _ _ _ (λ _, _) _ _ _ Hv3 _). clear dependent c c1 c2 c3. intros now c Hv. cbv beta.
  eapply u_txn_get; [exact Hv|done|]. clear dependent c. intros c Hv. simpl. rewrite bool_decide_eq_false_2; [|by rewrite Hk; intros []].
  apply secure_bind. eapply u_txn_get; [exact Hv|done|]. clear dependent c. intros c Hv. simpl.
  rewrite SET_ACK_reply by done. destruct Hreq as [_ Hint Hnul]. simpl in Hint, Hnul.
  assert (Hput : ∀ t' c, buffers t' = buffers t → max_seq_num t' = Z.max (max_seq_num t) k →
    seen (Sight [txn_mtx a] None (Active id a t') None) c →
    sec (txn_set a (with_buffer k d) ;;; Ret (ack_reply (write_request id (k, d)) true)) c
      (λ r c', sec (unlock (txn_mtx a) ;;; Ret r) c' Q)).
  { intros t' c0 Eb Em Hv0. eapply u_txn_set; [exact Hn|exact Hv0|done| |].
    - intros [Hm Hb]. split; simpl; [done|]. intros q e [[<- <-]|[_ Hq]]%lookup_insert_Some; [split; [lia|done]|by apply Hb].
    - intros c1 Hv1. eapply u_ret; [exact Hv1|]. intros c2 Hv2 _. eapply u_unlock; [exact Hv2|done|set_solver|].
      intros c3 Hv3. eapply u_ret; [exact Hv3|]. intros c4 Hv4 _. eapply HQ; [| |exact Hv4]; [simpl; by rewrite Eb|done]. }
  destruct (Z.ltb_spec (max_seq_num t) k) as [Hlt|Hge].
  - eapply u_txn_set; [exact Hn|exact Hv|done| |intros c1 Hv1; eapply Hput; [..|exact Hv1]; [done|simpl; lia]].
    intros [Hm Hb]. unfold int32 in Hint. split; simpl in *; [lia|]. intros q e Hq. destruct (Hb q e Hq). split; [lia|done].
  - eapply Hput; [..|exact Hv]; [done|simpl; lia].
Qed.

(** ** COMMIT *)

(** A transaction whose buffers 1 to [max_seq_num] are all there. *)
Record whole (t : TransactionAttributes) : Prop := {
  wh_max : 1 ≤ max_seq_num t < INT32_MAX;
  wh_all i : 1 ≤ i ≤ max_seq_num t → is_Some (buffers t !! i);
  wh_nul i d : buffers t !! i = Some d → nul_free d = true
}.

Lemma whole_size t : whole t → max_seq_num t ≤ Z.of_nat (size (buffers t)).
Proof.
  intros [Hmax Hall _]. assert (Z.to_nat (max_seq_num t) ≤ size (buffers t))%nat; [|lia].
  apply (range_size _ 1). intros i Hi. apply Hall. lia.
Qed.

Lemma u_verify_loop id a t v fuel q c (Q : option Z → book_conf → Prop) :
  whole t → entry_of (at_stage v) = Some (id, a, t) → seen v c →
  1 ≤ q ≤ max_seq_num t + 1 → max_seq_num t - q + 1 < Z.of_nat fuel →
  (∀ c', seen v c' → Q None c') → sec (verify_loop fuel a q) c Q.
Proof using Type.
  intros Ht He. revert q c. induction fuel as [|fuel IH]; intros q c Hv Hq Hfuel HQ; [lia|].
  cbn [verify_loop]. eapply u_txn_get; [exact Hv|exact He|]. intros c1 Hv1.
  destruct (Z.leb_spec q (max_seq_num t)); [|by eapply u_ret; [exact Hv1|]; auto].
  eapply u_txn_get; [exact Hv1|exact He|]. intros c2 Hv2. pose proof (wh_max _ Ht).
  rewrite bool_decide_eq_true_2 by (apply (wh_all _ Ht); lia). cbv iota. rewrite (proj2 (Z.eqb_neq q INT32_MAX)) by lia.
  apply IH; [done|lia|lia|done].
Qed.

(** The loop appends the payload. *)
Lemma u_write_buffers id a t flags L M w fuel q c (Q : exn + unit → book_conf → Prop) :
  whole t → writable flags = true → w ++ payload_from (buffers t) q (max_seq_num t) = data_of ups tid →
  seen (Sight L M (Active id a t) (Some (true, w))) c →
  1 ≤ q ≤ max_seq_num t + 1 → max_seq_num t - q + 1 < Z.of_nat fuel →
  (∀ c', seen (Sight L M (Active id a t) (Some (true, w ++ payload_from (buffers t) q (max_seq_num t)))) c' → Q (inr tt) c') →
  sec (write_buffers fuel {| m_fd := target m_directory n; m_flags := flags |} a q) c Q.
Proof using Hfiles Hn.
  intros Ht Hf. revert w q c. induction fuel as [|fuel IH]; intros w q c Hall Hv Hq Hfuel HQ; [lia|]. cbn [write_buffers].
  apply secure_lift. change (txn_get a ?g) with (bind (txn_get a g) Ret).
  eapply u_txn_get; [exact Hv|done|]. intros c1 Hv1. eapply u_ret; [exact Hv1|]. intros c2 Hv2 _.
  destruct (Z.leb_spec q (max_seq_num t)).
  2: { eapply u_ret; [exact Hv2|]. intros c3 Hv3 _. apply HQ. by rewrite payload_from_nil, app_nil_r by lia. }
  apply secure_lift. change (txn_get a ?g) with (bind (txn_get a g) Ret).
  eapply u_txn_get; [exact Hv2|done|]. intros c3 Hv3. eapply u_ret; [exact Hv3|]. intros c4 Hv4 _.
  destruct (wh_all _ Ht q) as [d Hd]; [lia|]. rewrite Hd. rewrite payload_from_cons, Hd in HQ, Hall by done. simpl in HQ, Hall.
  unfold ebind. apply secure_bind. pose proof (wh_max _ Ht).
  rewrite app_assoc in Hall.
  eapply u_write_own; [exact Hfiles|exact Hn|exact Hf|by eapply (wh_nul _ Ht)|rewrite <- Hall; by apply prefix_app_r|exact Hv4|]. intros c5 Hv5. cbv beta iota.
  rewrite (proj2 (Z.eqb_neq q INT32_MAX)) by lia. eapply IH; [exact Hall|exact Hv5|lia|lia|]. intros c6 Hv6. apply HQ. by rewrite app_assoc.
Qed.

(** The [try] block: under the mutex of the file, all its data in one piece, and the id
    among the committed ones before anybody else can write to the file. *)
Lemma u_commit_to_file id a t c (Q : exn + unit → book_conf → Prop) :
  commits ups tid → whole t → payload (buffers t) (max_seq_num t) = data_of ups tid →
  seen (Sight [txn_mtx a] None (Active id a t) None) c →
  (∀ c', seen (Sight [txn_mtx a] None (Recorded id a t) None) c' → Q (inr tt) c') →
  sec (commit_to_file m_directory id a (sp_file_attributes t)) c Q.
Proof using Hfiles Hn.
  intros Hcommits Ht Hdata Hv HQ. pose proof (whole_size t Ht) as Hsize. pose proof (wh_max _ Ht).
  unfold commit_to_file. eapply u_lock_file; [exact Hn|exact Hv|]. intros c1 Hv1.
  eapply u_file_get; [exact Hn|exact Hv1|done|]. intros fa c2 Hname Hv2. rewrite Hname.
  set (L := [m_file_mtx (sp_file_attributes t); txn_mtx a]) in *.
  apply secure_bind. eapply u_with_File with (L := L) (W' := Some (true, []))
    (G := λ x st' W'', x = inr tt ∧ st' = Recorded id a t ∧ W'' = Some (true, [])); [set_solver|exact Hv2|..].
  - intros c3 k Q' Hv3 Hk. by eapply u_open_own; [exact Hfiles|exact Hn|done|exact Hv3|].
  - intros c3 Hv3. apply secure_lift. unfold loop_fuel. change (txn_get a ?g) with (bind (txn_get a g) Ret).
    eapply u_txn_get; [exact Hv3|done|]. intros c4 Hv4. eapply u_ret; [exact Hv4|]. intros c5 Hv5 _.
    unfold ebind at 1. apply secure_bind.
    eapply u_write_buffers with (w := []); [done|done|exact Hdata|exact Hv5|unfold Constants.initial_seq_num; lia..|]. intros c6 Hv6. cbv beta iota.
    change (payload_from (buffers t) (Constants.initial_seq_num + 1) (max_seq_num t)) with (payload (buffers t) (max_seq_num t)) in Hv6.
    rewrite Hdata in Hv6. simpl in Hv6. unfold lift. apply secure_bind.
    eapply u_record; [exact Hn|exact Hcommits|exact Hv6|]. intros c7 Hv7. apply secure_bind.
    eapply u_log; [exact Hfiles|exact Hn|by right; left|apply (df_nul _ _ Hfiles), (n_named _ _ _ Hn)| |exact Hv7|].
    { set_solver. }
    intros c8 Hv8. unfold File_getFileSize, syscall_reads. apply secure_bind. eapply u_reads; [exact Hv8|]. intros c9 Hv9 _.
    destruct (sn_wrote _ _ _ _ _ _ _ Hv9 _ _ eq_refl) as (p & _ & _ & Hopen & _). destruct (Hopen eq_refl) as [d Hd].
    unfold w_fstat. cbn [m_fd]. change (the_world (c_shared c9)) with (backend_world (c_shared c9)). rewrite Hd. cbn [fmap option_fmap option_map].
    eapply u_ret; [exact Hv9|]. intros c10 Hv10 _.
    change (file_set ?p ?g) with (bind (file_set p g) (@Ret ServerBackend unit)).
    eapply u_file_set; [exact Hn|exact Hv10|done|done|]. intros c11 Hv11. eapply u_ret; [exact Hv11|]. intros c12 Hv12 _.
    eapply u_ret; [exact Hv12|]. intros c13 Hv13 _. by exists (Recorded id a t), (Some (true, [])).
  - intros x st' W'' c3 (-> & -> & ->) Hv3. eapply u_unlock_file; [exact Hv3|set_solver|set_solver|]. intros c4 Hv4.
    eapply u_ret; [exact Hv4|]. auto.
Qed.

(** What a COMMIT does once every buffer is there. *)
Lemma u_commit_finish req ip a t (failing : exn → option (prog ServerBackend (option Reply))) c (Q : Reply → book_conf → Prop) :
  commits ups tid → request_ok req → whole t → payload (buffers t) (max_seq_num t) = data_of ups tid →
  seen (Sight [txn_mtx a] None (Active (rq_txn_id req) a t) None) c →
  (∀ c', seen (rest (Over true)) c' → Q (ack_reply req ip) c') →
  sec (let! failed := try_catch
         (let? _ := commit_to_file m_directory (rq_txn_id req) a (sp_file_attributes t) in eret None) failing in
       match failed with
       | Some r => unlock (txn_mtx a) ;;; Ret r
       | None =>
           lock m_member_mtx ;;;
           removeTransaction (rq_txn_id req) ;;;
           let! r := SET_ACK req ip in
           unlock (txn_mtx a) ;;; unlock m_member_mtx ;;; Ret r
       end) c Q.
Proof using Hfiles Hn.
  intros Hcommits Hreq Ht Hdata Hv HQ. apply secure_bind. unfold try_catch, ebind. do 2 apply secure_bind.
  eapply u_commit_to_file; [exact Hcommits|exact Ht|exact Hdata|exact Hv|]. intros c1 Hv1. cbv beta iota.
  eapply u_ret; [exact Hv1|]. intros c2 Hv2 _. eapply u_ret; [exact Hv2|]. intros c3 Hv3 _. cbv beta iota.
  eapply u_enter; [exact Hv3|]. intros c4 X4 Hv4. apply secure_bind.
  eapply u_remove with (st := Recorded (rq_txn_id req) a t) (L := [m_member_mtx; txn_mtx a]); [done|set_solver|exact Hv4|]. intros c5 X5 Hv5.
  rewrite SET_ACK_reply by done. change (bind (Ret ?x) ?q) with (q x). cbv beta.
  apply seen_perm with (L' := [txn_mtx a; m_member_mtx]) in Hv5; [|apply Permutation_swap].
  eapply u_unlock; [exact Hv5|done|set_solver|]. intros c6 Hv6. eapply u_leave; [exact Hv6|set_solver|]. intros c7 Hv7.
  eapply u_ret; [exact Hv7|]. auto.
Qed.

Lemma u_COMMIT id a t k c (Q : Reply → book_conf → Prop) :
  commits ups tid → int32 id → 1 ≤ k < INT32_MAX → max_seq_num t ≤ k → whole (with_max_seq_num k t) →
  payload (buffers t) k = data_of ups tid → seen (rest (Active id a t)) c →
  (∀ c', seen (rest (Over true)) c' → Q (ack_reply (commit_request id k) true) c') →
  sec (COMMIT m_directory (commit_request id k) true) c Q.
Proof using Hfiles Hn.
  intros Hcommits Hid Hk Hmax Ht Hdata Hv HQ.
  assert (Hreq : request_ok (commit_request id k)) by (split; [done|unfold int32, INT32_MIN; simpl; lia|done]).
  unfold COMMIT. eapply u_enter; [exact Hv|]. intros c1 X1 Hv1. unfold is_committed, is_active.
  eapply u_reads; [exact Hv1|]. intros c2 Hv2 _. destruct (sn_stage _ _ _ _ _ _ _ Hv2) as (_ & Hc & _).
  rewrite bool_decide_eq_false_2 by done. eapply u_reads; [exact Hv2|]. intros c3 Hv3 _.
  destruct (sn_stage _ _ _ _ _ _ _ Hv3) as ((_ & Ha & _) & _ & _). cbn [rq_txn_id rq_seq_num commit_request request].
  rewrite bool_decide_eq_true_2 by by eexists. cbn [negb]. clear Hc Ha.
  eapply u_second_check; [exact Hv3|]. intros c4 X4 Hv4.
  refine (u_go_on _ _ _ (λ _, _) _ _ _ Hv4 _). clear dependent c c1 c2 c3 c4. intros now c Hv. cbv beta.
  eapply u_txn_get; [exact Hv|done|]. clear dependent c. intros c Hv. simpl. rewrite (proj2 (Z.ltb_ge k _)) by done.
  eapply u_txn_set; [exact Hn|exact Hv|done| |].
  { intros [H1 Hb]. split; simpl in *; [lia|]. intros q d Hq. destruct (Hb q d Hq). split; [lia|done]. }
  clear dependent c. intros c Hv. set (t' := with_max_seq_num k (with_timestamp now t)) in *.
  assert (Ht' : whole t') by (by destruct Ht).
  eapply u_txn_get; [exact Hv|done|]. clear dependent c. intros c Hv. unfold loop_fuel.
  eapply u_txn_get; [exact Hv|done|]. clear dependent c. intros c Hv. pose proof (whole_size t' Ht').
  apply secure_bind. eapply u_verify_loop with (v := Sight [txn_mtx a] None (Active id a t') None); [exact Ht'|done|exact Hv|unfold Constants.initial_seq_num; simpl in *; lia..|].
  clear dependent c. intros c Hv. exact (u_commit_finish (commit_request id k) true a t' _ c Q Hcommits Hreq Ht' Hdata Hv HQ).
Qed.

(** ** ABORT *)

Lemma u_ABORT id a t c (Q : Reply → book_conf → Prop) :
  int32 id → seen (rest (Active id a t)) c →
  (∀ c', seen (rest (Over false)) c' → Q (ack_reply (abort_request id) false) c') →
  sec (ABORT m_directory (abort_request id) true) c Q.
Proof using Hfiles Hn.
  intros Hid Hv HQ. unfold ABORT. eapply u_enter; [exact Hv|]. intros c1 X1 Hv1. cbn [rq_txn_id abort_request request].
  eapply u_check_invalid; [exact Hv1|]. intros c2 Hv2. eapply u_second_check; [exact Hv2|]. intros c3 X3 Hv3.
  apply seen_perm with (L' := [txn_mtx a; m_member_mtx]) in Hv3; [|apply Permutation_swap].
  eapply u_unlock; [exact Hv3|done|set_solver|]. clear dependent c c1 c2 c3. intros c Hv.
  eapply u_txn_get; [exact Hv|done|]. intros c1 Hv1. eapply u_file_get; [exact Hn|exact Hv1|done|].
  intros fa c2 Hname Hv2. rewrite Hname. apply secure_bind.
  eapply u_log; [exact Hfiles|exact Hn|by right; right; left|apply (df_nul _ _ Hfiles), (n_named _ _ _ Hn)| |exact Hv2|].
  { set_solver. }
  intros c3 Hv3. apply secure_bind.
  eapply u_remove with (st := Active id a t) (L := [m_member_mtx]); [done|set_solver|exact Hv3|]. intros c4 X4 Hv4.
  rewrite SET_ACK_reply by (by split). change (bind (Ret ?x) ?q) with (q x). cbv beta.
  eapply u_leave; [exact Hv4|set_solver|]. intros c5 Hv5. eapply u_ret; [exact Hv5|]. auto.
Qed.
End commands.
