(* ===== verification/UploadReaders.v ===== *)
(** * Uploads side by side: READ

    A READ takes no mutex of the backend.  What it returns when others upload to the file
    is what the file held at one moment; since files only grow, a part of what it holds
    from then on. *)
From S2P Require Import Prelude Stdcxx Constants WireProtocol Messages Prog ReadWrite Posix File Backend Recovery BackendInv BackendSteps BackendSpec CommitSpec Service UploadProps Threads RelyGuarantee Timers Sharing Views UploadProtocol UploadRules UploadMaps.
From Stdlib Require Import ZArith Lia List Ascii String Bool.
From stdpp Require Import base gmap strings list fin_maps sorting.
#[local] Set Default Goal Selector "!".
Local Open Scope Z_scope.

Definition read_request (name : bytes) : RequestTuple :=
  request Constants.read_cmd Constants.default_txn_id Constants.initial_seq_num name.

Section readers.
Context `{PathResolution} (m_directory : bytes) (ups : list Upload) (base : bytes → bytes).
Context (tid : nat) (n : bytes) (Hn : n ∈ up_name <$> ups) (Hroom : room ups base).

Abbreviation now_in s := (contents m_directory (w_fs (backend_world s)) n) (only parsing).
Abbreviation file_in s := (w_fs (backend_world s) !! target m_directory n) (only parsing).
Abbreviation tidy := (tidy m_directory ups base).
Abbreviation leaves := (leaves m_directory ups base).
#[local] Existing Instance upload_protocol.

(** Readers may wait for ever. *)
Definition readers_wait (t : nat) (g : ServerBackend → bool) (s : ServerBackend) : Prop := (length ups ≤ t)%nat.

Abbreviation sec p c Q := (secure (H := upload_protocol m_directory ups base) never readers_wait tid p c Q).

(** The mutexes a reader holds and, once it has opened the file, the beginning of the file
    it knows of. *)
Record looking (L : list mutex) (got : option bytes) (c : book_conf) : Prop := {
  lk_own m : c_held c !! m = Some tid ↔ m ∈ L;
  lk_got pre : got = Some pre → is_Some (file_in (c_shared c)) ∧ pre `prefix_of` now_in (c_shared c)
}.

Lemma looking_rely L got c c' : looking L got c → leaves tid c c' → looking L got c'.
Proof using Hn.
  intros [L1 L2] [R1 _ _ _ _ Rg _ _]. split.
  - intros m. by rewrite <- R1.
  - intros pre E. destruct (L2 pre E) as [Hf Hp]. destruct (Rg n Hn) as [Hg Hs]. split; [auto|by etrans].
Qed.

Lemma r_ret {A} (x : A) L got c (Q : A → book_conf → Prop) :
  looking L got c → (∀ c', looking L got c' → Q x c') → sec (Ret x) c Q.
Proof using Hn. intros Hv HQ. apply secure_ret. intros c' Hr _. apply HQ. by eapply looking_rely. Qed.

Lemma r_act {A X} (f : ServerBackend → option (X * ServerBackend)) (k : X → prog ServerBackend A) L got c Q :
  looking L got c →
  (∀ c', looking L got c' → tidy c' → ∃ x, f (c_shared c') = Some (x, c_shared c') ∧ sec (k x) c' Q) →
  sec (Act f k) c Q.
Proof using Hn.
  intros Hv Hf c' Hr Hc. destruct (Hf c') as (x & Ex & Hk); [by eapply looking_rely|done|]. rewrite Ex.
  intros _. exists (c_ghost c'). destruct c'. split; [by apply guarantees_refl|done].
Qed.

Lemma r_reads {A X} (f : ServerBackend → X) (k : X → prog ServerBackend A) L got c Q :
  looking L got c → (∀ c', looking L got c' → tidy c' → sec (k (f (c_shared c'))) c' Q) →
  sec (bind (reads f) k) c Q.
Proof using Hn.
  intros Hv Hk. apply (r_act _ _ _ _ _ _ Hv). intros c' Hv' Hc'. eexists. split; [done|by apply Hk].
Qed.

(** A system call that leaves the world alone. *)
Lemma r_syscall {A X} (f : World → X * World) (k : X → prog ServerBackend A) L got c Q :
  looking L got c → (∀ w, w_sched w = [] → (f w).2 = w) →
  (∀ c', looking L got c' → tidy c' → sec (k (f (backend_world (c_shared c'))).1) c' Q) →
  sec (bind (syscall f) k) c Q.
Proof using Hn.
  intros Hv Hf Hk. apply (r_act _ _ _ _ _ _ Hv). intros c' Hv' Hc'. eexists. split; [|by apply Hk].
  simpl. rewrite Hf by apply (td_calm _ _ _ _ Hc'). by destruct (c_shared c').
Qed.

Lemma r_lock {A} (k : unit → prog ServerBackend A) L got c Q :
  looking L got c → (∀ c', looking (g_mtx :: L) got c' → sec (k tt) c' Q) → sec (bind (lock g_mtx) k) c Q.
Proof using Hn.
  intros Hv Hk c' Hr Hc Hfree. apply (looking_rely _ _ _ c') in Hv as [L1 L2]; [|done]. exists (c_ghost c').
  split; [by apply take_step|]. apply Hk. split; [|exact L2]. intros m. simpl.
  rewrite lookup_insert_Some, elem_of_cons, <- L1. split; [intros [[<- _]|[_ ?]]; auto|].
  intros [->|Hm]; [by left|]. right. split; [congruence|done].
Qed.

Lemma r_unlock {A} (k : unit → prog ServerBackend A) L got c Q :
  looking (g_mtx :: L) got c → g_mtx ∉ L → (∀ c', looking L got c' → sec (k tt) c' Q) → sec (bind (unlock g_mtx) k) c Q.
Proof using Hn.
  intros Hv HL Hk c' Hr Hc. apply (looking_rely _ _ _ c') in Hv as [L1 L2]; [|done].
  assert (Hown : c_held c' !! g_mtx = Some tid) by (apply L1; by left). split; [done|]. exists (c_ghost c').
  split; [by apply give_step|]. apply Hk. split; [|exact L2]. intros m. simpl.
  rewrite lookup_delete_Some, L1, elem_of_cons. split; [by intros [? [->|?]]|]. intros Hm. split; [by intros <-|by right].
Qed.

(** Opening the file: it is there, or the reader learns nothing. *)
Lemma r_open {A} (k : option bytes → prog ServerBackend A) L c Q :
  looking L None c →
  (∀ c', looking L (Some []) c' → sec (k (Some (target m_directory n))) c' Q) →
  (∀ c', looking L None c' → sec (k None) c' Q) →
  sec (bind (syscall (w_open (m_directory ++ n) O_RDONLY)) k) c Q.
Proof using Hn.
  assert (Ho : ∀ w, w_sched w = [] → w_open (m_directory ++ n) O_RDONLY w =
    (match w_fs w !! target m_directory n with Some _ => Some (target m_directory n) | None => None end, w)).
  { intros w Hw. unfold w_open. rewrite next_call_calm by done. unfold target. by destruct (w_fs w !! _). }
  intros Hv Hsome Hnone. apply (r_syscall _ _ _ _ _ _ Hv); [intros w Hw; by rewrite Ho|].
  intros c' Hv' Hc'. rewrite Ho by apply (td_calm _ _ _ _ Hc'). simpl.
  destruct (file_in (c_shared c')) as [d|] eqn:Ed; [|by apply Hnone]. apply Hsome. destruct Hv' as [L1 _]. split; [done|].
  intros pre [= <-]. split; [by eexists|apply prefix_nil].
Qed.

(** Reading from the beginning as many bytes as are known to be there, in one go. *)
Lemma r_readFileDescriptor pre L c (Q : Z * bytes → book_conf → Prop) :
  looking L (Some pre) c → (∀ c', looking L (Some pre) c' → Q (len pre, pre) c') →
  sec (readFileDescriptor (λ off k, syscall (w_read (target m_directory n) off k)) (Ret true) (length pre)) c Q.
Proof using Hn.
  intros Hv HQ. unfold readFileDescriptor. cbn [read_loop length]. case_decide as Hlen.
  2: { destruct pre; [|simpl in Hlen; lia]. apply (r_ret _ _ _ _ _ Hv). auto. }
  change (bind (Ret true) ?q) with (q true). cbv beta iota. rewrite Nat.sub_0_r.
  assert (Hr : ∀ w, w_sched w = [] → w_read (target m_directory n) 0 (length pre) w =
    (Some (take (Nat.min (length pre) (length (contents m_directory (w_fs w) n))) (contents m_directory (w_fs w) n)), w)).
  { intros w Hw. unfold w_read. rewrite next_call_calm by done. by rewrite drop_0. }
  apply (r_syscall _ _ _ _ _ _ Hv); [intros w Hw; by rewrite Hr|]. intros c1 Hv1 Hc1.
  rewrite Hr by apply (td_calm _ _ _ _ Hc1). cbn [fst]. destruct (lk_got _ _ _ Hv1 _ eq_refl) as [_ [suf E]].
  rewrite E, length_app, Nat.min_l, take_app_length by lia. destruct pre as [|b pre]; [simpl in Hlen; lia|].
  cbn [length read_loop app]. rewrite decide_False by (simpl; lia). rewrite decide_True by done.
  apply (r_ret _ _ _ _ _ Hv1). auto.
Qed.

Lemma r_read L c (Q : exn + bytes → book_conf → Prop) :
  looking L (Some []) c →
  (∀ pre c', looking L (Some pre) c' → len pre < INT32_MAX → Q (inr (c_str pre)) c') →
  sec (File_read {| m_fd := target m_directory n; m_flags := O_RDONLY |}) c Q.
Proof using Hn Hroom.
  intros Hv HQ. unfold File_read. cbn [m_flags m_fd]. change (readable O_RDONLY) with true. cbv beta iota.
  apply secure_lift. unfold File_getFileSize, syscall_reads. apply (r_reads _ _ _ _ _ _ Hv). intros c1 Hv1 Hc1.
  destruct (lk_got _ _ _ Hv1 _ eq_refl) as [[d Hd] _]. pose proof (td_size _ _ _ _ Hc1 Hroom n Hn) as Hsize.
  unfold w_fstat. cbn [m_fd]. change (the_world (c_shared c1)) with (backend_world (c_shared c1)). rewrite Hd. cbn [fmap option_fmap option_map].
  assert (Ec : now_in (c_shared c1) = d) by (unfold contents; by rewrite Hd). rewrite Ec in Hsize.
  assert (Hv1' : looking L (Some d) c1).
  { destruct Hv1 as [L1 _]. split; [done|]. intros pre [= <-]. rewrite Hd, Ec. split; [by eexists|done]. }
  clear Hv1. apply (r_ret _ _ _ _ _ Hv1'). intros c2 Hv2. cbv zeta.
  rewrite to_int32_id by (unfold int32, INT32_MIN; lia).
  rewrite (proj2 (Z.ltb_ge (len d) 0)), (proj2 (Z.ltb_ge INT32_MAX _)) by lia. cbn [orb]. rewrite Nat2Z.id.
  apply secure_lift. apply (r_readFileDescriptor _ _ _ _ Hv2). intros c3 Hv3. cbv beta iota.
  rewrite (proj2 (Z.ltb_ge (len d) 0)) by lia. apply (r_ret _ _ _ _ _ Hv3). intros c4 Hv4. by apply (HQ d).
Qed.

Lemma r_READ c (Q : Reply → book_conf → Prop) :
  nul_free n = true → looking [] None c →
  (∀ pre c', looking [] (Some pre) c' → len pre < INT32_MAX → Q (read_reply (read_request n) (c_str pre) true) c') →
  (∀ c', looking [] None c' → Q (error_reply (read_request n) Errors.ErrorOpeningFile) c') →
  sec (READ m_directory (read_request n) true) c Q.
Proof using Hn Hroom.
  intros Hnul Hv HQ He. assert (Hreq : request_ok (read_request n)) by done.
  unfold READ, try_catch. cbn [rq_data read_request request]. apply secure_bind.
  unfold with_File, ebind at 1. apply secure_bind. unfold File_ctor.
  apply (r_lock _ _ _ _ _ Hv). intros c1 Hv1. apply (r_open _ _ _ _ Hv1).
  - intros c2 Hv2. apply (r_unlock _ _ _ _ _ Hv2); [set_solver|]. intros c3 Hv3. cbv beta iota.
    apply (r_ret _ _ _ _ _ Hv3). intros c4 Hv4. cbv beta iota. apply secure_bind. unfold ebind. apply secure_bind.
    apply (r_read _ _ _ Hv4). intros pre c5 Hv5 Hlen. cbv beta iota. unfold lift.
    rewrite SET_READ_reply; [|done|pose proof (c_str_length pre); lia]. change (bind (Ret ?x) ?q) with (q x). cbv beta.
    apply (r_ret _ _ _ _ _ Hv5). intros c6 Hv6. unfold File_dtor. apply secure_bind. apply (r_lock _ _ _ _ _ Hv6). intros c7 Hv7.
    change (unlock g_mtx : prog ServerBackend unit) with (bind (unlock g_mtx) (@Ret ServerBackend unit)).
    apply (r_unlock _ _ _ _ _ Hv7); [set_solver|]. intros c8 Hv8. apply (r_ret _ _ _ _ _ Hv8). intros c9 Hv9.
    apply (r_ret _ _ _ _ _ Hv9). intros c10 Hv10. apply (r_ret _ _ _ _ _ Hv10). intros c11 Hv11. by apply (HQ pre).
  - intros c2 Hv2. apply (r_unlock _ _ _ _ _ Hv2); [set_solver|]. intros c3 Hv3. cbv beta iota.
    apply (r_ret _ _ _ _ _ Hv3). intros c4 Hv4. cbv beta iota. apply (r_ret _ _ _ _ _ Hv4). intros c5 Hv5. cbv beta iota.
    rewrite SET_ERROR_reply by done. apply (r_ret _ _ _ _ _ Hv5). auto.
Qed.
End readers.
