(* ===== verification/ConcurrentUploads.v ===== *)
(** * Concurrent uploads

    Any number of clients upload at the same time, some of them to the same file, and each
    ends its transaction with a COMMIT or an ABORT.  Every schedule ends with every client
    acknowledged, and every file holds what it held before and then the data of the uploads
    committed to it in the order of their COMMITs, each in one piece, and nothing of those
    aborted; on the way a file is in such a state whenever nobody is inside its mutex.
    Clients that read a file meanwhile are sent a beginning of what it holds from then on.
    Meanwhile the clock moves on and every transaction has its timer, which wakes and looks
    at it; no transaction is left alone until its timeout.

    The requests are the bytes a client sends, the replies are read as a client reads
    them.  The proofs put together the rules of UploadRules.v, UploadMaps.v and
    UploadThreads.v, of UploadReaders.v and of Timers.v with the order of the mutexes
    (LockOrder.v). *)
From S2P Require Import Prelude Stdcxx Constants WireProtocol Messages Prog ReadWrite Posix File Backend Recovery BackendInv BackendSteps BackendSpec CommitSpec Service UploadProps Dispatcher DispatcherSpec Session Threads LockOrder RelyGuarantee Timers Sharing Views CriticalSections UploadProtocol UploadRules UploadMaps UploadThreads UploadReaders InterleavingProps.
From Stdlib Require Import ZArith Lia List Ascii String Bool.
From stdpp Require Import base gmap strings list fin_maps sets relations sorting.
#[local] Set Default Goal Selector "!".
Local Open Scope Z_scope.

(** ** The threads *)

(** What a client looks at in a reply. *)
Definition acked (r : Reply) : bool := bool_decide ((reply_fields r).1.1.1.1 = Constants.ack_cmd).
Definition reply_data (r : Reply) : bytes := drop (Z.to_nat Constants.response_header_len) (server_response r).
Definition reply_id (r : Reply) : Z := (reply_fields r).1.1.1.2.

(** An upload the protocol has room for: what is sent has numbers of its own, and if it is
    committed it is all the pieces, numbered from 1, in any order. *)
Record proper (u : Upload) : Prop := {
  pr_name : len (up_name u) ≤ INT32_MAX;
  pr_sent : Forall (λ kd, int32 kd.1 ∧ nul_free kd.2 = true ∧ len kd.2 ≤ INT32_MAX) (up_order u);
  pr_distinct : NoDup (up_order u).*1;
  pr_whole : up_commits u = true → up_pieces u ≠ [] ∧ Z.of_nat (length (up_pieces u)) < INT32_MAX ∧
    up_order u ≡ₚ zip (seqZ 1 (Z.of_nat (length (up_pieces u)))) (up_pieces u)
}.

Section threads.
Context `{PathResolution} `{HashOrder} (m_directory : bytes).

(** A request as it arrives: the bytes of the header and those of the data. *)
Definition deliver (req : RequestTuple) : prog ServerBackend Reply :=
  let header_len := Z.to_nat Constants.request_header_len in
  processRequest m_directory (take header_len (request_bytes req)) (drop header_len (request_bytes req)) true.

Fixpoint deliver_all (reqs : list RequestTuple) : prog ServerBackend (list Reply) :=
  match reqs with
  | [] => Ret []
  | req :: reqs =>
      let! r := deliver req in
      let! rs := deliver_all reqs in
      Ret (r :: rs)
  end.

(** A client that uploads, and that stops unless every reply is an ACK. *)
Definition upload_thread (u : Upload) : prog ServerBackend unit :=
  let! started := deliver (new_txn_request (up_name u)) in
  let id := reply_id started in
  let! acks := deliver_all (write_request id <$> up_order u) in
  let! ended := deliver (if up_commits u then commit_request id (Z.of_nat (length (up_pieces u))) else abort_request id) in
  if forallb acked (started :: acks ++ [ended]) then Ret tt else Halt AssertFailed.

(** A client that reads a file, and that goes on only if it is sent exactly [data]: what a
    client does may depend on what it has read. *)
Definition reads_as (name data : bytes) : prog ServerBackend unit :=
  let! r := deliver (read_request name) in
  if acked r && bool_decide (reply_data r = data) then Ret tt else diverge.

(** ** One thread *)

(** The request arrives as it was sent. *)
Lemma deliver_arrives req :
  command_word (rq_command req) → (length (rq_command req) ≤ 29)%nat → request_ok req →
  rq_content_len req = len (rq_data req) → len (rq_data req) ≤ INT32_MAX →
  deliver req = (initializeFunctionsAndTransactions m_directory ;;; processCommand m_directory req true).
Proof.
  intros Hc Hl Hreq Hlen Hmax. destruct (request_bytes_read req) as (h & E & Hh & _ & Hr & _); [done..|].
  unfold deliver, processRequest. by rewrite E, <- Hh, Nat2Z.id, take_app_length, drop_app_length, Hr.
Qed.

Section one.
Context (ups : list Upload) (base : bytes → bytes) (Hfiles : distinct_files m_directory ups).
Context (tid : nat) (n : bytes) (Hn : name_of ups tid = Some n).

Abbreviation seen := (seen m_directory ups base tid n).
Abbreviation sec p c Q := (secure (H := upload_protocol m_directory ups base) never no_wait tid p c Q).
Abbreviation rest st := (Sight [] None st None).

Lemma u_deliver req v c Q :
  command_word (rq_command req) → (length (rq_command req) ≤ 29)%nat → request_ok req →
  rq_content_len req = len (rq_data req) → len (rq_data req) ≤ INT32_MAX → seen v c →
  (∀ c', seen v c' → sec (processCommand m_directory req true) c' Q) →
  sec (deliver req) c Q.
Proof using Type.
  intros Hc Hl Hreq Hlen Hmax Hv Hp. rewrite deliver_arrives by done. apply secure_bind. unfold initializeFunctionsAndTransactions. eapply u_reads; [exact Hv|]. intros c1 Hv1 Hc1.
  rewrite (td_init _ _ _ _ Hc1). eapply u_ret; [exact Hv1|]. auto.
Qed.

Lemma acked_ack req ip : request_ok req → acked (ack_reply req ip) = true.
Proof using Type. intros Hreq. unfold acked. by rewrite ack_reply_code. Qed.

Lemma new_txn_reply_fields id : int32 id → acked (new_txn_reply id true) = true ∧ reply_id (new_txn_reply id true) = id.
Proof using Type.
  intros Hid. unfold acked, reply_id, new_txn_reply.
  rewrite (reply_fields_eq _ _ _ Errors.nil []) by (done || by rewrite !elem_of_cons; auto). done.
Qed.

(** The pieces, in the order they are sent. *)
Lemma u_deliver_writes id a l t c (Q : list Reply → book_conf → Prop) :
  int32 id → Forall (λ kd, int32 kd.1 ∧ nul_free kd.2 = true ∧ len kd.2 ≤ INT32_MAX) l → NoDup l.*1 →
  (∀ k, k ∈ l.*1 → buffers t !! k = None) → seen (rest (Active id a t)) c →
  (∀ rs t' c', forallb acked rs = true → buffers t' = list_to_map l ∪ buffers t →
     (∀ m, max_seq_num t ≤ m → Forall (λ kd, kd.1 ≤ m) l → max_seq_num t' ≤ m) →
     seen (rest (Active id a t')) c' → Q rs c') →
  sec (deliver_all (write_request id <$> l)) c Q.
Proof using Hfiles Hn.
  intros Hid Hl Hd. revert t c Q. induction l as [|[k d] l IH]; intros t c Q Hnew Hv HQ; cbn [fmap list_fmap deliver_all].
  { eapply u_ret; [exact Hv|]. intros c1 Hv1 _. eapply HQ; [done| |done|exact Hv1]. by rewrite list_to_map_nil, (left_id_L ∅ (∪)). }
  apply Forall_cons in Hl as [(Hk & Hnul & Hmax) Hl]. apply NoDup_cons in Hd as [Hkl Hd]. simpl in Hk, Hnul, Hmax, Hkl.
  assert (Hreq : request_ok (write_request id (k, d))) by done.
  apply secure_bind. eapply u_deliver; [done|simpl; lia|done|done|done|exact Hv|]. intros c1 Hv1.
  change (processCommand m_directory (write_request id (k, d)) true) with (WRITE (write_request id (k, d)) true).
  eapply u_WRITE; [exact Hfiles|exact Hn|done|apply Hnew; by left|exact Hv1|]. intros t1 c2 Eb Em Hv2.
  apply secure_bind. eapply (IH Hl Hd t1); [|exact Hv2|].
  { intros k' Hk'. rewrite Eb, lookup_insert_ne by (by intros ->). apply Hnew. by right. }
  intros rs t' c3 Hrs Eb' Hm' Hv3. eapply u_ret; [exact Hv3|]. intros c4 Hv4 _. eapply HQ; [| | |exact Hv4].
  - cbn [forallb]. by rewrite Hrs, acked_ack by done.
  - rewrite Eb', Eb. simpl. rewrite <- insert_union_r by (by apply not_elem_of_list_to_map_1). by rewrite insert_union_l.
  - intros m Hm [Hkm Hlm]%Forall_cons. apply Hm'; [simpl in *; lia|done].
Qed.

(** The pieces, all of them there, are whole. *)
Lemma proper_whole u t p now (count := Z.of_nat (length (up_pieces u))) :
  proper u → up_commits u = true →
  buffers t = list_to_map (up_order u) ∪ buffers (getNewTransactionAttributes p now) →
  (∀ m, 1 ≤ m → Forall (λ kd, kd.1 ≤ m) (up_order u) → max_seq_num t ≤ m) →
  1 ≤ count < INT32_MAX ∧ max_seq_num t ≤ count ∧ whole (with_max_seq_num count t) ∧
  payload (buffers t) count = concat (up_pieces u).
Proof using Type.
  intros [_ Hsent _ Hw] Hc Eb Hm. destruct (Hw Hc) as (Hne & Hcount & Hord). simpl in Eb. rewrite (right_id_L ∅ (∪)) in Eb.
  assert (Hj : ∀ j q, up_pieces u !! j = Some q → buffers t !! (1 + Z.of_nat j) = Some q).
  { intros j q Hq. rewrite Eb. by eapply numbered_lookup. }
  assert (Hpos : 1 ≤ count).
  { assert (0 < length (up_pieces u))%nat by (destruct (up_pieces u); simpl; [done|lia]). unfold count. lia. }
  split; [done|]. split; [|split; [|by apply payload_pieces]].
  - apply Hm; [done|]. apply Forall_forall. intros [k d] Hkd. rewrite Hord in Hkd.
    apply elem_of_zip_l, elem_of_seqZ in Hkd. simpl. lia.
  - split; simpl; [done| |].
    + intros i Hi. destruct (lookup_lt_is_Some_2 (up_pieces u) (Z.to_nat (i - 1))) as [q Hq]; [lia|]. exists q.
      replace i with (1 + Z.of_nat (Z.to_nat (i - 1))) by lia. by apply Hj.
    + intros i d Hd. rewrite Eb in Hd. apply elem_of_list_to_map_2 in Hd.
      rewrite Forall_forall in Hsent. by destruct (Hsent _ Hd) as (_ & ? & _).
Qed.

(** The end of an upload. *)
Definition outcome (c : book_conf) : Prop := tid ∈ ledger (c_ghost c) ↔ commits ups tid.

Lemma u_last u id a t p now c (Q : Reply → book_conf → Prop) :
  ups !! tid = Some u → proper u → int32 id →
  buffers t = list_to_map (up_order u) ∪ buffers (getNewTransactionAttributes p now) →
  (∀ m, 1 ≤ m → Forall (λ kd, kd.1 ≤ m) (up_order u) → max_seq_num t ≤ m) →
  seen (rest (Active id a t)) c →
  (∀ r c', acked r = true → seen (rest (Over (up_commits u))) c' → Q r c') →
  sec (deliver (if up_commits u then commit_request id (Z.of_nat (length (up_pieces u))) else abort_request id)) c Q.
Proof using Hfiles Hn.
  intros Hu Hp Hid Eb Hm Hv HQ. destruct (up_commits u) eqn:Ec.
  - destruct (proper_whole u t p now Hp Ec Eb Hm) as (Hcount & Hmax & Ht & Hpay).
    assert (Hreq : request_ok (commit_request id (Z.of_nat (length (up_pieces u))))).
    { split; [exact Hid|unfold int32, INT32_MIN; simpl; lia|done]. }
    eapply u_deliver; [done|simpl; lia|exact Hreq|done|done|exact Hv|]. intros c1 Hv1.
    change (processCommand m_directory (commit_request id ?k) true) with (COMMIT m_directory (commit_request id k) true).
    eapply u_COMMIT; [exact Hfiles|exact Hn|by exists u|exact Hid|exact Hcount|exact Hmax|exact Ht| |exact Hv1|].
    + rewrite Hpay. unfold data_of. by rewrite Hu.
    + intros c2 Hv2. apply HQ; [by apply acked_ack|done].
  - assert (Hreq : request_ok (abort_request id)) by (split; [exact Hid|done|done]).
    eapply u_deliver; [done|simpl; lia|exact Hreq|done|done|exact Hv|]. intros c1 Hv1.
    change (processCommand m_directory (abort_request id) true) with (ABORT m_directory (abort_request id) true).
    eapply u_ABORT; [exact Hfiles|exact Hn|exact Hid|exact Hv1|]. intros c2 Hv2. apply HQ; [by apply acked_ack|done].
Qed.

(** A whole upload. *)
Lemma u_upload_thread u c :
  ups !! tid = Some u → proper u → seen (rest Idle) c → sec (upload_thread u) c (λ _, outcome).
Proof using Hfiles Hn.
  intros Hu Hp Hv. assert (En : up_name u = n) by (unfold name_of in Hn; rewrite Hu in Hn; by injection Hn).
  pose proof (df_nul _ _ Hfiles n (n_named _ _ _ Hn)) as Hnul. pose proof Hp as [Hname Hl Hd _].
  unfold upload_thread. rewrite En. apply secure_bind.
  eapply u_deliver; [done|simpl; lia|done|done|rewrite <- En; exact Hname|exact Hv|]. intros c1 Hv1.
  change (processCommand m_directory (new_txn_request n) true) with (NEW_TXN m_directory (new_txn_request n) true).
  eapply u_NEW_TXN; [exact Hfiles|exact Hn|exact Hv1|]. intros id a p now c2 Hid Hv2.
  destruct (new_txn_reply_fields id Hid) as [Ea ->]. cbv zeta. apply secure_bind.
  eapply u_deliver_writes with (t := getNewTransactionAttributes p now); [done|exact Hl|exact Hd|done|exact Hv2|].
  intros rs t c3 Hrs Eb Hm Hv3. apply secure_bind.
  eapply u_last; [exact Hu|exact Hp|exact Hid|exact Eb|exact Hm|exact Hv3|]. intros r c4 Hr Hv4.
  cbn [forallb]. rewrite forallb_app. cbn [forallb]. rewrite Ea, Hrs, Hr. cbn [andb].
  eapply u_ret; [exact Hv4|]. intros c5 Hv5 _. pose proof (sn_stage _ _ _ _ _ _ _ Hv5) as Hst. simpl in Hst.
  unfold outcome, commits. destruct (up_commits u) eqn:Ec; [by split; [exists u|]|]. split; [done|]. intros (u' & Hu' & Hc'). congruence.
Qed.

(** ** A reader *)

Lemma read_reply_data req data ip :
  request_ok req → len data ≤ INT32_MAX → reply_data (read_reply req data ip) = data.
Proof using Type.
  intros [] Hd. unfold reply_data, read_reply, reply.
  destruct (generateResponse_spec Constants.ack_cmd (rq_txn_id req) (rq_seq_num req) Errors.nil data) as (h & -> & Hh & _);
    [done|simpl; lia|done..|]. assert (Z.to_nat Constants.response_header_len = length h) as -> by lia. apply drop_app_length.
Qed.

Lemma r_reads_as name data reader c :
  (length ups ≤ reader)%nat → room ups base → name ∈ up_name <$> ups → len name ≤ INT32_MAX → looking m_directory reader name [] None c →
  secure (H := upload_protocol m_directory ups base) never (readers_wait ups) reader (reads_as name data) c
    (λ _ c', ∃ pre, data = c_str pre ∧ pre `prefix_of` contents m_directory (files (c_shared c')) name).
Proof using Hfiles.
  intros Hreader Hroom Hname Hlen Hv. pose proof (df_nul _ _ Hfiles name Hname) as Hnul. unfold reads_as. apply secure_bind.
  rewrite deliver_arrives by (done || simpl; lia). apply secure_bind. unfold initializeFunctionsAndTransactions.
  eapply r_reads; [exact Hname|exact Hv|]. intros c1 Hv1 Hc1. rewrite (td_init _ _ _ _ Hc1).
  eapply r_ret; [exact Hname|exact Hv1|]. intros c2 Hv2.
  change (processCommand m_directory (read_request name) true) with (READ m_directory (read_request name) true).
  eapply r_READ; [exact Hname|exact Hroom|exact Hnul|exact Hv2|..].
  - intros pre c3 Hv3 Hpre. rewrite read_reply_data by (done || pose proof (c_str_length pre); lia). case_bool_decide as E.
    + destruct (acked _); [|by apply secure_diverge]. eapply r_ret; [exact Hname|exact Hv3|]. intros c4 Hv4.
      exists pre. split; [done|]. by eapply (lk_got _ _ _ _ _ _ Hv4).
    + rewrite andb_false_r. by apply secure_diverge.
  - intros c3 Hv3. unfold acked at 1. rewrite error_reply_code by done. by apply secure_diverge.
Qed.
End one.

(** ** All of them *)

(** A server that is initialised and idle, with results of [rand] for the uploads [ups] and
    one more, all of them different and new. *)
Record ready (ups : list Upload) (s : ServerBackend) : Prop := {
  rd_ok : backend_ok s;
  rd_init : m_initialize s = false;
  rd_idle : m_txn_id_to_transaction_attributes s = ∅;
  rd_calm : calm s;
  rd_rand : drawn ups (w_rand (backend_world s)) ∅ (m_commits s)
}.

(** The clients that upload, then those that read, given a name and what they wait for,
    and then the clock and a timer for each transaction, of at most [fuel] turns. *)
Definition clients (ups : list Upload) (reads : list (bytes * bytes)) (fuel : nat) (times : list N) (s : ServerBackend)
    : process ServerBackend :=
  {| pool := (upload_thread <$> ups) ++ (uncurry reads_as <$> reads) ++ time_threads m_directory fuel (length ups) times;
     held := ∅; shared := s |}.

Section uploads.
Context (ups : list Upload) (s : ServerBackend).
Context (Hfiles : distinct_files m_directory ups) (Hups : Forall proper ups) (Hready : ready ups s).

Context (fuel : nat) (times : list N).

(** A file after the uploads [order]: what it held before, and their data. *)
Abbreviation file_after name order := (expected ups (contents m_directory (files s)) name order).

#[local] Instance protocol : Protocol ServerBackend Books := upload_protocol m_directory ups (contents m_directory (files s)).

Definition first_books : Books := {| owner := ∅; due := None; ledger := [] |}.

Lemma ready_tidy : tidy m_directory ups (contents m_directory (files s)) (Config ∅ s first_books).
Proof using Hready.
  destruct Hready as [Hok Hinit Hidle Hcalm Hrand].
  assert (Hnodes : ∀ a, txn_nodes s !! a = None).
  { intros a. apply eq_None_not_Some. intros [t Ht]. destruct (ok_node _ Hok _ _ Ht) as [id Hid].
    by rewrite Hidle, lookup_empty in Hid. }
  assert (Hobjects : ∀ p, file_nodes s !! p = None).
  { intros p. apply eq_None_not_Some. intros [f Hf]. destruct (ok_count _ Hok _ _ Hf) as [Hc Hpos].
    apply map_empty in Hnodes. rewrite Hnodes in Hc. change (holders ∅ p) with 0%nat in Hc. lia. }
  split; simpl; [done|done|done| |done|done| | | | | |].
  - intros id a. by rewrite Hidle, lookup_empty.
  - intros a t Ht. by rewrite Hnodes in Ht.
  - intros p f. by rewrite Hobjects.
  - intros n _ _. unfold expected. by rewrite filter_nil, app_nil_r.
  - intros Hr n Hn. specialize (Hr n Hn). pose proof (expected_room ups (contents m_directory (files s)) n []) as Hle.
    unfold expected at 1 in Hle. rewrite filter_nil, app_nil_r in Hle. specialize (Hle NoDup_nil_2 ltac:(by intros t ?%elem_of_nil)).
    cbn beta in Hr, Hle. rewrite ?app_nil_r in Hle. exact (Z.le_lt_trans _ _ _ Hle Hr).
  - intros p tid. by rewrite lookup_empty.
  - split; [constructor|by intros t ?%elem_of_nil].
Qed.

(** The readers read files that are uploaded to, none of which is too large to be read. *)
Definition readable_files (reads : list (bytes * bytes)) : Prop :=
  Forall (λ nd, nd.1 ∈ up_name <$> ups ∧ room ups (contents m_directory (files s))) reads.

(** What a client has achieved when it ends. *)
Definition achieved (reads : list (bytes * bytes)) (tid : nat) (c : book_conf) : Prop :=
  ((tid < length ups)%nat → outcome ups tid c) ∧
  ∀ i n d, tid = (length ups + i)%nat → reads !! i = Some (n, d) →
    ∃ pre, d = c_str pre ∧ pre `prefix_of` contents m_directory (files (c_shared c)) n.

(** Who may wait: the readers, and the timers for a time that can come. *)
Definition idle_wait (reads : list (bytes * bytes)) (t : nat) (g : ServerBackend → bool) (_ : ServerBackend) : Prop :=
  (length ups ≤ t)%nat ∧ ((length ups + length reads ≤ t)%nat → wakeable g).

Lemma clients_secured reads :
  readable_files reads →
  secured never (idle_wait reads) (achieved reads) (pool (clients ups reads fuel times s)) (Config ∅ s first_books).
Proof using Hfiles Hready Hups.
  intros Hreads. pose proof Hups as Hu'. rewrite Forall_lookup in Hu'. unfold readable_files in Hreads. rewrite Forall_lookup in Hreads.
  split; [apply ready_tidy|]. intros tid p [Hp|[Hlen [Hp|[Hlen' Hp]]%lookup_app_Some]]%lookup_app_Some.
  - apply list_lookup_fmap_Some_1 in Hp as (u & -> & Hu). pose proof (lookup_lt_Some _ _ _ Hu) as Hlt.
    eapply secure_mono; [apply secure_weaken with (may_wait := no_wait); [done|]|].
    + apply (u_upload_thread ups _ Hfiles tid (up_name u)); [unfold name_of; by rewrite Hu|done|by eapply Hu'|].
      split; simpl; [|done| |done].
      * intros m. rewrite lookup_empty. split; [done|by intros ?%elem_of_nil].
      * split; [intros id; by rewrite lookup_empty|apply not_elem_of_nil].
    + intros [] c _ Ho. split; [done|]. intros i n d ->. lia.
  - rewrite length_fmap in Hlen, Hp. apply list_lookup_fmap_Some_1 in Hp as ([n d] & -> & Hnd).
    pose proof (lookup_lt_Some _ _ _ Hnd) as Hlt.
    destruct (Hreads _ _ Hnd) as [Hn Hroom]. simpl in Hn. pose proof Hn as (u & -> & Hu)%list_elem_of_fmap.
    apply list_elem_of_lookup in Hu as [j Hu]. cbn [uncurry].
    eapply secure_mono; [eapply secure_weaken;
      [|apply (r_reads_as ups _ Hfiles _ d tid); [done|done|done|by apply (Hu' j u)|]]|].
    + intros g s'. unfold idle_wait, readers_wait. intros Hge. split; [done|lia].
    + split; simpl; [|done]. intros m. rewrite lookup_empty. split; [done|by intros ?%elem_of_nil].
    + intros [] c _ Hpre. split; [lia|]. intros i n' d' -> Hi. replace (length ups + i - length ups)%nat with i in Hnd by lia.
      rewrite Hnd in Hi. by injection Hi as <- <-.
  - rewrite !length_fmap in Hlen. rewrite !length_fmap in Hlen'. rewrite !length_fmap in Hp.
    assert (Hpost : ∀ c, achieved reads tid c).
    { intros c. split; [lia|]. intros i n d -> Hi%lookup_lt_Some. lia. }
    eapply secure_mono; [eapply time_threads_secure; [by split|exact Hp]|done].
Qed.

Lemma clients_follow reads c :
  readable_files reads → rtc (step_within in_time) (clients ups reads fuel times s) c →
  ∃ g, let d := Config (held c) (shared c) g in
    tidy m_directory ups (contents m_directory (files s)) d ∧
    (∀ tid p, pool c !! tid = Some p → well_behaved never (idle_wait reads) tid p (held c) (shared c)) ∧
    ∀ tid, pool c !! tid = Some (Ret tt) → achieved reads tid d.
Proof using Hfiles Hready Hups.
  intros Hreads Hs. destruct (secure_pool _ _ _ _ _ _ _ c (clients_secured reads Hreads) Hs) as (g & Hi & Hw & Hp). by exists g.
Qed.

(** C4. Under every schedule of any number of uploads, some of them to the same file, of
    clients that read, and of the clock and the timers of the transactions, as long as no
    open transaction reaches its timeout: no client stops, none goes through a reference to
    what is gone, and at any time there is an order of uploads that end with a COMMIT, those
    whose client is done among them, such that every file whose mutex is free holds what it held before and the data of the
    uploads to it in that order, each in one piece, and nothing else. *)
Theorem uploads_stay_whole reads c :
  readable_files reads → rtc (step_within in_time) (clients ups reads fuel times s) c →
  (∀ tid p, pool c !! tid = Some p →
     match p with Halt _ => False | Act f _ => f (shared c) ≠ None | Unlock m _ => held c !! m = Some tid | _ => True end) ∧
  ∃ order, NoDup order ∧ (∀ tid, tid ∈ order → commits ups tid) ∧
    (∀ tid, pool c !! tid = Some (Ret tt) → commits ups tid → tid ∈ order) ∧
    ∀ n, n ∈ up_name <$> ups →
      (∀ p, m_file_name_to_ptr_to_file_attributes (shared c) !! n = Some p → held c !! m_file_mtx p = None) →
      contents m_directory (files (shared c)) n = file_after n order.
Proof using Hfiles Hready Hups.
  intros Hreads Hs. destruct (clients_follow reads c Hreads Hs) as (g & Hi & Hw & Hp). split.
  - intros tid p Ht. specialize (Hw tid p Ht). by destruct p.
  - exists (ledger g). destruct (td_order _ _ _ _ Hi) as [Hnd Hall]. split; [done|]. split; [done|]. split.
    + intros tid Ht Hc. apply (Hp tid Ht); [|done]. destruct Hc as (u & Hu & _). by eapply lookup_lt_Some.
    + apply (td_files _ _ _ _ Hi).
Qed.


Lemma steps_length (c c' : process ServerBackend) : rtc (step_within in_time) c c' → length (pool c') = length (pool c).
Proof using Type. induction 1 as [|c c1 c' [[] _] _ IH]; [done|]. rewrite IH. apply length_insert. Qed.

Lemma in_turn_deliver req : owes mutex_rank no_block 0 [] (deliver req).
Proof using Type. unfold deliver. cbv zeta. apply in_turn_processRequest. Qed.

Lemma upload_in_turn u : owes mutex_rank no_block 0 [] (upload_thread u).
Proof using Type.
  unfold upload_thread. apply owes_bind; [apply in_turn_deliver|]. intros started. cbv zeta.
  apply owes_bind; [|intros acks; apply owes_bind; [apply in_turn_deliver|]; intros r; destruct (forallb _ _); [apply owes_ret|apply owes_halt]].
  generalize (write_request (reply_id started) <$> up_order u). intros reqs.
  induction reqs as [|req reqs IH]; cbn [deliver_all]; [apply owes_ret|].
  apply owes_bind; [apply in_turn_deliver|]. intros r. apply owes_bind; [exact IH|]. intros rs. apply owes_ret.
Qed.

Lemma clients_in_turn : Forall (owes mutex_rank no_block 0 []) (pool (clients ups [] fuel times s)).
Proof using Type.
  apply Forall_app. split; [|apply time_threads_in_turn]. apply Forall_fmap, Forall_forall. intros u _. apply upload_in_turn.
Qed.

(** C3. Every schedule of any number of uploads, of the clock and of the timers ends
    (schedules_are_finite), and when it does, with no transaction left alone until its
    timeout, every client has been acknowledged throughout, no mutex is held, the timers are
    over or sleep, and there is an
    order of the uploads that end with a COMMIT such that every file holds what it held
    before and then the data of the uploads to it in that order, each in one piece: all of
    every upload committed, and nothing of those aborted. *)
Theorem uploads_arrive_whole c :
  rtc (step_within in_time) (clients ups [] fuel times s) c → stuck c →
  held c = ∅ ∧ (∀ tid p, pool c !! tid = Some p → p = Ret tt ∨ (length ups ≤ tid)%nat ∧ waiting p (shared c)) ∧
  ∃ order, NoDup order ∧ (∀ tid, tid ∈ order ↔ commits ups tid) ∧
    ∀ n, n ∈ up_name <$> ups → contents m_directory (files (shared c)) n = file_after n order.
Proof using Hfiles Hready Hups.
  intros Hs Hstuck. destruct (clients_follow [] c (Forall_nil_2 _) Hs) as (g & Hi & Hw & Hp).
  assert (Hlen : (length ups ≤ length (pool c))%nat).
  { rewrite (steps_length _ _ Hs). simpl. rewrite length_app, length_fmap. lia. }
  assert (Hord : in_order mutex_rank no_block c).
  { apply (steps_in_order mutex_rank no_block (clients ups [] fuel times s)); [by eapply steps_within|]. apply start_in_order.
    eapply Forall_impl; [apply clients_in_turn|]. intros p. apply owes_ordered. }
  destruct (stuck_in_order _ _ c Hord Hstuck) as [[(tid & p & Ht & Hd)|[(tid & p & Ht & Hf)|(? & ? & ? & _ & _ & [])]]|[Hh Hall]].
  { exfalso. specialize (Hw tid p Ht). destruct p; try done. destruct Hw as [Hge Hwake].
    destruct Hwake as [s' Hs']; [simpl; lia|]. by rewrite Hd in Hs'. }
  { exfalso. specialize (Hw tid p Ht). by destruct p. }
  assert (Hret : ∀ tid p, pool c !! tid = Some p → p = Ret tt ∨ (length ups ≤ tid)%nat ∧ waiting p (shared c)).
  { intros tid p Ht. specialize (Hw tid p Ht). destruct (Hall tid p Ht) as [Hf|Hf]; destruct p as [[]| | | | |]; try done; [by left|].
    right. split; [apply Hw|done]. }
  split; [done|]. split; [done|]. exists (ledger g). destruct (td_order _ _ _ _ Hi) as [Hnd Hall'].
  split; [done|]. split.
  - intros tid. split; [apply Hall'|]. intros Hc. pose proof Hc as (u & Hu & _). apply lookup_lt_Some in Hu.
    destruct (lookup_lt_is_Some_2 (pool c) tid) as [p Hq]; [lia|].
    destruct (Hret _ _ Hq) as [->|[? _]]; [|lia]. by apply (Hp tid).
  - intros n Hn. apply (td_files _ _ _ _ Hi n Hn). intros p _. simpl. by rewrite Hh.
Qed.
End uploads.
End threads.

(** ** Four uploads, three of them to the same file, one aborted *)

Section four.
#[local] Existing Instances three_resolution three_order.

Definition round_robin (rounds threads : nat) : list nat := concat (replicate rounds (seq 0 threads)).

Definition four_uploads : list Upload :=
  [{| up_name := str "f"; up_pieces := [str "ab"; str "c"]; up_order := [(2, str "c"); (1, str "ab")]; up_commits := true |};
   {| up_name := str "f"; up_pieces := [str "de"]; up_order := [(1, str "de")]; up_commits := true |};
   {| up_name := str "g"; up_pieces := [str "h"]; up_order := [(1, str "h")]; up_commits := true |};
   {| up_name := str "f"; up_pieces := []; up_order := [(3, str "xyz")]; up_commits := false |}].

Definition server_ready : ServerBackend :=
  set_initialize false (new_backend {| w_fs := {[str "f" := str "old "]}; w_now := 0; w_rand := [5; 7; 9; 11; 13]; w_sched := [] |}).

(** A fifth client waits to be sent "old de". *)
Definition a_reader : list (bytes * bytes) := [(str "f", str "old de")].

(** The clock moves on, whenever it can without a transaction's timeout. *)
Definition four_times : list N := Z.to_N ∘ seconds <$> [9; 5; 14].

Definition four_clients (reads : list (bytes * bytes)) : process ServerBackend :=
  clients [] four_uploads reads 2 four_times server_ready.

Lemma four_distinct : distinct_files [] four_uploads.
Proof.
  split.
  - intros n n'. simpl. rewrite !elem_of_cons, !elem_of_nil. by intros [->|[->|[->|[->|[]]]]] [->|[->|[->|[->|[]]]]].
  - intros n log. simpl. rewrite !elem_of_cons, !elem_of_nil. by intros [->|[->|[->|[->|[]]]]] [->|[->|[->|[]]]].
  - intros n. simpl. rewrite !elem_of_cons, !elem_of_nil. by intros [->|[->|[->|[->|[]]]]].
Qed.

Lemma four_proper : Forall proper four_uploads.
Proof.
  repeat constructor; try done; simpl; set_solver.
Qed.

Lemma server_is_ready : ready four_uploads server_ready.
Proof.
  split; [by apply (ok_frame (new_backend (backend_world server_ready))), new_backend_ok|done..|]. split; try done.
  - apply (bool_decide_unpack _). by vm_compute.
  - simpl. lia.
Qed.

Lemma reader_can_read : readable_files [] four_uploads server_ready a_reader.
Proof.
  apply Forall_singleton. split; [by left|]. intros n. simpl. rewrite !elem_of_cons, !elem_of_nil.
  by intros [->|[->|[->|[->|[]]]]].
Qed.

(** The second client is done, and the reader after it, before the others are far. *)
Definition second_done : process ServerBackend :=
  turns in_time (replicate 100 1%nat ++ replicate 30 4%nat ++ round_robin 30 10) (four_clients a_reader).

Lemma uploads_stay_whole_witness :
  ∃ order, NoDup order ∧ 1%nat ∈ order ∧
    contents [] (files (shared second_done)) (str "f") =
      expected four_uploads (contents [] (files server_ready)) (str "f") order.
Proof.
  destruct (uploads_stay_whole [] four_uploads server_ready four_distinct four_proper server_is_ready 2 four_times a_reader second_done
    reader_can_read (turns_within _ _ _)) as (_ & order & Hnd & _ & Hdone & Hfile).
  exists order. split; [done|]. split; [apply Hdone; [by vm_compute|by eexists]|]. apply Hfile; [by left|].
  assert (E : forallb (λ kv, bool_decide (held second_done !! m_file_mtx kv.2 = None))
    (map_to_list (m_file_name_to_ptr_to_file_attributes (shared second_done))) = true) by by vm_compute.
  intros p Hp. rewrite forallb_forall in E. apply elem_of_map_to_list, list_elem_of_In, E in Hp. by apply bool_decide_eq_true in Hp.
Defined.


Definition all_arrived : process ServerBackend := turns in_time (round_robin 240 9) (four_clients []).

Lemma uploads_arrive_whole_witness :
  held all_arrived = ∅ ∧
  (∀ tid p, pool all_arrived !! tid = Some p → p = Ret tt ∨ (4 ≤ tid)%nat ∧ waiting p (shared all_arrived)) ∧
  ∃ order, NoDup order ∧ (∀ tid, tid ∈ order ↔ commits four_uploads tid) ∧ ∀ n, n ∈ up_name <$> four_uploads →
    contents [] (files (shared all_arrived)) n = expected four_uploads (contents [] (files server_ready)) n order.
Proof.
  apply (uploads_arrive_whole [] four_uploads server_ready four_distinct four_proper server_is_ready 2 four_times all_arrived).
  - apply turns_within.
  - apply idle_stuck. by vm_compute.
Defined.

(** ** A reader beside an upload *)

(** The first of the four uploads, of "ab" and "c" to a file that holds "old ", and a
    client that is sent "old ab". *)
Definition upload_and_read : process ServerBackend :=
  clients [] (take 1 four_uploads) [(str "f", str "old ab")] 1 [] server_ready.

(** The upload has written its first piece; the client reads; the upload goes on. *)
Definition read_between : list nat := replicate 93 0%nat ++ replicate 30 1%nat ++ replicate 40 0%nat.

(** C15. Transactions are not isolated from readers: READ takes no mutex, so a client that
    asks for a file while a COMMIT writes its pieces to it can be sent, with an ACK, the old
    contents and the pieces written so far, and the transaction is then committed as a
    whole. *)
Theorem read_sees_part_of_a_commit :
  ∃ c, rtc step upload_and_read c ∧ take 2 (pool c) = [Ret tt; Ret tt] ∧
    contents [] (files (shared c)) (str "f") = str "old abc".
Proof.
  exists (turns in_time read_between upload_and_read). split; [eapply steps_within, (turns_within in_time)|]. split; by vm_compute.
Qed.
End four.
